(* ===== verification/_CoqProject ===== *)
-Q . S2P
Prelude.v
MessageBuffer.v
PacketHeader.v
Connection.v
MessageProcedure.v
EventReceiver.v
MlnUtils.v
Protocol.v
Json.v
IoService.v
ConnectionImpl.v
ConnectionSafety.v
ConnectionSend.v
NetService.v
NetServiceSafety.v
NetKeeps.v
NetStopped.v
NetProperties.v
LobbyState.v
LobbyUser.v
LobbyUserManager.v
LobbyHandlers.v
PacketParser.v
PacketParserSimple.v
BrokerConnector.v
LobbyAcceptorReceiver.v
PacketParserJson.v
LobbySafety.v
Environment.v
Utilities.v
TestInterface.v
Server.v
ServerProperties.v
ServerDemo.v
ServerStart.v
LobbySpec.v
LobbyUsersSpec.v
LobbyRefinement.v
LobbyInvariant.v
ServerInvariant.v
ServerListening.v
BrokerLink.v
LobbyRequests.v
LobbyProperties.v
BrokerServer.v
BrokerStart.v
BrokerRequests.v
ParserProperties.v
MssqlConsumer.v
MssqlProperties.v
ThreadStatic.v
TextFormat.v
Datetime.v
Optional.v
OptionalSpec.v
MySqlResult.v
MySqlConnection.v
MySqlStatement.v
MySqlFrees.v
MySqlSample.v
CrashDump.v
CrashHandlers.v
CrashReport.v
LoggerOld.v
LogSinks.v
