(* ===== verification/Prelude.v ===== *)
(** * Verification of the lobby server

    lobbysvr is a TCP server: clients connect to a lobby, send framed packets
    with a JSON request each, and are answered in the same way; a connection
    to a broker (compiled out of the build) relays between lobbies.  The code
    has three layers, and so has the development.

    ** The program and its model

    The network library, src/net:
    - messageBuffer -> MessageBuffer.v: the byte buffer with its two pointers;
      packetParserSimple.h, packetParserJson.h, packetEncType.h -> PacketHeader.v:
      the two keys in front of a body, the manipulators that write them
      ([MsgUserManip]) and the rules by which a parser reads them ([HeaderRules],
      [HeaderCodec] ties the two);
    - connection.h -> Connection.v: the virtual methods as the class [Connection]
      over a world; eventReceiver.h -> EventReceiver.v; messageProcedure ->
      MessageProcedure.v: the handler tables and [dispatch];
    - packetParserSimple.cpp and lobbysvr/packetParserJson.cpp -> PacketParser.v
      (the loop all parsers share), PacketParserSimple.v, PacketParserJson.v (what
      each does with a body);
    - IoService.v: what is used of Boost.Asio.  A world [NetWorld U] has the
      connections, the operations in flight ([nw_pending]), the trace of system
      calls and the application state [U].  connectionImpl -> ConnectionImpl.v:
      every method and completion handler; netService, netServiceImpl,
      netServiceAcceptor, netServiceConnector -> NetService.v;
    - flagChecker.h, singleton.h, netUtil -> Utilities.v; test_interface ->
      TestInterface.v; mssqlConsumer -> MssqlConsumer.v; threadStaticValue.h,
      memoryPool.h -> ThreadStatic.v;
    - exceptionCrashDump -> CrashDump.v (the lines of a memory map, the names of the
      files) and CrashHandlers.v (the handlers, both kinds of dump and the walk over
      the stack, as a trace of the calls of Windows; CrashReport.v has the text of
      that walk as a value); loggerOld -> LoggerOld.v (the
      configuration, dumps of memory, the backup of files) and LogSinks.v (the
      sinks, with those of logger.cpp, as a trace of the calls of Boost.Log).
      TextFormat.v has the printing and reading of numbers they share.

    The lobby, src/lobbysvr and src/include:
    - environment -> Environment.v; mlnUtils -> MlnUtils.v; lobby_protocol.h,
      broker_protocol.h -> Protocol.v: packed structures as bytes; Json.v: the
      part of jsoncpp that is used;
    - LobbyState.v: the objects on the heap, the maps of users and the other
      globals; userBasis, lobbyUser, connectorUser -> LobbyUser.v;
      lobbyUserManager, userManagerBasis -> LobbyUserManager.v; nh_lobby, nh_chat,
      connectorHandler -> LobbyHandlers.v; brokerConnector -> BrokerConnector.v;
      lobbyAcceptorReceiver -> LobbyAcceptorReceiver.v;
    - watchDogHandler, keyEventHandler -> TestInterface.v; main -> Server.v: the
      tables of receivers and parsers, and [main] up to io_service::run.

    The wrapper of the MySQL library, src/lobbysvr/mysql+++:
    - polyfill/datetime.h -> Datetime.v; mysql+++.h -> MySqlResult.v (results, their
      position, iterators and fields), MySqlConnection.v (connections and queries,
      under the mutex) and MySqlStatement.v (prepared statements and the variables
      bound to them);
    - polyfill/optional.hpp -> Optional.v: the storage of optional objects and the
      life of the value in it, over any type of elements ([Element]).  The other
      models use its value, an [option], in its place;
    - _test_mysqlcpp.cpp -> MySqlSample.v: a program that uses all of the wrapper.

    Code is in the monad [M] below: a function of a state that returns, throws,
    does something undefined, or runs out of fuel.  Every definition carries the
    name of the function it models.

    ** The running server

    io_service::run is a step relation: [net_step] of NetServiceSafety.v completes
    one operation in flight with any result the system may give and runs its
    handler to the end, or lets the application call the public methods.
    [server_step] of ServerInvariant.v is the same for the started lobby server.
    One handler is one step: handlers of different threads do not interleave, so
    that the locks of the code do not appear.  [async_write] is given the address
    of a buffer: a write in flight says whether that buffer still exists
    ([WriteAll] of IoService.v), which that of [sendPacket] does not, and
    [transmitted] what is sent then.  The trace has the events that are counted,
    a failed read that is posted again among them ([EvReadAgain]).

    ** What the theorems show

    - Buffer and framing: MessageBuffer.v (the buffer is a queue of bytes; where
      its guards are not enough), PacketHeader.v and ConnectionSend.v (what
      [sendPacket] writes), PacketParser.v and ParserProperties.v (a parser treats
      a buffer as the packets in it, always ends, and reads what was sent; what
      happens to packets that are cut in two, encrypted, or malformed).
    - Life cycle: ConnectionSafety.v has the invariant of one connection ([view],
      [net_inv]; [frames] says what code may do to it), NetServiceSafety.v carries
      it through services and steps, NetProperties.v states its consequences: one
      read in flight into the connection's own buffer, every byte dispatched in
      order, [onClose] at most once, retries bounded, when a close is lost.
      NetStopped.v: a connection whose read has failed for good never reads again.
    - Users: LobbySpec.v says what the lobby needs of connections
      ([ConnectionSpec]; LobbyRefinement.v shows that the network layer provides
      it), LobbyUsersSpec.v what [addUser], [deleteUser] and the broadcast do on a
      [LobbyView] and that they keep [users_ok], LobbyRequests.v how requests are
      read and which exception leaves their reader; LobbyProperties.v collects the
      theorems.  BrokerRequests.v says whom every message of the broker goes to
      ([broker_route]), that a broadcast reaches the users and nobody else, and what
      of a chat request goes to the broker, all of it in states with a broker, which
      [users_ok] has no place for ([registered]).
    - The whole server: LobbySafety.v shows for every function of the lobby that it
      stays within a relation, given interfaces of what it calls ([ConnKeeps],
      [UserKeeps], [LobbyKeeps], [AppKeeps]), NetKeeps.v the same for the network
      library ([NetKeeps], [NetKeepsNew]); ServerProperties.v and ServerStart.v use
      this with [frames], LobbyInvariant.v and ServerInvariant.v with the invariant
      of the users, so that both hold of every state the server reaches from
      [main]; ServerListening.v uses it to show that the server goes on accepting
      clients.  BrokerLink.v, BrokerServer.v and BrokerStart.v do the same for a
      server built to use a broker: every tag points to an object of the class that
      its receiver casts it to.  ServerDemo.v has the concrete server of the
      witnesses.
    - The database: MySqlResult.v (a result is a cursor on the table of its rows;
      [each] and the iterators visit the same rows), MySqlConnection.v (queries
      return such results; a connection is closed once and its mutex free),
      MySqlStatement.v (what a fetch leaves in the variables, what an execution
      sends), MySqlFrees.v (no function leaves a result set behind, and only
      statements that exist are open) with MySqlSample.v (the sample program gives
      back all it took when it returns), Datetime.v (dates are read back),
      OptionalSpec.v (an optional is an [option] whose value is constructed and
      destroyed once, whatever throws); MssqlProperties.v (the outcome of
      queries for every answer of the driver; how long [Open] tries).
    - Crashes and logs: CrashReport.v (a crash leaves its dump and the whole text of
      the stack), CrashHandlers.v (the handlers end the process), CrashDump.v (a memory map line is read back as it
      was printed), LoggerOld.v (a dump can be read back; the backup of log files
      loses none), LogSinks.v (the logger writes what its specification says).
    - The rest: Environment.v (the file is read member by member), Utilities.v,
      TestInterface.v, ThreadStatic.v (a value per thread refines a map).

    ** Parameters

    Code outside the repository is a class: [Sockets] (system calls, functions of
    the trace of the calls before), [Jsoncpp] with its documented laws [JsonLaws]
    (its reader takes a text, refuses it, or throws when it is nested too deeply),
    [PropertyTree], [Odbc], [WinNames], [FileSystem] with its laws, [MySQL],
    [MySQLConnect] and [MySQLStmt] with the laws of a fetch ([MySQLStmtLaws]; what
    becomes of a number that does not fit its variable is [NumberStore]),
    [FloatText], [RealText], [DoubleCell] and [Calendar], [HostResolver] for the
    addresses of the host, [Element] for what the type in an optional does.
    [Uninitialised] is the value of an [int] that was not assigned, [Terminate]
    whether objects are destroyed before an exception nobody takes ends a program.
    [FreshMemory] gives the bytes of memory that is not initialised: the theorems
    hold for any.  Integers keep the width of the source ([u8] to [u64], [s32],
    [s64]); [zlen] is a length as an integer.

    ** Fuel

    The loop of the parsers runs with one more than the number of unread bytes:
    every turn reads at least four of them ([simple_parser_total]).  The retry loop
    of [DBConsumer::Open] has no bound in the code: its fuel is a number of
    attempts, and [open_tries_until_connected] says when it ends.  Numbers are
    printed with at most 64 digits, enough for 64 bits in any base used.  The loops
    over the rows of a result run with more than the number of rows
    ([each_is_range_for]), that of [mquery] with the number of results
    ([mquery_returns_all]).

    ** Not modelled

    The lifetime of connections (they are not freed in the model), locks and the
    interleaving inside handlers, an exception that leaves a handler and ends the
    thread that runs io_service::run (such a step is not taken), [assert] (compiled
    out).  What the logging library, dbghelp.dll and the MySQL client do inside; the
    keyboard thread and the thread that accepts console connections, which only
    read and write the console; reads of the clock; setting the working directory
    and the seed of the random numbers when the server starts; function_traits.h,
    which has types only.  Bytes above 127 given to [isspace] and [tolower] follow
    the C locale. *)
From stdpp Require Import gmap strings list.
From coqutil Require Import Byte Word.LittleEndianList.
#[local] Open Scope Z_scope.

(** ** Outcomes of C++ code

    A piece of code that works on a state [S] and returns an [A] ends in one
    of four ways: it returns, it throws (the state reached so far is kept,
    as a handler higher up sees it), it performs an operation whose
    behaviour the C++ standard leaves undefined (a write past the end of an
    array, a use of a freed object), or the fuel given to a loop of the
    model is used up, which no run of the real code corresponds to. *)
Inductive exn : Type :=
| runtime_error (what : string)
| json_error (what : string)
| system_error (what : string)
| ptree_error (what : string)
| mysql_exception (error_number : Z) (error_message : list byte)
| mysqlpp_exception (what : string)
| bad_alloc
| out_of_range (what : string)
| bad_optional_access (what : string).

Inductive outcome (S A : Type) : Type :=
| Done (s : S) (a : A)
| Threw (s : S) (e : exn)
| Undef (why : string)
| NoFuel.
Arguments Done {S A} s a.
Arguments Threw {S A} s e.
Arguments Undef {S A} why.
Arguments NoFuel {S A}.

#[export] Instance byte_eq_dec : EqDecision byte := Byte.byte_eq_dec.
#[export] Instance exn_eq_dec : EqDecision exn.
Proof. solve_decision. Defined.

Definition bind_outcome {S A B} (o : outcome S A) (k : S → A → outcome S B) : outcome S B :=
  match o with
  | Done s a => k s a
  | Threw s e => Threw s e
  | Undef w => Undef w
  | NoFuel => NoFuel
  end.

Definition map_state {S T A} (f : S → T) (o : outcome S A) : outcome T A :=
  match o with
  | Done s a => Done (f s) a
  | Threw s e => Threw (f s) e
  | Undef w => Undef w
  | NoFuel => NoFuel
  end.

(** ** The monad of stateful, fallible code *)
Definition M (S A : Type) : Type := S → outcome S A.

#[export] Instance M_ret S : MRet (M S) := λ A a s, Done s a.
#[export] Instance M_bind S : MBind (M S) :=
  λ A B k m s, bind_outcome (m s) (λ s' a, k a s').

Definition get_state {S} : M S S := λ s, Done s s.
Definition put_state {S} (s' : S) : M S unit := λ _, Done s' tt.
Definition gets {S A} (f : S → A) : M S A := λ s, Done s (f s).
Definition modify {S} (f : S → S) : M S unit := λ s, Done (f s) tt.
Definition throw {S A} (e : exn) : M S A := λ s, Threw s e.
Definition undefined {S A} (why : string) : M S A := λ _, Undef why.
Definition no_fuel {S A} : M S A := λ _, NoFuel.

(** [try { m } catch (...) { h }] *)
Definition try_catch {S A} (m : M S A) (h : exn → M S A) : M S A :=
  λ s, match m s with
       | Threw s' e => h e s'
       | o => o
       end.

(** Code that works on a part of the state. *)
Definition zoom {S T A} (get : S → T) (set : T → S → S) (m : M T A) : M S A :=
  λ s, map_state (λ t, set t s) (m (get s)).

Definition on_fst {S T A} (m : M S A) : M (S * T) A :=
  zoom fst (λ s p, (s, snd p)) m.
Definition on_snd {S T A} (m : M T A) : M (S * T) A :=
  zoom snd (λ t p, (fst p, t)) m.

(** Code that works on a local object [l] as well as on the state: the final
    value of the object is returned, and an exception drops it. *)
Definition with_local {L S A} (l : L) (m : M (L * S) A) : M S (L * A) :=
  λ s, match m (l, s) with
       | Done (l', s') a => Done s' (l', a)
       | Threw (_, s') e => Threw s' e
       | Undef w => Undef w
       | NoFuel => NoFuel
       end.

(** Code that only touches a local object. *)
Definition local_only {L S A} (l : L) (m : M L A) : M S (L * A) :=
  λ s, match m l with
       | Done l' a => Done s (l', a)
       | Threw _ e => Threw s e
       | Undef w => Undef w
       | NoFuel => NoFuel
       end.

Definition when {S} (b : bool) (m : M S unit) : M S unit := if b then m else mret tt.

(** Dereference of a pointer that may be null or dangling. *)
Definition deref {S A} (what : string) (o : option A) : M S A :=
  match o with
  | Some a => mret a
  | None => undefined what
  end.

(** The monad laws, pointwise: the equations the proofs run programs with. *)
Section MonadLaws.
Context {S : Type}.

Lemma bind_run {A B} (m : M S A) (k : A → M S B) (s : S) :
  (m ≫= k) s = bind_outcome (m s) (λ s' a, k a s').
Proof. reflexivity. Qed.

Lemma ret_run {A} (a : A) (s : S) : (mret a : M S A) s = Done s a.
Proof. reflexivity. Qed.

Lemma bind_done {A B} (m : M S A) (k : A → M S B) s s' a :
  m s = Done s' a → (m ≫= k) s = k a s'.
Proof. intros H. by rewrite bind_run, H. Qed.

Lemma bind_threw {A B} (m : M S A) (k : A → M S B) s s' e :
  m s = Threw s' e → (m ≫= k) s = Threw s' e.
Proof. intros H. by rewrite bind_run, H. Qed.

Lemma bind_undef {A B} (m : M S A) (k : A → M S B) s w :
  m s = Undef w → (m ≫= k) s = Undef w.
Proof. intros H. by rewrite bind_run, H. Qed.

Lemma bind_assoc {A B C} (m : M S A) (f : A → M S B) (g : B → M S C) s :
  ((m ≫= f) ≫= g) s = (m ≫= λ a, f a ≫= g) s.
Proof. rewrite !bind_run. destruct (m s); done. Qed.

(** Inversion of a successful sequence. *)
Lemma bind_done_inv {A B} (m : M S A) (k : A → M S B) s s2 b :
  (m ≫= k) s = Done s2 b → ∃ s1 a, m s = Done s1 a ∧ k a s1 = Done s2 b.
Proof. rewrite bind_run. destruct (m s) eqn:E; simpl; naive_solver. Qed.
End MonadLaws.

Section ZoomLaws.
Context {S T : Type}.

Lemma on_fst_run {A} (m : M S A) (s : S) (t : T) :
  on_fst m (s, t) = map_state (λ s', (s', t)) (m s).
Proof. reflexivity. Qed.

Lemma on_snd_run {A} (m : M T A) (s : S) (t : T) :
  on_snd m (s, t) = map_state (λ t', (s, t')) (m t).
Proof. reflexivity. Qed.
End ZoomLaws.

(** Runs the head of the program in the goal: unfolds binds and returns, and
    rewrites with the equation given for the operation at the head. *)
Ltac run_step :=
  repeat first
    [ rewrite bind_run | rewrite ret_run
    | progress unfold get_state, put_state, gets, modify
    | progress cbn beta iota delta [bind_outcome map_state fst snd] ].
Tactic Notation "run_with" uconstr(H) := run_step; rewrite H; cbn [bind_outcome map_state fst snd].

(** ** What a program does to the state, as a relation

    [keeps R m]: whatever state [m] starts from, the state it leaves, also by
    an exception, is related to it by [R]. *)
Definition keeps {S A} (R : S → S → Prop) (m : M S A) : Prop :=
  ∀ s, match m s with
       | Done s' _ | Threw s' _ => R s s'
       | Undef _ | NoFuel => True
       end.

Definition rel_snd {S T} (R : T → T → Prop) (p q : S * T) : Prop := R (snd p) (snd q).

#[export] Instance rel_snd_preorder {S T} (R : T → T → Prop) `{!PreOrder R} :
  PreOrder (@rel_snd S T R).
Proof.
  split.
  - intros p. unfold rel_snd. reflexivity.
  - intros p q r. unfold rel_snd. apply transitivity.
Qed.

Create HintDb keeps.

Section Keeps.
Context {S : Type} (R : S → S → Prop) `{!PreOrder R}.

Lemma keeps_ret {A} (a : A) : keeps R (mret a).
Proof. intros s. simpl. reflexivity. Qed.

Lemma keeps_bind {A B} (m : M S A) (k : A → M S B) :
  keeps R m → (∀ a, keeps R (k a)) → keeps R (m ≫= k).
Proof.
  intros Hm Hk s. rewrite bind_run. specialize (Hm s).
  destruct (m s) as [s1 a|s1 e| |]; simpl; try done.
  specialize (Hk a s1). destruct (k a s1); try done; by etrans.
Qed.

Lemma keeps_get_state : keeps R get_state.
Proof. intros s. simpl. reflexivity. Qed.
Lemma keeps_gets {A} (f : S → A) : keeps R (gets f).
Proof. intros s. simpl. reflexivity. Qed.
Lemma keeps_throw {A} e : keeps R (throw (A := A) e).
Proof. intros s. simpl. reflexivity. Qed.
Lemma keeps_undefined {A} w : keeps R (undefined (A := A) w).
Proof. intros s. done. Qed.
Lemma keeps_deref {A} w (o : option A) : keeps R (deref w o).
Proof. destruct o; [apply keeps_ret | apply keeps_undefined]. Qed.
Lemma keeps_modify f : (∀ s, R s (f s)) → keeps R (modify f).
Proof. intros Hf s. apply Hf. Qed.
Lemma keeps_try_catch {A} (m : M S A) h :
  keeps R m → (∀ e, keeps R (h e)) → keeps R (try_catch m h).
Proof.
  intros Hm Hh s. unfold try_catch. specialize (Hm s).
  destruct (m s) as [s1 a|s1 e| |]; simpl; try done.
  specialize (Hh e s1). destruct (h e s1); try done; by etrans.
Qed.
Lemma keeps_on_fst {T A} (m : M T A) : keeps (rel_snd R) (on_fst m).
Proof. intros [t s]. rewrite on_fst_run. destruct (m t); simpl; unfold rel_snd; simpl; done. Qed.
Lemma keeps_on_snd {T A} (m : M S A) : keeps R m → keeps (rel_snd (S := T) R) (on_snd m).
Proof.
  intros Hm [t s]. rewrite on_snd_run. specialize (Hm s). destruct (m s); simpl; done.
Qed.
Lemma keeps_with_local {L A} (l : L) (m : M (L * S) A) :
  keeps (rel_snd R) m → keeps R (with_local l m).
Proof.
  intros Hm s. unfold with_local. specialize (Hm (l, s)).
  destruct (m (l, s)) as [[l' s'] a|[l' s'] e| |]; done.
Qed.
Lemma keeps_local_only {L A} (l : L) (m : M L A) : keeps R (local_only l m).
Proof. intros s. unfold local_only. destruct (m l); simpl; done. Qed.
End Keeps.

#[export] Hint Resolve keeps_ret keeps_get_state keeps_gets keeps_throw keeps_undefined
  keeps_deref keeps_on_fst keeps_local_only : keeps.

Lemma keeps_and {S A} (R1 R2 : S → S → Prop) (m : M S A) :
  keeps R1 m → keeps R2 m → keeps (λ s s', R1 s s' ∧ R2 s s') m.
Proof. intros H1 H2 s. specialize (H1 s). specialize (H2 s). by destruct (m s). Qed.

(** Goes through a program: binds, branches, exception handlers, local
    objects; the operations at the leaves are found in the database. *)
Ltac keeps_step :=
  match goal with
  | |- keeps _ (mbind _ _) => apply keeps_bind; [try typeclasses eauto|..|intros ?]
  | |- keeps _ (match ?x with _ => _ end) => destruct x
  | |- keeps _ (if ?x then _ else _) => destruct x
  | |- keeps _ (let _ := _ in _) => cbv zeta
  | |- keeps _ (when ?b _) => destruct b; cbn [when]
  | |- keeps _ (try_catch _ _) => apply keeps_try_catch; [try typeclasses eauto|..|intros ?]
  | |- keeps (rel_snd _) (on_snd _) => apply keeps_on_snd
  | |- keeps _ (with_local _ _) => apply keeps_with_local
  | |- keeps _ _ => solve [eauto with keeps typeclass_instances]
  end.
Ltac keeps_auto := repeat keeps_step.

(** Code that works on a part of the state keeps what it keeps of the part. *)
Lemma keeps_zoom {S T A} (R : S → S → Prop) (Q : T → T → Prop) (get : S → T) (set : T → S → S) (m : M T A) :
  keeps Q m → (∀ s t, Q (get s) t → R s (set t s)) → keeps R (zoom get set m).
Proof.
  intros Hm Hset s. specialize (Hm (get s)). unfold zoom. destruct (m (get s)); simpl; auto.
Qed.

(** ** Code that does not throw *)
Definition no_throw {S A} (m : M S A) : Prop := ∀ s s' e, m s ≠ Threw s' e.

Create HintDb no_throw.

Section NoThrow.
Context {S : Type}.

Lemma no_throw_bind {A B} (m : M S A) (k : A → M S B) :
  no_throw m → (∀ a, no_throw (k a)) → no_throw (m ≫= k).
Proof.
  intros Hm Hk s s' e. rewrite bind_run. destruct (m s) eqn:E; simpl; [apply Hk| |done..].
  intros _. by eapply Hm.
Qed.
Lemma no_throw_try_catch {A} (m : M S A) h : (∀ e, no_throw (h e)) → no_throw (try_catch m h).
Proof. intros Hh s s' e. unfold try_catch. destruct (m s); try done. apply Hh. Qed.
Lemma no_throw_catches {A} (m : M S A) h : no_throw m → no_throw (try_catch m h).
Proof. intros Hm s s' e. unfold try_catch. destruct (m s) eqn:E; try done. by eapply Hm in E. Qed.
Lemma no_throw_zoom {T A} (get : S → T) (set : T → S → S) (m : M T A) : no_throw m → no_throw (zoom get set m).
Proof. intros Hm s s' e. unfold zoom. destruct (m (get s)) eqn:E; try done. intros _. by eapply Hm. Qed.
Lemma no_throw_local_only {L A} (l : L) (m : M L A) : no_throw m → no_throw (local_only (S := S) l m).
Proof.
  intros Hm s s' e. unfold local_only. destruct (m l) eqn:E; try done. intros _. by eapply Hm.
Qed.
Lemma no_throw_with_local {L A} (l : L) (m : M (L * S) A) : no_throw m → no_throw (with_local l m).
Proof.
  intros Hm s s' e. unfold with_local. destruct (m (l, s)) as [[]|[]| |] eqn:E; try done. intros _. by eapply Hm.
Qed.
Lemma no_throw_deref {A} what (o : option A) : no_throw (deref (S := S) what o).
Proof. by intros s s' e; destruct o. Qed.
Lemma no_throw_ret {A} (a : A) : no_throw (mret (M := M S) a).
Proof. done. Qed.
Lemma no_throw_get_state : no_throw (get_state (S := S)).
Proof. done. Qed.
Lemma no_throw_gets {A} (f : S → A) : no_throw (gets f).
Proof. done. Qed.
Lemma no_throw_put_state (s : S) : no_throw (put_state s).
Proof. done. Qed.
Lemma no_throw_modify (f : S → S) : no_throw (modify f).
Proof. done. Qed.
Lemma no_throw_undefined {A} why : no_throw (undefined (S := S) (A := A) why).
Proof. done. Qed.
Lemma no_throw_no_fuel {A} : no_throw (no_fuel (S := S) (A := A)).
Proof. done. Qed.
End NoThrow.
Lemma no_throw_on_fst {S T A} (m : M S A) : no_throw m → no_throw (on_fst (T := T) m).
Proof. apply no_throw_zoom. Qed.
Lemma no_throw_on_snd {S T A} (m : M T A) : no_throw m → no_throw (on_snd (S := S) m).
Proof. apply no_throw_zoom. Qed.

#[export] Hint Resolve no_throw_deref no_throw_ret no_throw_get_state no_throw_gets no_throw_put_state
  no_throw_modify no_throw_undefined no_throw_no_fuel : no_throw.
Ltac no_throw_step :=
  match goal with
  | |- no_throw (mbind _ _) => apply no_throw_bind; [|intros ?]
  | |- no_throw (match ?x with _ => _ end) => destruct x
  | |- no_throw (if ?x then _ else _) => destruct x
  | |- no_throw (let _ := _ in _) => cbv zeta
  | |- no_throw (when ?b _) => destruct b; cbn [when]
  | |- no_throw (on_fst _) => apply no_throw_on_fst
  | |- no_throw (on_snd _) => apply no_throw_on_snd
  | |- no_throw (zoom _ _ _) => apply no_throw_zoom
  | |- no_throw (with_local _ _) => apply no_throw_with_local
  | |- no_throw _ => solve [eauto with no_throw]
  end.
Ltac no_throw_auto := repeat no_throw_step.

(** ** What a run returns, and that it returns *)
Section Runs.
Context {S : Type}.

(** If [m] returns, then in a state and with a value of [P]. *)
Definition ensures {A} (m : M S A) (s : S) (P : S → A → Prop) : Prop :=
  match m s with Done s' a => P s' a | _ => True end.
(** [m] returns, in a state and with a value of [P]. *)
Definition returns {A} (m : M S A) (s : S) (P : S → A → Prop) : Prop :=
  ∃ s' a, m s = Done s' a ∧ P s' a.

(** If [m] returns, then as [ensures] says, and if it throws, in a state of [E]. *)
Definition runs {A} (m : M S A) (s : S) (P : S → A → Prop) (E : S → Prop) : Prop :=
  match m s with Done s' a => P s' a | Threw s' _ => E s' | Undef _ | NoFuel => True end.

Lemma runs_bind {A B} (m : M S A) (k : A → M S B) s P E :
  runs m s (λ s' a, runs (k a) s' P E) E → runs (m ≫= k) s P E.
Proof. unfold runs. rewrite bind_run. by destruct (m s). Qed.
Lemma runs_keeps {A} (R : S → S → Prop) (m : M S A) s :
  keeps R m → runs m s (λ s' _, R s s') (R s).
Proof. intros Hm. specialize (Hm s). unfold runs. by destruct (m s). Qed.
Lemma runs_mono {A} (m : M S A) s (P Q : S → A → Prop) (E F : S → Prop) :
  runs m s P E → (∀ s' a, P s' a → Q s' a) → (∀ s', E s' → F s') → runs m s Q F.
Proof. unfold runs. destruct (m s); auto. Qed.
Lemma runs_try_catch {A} (m : M S A) h s P E F :
  runs m s P E → (∀ e s', E s' → runs (h e) s' P F) → runs (try_catch m h) s P F.
Proof. unfold runs, try_catch. destruct (m s); auto. intros He Hh. by apply (Hh e). Qed.
Lemma runs_ensures {A} (m : M S A) s P E : runs m s P E → ensures m s P.
Proof. unfold runs, ensures. by destruct (m s). Qed.
Lemma ensures_runs {A} (m : M S A) s P : ensures m s P → runs m s P (λ _, True).
Proof. unfold runs, ensures. by destruct (m s). Qed.

Lemma ensures_bind {A B} (m : M S A) (k : A → M S B) s P :
  ensures m s (λ s' a, ensures (k a) s' P) → ensures (m ≫= k) s P.
Proof. unfold ensures. rewrite bind_run. by destruct (m s). Qed.
Lemma ensures_keeps {A} (R : S → S → Prop) (m : M S A) s : keeps R m → ensures m s (λ s' _, R s s').
Proof. intros Hm. specialize (Hm s). unfold ensures. by destruct (m s). Qed.
Lemma ensures_mono {A} (m : M S A) s (P Q : S → A → Prop) :
  ensures m s P → (∀ s' a, P s' a → Q s' a) → ensures m s Q.
Proof. unfold ensures. destruct (m s); auto. Qed.
Lemma returns_bind {A B} (m : M S A) (k : A → M S B) s P :
  returns m s (λ s' a, returns (k a) s' P) → returns (m ≫= k) s P.
Proof. intros (s1 & a & E & s2 & b & E2 & Hp). exists s2, b. by rewrite bind_run, E. Qed.
Lemma returns_mono {A} (m : M S A) s (P Q : S → A → Prop) :
  returns m s P → (∀ s' a, P s' a → Q s' a) → returns m s Q.
Proof. intros (s' & a & E & Hp) H. exists s', a. auto. Qed.
Lemma returns_keeps {A} (R : S → S → Prop) (m : M S A) s P :
  keeps R m → returns m s P → returns m s (λ s' a, R s s' ∧ P s' a).
Proof. intros Hm (s' & a & E & Hp). specialize (Hm s). rewrite E in Hm. by exists s', a. Qed.
End Runs.

(** ** Machine integers *)
Definition u8 (z : Z) : Z := z mod 2 ^ 8.
Definition u16 (z : Z) : Z := z mod 2 ^ 16.
Definition u32 (z : Z) : Z := z mod 2 ^ 32.
Definition u64 (z : Z) : Z := z mod 2 ^ 64.
Definition s32 (z : Z) : Z := (z + 2 ^ 31) mod 2 ^ 32 - 2 ^ 31.
Definition s64 (z : Z) : Z := (z + 2 ^ 63) mod 2 ^ 64 - 2 ^ 63.

(** Linear arithmetic over the wrap-around operations. *)
Ltac wrap_lia :=
  unfold u8, u16, u32, u64, s32, s64 in *;
  change (2 ^ 8) with 256 in *; change (2 ^ 16) with 65536 in *;
  change (2 ^ 31) with 2147483648 in *; change (2 ^ 32) with 4294967296 in *;
  change (2 ^ 63) with 9223372036854775808 in *;
  change (2 ^ 64) with 18446744073709551616 in *;
  Z.div_mod_to_equations; lia.

Lemma u32_small z : 0 ≤ z < 2 ^ 32 → u32 z = z.
Proof. intros. unfold u32. by apply Z.mod_small. Qed.
Lemma u16_small z : 0 ≤ z < 2 ^ 16 → u16 z = z.
Proof. intros. unfold u16. by apply Z.mod_small. Qed.
Lemma u64_small z : 0 ≤ z < 2 ^ 64 → u64 z = z.
Proof. intros. unfold u64. by apply Z.mod_small. Qed.
Lemma s32_small z : - 2 ^ 31 ≤ z < 2 ^ 31 → s32 z = z.
Proof. intros. wrap_lia. Qed.
Lemma u32_bound z : 0 ≤ u32 z < 2 ^ 32.
Proof. unfold u32. by apply Z.mod_pos_bound. Qed.
Lemma u16_bound z : 0 ≤ u16 z < 2 ^ 16.
Proof. unfold u16. by apply Z.mod_pos_bound. Qed.
Lemma u64_bound z : 0 ≤ u64 z < 2 ^ 64.
Proof. unfold u64. by apply Z.mod_pos_bound. Qed.
Lemma s32_bound z : - 2 ^ 31 ≤ s32 z < 2 ^ 31.
Proof. wrap_lia. Qed.
Lemma u32_s32 z : u32 (s32 z) = u32 z.
Proof. wrap_lia. Qed.
Lemma s32_u32 z : s32 (u32 z) = s32 z.
Proof. wrap_lia. Qed.

(** ** Memory regions: slices of a list at integer offsets *)
Definition zlen {A} (l : list A) : Z := Z.of_nat (length l).
Definition zslice {A} (off n : Z) (l : list A) : list A :=
  take (Z.to_nat n) (drop (Z.to_nat off) l).
Definition zsplice {A} (off : Z) (new l : list A) : list A :=
  take (Z.to_nat off) l ++ new ++ drop (Z.to_nat off + length new) l.

Section Slices.
Context {A : Type}.
Implicit Types l new : list A.

Lemma zlen_nonneg l : 0 ≤ zlen l.
Proof. unfold zlen. lia. Qed.

Lemma zlen_nil : zlen (@nil A) = 0.
Proof. reflexivity. Qed.

Lemma zlen_cons x l : zlen (x :: l) = 1 + zlen l.
Proof. unfold zlen. simpl. lia. Qed.

Lemma zlen_app l1 l2 : zlen (l1 ++ l2) = zlen l1 + zlen l2.
Proof. unfold zlen. rewrite length_app. lia. Qed.

Lemma zlen_zero_inv l : zlen l = 0 → l = [].
Proof. unfold zlen. destruct l; simpl; [done | lia]. Qed.

Lemma zlen_replicate n (x : A) : zlen (replicate n x) = Z.of_nat n.
Proof. unfold zlen. by rewrite length_replicate. Qed.

Lemma zlen_zsplice off new l :
  0 ≤ off → off + zlen new ≤ zlen l → zlen (zsplice off new l) = zlen l.
Proof.
  unfold zlen, zsplice. intros.
  rewrite !length_app, length_take, length_drop. lia.
Qed.

Lemma zlen_zslice off n l :
  0 ≤ off → 0 ≤ n → off + n ≤ zlen l → zlen (zslice off n l) = n.
Proof. unfold zlen, zslice. intros. rewrite length_take, length_drop. lia. Qed.

Lemma zslice_zero off l : zslice off 0 l = [].
Proof. reflexivity. Qed.

Lemma zslice_full l : zslice 0 (zlen l) l = l.
Proof.
  unfold zslice, zlen. change (Z.to_nat 0) with 0%nat. rewrite drop_0.
  apply take_ge. lia.
Qed.

Lemma zslice_split off n m l :
  0 ≤ off → 0 ≤ n → 0 ≤ m →
  zslice off (n + m) l = zslice off n l ++ zslice (off + n) m l.
Proof.
  unfold zslice. intros.
  rewrite !Z2Nat.inj_add by lia.
  by rewrite <- drop_drop, take_take_drop.
Qed.

Lemma zslice_zslice off n a b l :
  0 ≤ off → 0 ≤ a → 0 ≤ b → a + b ≤ n →
  zslice a b (zslice off n l) = zslice (off + a) b l.
Proof.
  unfold zslice. intros.
  rewrite skipn_firstn_comm, take_take, drop_drop. f_equal; [lia | f_equal; lia].
Qed.

Lemma take_zslice off n m l :
  0 ≤ m ≤ n → take (Z.to_nat m) (zslice off n l) = zslice off m l.
Proof. unfold zslice. intros. rewrite take_take. f_equal. lia. Qed.

Lemma drop_zslice off n m l :
  0 ≤ off → 0 ≤ m ≤ n → drop (Z.to_nat m) (zslice off n l) = zslice (off + m) (n - m) l.
Proof.
  unfold zslice. intros.
  rewrite skipn_firstn_comm, drop_drop. f_equal; [lia | f_equal; lia].
Qed.

Lemma zslice_zero_off n l : zslice 0 n l = take (Z.to_nat n) l.
Proof. reflexivity. Qed.

Lemma take_app_zlen l1 l2 n : n = zlen l1 → take (Z.to_nat n) (l1 ++ l2) = l1.
Proof. intros ->. unfold zlen. rewrite Nat2Z.id. apply take_app_length. Qed.

Lemma drop_app_zlen l1 l2 n : n = zlen l1 → drop (Z.to_nat n) (l1 ++ l2) = l2.
Proof. intros ->. unfold zlen. rewrite Nat2Z.id. apply drop_app_length. Qed.

Lemma zlen_take n l : 0 ≤ n ≤ zlen l → zlen (take (Z.to_nat n) l) = n.
Proof. unfold zlen. intros. rewrite length_take. lia. Qed.

Lemma zlen_drop n l : 0 ≤ n ≤ zlen l → zlen (drop (Z.to_nat n) l) = zlen l - n.
Proof. unfold zlen. intros. rewrite length_drop. lia. Qed.

Lemma zslice_app_l off n l1 l2 :
  0 ≤ off → off + n ≤ zlen l1 → zslice off n (l1 ++ l2) = zslice off n l1.
Proof.
  unfold zslice, zlen. intros.
  destruct (decide (n <= 0)) as [Hn|Hn].
  { by replace (Z.to_nat n) with 0%nat by lia. }
  rewrite drop_app_le, take_app_le by (rewrite ?length_drop; lia). done.
Qed.

Lemma zslice_prefix l1 l2 n : n = zlen l1 → zslice 0 n (l1 ++ l2) = l1.
Proof.
  intros ->. rewrite zslice_app_l by (pose proof (zlen_nonneg l1); lia). apply zslice_full.
Qed.

Lemma zslice_suffix l1 l2 n m :
  n = zlen l1 → m = zlen l2 → zslice n m (l1 ++ l2) = l2.
Proof.
  intros -> ->. unfold zslice, zlen.
  rewrite !Nat2Z.id, drop_app_length. apply take_ge. lia.
Qed.

Lemma zslice_app_at off l1 l2 l3 n :
  off = zlen l1 → n = zlen l2 → zslice off n (l1 ++ l2 ++ l3) = l2.
Proof.
  intros -> ->. unfold zslice, zlen. rewrite !Nat2Z.id, drop_app_length.
  apply take_app_length.
Qed.

Lemma zslice_zsplice_same off new l :
  0 ≤ off → off + zlen new ≤ zlen l → zslice off (zlen new) (zsplice off new l) = new.
Proof.
  unfold zslice, zsplice, zlen. intros.
  rewrite drop_app_ge by (rewrite length_take; lia).
  rewrite length_take.
  replace (Z.to_nat off - Z.to_nat off `min` length l)%nat with 0%nat by lia.
  rewrite drop_0, Nat2Z.id. apply take_app_length.
Qed.

Lemma zslice_zsplice_before o n off new l :
  0 ≤ o → o + n ≤ off → off ≤ zlen l →
  zslice o n (zsplice off new l) = zslice o n l.
Proof.
  unfold zslice, zsplice, zlen. intros.
  destruct (decide (n <= 0)) as [Hn|Hn].
  { by replace (Z.to_nat n) with 0%nat by lia. }
  rewrite drop_app_le by (rewrite length_take; lia).
  rewrite take_app_le by (rewrite length_drop, length_take; lia).
  rewrite skipn_firstn_comm, take_take. f_equal. lia.
Qed.

Lemma zslice_zsplice_after o n off new l :
  0 ≤ off → off + zlen new ≤ o → o + n ≤ zlen l → off + zlen new ≤ zlen l →
  zslice o n (zsplice off new l) = zslice o n l.
Proof.
  unfold zslice, zsplice, zlen. intros.
  rewrite app_assoc, drop_app_ge by (rewrite length_app, length_take; lia).
  rewrite drop_drop. do 2 f_equal. rewrite length_app, length_take. lia.
Qed.

Lemma firstn_all_zlen l : take (Z.to_nat (zlen l)) l = l.
Proof. unfold zlen. rewrite Nat2Z.id. apply firstn_all. Qed.

Lemma zsplice_zslice_same n l : 0 ≤ n ≤ zlen l → zsplice 0 (zslice 0 n l) l = l.
Proof.
  intros Hn. unfold zsplice. change (Z.to_nat 0) with 0%nat. simpl.
  rewrite zslice_zero_off.
  assert (length (take (Z.to_nat n) l) = Z.to_nat n) as ->.
  { unfold zlen in Hn. rewrite length_take. lia. }
  apply take_drop.
Qed.

Lemma zsplice_front new l n :
  n = length new → zsplice 0 new l = new ++ drop n l.
Proof. intros ->. reflexivity. Qed.

Lemma zsplice_app_r off l1 new l2 :
  off = zlen l1 → zsplice off new (l1 ++ l2) = l1 ++ zsplice 0 new l2.
Proof.
  intros ->. unfold zsplice, zlen. rewrite Nat2Z.id, take_app_length.
  change (Z.to_nat 0) with 0%nat. simpl. rewrite drop_app_ge by lia.
  do 3 f_equal. lia.
Qed.

Lemma zsplice_app_ge off l1 new l2 :
  zlen l1 ≤ off → zsplice off new (l1 ++ l2) = l1 ++ zsplice (off - zlen l1) new l2.
Proof.
  intros Ho. unfold zsplice, zlen in *.
  rewrite take_app_ge, drop_app_ge by lia. rewrite <- app_assoc.
  f_equal. f_equal; [f_equal; lia|]. do 2 f_equal. lia.
Qed.

Lemma take_drop_zsplice off new l n :
  0 ≤ off → n = length new →
  take (Z.to_nat off) l ++ new ++ drop n (drop (Z.to_nat off) l) = zsplice off new l.
Proof. intros Hoff ->. unfold zsplice. by rewrite drop_drop. Qed.

Lemma zsplice_nil off l : zsplice off [] l = l.
Proof. unfold zsplice. simpl. rewrite Nat.add_0_r. apply take_drop. Qed.
End Slices.

(** ** Bytes: little-endian integers in memory *)
Definition le32 (z : Z) : list byte := le_split 4 z.
Definition le16 (z : Z) : list byte := le_split 2 z.

Lemma zlen_le32 z : zlen (le32 z) = 4.
Proof. unfold zlen, le32. by rewrite length_le_split. Qed.

Lemma zlen_le16 z : zlen (le16 z) = 2.
Proof. unfold zlen, le16. by rewrite length_le_split. Qed.

Lemma le_combine_le32 z : le_combine (le32 z) = u32 z.
Proof. unfold le32, u32. by rewrite le_combine_split. Qed.

Lemma le_combine_le16 z : le_combine (le16 z) = u16 z.
Proof. unfold le16, u16. by rewrite le_combine_split. Qed.

(** A NUL-terminated C string: the bytes up to the first zero byte. *)
Fixpoint c_str (bs : list byte) : list byte :=
  match bs with
  | [] => []
  | b :: bs' => if decide (b = Byte.x00) then [] else b :: c_str bs'
  end.

(** Memory that has not been written: what a fresh local object holds is
    given by the run, the development is parametric in it. *)
Class FreshMemory : Type := {
  fresh_bytes : nat → list byte;
  fresh_bytes_length : ∀ n, length (fresh_bytes n) = n
}.

Definition zero_memory : FreshMemory :=
  {| fresh_bytes := λ n, replicate n Byte.x00;
     fresh_bytes_length := λ n, length_replicate n Byte.x00 |}.

Arguments zlen : simpl never.
Arguments zslice : simpl never.
Arguments zsplice : simpl never.
Arguments le32 : simpl never.
Arguments le16 : simpl never.

Create Rewrite HintDb zlen.
Create HintDb wrap.
#[export] Hint Rewrite @zlen_nil @zlen_cons @zlen_app zlen_le32 zlen_le16
  @zlen_replicate : zlen.
#[export] Hint Resolve zlen_nonneg u32_bound u16_bound u64_bound s32_bound : wrap.

(** Length arithmetic. *)
Ltac len := autorewrite with zlen in *;
  repeat match goal with
         | |- context [zlen ?l] =>
             lazymatch goal with
             | _ : 0 ≤ zlen l |- _ => fail
             | _ => pose proof (zlen_nonneg l)
             end
         end; lia.
