(* ===== verification/MessageBuffer.v ===== *)
(** * The byte buffer of the network layer

    Models [MLN::Net::MessageBuffer] (net/messageBuffer.h, net/messageBuffer.cpp):
    an array of [MAX_BUFFER_SIZE] bytes with a read and a write pointer, here
    offsets from [_buffer], and the manipulator that writes the packet header.
    The overloads that copy bytes ([read(char*,size_t)], ...) carry a suffix
    [_to] or [_from].  The file ends with the abstract queue of bytes that the
    buffer implements and the lemmas the clients use. *)
From stdpp Require Import list strings.
From coqutil Require Import Byte.
From S2P Require Import Prelude.
#[local] Open Scope Z_scope.

(** ** State *)

(** [MsgUserManip]: the size of the header, and the function that writes it
    at a pointer into the storage; the function sees the current size of the
    message and the storage from the pointer on. *)
Record MsgUserManip : Type := {
  manip_getHeaderSize : Z;
  manip_facilitate : Z → M (list byte) unit
}.

Definition MAX_BUFFER_SIZE : Z := 1024 * 32.

Record MessageBuffer : Type := mkMessageBuffer {
  mb_buffer : list byte;
  mb_read : Z;
  mb_write : Z;
  mb_manip : option MsgUserManip
}.

Definition set_mb_buffer (m : list byte) (b : MessageBuffer) : MessageBuffer :=
  mkMessageBuffer m (mb_read b) (mb_write b) (mb_manip b).
Definition set_mb_read (r : Z) (b : MessageBuffer) : MessageBuffer :=
  mkMessageBuffer (mb_buffer b) r (mb_write b) (mb_manip b).
Definition set_mb_write (w : Z) (b : MessageBuffer) : MessageBuffer :=
  mkMessageBuffer (mb_buffer b) (mb_read b) w (mb_manip b).

(** ** Operations *)

Definition MessageBuffer_clear : M MessageBuffer unit :=
  modify (λ b, set_mb_write 0 (set_mb_read 0 b)).

(** [size_t size() const]: the difference of the pointers as a [size_t]. *)
Definition mb_size (b : MessageBuffer) : Z := u64 (mb_write b - mb_read b).
Definition MessageBuffer_size : M MessageBuffer Z := gets mb_size.

Definition MessageBuffer_facilitate : M MessageBuffer unit :=
  b ← get_state;
  match mb_manip b with
  | None => mret tt
  | Some m =>
      zoom (λ b, drop (Z.to_nat (mb_read b)) (mb_buffer b))
           (λ tl b, set_mb_buffer (take (Z.to_nat (mb_read b)) (mb_buffer b) ++ tl) b)
           (manip_facilitate m (mb_size b))
  end.

(** [data()] and [enableBuffer()] hand out pointers into the storage. *)
Definition MessageBuffer_data (b : MessageBuffer) : Z := mb_read b.
Definition MessageBuffer_enableBuffer (b : MessageBuffer) : Z := mb_write b.

Definition MessageBuffer_readable (count : Z) : M MessageBuffer bool :=
  gets (λ b, mb_read b + count <=? mb_write b).

(** Reading and writing [count] bytes of storage at a pointer; outside the
    array the behaviour is undefined. *)
Definition mb_load (off count : Z) : M MessageBuffer (list byte) :=
  b ← get_state;
  if (0 <=? off) && (off + count <=? MAX_BUFFER_SIZE)
  then mret (zslice off count (mb_buffer b))
  else undefined "MessageBuffer: read outside _buffer".

Definition mb_store (off : Z) (src : list byte) : M MessageBuffer unit :=
  if (0 <=? off) && (off + zlen src <=? MAX_BUFFER_SIZE)
  then modify (λ b, set_mb_buffer (zsplice off src (mb_buffer b)) b)
  else undefined "MessageBuffer: write outside _buffer".

(** Moving [_write] forward; past the end of the array it is undefined. *)
Definition mb_advance_write (count : Z) : M MessageBuffer unit :=
  b ← get_state;
  if mb_write b + count <=? MAX_BUFFER_SIZE
  then put_state (set_mb_write (mb_write b + count) b)
  else undefined "MessageBuffer: _write past the end of _buffer".

Definition MessageBuffer_readable_to (count : Z) : M MessageBuffer (option (list byte)) :=
  ok ← MessageBuffer_readable count;
  if negb ok then mret None
  else
    b ← get_state;
    bs ← mb_load (mb_read b) count;
    mret (Some bs).

Definition MessageBuffer_remainWriteSize : M MessageBuffer Z :=
  gets (λ b, u64 (MAX_BUFFER_SIZE - mb_write b)).

Definition MessageBuffer_arrange : M MessageBuffer unit :=
  b ← get_state;
  if mb_read b =? mb_write b then MessageBuffer_clear
  else
    let count := mb_size b in
    bs ← mb_load (mb_read b) count;
    mb_store 0 bs;;
    modify (λ b, set_mb_write (0 + count) (set_mb_read 0 b)).

Definition overrun : exn := runtime_error "buffer overrun in MessageBuffer".
Definition not_readable : exn := runtime_error "buffer can't readable in MessageBuffer".

Definition MessageBuffer_write_from (src : list byte) : M MessageBuffer unit :=
  sz ← MessageBuffer_size;
  if MAX_BUFFER_SIZE <? u64 (sz + zlen src) then throw overrun
  else
    b ← get_state;
    mb_store (mb_write b) src;;
    mb_advance_write (zlen src).

Definition MessageBuffer_write (count : Z) : M MessageBuffer unit :=
  sz ← MessageBuffer_size;
  if MAX_BUFFER_SIZE <? u64 (sz + count) then throw overrun
  else mb_advance_write count.

Definition MessageBuffer_read_to (count : Z) : M MessageBuffer (list byte) :=
  ok ← MessageBuffer_readable count;
  if negb ok then throw not_readable
  else
    remain ← MessageBuffer_remainWriteSize;
    (if remain <? MAX_BUFFER_SIZE / 3 * 2 then MessageBuffer_arrange else mret tt);;
    b ← get_state;
    bs ← mb_load (mb_read b) count;
    modify (λ b, set_mb_read (mb_read b + count) b);;
    mret bs.

Definition MessageBuffer_read (count : Z) : M MessageBuffer unit :=
  ok ← MessageBuffer_readable count;
  if negb ok then throw not_readable
  else
    remain ← MessageBuffer_remainWriteSize;
    (if remain <? MAX_BUFFER_SIZE / 3 * 2 then MessageBuffer_arrange else mret tt);;
    modify (λ b, set_mb_read (mb_read b + count) b).

Definition MessageBuffer_readAll : M MessageBuffer unit :=
  modify (λ b, set_mb_write 0 (set_mb_read 0 b)).

Definition MessageBuffer_setManipulator (m : option MsgUserManip) : M MessageBuffer unit :=
  modify (λ b, mkMessageBuffer (mb_buffer b) (mb_read b) (mb_write b) m).

(** ** Constructors: they work on storage that holds whatever it held before *)
Section Constructors.
Context `{FreshMemory}.

Definition raw_MessageBuffer (m : option MsgUserManip) : MessageBuffer :=
  mkMessageBuffer (fresh_bytes (Z.to_nat MAX_BUFFER_SIZE)) 0 0 m.

Definition MessageBuffer_new : MessageBuffer := raw_MessageBuffer None.

(** [MessageBuffer(MsgUserManip *msgManip, const bool preWriteAsHeaderSize)] *)
Definition MessageBuffer_new_manip {S} (msgManip : option MsgUserManip)
    (preWriteAsHeaderSize : bool) : M S MessageBuffer :=
  r ← local_only (raw_MessageBuffer msgManip)
        (MessageBuffer_clear;;
         if preWriteAsHeaderSize then
           m ← deref "MessageBuffer: null manipulator" msgManip;
           MessageBuffer_write (manip_getHeaderSize m)
         else mret tt);
  mret (fst r).

(** [MessageBuffer(const MessageBuffer& e)]: copies [e.size()] bytes from the
    start of [e._buffer]; the manipulator is not copied. *)
Definition MessageBuffer_copy {S} (e : MessageBuffer) : M S MessageBuffer :=
  r ← local_only (raw_MessageBuffer None)
        (MessageBuffer_clear;;
         MessageBuffer_write_from (zslice 0 (mb_size e) (mb_buffer e)));
  mret (fst r).
End Constructors.

(** ** The abstract queue

    [mb_content] is the sequence of bytes written and not yet read: what the
    buffer stands for.  [mb_wf] is the invariant of the storage. *)
Definition mb_content (b : MessageBuffer) : list byte :=
  zslice (mb_read b) (mb_write b - mb_read b) (mb_buffer b).

Record mb_wf (b : MessageBuffer) : Prop := mk_mb_wf {
  wf_len : zlen (mb_buffer b) = MAX_BUFFER_SIZE;
  wf_read : 0 ≤ mb_read b ≤ mb_write b;
  wf_write : mb_write b ≤ MAX_BUFFER_SIZE
}.

(** The operations a client can issue, on the buffer and on the queue. *)
Inductive buffer_op : Type :=
| OpWrite (src : list byte)
| OpRead (count : Z)
| OpPeek (count : Z)
| OpArrange
| OpReadAll.

Definition buffer_run (o : buffer_op) : M MessageBuffer (list byte) :=
  match o with
  | OpWrite src => MessageBuffer_write_from src;; mret []
  | OpRead n => MessageBuffer_read_to n
  | OpPeek n => r ← MessageBuffer_readable_to n; mret (default [] r)
  | OpArrange => MessageBuffer_arrange;; mret []
  | OpReadAll => MessageBuffer_readAll;; mret []
  end.

Definition queue_run (o : buffer_op) : M (list byte) (list byte) :=
  q ← get_state;
  match o with
  | OpWrite src =>
      if MAX_BUFFER_SIZE <? zlen q + zlen src then throw overrun
      else put_state (q ++ src);; mret []
  | OpRead n =>
      if n <=? zlen q
      then put_state (drop (Z.to_nat n) q);; mret (take (Z.to_nat n) q)
      else throw not_readable
  | OpPeek n => mret (if n <=? zlen q then take (Z.to_nat n) q else [])
  | OpArrange => mret []
  | OpReadAll => put_state [];; mret []
  end.

(** A client that runs a list of operations and stops at the first exception. *)
Fixpoint run_ops {S} (run : buffer_op → M S (list byte)) (os : list buffer_op)
    : M S (list (list byte)) :=
  match os with
  | [] => mret []
  | o :: os' => r ← run o; rs ← run_ops run os'; mret (r :: rs)
  end.

Definition op_ok (o : buffer_op) : Prop :=
  match o with
  | OpRead n | OpPeek n => 0 ≤ n
  | _ => True
  end.

Definition written (o : buffer_op) : Z :=
  match o with OpWrite src => zlen src | _ => 0 end.
Definition total_written (os : list buffer_op) : Z := foldr (λ o z, written o + z) 0 os.

(** The outcome on the buffer and the outcome on the queue agree. *)
Definition outcome_refines {A} (o : outcome MessageBuffer A) (q : outcome (list byte) A) : Prop :=
  match o, q with
  | Done b a, Done l a' => mb_wf b ∧ mb_content b = l ∧ a = a'
  | Threw b e, Threw l e' => mb_wf b ∧ mb_content b = l ∧ e = e'
  | _, _ => False
  end.

(** ** Lemmas *)
Section Specs.
Implicit Types b : MessageBuffer.

Lemma mb_content_length b : mb_wf b → zlen (mb_content b) = mb_write b - mb_read b.
Proof.
  intros [Hl Hr Hw]. unfold mb_content.
  rewrite zlen_zslice; [done | lia | lia |]. rewrite Hl. lia.
Qed.

Lemma mb_content_bound b : mb_wf b → zlen (mb_content b) ≤ MAX_BUFFER_SIZE.
Proof. intros Hwf. rewrite mb_content_length by done. destruct Hwf. lia. Qed.

Lemma mb_size_content b : mb_wf b → mb_size b = zlen (mb_content b).
Proof.
  intros Hwf. rewrite mb_content_length by done. destruct Hwf.
  unfold mb_size, MAX_BUFFER_SIZE in *. apply u64_small. lia.
Qed.

Lemma readable_spec b n :
  mb_wf b → MessageBuffer_readable n b = Done b (n <=? zlen (mb_content b)).
Proof.
  intros Hwf. unfold MessageBuffer_readable, gets.
  rewrite mb_content_length by done. f_equal. lia.
Qed.

Lemma mb_load_content b n :
  mb_wf b → 0 ≤ n ≤ zlen (mb_content b) →
  mb_load (mb_read b) n b = Done b (take (Z.to_nat n) (mb_content b)).
Proof.
  intros Hwf Hn. rewrite mb_content_length in Hn by done.
  pose proof Hwf as [Hl Hr Hw].
  unfold mb_load. run_step. 
  rewrite (proj2 (andb_true_iff _ _)) by (split; apply Z.leb_le; lia).
  run_step. f_equal. unfold mb_content. symmetry. apply take_zslice. lia.
Qed.

Lemma readable_to_spec b n :
  mb_wf b → 0 ≤ n →
  MessageBuffer_readable_to n b =
    Done b (if n <=? zlen (mb_content b) then Some (take (Z.to_nat n) (mb_content b)) else None).
Proof.
  intros Hwf Hn. unfold MessageBuffer_readable_to. run_with readable_spec; [|done].
  destruct (Z.leb_spec n (zlen (mb_content b))); simpl; [|done].
   by run_with mb_load_content.
Qed.

Lemma clear_spec b :
  mb_wf b → ∃ b', MessageBuffer_clear b = Done b' tt ∧ mb_wf b' ∧ mb_content b' = []
    ∧ mb_read b' = 0 ∧ mb_write b' = 0 ∧ mb_manip b' = mb_manip b.
Proof.
  intros [Hl Hr Hw]. eexists; split; [reflexivity|].
  split_and!; done.
Qed.

(** [arrange] moves the unread bytes to the front and keeps them. *)
Lemma arrange_spec b :
  mb_wf b → ∃ b', MessageBuffer_arrange b = Done b' tt ∧ mb_wf b'
    ∧ mb_content b' = mb_content b ∧ mb_read b' = 0
    ∧ mb_write b' = zlen (mb_content b) ∧ mb_manip b' = mb_manip b.
Proof.
  intros Hwf. pose proof Hwf as [Hl Hr Hw].
  pose proof (mb_content_length b Hwf) as Hc.
  unfold MessageBuffer_arrange. run_step. 
  destruct (Z.eqb_spec (mb_read b) (mb_write b)) as [E|E].
  { destruct (clear_spec b Hwf) as (b' & -> & Hwf' & Hc' & Hr' & Hw' & Hm').
    exists b'. split_and!; try done; [| lia].
    rewrite Hc'. symmetry. apply zlen_zero_inv. lia. }
  rewrite mb_size_content by done.
  run_with mb_load_content; [|done|lia].


  rewrite firstn_all_zlen. unfold mb_store.
  rewrite (proj2 (andb_true_iff _ _)) by (split; apply Z.leb_le; lia).
  eexists; split; [reflexivity|].
  assert (Hwf' : mb_wf (set_mb_write (0 + zlen (mb_content b)) (set_mb_read 0
    (set_mb_buffer (zsplice 0 (mb_content b) (mb_buffer b)) b)))).
  { split; simpl; [rewrite zlen_zsplice; lia | lia | lia]. }
  split_and!; try done.
  unfold mb_content at 1. simpl.
  rewrite Z.sub_0_r. apply zslice_zsplice_same; lia.
Qed.

(** The move that precedes a read, whether or not it happens. *)
Lemma read_arrange_spec b remain :
  mb_wf b → ∃ b',
    (if remain <? MAX_BUFFER_SIZE / 3 * 2 then MessageBuffer_arrange else mret tt) b = Done b' tt
    ∧ mb_wf b' ∧ mb_content b' = mb_content b
    ∧ mb_write b' ≤ mb_write b ∧ (mb_read b = 0 → mb_read b' = 0 ∧ mb_write b' = mb_write b)
    ∧ mb_manip b' = mb_manip b.
Proof.
  intros Hwf. pose proof (mb_content_length b Hwf). pose proof Hwf as [_ Hr _].
  destruct (remain <? _).
  - destruct (arrange_spec b Hwf) as (b' & -> & Hwf' & Hc' & Hr' & Hw' & Hm').
    exists b'. split_and!; try done; lia.
  - exists b. split_and!; done.
Qed.

Lemma advance_read_spec b n :
  mb_wf b → 0 ≤ n ≤ zlen (mb_content b) →
  mb_wf (set_mb_read (mb_read b + n) b)
  ∧ mb_content (set_mb_read (mb_read b + n) b) = drop (Z.to_nat n) (mb_content b).
Proof.
  intros Hwf Hn. rewrite mb_content_length in Hn by done. destruct Hwf.
  split; [split; simpl; lia |].
  unfold mb_content. simpl. rewrite drop_zslice by lia. f_equal. lia.
Qed.

(** [read]: the bytes at the front of the queue leave it. *)
Lemma read_to_spec b n :
  mb_wf b → 0 ≤ n ≤ zlen (mb_content b) →
  ∃ b', MessageBuffer_read_to n b = Done b' (take (Z.to_nat n) (mb_content b)) ∧ mb_wf b'
    ∧ mb_content b' = drop (Z.to_nat n) (mb_content b)
    ∧ mb_write b' ≤ mb_write b ∧ mb_manip b' = mb_manip b
    ∧ (mb_read b = 0 → mb_read b' = n ∧ mb_write b' = mb_write b).
Proof.
  intros Hwf Hn. unfold MessageBuffer_read_to. run_with readable_spec; [|done].
  rewrite (proj2 (Z.leb_le n _)) by lia. simpl.
  unfold MessageBuffer_remainWriteSize. run_step.
  destruct (read_arrange_spec b (u64 (MAX_BUFFER_SIZE - mb_write b)) Hwf)
    as (b1 & E & Hwf1 & Hc1 & Hw1 & Hz1 & Hm1).
  run_with E. 
  rewrite <- Hc1 in Hn |- *.
  run_with mb_load_content; [|done..].
  destruct (advance_read_spec b1 n Hwf1 Hn) as [Hwf2 Hc2].
  eexists; split; [reflexivity|]. split_and!; try done; try congruence.
  intros Hz. apply Hz1 in Hz as [Hz Hw]. simpl. lia.
Qed.

Lemma read_spec b n :
  mb_wf b → 0 ≤ n ≤ zlen (mb_content b) →
  ∃ b', MessageBuffer_read n b = Done b' tt ∧ mb_wf b'
    ∧ mb_content b' = drop (Z.to_nat n) (mb_content b)
    ∧ mb_write b' ≤ mb_write b ∧ mb_manip b' = mb_manip b
    ∧ (mb_read b = 0 → mb_read b' = n ∧ mb_write b' = mb_write b).
Proof.
  intros Hwf Hn. unfold MessageBuffer_read. run_with readable_spec; [|done].
  rewrite (proj2 (Z.leb_le n _)) by lia. simpl.
  unfold MessageBuffer_remainWriteSize. run_step.
  destruct (read_arrange_spec b (u64 (MAX_BUFFER_SIZE - mb_write b)) Hwf)
    as (b1 & E & Hwf1 & Hc1 & Hw1 & Hz1 & Hm1).
  run_with E.
  rewrite <- Hc1 in Hn |- *.
  destruct (advance_read_spec b1 n Hwf1 Hn) as [Hwf2 Hc2].
  eexists; split; [reflexivity|]. split_and!; try done; try congruence.
  intros Hz. apply Hz1 in Hz as [Hz Hw]. simpl. lia.
Qed.

Lemma read_to_short b n :
  mb_wf b → zlen (mb_content b) < n → MessageBuffer_read_to n b = Threw b not_readable.
Proof.
  intros Hwf Hn. unfold MessageBuffer_read_to. run_with readable_spec; [|done].
  by rewrite (proj2 (Z.leb_gt n _)) by lia.
Qed.

Lemma read_short b n :
  mb_wf b → zlen (mb_content b) < n → MessageBuffer_read n b = Threw b not_readable.
Proof.
  intros Hwf Hn. unfold MessageBuffer_read. run_with readable_spec; [|done].
  by rewrite (proj2 (Z.leb_gt n _)) by lia.
Qed.

Lemma readAll_spec b :
  mb_wf b → ∃ b', MessageBuffer_readAll b = Done b' tt ∧ mb_wf b' ∧ mb_content b' = []
    ∧ mb_read b' = 0 ∧ mb_write b' = 0 ∧ mb_manip b' = mb_manip b.
Proof. apply clear_spec. Qed.

(** Bytes stored at [_write] and then accounted for are appended. *)
Lemma append_spec b src :
  mb_wf b → mb_write b + zlen src ≤ MAX_BUFFER_SIZE →
  let b' := set_mb_write (mb_write b + zlen src)
              (set_mb_buffer (zsplice (mb_write b) src (mb_buffer b)) b) in
  mb_store (mb_write b) src b =
    Done (set_mb_buffer (zsplice (mb_write b) src (mb_buffer b)) b) tt
  ∧ mb_wf b' ∧ mb_content b' = mb_content b ++ src.
Proof.
  intros [Hl Hr Hw] Hsrc. pose proof (zlen_nonneg src).
  split_and!.
  - unfold mb_store.
    by rewrite (proj2 (andb_true_iff _ _)) by (split; apply Z.leb_le; lia).
  - split; simpl; [rewrite zlen_zsplice; lia | lia | lia].
  - unfold mb_content. simpl.
    replace (mb_write b + zlen src - mb_read b)
      with ((mb_write b - mb_read b) + zlen src) by lia.
    rewrite zslice_split by lia.
    replace (mb_read b + (mb_write b - mb_read b)) with (mb_write b) by lia.
    rewrite zslice_zsplice_same by lia.
    by rewrite zslice_zsplice_before by lia.
Qed.

Lemma write_guard b n :
  mb_wf b → 0 ≤ n < 2 ^ 63 →
  (MAX_BUFFER_SIZE <? u64 (mb_size b + n)) = (MAX_BUFFER_SIZE <? zlen (mb_content b) + n).
Proof.
  intros Hwf Hn. rewrite mb_size_content by done.
  pose proof (mb_content_bound b Hwf). pose proof (zlen_nonneg (mb_content b)).
  rewrite u64_small; [done|]. unfold MAX_BUFFER_SIZE in *. lia.
Qed.

Lemma advance_write_spec b n :
  mb_write b + n ≤ MAX_BUFFER_SIZE →
  mb_advance_write n b = Done (set_mb_write (mb_write b + n) b) tt.
Proof.
  intros. unfold mb_advance_write. run_step. 
  by rewrite (proj2 (Z.leb_le _ _)).
Qed.

Lemma write_from_spec b src :
  mb_wf b → mb_write b + zlen src ≤ MAX_BUFFER_SIZE →
  ∃ b', MessageBuffer_write_from src b = Done b' tt ∧ mb_wf b'
    ∧ mb_content b' = mb_content b ++ src ∧ mb_write b' = mb_write b + zlen src
    ∧ mb_read b' = mb_read b ∧ mb_manip b' = mb_manip b.
Proof.
  intros Hwf Hsrc. pose proof (zlen_nonneg src).
  pose proof (mb_content_length b Hwf). pose proof Hwf as [_ Hr _].
  destruct (append_spec b src Hwf Hsrc) as (E & Hwf' & Hc').
  unfold MessageBuffer_write_from, MessageBuffer_size. run_step.
  rewrite write_guard by (done || unfold MAX_BUFFER_SIZE in *; lia).
  rewrite (proj2 (Z.ltb_ge _ _)) by lia. 
  run_with E. rewrite advance_write_spec by (simpl; lia).
  eexists; split; [reflexivity|]. done.
Qed.

Lemma write_from_full b src :
  mb_wf b → zlen src < 2 ^ 63 → MAX_BUFFER_SIZE < zlen (mb_content b) + zlen src →
  MessageBuffer_write_from src b = Threw b overrun.
Proof.
  intros Hwf Hs Hover. pose proof (zlen_nonneg src).
  unfold MessageBuffer_write_from, MessageBuffer_size. run_step.
  rewrite write_guard by (done || lia).
  by rewrite (proj2 (Z.ltb_lt _ _)) by lia.
Qed.

Lemma write_from_overrun b src :
  mb_wf b → zlen (mb_content b) + zlen src ≤ MAX_BUFFER_SIZE →
  MAX_BUFFER_SIZE < mb_write b + zlen src →
  MessageBuffer_write_from src b = Undef "MessageBuffer: write outside _buffer".
Proof.
  intros Hwf Hg Hover. pose proof (zlen_nonneg src). pose proof (zlen_nonneg (mb_content b)).
  unfold MessageBuffer_write_from, MessageBuffer_size. run_step.
  rewrite write_guard by (done || unfold MAX_BUFFER_SIZE in *; lia).
  rewrite (proj2 (Z.ltb_ge _ _)) by lia. run_step. unfold mb_store.
  by rewrite (proj2 (Z.leb_gt (mb_write b + _) _)), andb_false_r by lia.
Qed.

(** A read that finds the unread bytes at the front leaves the storage alone. *)
Lemma read_at_front b n :
  mb_wf b → 0 ≤ n ≤ zlen (mb_content b) → mb_read b = 0 →
  MessageBuffer_read n b = Done (set_mb_read n b) tt
  ∧ mb_wf (set_mb_read n b)
  ∧ mb_content (set_mb_read n b) = drop (Z.to_nat n) (mb_content b).
Proof.
  intros Hwf Hn Hr. pose proof (advance_read_spec b n Hwf Hn) as Hadv.
  rewrite Hr, Z.add_0_l in Hadv. split; [|done].
  unfold MessageBuffer_read. run_with readable_spec; [|done].
  rewrite (proj2 (Z.leb_le n _)) by lia. unfold MessageBuffer_remainWriteSize. simpl. run_step.
  assert (Harr : MessageBuffer_arrange b = Done b tt).
  { pose proof (mb_content_length b Hwf) as Hc. pose proof Hwf as [Hl Hrd Hw].
    unfold MessageBuffer_arrange. run_step.
    destruct (Z.eqb_spec (mb_read b) (mb_write b)) as [E|E].
    - unfold MessageBuffer_clear. run_step. destruct b; simpl in *; subst. done.
    - rewrite mb_size_content by done. run_with mb_load_content; [|done|lia].
      rewrite firstn_all_zlen. unfold mb_store.
      rewrite (proj2 (andb_true_iff _ _)) by (split; apply Z.leb_le; lia). run_step.
      f_equal. unfold mb_content. rewrite Hr, Z.sub_0_r. destruct b; simpl in *. subst.
      unfold set_mb_write, set_mb_read, set_mb_buffer. simpl. f_equal.
      + apply zsplice_zslice_same. lia.
      + rewrite zlen_zslice; lia. }
  destruct (_ <? _); [rewrite Harr|]; run_step; by rewrite Hr.
Qed.

(** Filling the storage behind [_write] and then [write(count)]: how the
    socket and the packet parsers put bytes into a buffer. *)
Lemma fill_write_spec b src :
  mb_wf b → mb_write b + zlen src ≤ MAX_BUFFER_SIZE →
  ∃ b', (mb_store (mb_write b) src;; MessageBuffer_write (zlen src)) b = Done b' tt ∧ mb_wf b'
    ∧ mb_content b' = mb_content b ++ src ∧ mb_write b' = mb_write b + zlen src
    ∧ mb_manip b' = mb_manip b.
Proof.
  intros Hwf Hsrc. pose proof (zlen_nonneg src).
  pose proof (mb_content_length b Hwf). pose proof Hwf as [_ Hr _].
  destruct (append_spec b src Hwf Hsrc) as (E & Hwf' & Hc').
  run_with E. unfold MessageBuffer_write, MessageBuffer_size. run_step.
  change (mb_size (set_mb_buffer _ b)) with (mb_size b).
  rewrite write_guard by (done || unfold MAX_BUFFER_SIZE in *; lia).
  rewrite (proj2 (Z.ltb_ge _ _)) by lia.
  rewrite advance_write_spec by (simpl; lia).
  eexists; split; [reflexivity|]. done.
Qed.

Lemma fresh_wf `{FreshMemory} m : mb_wf (raw_MessageBuffer m).
Proof.
  split; simpl; [| lia | unfold MAX_BUFFER_SIZE; lia].
  unfold zlen. rewrite fresh_bytes_length. unfold MAX_BUFFER_SIZE. lia.
Qed.

Lemma fresh_content `{FreshMemory} m : mb_content (raw_MessageBuffer m) = [].
Proof. reflexivity. Qed.
End Specs.

(** ** The buffer implements the queue *)

Lemma outcome_refines_bind {A B} (o : outcome MessageBuffer A) (q : outcome (list byte) A)
    (k : A → M MessageBuffer B) (k' : A → M (list byte) B) :
  outcome_refines o q →
  (∀ b a, o = Done b a → mb_wf b → outcome_refines (k a b) (k' a (mb_content b))) →
  outcome_refines (bind_outcome o (λ b a, k a b)) (bind_outcome q (λ l a, k' a l)).
Proof.
  intros Ho Hk. destruct o as [b a|b e| |], q as [l a'|l e'| |]; try done.
  destruct Ho as (Hwf & <- & <-). simpl. by apply Hk.
Qed.

(** One operation, given that the bytes it writes fit behind [_write]. *)
Lemma buffer_run_refines b o :
  mb_wf b → op_ok o → mb_write b + written o ≤ MAX_BUFFER_SIZE →
  outcome_refines (buffer_run o b) (queue_run o (mb_content b))
  ∧ ∀ b' r, buffer_run o b = Done b' r → mb_write b' ≤ mb_write b + written o.
Proof.
  intros Hwf Hok Hfit. pose proof (mb_content_length b Hwf) as Hc.
  pose proof Hwf as [_ Hr _].
  destruct o as [src|n|n| |]; unfold queue_run; cbn -[MAX_BUFFER_SIZE] in *.
  - destruct (write_from_spec b src Hwf Hfit) as (b' & E & Hwf' & Hc' & Hw' & _).
    rewrite (bind_done _ _ _ _ _ E). rewrite bind_run; cbn -[MAX_BUFFER_SIZE].
    rewrite (proj2 (Z.ltb_ge _ _)) by lia. split; [done|]. intros ?? [= <- <-]. lia.
  - rewrite bind_run; cbn -[MAX_BUFFER_SIZE].
    destruct (Z.leb_spec n (zlen (mb_content b))).
    + destruct (read_to_spec b n Hwf ltac:(lia)) as (b' & -> & Hwf' & Hc' & Hw' & _).
      split; [done|]. intros ?? [= <- <-]. lia.
    + rewrite read_to_short by done. done.
  - rewrite !bind_run, readable_to_spec by done. cbn -[MAX_BUFFER_SIZE].
    split; [| intros ?? [= <- <-]; lia]. split_and!; [done..|]. by case_match.
  - destruct (arrange_spec b Hwf) as (b' & E & Hwf' & Hc' & _ & Hw' & _).
    rewrite !(bind_done _ _ _ _ _ E). split; [done|]. intros ?? [= <- <-]. lia.
  - destruct (readAll_spec b Hwf) as (b' & E & Hwf' & Hc' & _ & Hw' & _).
    rewrite !(bind_done _ _ _ _ _ E). split; [done|]. intros ?? [= <- <-]. lia.
Qed.

Lemma written_nonneg o : 0 ≤ written o.
Proof. destruct o; simpl; try lia. apply zlen_nonneg. Qed.

Lemma total_written_cons o os : total_written (o :: os) = written o + total_written os.
Proof. reflexivity. Qed.

Lemma total_written_nonneg os : 0 ≤ total_written os.
Proof.
  induction os as [|o os IH]; [done|].
  rewrite total_written_cons. pose proof (written_nonneg o). lia.
Qed.

(** C1. [MessageBuffer] implements a FIFO queue of bytes bounded by
    [MAX_BUFFER_SIZE]: every sequence of writes, reads, peeks, moves and
    resets, on a well-formed buffer into whose storage all the bytes written
    fit, gives the same results, the same exceptions and the same remaining
    bytes as the queue, whenever and however often [read] moves the bytes to
    the front of the storage; and it never leaves the storage. *)
Theorem buffer_refines_queue (os : list buffer_op) (b : MessageBuffer)
    (Hwf : mb_wf b) (Hok : Forall op_ok os)
    (Hfit : mb_write b + total_written os ≤ MAX_BUFFER_SIZE) :
  outcome_refines (run_ops buffer_run os b) (run_ops queue_run os (mb_content b)).
Proof.
  revert b Hwf Hfit. induction os as [|o os IH]; intros b Hwf Hfit; [done|].
  apply Forall_cons in Hok as [Ho Hos].
  rewrite total_written_cons in Hfit. pose proof (total_written_nonneg os).
  destruct (buffer_run_refines b o Hwf Ho ltac:(lia)) as [Href Hw].
  cbn [run_ops]. rewrite !bind_run. apply outcome_refines_bind; [done|].
  intros b1 r Hrun Hwf1. rewrite !bind_run. apply outcome_refines_bind; [|done].
  apply Hw in Hrun. apply IH; [done..|]. lia.
Qed.

Lemma buffer_refines_queue_witness :
  let z := zero_memory in
  outcome_refines
    (run_ops buffer_run [OpWrite [Byte.x01; Byte.x02; Byte.x03]; OpRead 2; OpArrange; OpPeek 1; OpRead 2]
       (raw_MessageBuffer None))
    (run_ops queue_run [OpWrite [Byte.x01; Byte.x02; Byte.x03]; OpRead 2; OpArrange; OpPeek 1; OpRead 2]
       []).
Proof.
  intros z. apply (buffer_refines_queue _ (raw_MessageBuffer None)).
  - apply fresh_wf.
  - repeat constructor; simpl; lia.
  - by vm_compute.
Defined.

(** The guard of [write] compares the number of unread bytes with the
    capacity and forgets the bytes already read, which still take room in
    front of [_write]: after a write of [a] and a read of [n] bytes, a second
    write of [c] passes the guard as soon as [zlen a - n + zlen c] fits, and
    when [zlen a + zlen c] does not fit it writes past the end of [_buffer]. *)
Theorem write_after_read_overruns `{FreshMemory} (a c : list byte) (n : Z)
    (Hn : 0 ≤ n ≤ zlen a) (Ha : zlen a ≤ MAX_BUFFER_SIZE)
    (Hguard : zlen a - n + zlen c ≤ MAX_BUFFER_SIZE)
    (Hover : MAX_BUFFER_SIZE < zlen a + zlen c) :
  (MessageBuffer_write_from a;; MessageBuffer_read_to n;; MessageBuffer_write_from c)
    MessageBuffer_new = Undef "MessageBuffer: write outside _buffer".
Proof.
  unfold MessageBuffer_new. pose proof (fresh_wf None) as Hwf.
  destruct (write_from_spec _ a Hwf ltac:(simpl; lia)) as (b1 & E1 & Hwf1 & Hc1 & Hw1 & Hr1 & _).
  rewrite (bind_done _ _ _ _ _ E1). rewrite fresh_content in Hc1. simpl in Hc1, Hw1, Hr1.
  destruct (read_to_spec b1 n Hwf1) as (b2 & E2 & Hwf2 & Hc2 & _ & _ & Hz).
  { by rewrite Hc1. }
  destruct (Hz Hr1) as [Hr2 Hw2].
  rewrite (bind_done _ _ _ _ _ E2).
  apply write_from_overrun; [done|..]; rewrite ?Hc2, ?Hc1, ?zlen_drop; lia.
Qed.

Lemma write_after_read_overruns_witness :
  let z := zero_memory in
  let a := replicate (Z.to_nat 20000) Byte.x41 in
  (MessageBuffer_write_from a;; MessageBuffer_read_to 15000;; MessageBuffer_write_from a)
    MessageBuffer_new = Undef "MessageBuffer: write outside _buffer".
Proof.
  intros z a.
  apply (write_after_read_overruns a a 15000);
    unfold a; rewrite ?zlen_replicate; unfold MAX_BUFFER_SIZE; lia.
Defined.

(** The copy constructor copies from the start of the storage, not from
    the read pointer: after [n] bytes of [a] were read, the copy holds the
    first [zlen a - n] bytes of [a], which is the content of the original
    only when nothing was read. *)
Theorem copy_after_read `{FreshMemory} (a : list byte) (n : Z)
    (Hn : 0 ≤ n ≤ zlen a) (Ha : zlen a ≤ MAX_BUFFER_SIZE) :
  ∃ e c, (MessageBuffer_write_from a;; MessageBuffer_read n) MessageBuffer_new = Done e tt
    ∧ (MessageBuffer_copy e : M unit MessageBuffer) tt = Done tt c
    ∧ mb_content e = drop (Z.to_nat n) a
    ∧ mb_content c = take (Z.to_nat (zlen a - n)) a.
Proof.
  unfold MessageBuffer_new. pose proof (fresh_wf None) as Hwf.
  destruct (write_from_spec _ a Hwf ltac:(simpl; lia)) as (b1 & E1 & Hwf1 & Hc1 & Hw1 & Hr1 & _).
  rewrite (bind_done _ _ _ _ _ E1). rewrite fresh_content in Hc1. simpl in Hc1, Hw1, Hr1.
  destruct (read_at_front b1 n Hwf1 ltac:(by rewrite Hc1) Hr1) as (E2 & Hwf2 & Hc2).
  exists (set_mb_read n b1).
  pose proof (mb_size_content _ Hwf2) as Hsz. rewrite Hc2, Hc1, zlen_drop in Hsz by done.
  assert (Hsrc : zslice 0 (mb_size (set_mb_read n b1)) (mb_buffer b1)
                 = take (Z.to_nat (zlen a - n)) a).
  { rewrite Hsz. rewrite <- Hc1 at 3. unfold mb_content.
    by rewrite Hr1, Z.sub_0_r, take_zslice by lia. }
  destruct (write_from_spec _ (take (Z.to_nat (zlen a - n)) a) Hwf) as (c & E3 & _ & Hc3 & _).
  { simpl. rewrite zlen_take; lia. }
  exists c. split_and!; [done | | by rewrite Hc2, Hc1 | done].
  unfold MessageBuffer_copy. rewrite bind_run. unfold local_only. simpl mb_buffer. rewrite Hsrc.
  unfold MessageBuffer_clear. run_step. change (set_mb_write 0 _) with (raw_MessageBuffer None).
  by rewrite E3.
Qed.

Lemma copy_after_read_witness :
  let z := zero_memory in
  ∃ e c, (MessageBuffer_write_from [Byte.x01; Byte.x02; Byte.x03];; MessageBuffer_read 2)
           MessageBuffer_new = Done e tt
    ∧ (MessageBuffer_copy e : M unit MessageBuffer) tt = Done tt c
    ∧ mb_content e = [Byte.x03] ∧ mb_content c = [Byte.x01].
Proof.
  intros z. apply (copy_after_read [Byte.x01; Byte.x02; Byte.x03] 2);
    unfold MAX_BUFFER_SIZE; unfold zlen; simpl; lia.
Defined.
