(* ===== verification/PacketHeader.v ===== *)
(** * Packet headers

    Models the key macros and header manipulators of net/packetParserSimple.h
    and lobbysvr/packetParserJson.h, and net/packetEncType.h: a packet is a
    main key, then one or more parts, each a part key and a body.  Two header
    layouts are in use: the keyed one (a tag in the upper half of the key, the
    length in the lower half) and the one of the [_Test] manipulator (the
    length alone).  [HeaderCodec] is what a header manipulator promises to the
    packet parser that reads its headers. *)
From stdpp Require Import list strings.
From coqutil Require Import Byte Word.LittleEndianList.
From S2P Require Import Prelude.
From S2P Require Import MessageBuffer.
#[local] Open Scope Z_scope.

(** ** Encryption types *)
Module EncType.
Definition GREETING : Z := 0.
Definition AES_128_CBC : Z := 2.
Definition AES_128_CBC_keR : Z := 3.
End EncType.

(** ** Keys *)
Definition SIMPLE_PARSER_MAIN_KEY : Z := 0xffff0000.
Definition SIMPLE_PARSER_PART_KEY : Z := 0xfff30000.
(** [key] is an unsigned constant and [len] an [int]: the result is unsigned. *)
Definition SIMPLE_PARSER_KEY_MAKEKEY (key len : Z) : Z :=
  Z.lor (Z.land key 0xffff0000) (Z.land len 0x0000ffff).
(** [key] is an [int32_t], converted to unsigned by the mask. *)
Definition SIMPLE_PARSER_KEY_GETKEY (key : Z) : Z := Z.land (u32 key) 0xffff0000.
Definition SIMPLE_PARSER_KEY_GETLENGTH (key : Z) : Z := Z.land key 0x0000ffff.

Definition JSON_PARSER_MAIN_KEY : Z := 0xffff0000.
Definition JSON_PARSER_PART_KEY : Z := 0xfff30000.
Definition JSON_PARSER_KEY_MAKEKEY (key len : Z) : Z :=
  Z.lor (Z.land key 0xffff0000) (Z.land len 0x0000ffff).
Definition JSON_PARSER_KEY_GETKEY (key : Z) : Z := Z.land (u32 key) 0xffff0000.
Definition JSON_PARSER_KEY_GETLENGTH (key : Z) : Z := Z.land key 0x0000ffff.

(** ** Header manipulators

    [HEADER] is two [int32_t]: [mainKey] at offset 0 and [partKey] at offset 4
    of the memory the pointer [buffer] designates. *)
Definition PARTKEY_SIZE : Z := 4.
Definition sizeof_HEADER : Z := 8.

Definition region_store (off : Z) (bs : list byte) : M (list byte) unit :=
  region ← get_state;
  if (0 <=? off) && (off + zlen bs <=? zlen region)
  then put_state (zsplice off bs region)
  else undefined "header: write outside the buffer".

Definition store_HEADER (mainKey partKey : Z) : M (list byte) unit :=
  region_store 0 (le32 mainKey);;
  region_store 4 (le32 partKey).

(** [(int32_t)(currentSize - sizeof(HEADER))] *)
Definition header_bodySize (currentSize : Z) : Z := s32 (u64 (currentSize - sizeof_HEADER)).

Definition simpleParser_getHeaderSize : Z := sizeof_HEADER.
Definition simpleParser_facilitate (currentSize : Z) : M (list byte) unit :=
  let bodySize := header_bodySize currentSize in
  store_HEADER
    (s32 (SIMPLE_PARSER_KEY_MAKEKEY SIMPLE_PARSER_MAIN_KEY (PARTKEY_SIZE + bodySize)))
    (s32 (SIMPLE_PARSER_KEY_MAKEKEY SIMPLE_PARSER_PART_KEY bodySize)).

Definition jsonParser_getHeaderSize : Z := sizeof_HEADER.
Definition jsonParser_facilitate (currentSize : Z) : M (list byte) unit :=
  let bodySize := header_bodySize currentSize in
  store_HEADER
    (s32 (JSON_PARSER_KEY_MAKEKEY JSON_PARSER_MAIN_KEY (PARTKEY_SIZE + bodySize)))
    (s32 (JSON_PARSER_KEY_MAKEKEY JSON_PARSER_PART_KEY bodySize)).

Definition jsonParser_Test_getHeaderSize : Z := sizeof_HEADER.
Definition jsonParser_Test_facilitate (currentSize : Z) : M (list byte) unit :=
  let bodySize := header_bodySize currentSize in
  store_HEADER (s32 (PARTKEY_SIZE + bodySize)) bodySize.

(** [SIMPLE_PACKET_PARSING_SUPPORT::getMsgManipulator] and the two of
    [JSON_PACKET_PARSING_SUPPORT]: each a static built once and then shared. *)
Definition simple_getMsgManipulator : MsgUserManip :=
  {| manip_getHeaderSize := simpleParser_getHeaderSize;
     manip_facilitate := simpleParser_facilitate |}.
Definition json_getMsgManipulator : MsgUserManip :=
  {| manip_getHeaderSize := jsonParser_getHeaderSize;
     manip_facilitate := jsonParser_facilitate |}.
Definition json_getMsgManipulatorTest : MsgUserManip :=
  {| manip_getHeaderSize := jsonParser_Test_getHeaderSize;
     manip_facilitate := jsonParser_Test_facilitate |}.

(** ** How a parser reads a header

    The checks and the lengths that the parsers take out of [header.mainKey]
    and [header.partKey] (both [int32_t]); the lengths are [uint32_t]. *)
Record HeaderRules : Type := {
  main_key_ok : Z → bool;
  main_total_size : Z → Z;
  part_key_ok : Z → bool;
  part_body_size : Z → Z
}.

Definition simple_rules : HeaderRules := {|
  main_key_ok k := SIMPLE_PARSER_KEY_GETKEY k =? 0xffff0000;
  main_total_size k := u32 (SIMPLE_PARSER_KEY_GETLENGTH k + 4);
  part_key_ok k := SIMPLE_PARSER_KEY_GETKEY k =? 0xfff30000;
  part_body_size k := u32 (SIMPLE_PARSER_KEY_GETLENGTH k)
|}.

Definition json_rules : HeaderRules := {|
  main_key_ok k := JSON_PARSER_KEY_GETKEY k =? 0xffff0000;
  main_total_size k := u32 (JSON_PARSER_KEY_GETLENGTH k + 4);
  part_key_ok k := JSON_PARSER_KEY_GETKEY k =? 0xfff30000;
  part_body_size k := u32 (JSON_PARSER_KEY_GETLENGTH k)
|}.

(** The rules of the [Test] parsers: no tag, the whole key is the length. *)
Definition test_rules : HeaderRules := {|
  main_key_ok _ := true;
  main_total_size k := u32 (k + 4);
  part_key_ok _ := true;
  part_body_size k := u32 k
|}.

(** ** What a manipulator promises

    The two words a manipulator stores for a body of [n] bytes, read back as
    [int32_t], pass the checks of the rules and give the lengths of the body;
    [n] is bounded by the capacity of a [MessageBuffer]. *)
Class HeaderCodec (rules : HeaderRules) (manip : MsgUserManip) : Type := {
  codec_main : Z → Z;
  codec_part : Z → Z;
  codec_size : manip_getHeaderSize manip = sizeof_HEADER;
  codec_facilitate : ∀ currentSize,
    manip_facilitate manip currentSize
    = store_HEADER (codec_main (header_bodySize currentSize))
                   (codec_part (header_bodySize currentSize));
  codec_main_ok : ∀ n, 0 ≤ n ≤ MAX_BUFFER_SIZE →
    main_key_ok rules (s32 (u32 (codec_main n))) = true
    ∧ main_total_size rules (s32 (u32 (codec_main n))) = n + 8;
  codec_part_ok : ∀ n, 0 ≤ n ≤ MAX_BUFFER_SIZE →
    part_key_ok rules (s32 (u32 (codec_part n))) = true
    ∧ part_body_size rules (s32 (u32 (codec_part n))) = n
}.

(** The bytes of a packet of one part. *)
Definition frame {rules manip} `{!HeaderCodec rules manip} (body : list byte) : list byte :=
  le32 (codec_main (rules := rules) (manip := manip) (zlen body))
  ++ le32 (codec_part (rules := rules) (manip := manip) (zlen body)) ++ body.

(** ** Lemmas *)

Lemma land_mask_mod n k : 0 ≤ k → Z.land n (Z.ones k) = n mod 2 ^ k.
Proof. apply Z.land_ones. Qed.

Section KeyedLemmas.
Lemma makekey_bound key len : 0 ≤ key < 2 ^ 32 → 0 ≤ JSON_PARSER_KEY_MAKEKEY key len < 2 ^ 32.
Proof.
  intros Hk. unfold JSON_PARSER_KEY_MAKEKEY. split.
  { rewrite Z.lor_nonneg, !Z.land_nonneg. lia. }
  destruct (decide (Z.lor (Z.land key 4294901760) (Z.land len 65535) = 0)) as [->|Hnz]; [lia|].
  assert (Hnn : 0 ≤ Z.land len 65535) by (rewrite Z.land_nonneg; lia).
  assert (Hnn' : 0 ≤ Z.land key 4294901760) by (rewrite Z.land_nonneg; lia).
  apply Z.log2_lt_pow2; [rewrite Z.le_neq, Z.lor_nonneg; auto|].
  rewrite Z.log2_lor by done.
  apply Z.max_lub_lt.
  - eapply Z.le_lt_trans; [apply Z.log2_land; lia|].
    eapply Z.le_lt_trans; [apply Z.le_min_r|]. done.
  - change 65535 with (Z.ones 16). rewrite Z.land_ones by lia.
    eapply Z.le_lt_trans; [apply (Z.log2_le_mono _ 65535)|done].
    pose proof (Z.mod_pos_bound len (2 ^ 16) ltac:(lia)). lia.
Qed.

Lemma makekey_getkey key len :
  Z.land key 0x0000ffff = 0 → 0 ≤ key < 2 ^ 32 →
  JSON_PARSER_KEY_GETKEY (s32 (u32 (s32 (JSON_PARSER_KEY_MAKEKEY key len)))) = Z.land key 0xffff0000.
Proof.
  intros Hk Hb. unfold JSON_PARSER_KEY_GETKEY.
  rewrite s32_u32, u32_s32, u32_s32.
  rewrite u32_small by (by apply makekey_bound).
  unfold JSON_PARSER_KEY_MAKEKEY.
  rewrite Z.land_lor_distr_l, <- !Z.land_assoc.
  change (Z.land 65535 4294901760) with 0. change (Z.land 4294901760 4294901760) with 4294901760.
  by rewrite Z.land_0_r, Z.lor_0_r.
Qed.

Lemma makekey_getlength key len :
  Z.land key 0x0000ffff = 0 → 0 ≤ len < 2 ^ 16 → 0 ≤ key < 2 ^ 32 →
  JSON_PARSER_KEY_GETLENGTH (s32 (u32 (s32 (JSON_PARSER_KEY_MAKEKEY key len)))) = len.
Proof.
  intros Hk Hl Hb. unfold JSON_PARSER_KEY_GETLENGTH.
  rewrite s32_u32.
  change 65535 with (Z.ones 16). rewrite Z.land_ones by lia.
  pose proof (makekey_bound key len Hb).
  assert (Hm : s32 (s32 (JSON_PARSER_KEY_MAKEKEY key len)) mod 2 ^ 16 = JSON_PARSER_KEY_MAKEKEY key len mod 2 ^ 16) by wrap_lia.
  rewrite Hm, <- Z.land_ones by lia.
  unfold JSON_PARSER_KEY_MAKEKEY.
  rewrite Z.land_lor_distr_l, <- !Z.land_assoc.
  change (Z.land 4294901760 (Z.ones 16)) with 0. change (Z.land 65535 (Z.ones 16)) with (Z.ones 16).
  rewrite Z.land_0_r, Z.lor_0_l, Z.land_ones by lia. by apply Z.mod_small.
Qed.
End KeyedLemmas.

(** ** The manipulators of the program keep the promise *)

#[export] Program Instance json_codec : HeaderCodec json_rules json_getMsgManipulator := {|
  codec_main n := s32 (JSON_PARSER_KEY_MAKEKEY JSON_PARSER_MAIN_KEY (PARTKEY_SIZE + n));
  codec_part n := s32 (JSON_PARSER_KEY_MAKEKEY JSON_PARSER_PART_KEY n)
|}.
Next Obligation. reflexivity. Qed.
Next Obligation. reflexivity. Qed.
Next Obligation.
  intros n Hn. unfold MAX_BUFFER_SIZE in Hn. simpl. split.
  - rewrite makekey_getkey by done. done.
  - rewrite makekey_getlength by (done || unfold PARTKEY_SIZE; lia).
    rewrite u32_small; unfold PARTKEY_SIZE; lia.
Qed.
Next Obligation.
  intros n Hn. unfold MAX_BUFFER_SIZE in Hn. simpl. split.
  - rewrite makekey_getkey by done. done.
  - rewrite makekey_getlength by (done || lia). apply u32_small. lia.
Qed.

#[export] Program Instance simple_codec : HeaderCodec simple_rules simple_getMsgManipulator := {|
  codec_main n := s32 (SIMPLE_PARSER_KEY_MAKEKEY SIMPLE_PARSER_MAIN_KEY (PARTKEY_SIZE + n));
  codec_part n := s32 (SIMPLE_PARSER_KEY_MAKEKEY SIMPLE_PARSER_PART_KEY n)
|}.
Next Obligation. reflexivity. Qed.
Next Obligation. reflexivity. Qed.
Next Obligation. exact (codec_main_ok (HeaderCodec := json_codec)). Qed.
Next Obligation. exact (codec_part_ok (HeaderCodec := json_codec)). Qed.

#[export] Program Instance test_codec : HeaderCodec test_rules json_getMsgManipulatorTest := {|
  codec_main n := s32 (PARTKEY_SIZE + n);
  codec_part n := n
|}.
Next Obligation. reflexivity. Qed.
Next Obligation. reflexivity. Qed.
Next Obligation. intros n Hn. unfold MAX_BUFFER_SIZE in Hn. simpl. unfold PARTKEY_SIZE. split; [done | wrap_lia]. Qed.
Next Obligation. intros n Hn. unfold MAX_BUFFER_SIZE in Hn. simpl. split; [done | wrap_lia]. Qed.

(** [store_HEADER] overwrites the first eight bytes. *)
Lemma store_HEADER_run mainKey partKey region :
  8 ≤ zlen region →
  store_HEADER mainKey partKey region
  = Done (le32 mainKey ++ le32 partKey ++ drop 8 region) tt.
Proof.
  intros Hr. unfold store_HEADER, region_store. run_step.
  rewrite zlen_le32, (proj2 (andb_true_iff _ _)) by (split; apply Z.leb_le; lia). run_step.
  rewrite zlen_zsplice by (rewrite ?zlen_le32; lia). rewrite zlen_le32.
  rewrite (proj2 (andb_true_iff _ _)) by (split; apply Z.leb_le; lia). run_step. f_equal.
  rewrite (zsplice_front _ _ 4) by done.
  rewrite zsplice_app_r by (by rewrite zlen_le32).
  by rewrite (zsplice_front _ _ 4), drop_drop by done.
Qed.

Section CodecLemmas.
Context {rules : HeaderRules} {manip : MsgUserManip} `{!HeaderCodec rules manip}.

Lemma zlen_frame body : zlen (frame body) = zlen body + 8.
Proof. unfold frame. len. Qed.

(** [facilitate] on a message that starts with a header of any content. *)
Lemma facilitate_spec b hdr body :
  mb_wf b → mb_manip b = Some manip →
  mb_content b = hdr ++ body → zlen hdr = sizeof_HEADER → 
  ∃ b', MessageBuffer_facilitate b = Done b' tt ∧ mb_wf b' ∧ mb_content b' = frame body.
Proof.
  intros Hwf Hm Hc Hh. unfold MessageBuffer_facilitate. run_step. rewrite Hm.
  pose proof (mb_content_length b Hwf) as Hlen. rewrite Hc, zlen_app, Hh in Hlen.
  pose proof (zlen_nonneg body). pose proof Hwf as [Hl Hr Hw].
  unfold sizeof_HEADER in *. unfold zoom. rewrite codec_facilitate.
  assert (Hbs : header_bodySize (mb_size b) = zlen body).
  { rewrite mb_size_content, Hc, zlen_app, Hh by done.
    unfold header_bodySize, sizeof_HEADER, MAX_BUFFER_SIZE in *. wrap_lia. }
  rewrite Hbs, store_HEADER_run by (rewrite zlen_drop; lia).
  set (hd := le32 (codec_main (zlen body)) ++ le32 (codec_part (zlen body))).
  assert (Hhd : zlen hd = 8) by (unfold hd; len).
  cbn [map_state]. rewrite (app_assoc (le32 _) (le32 _)). fold hd.
  rewrite take_drop_zsplice by (try lia; unfold zlen in Hhd; lia).
  eexists; split; [reflexivity|].
  split; [split; simpl; rewrite ?zlen_zsplice; lia|].
  unfold mb_content. simpl.
  replace (mb_write b - mb_read b) with (8 + zlen body) by lia.
  rewrite zslice_split by lia. unfold frame. rewrite app_assoc. fold hd. f_equal.
  - rewrite <- Hhd. apply zslice_zsplice_same; lia.
  - rewrite zslice_zsplice_after by lia.
    assert (Hd : drop (Z.to_nat 8) (mb_content b) = body).
    { rewrite Hc. by apply drop_app_zlen. }
    rewrite <- Hd at 2. unfold mb_content. rewrite drop_zslice by lia. f_equal. lia.
Qed.
End CodecLemmas.
