(* ===== verification/Connection.v ===== *)
(** * The connection interface

    Models net/connection.h (the abstract class [Connection] and
    [status_codes]) and the callback table of net/eventReceiver.h
    ([EventReceiver]).  The class of the source becomes a typeclass over the
    type [W] of the world the methods act on; ConnectionImpl.v gives the
    instance, the parsers, the user managers and the handlers are written
    against the class. *)
From stdpp Require Import list strings.
From coqutil Require Import Byte.
From S2P Require Import Prelude.
From S2P Require Import MessageBuffer.
#[local] Open Scope Z_scope.

(** Addresses of heap objects: connections, and the [void*] tags. *)
Definition ConnPtr : Type := N.
Definition TagPtr : Type := N.
(** Pointers to event receivers and message procedures: code and tables that
    are fixed once the services are created, looked up outside the world. *)
Definition RecvPtr : Type := N.
Definition MsgProcPtr : Type := N.
#[export] Instance ConnPtr_eq_dec : EqDecision ConnPtr := N.eq_dec.

(** A resolved address and port, an opaque value of the resolver. *)
Definition Endpoint : Type := N.

(** [status_codes] of mln_net_constants.dat. *)
Definition SHUTDOWN : Z := 10058.

Inductive status : Type := status_open | status_closing | status_close.
#[export] Instance status_eq_dec : EqDecision status.
Proof. solve_decision. Defined.

(** ** EventReceiver: a table of function pointers, null until registered *)
Record EventReceiver (W : Type) : Type := mkEventReceiver {
  er_onAccept : option (ConnPtr → M W unit);
  er_onAcceptFailed : option (ConnPtr → M W unit);
  er_onConnect : option (ConnPtr → M W unit);
  er_onConnectFailed : option (ConnPtr → M W unit);
  er_onClose : option (ConnPtr → M W unit);
  er_onCloseFailed : option (ConnPtr → M W unit);
  er_onExpiredSession : option (ConnPtr → M W unit);
  er_onUpdate : option (Z → M W unit);
  er_noHandler : option (ConnPtr → M (MessageBuffer * W) unit);
  er_initHandler : option (MsgProcPtr → M W unit)
}.
Arguments mkEventReceiver {W}.
Arguments er_onAccept {W}.
Arguments er_onAcceptFailed {W}.
Arguments er_onConnect {W}.
Arguments er_onConnectFailed {W}.
Arguments er_onClose {W}.
Arguments er_onCloseFailed {W}.
Arguments er_onExpiredSession {W}.
Arguments er_onUpdate {W}.
Arguments er_noHandler {W}.
Arguments er_initHandler {W}.

Definition EventReceiver_empty {W} : EventReceiver W :=
  mkEventReceiver None None None None None None None None None None.

(** A call through a function pointer. *)
Definition call {S A B} (f : option (A → M S B)) (a : A) : M S B :=
  match f with
  | Some g => g a
  | None => undefined "call through a null function pointer"
  end.

(** ** The virtual methods *)
Class Connection (W : Type) : Type := {
  conn_set_status : ConnPtr → status → M W unit;
  conn_get_status : ConnPtr → M W status;
  conn_start_accept : ConnPtr → M W unit;
  conn_start_connect : ConnPtr → M W unit;
  conn_send : ConnPtr → M (MessageBuffer * W) unit;
  conn_sendRaw : ConnPtr → list byte → M W unit;
  conn_sendPacket : ConnPtr → list byte → M W unit;
  conn_setTag : ConnPtr → option TagPtr → M W unit;
  conn_getTag : ConnPtr → M W (option TagPtr);
  conn_setServiceID : ConnPtr → Z → M W unit;
  conn_getServiceID : ConnPtr → M W Z;
  conn_getConnectionID : ConnPtr → M W Z;
  conn_getIdentity : ConnPtr → M W Z;
  conn_isSyncEncryptionKey : ConnPtr → Z → M W bool;
  conn_setSyncEncryptionKey : ConnPtr → Z → bool → M W unit;
  conn_closeReserve : ConnPtr → Z → M W unit;
  conn_incReadHandlerPendingCount : ConnPtr → M W Z;
  conn_decReadHandlerPendingCount : ConnPtr → M W Z;
  conn_getMsgManip : ConnPtr → M W (option MsgUserManip);
  conn_remote_endpoint : ConnPtr → M W Endpoint      (* socket().remote_endpoint() *)
}.

(** [getReceiver()] is apart: the callbacks of a receiver use the other
    methods, and the table of receivers is made of those callbacks. *)
Class ConnectionReceiver (W : Type) : Type := {
  conn_getReceiver : ConnPtr → M W (EventReceiver W)
}.
