(* ===== verification/MessageProcedure.v ===== *)
(** * Message procedures

    Models net/messageProcedure.h and net/messageProcedure.cpp: the tables of
    packet handlers and of cipher handlers of a service, their registration,
    and [dispatch], which runs the packet parser of the service on a received
    buffer. *)
From stdpp Require Import list strings gmap.
From S2P Require Import Prelude.
From S2P Require Import MessageBuffer.
From S2P Require Import Connection.
#[local] Open Scope Z_scope.

Definition UINT8_MAX : Z := 255.
Definition NOT_SET_CIPHER_VALUE : Z := UINT8_MAX + 1.

Section MessageProcedure.
  Context {W : Type}.

(** [boost::function<bool(Connection::ptr, uint32_t, MessageBuffer&)>] *)
Definition msgHandlerFn : Type := ConnPtr → Z → M (MessageBuffer * W) bool.
(** [bool(const uint8_t, void *, Connection::ptr, uint32_t, MessageBuffer&)] *)
Definition msgHandlerFn_cipherInit : Type :=
  Z → option TagPtr → ConnPtr → Z → M (MessageBuffer * W) bool.
(** [bool(const uint8_t, Connection::ptr, uint32_t, MessageBuffer&, MessageBuffer&)];
    the last buffer, the decrypted one, comes first in the state. *)
Definition msgHandlerFn_cipherDEC : Type :=
  Z → ConnPtr → Z → M (MessageBuffer * (MessageBuffer * W)) bool.
Definition msgHandlerFn_headerBody : Type :=
  ConnPtr → option TagPtr → M (MessageBuffer * W) bool.

Record encParameters : Type := mkEncParameters {
  enc_type : Z;
  enc_init : option msgHandlerFn_cipherInit;
  enc_dec : option msgHandlerFn_cipherDEC
}.

(** The tables: all of a [MessageProcedure] that a packet parser sees of its
    [MessageProcedure&] argument. *)
Record HandlerTables : Type := mkHandlerTables {
  mp_instanceElements : gmap Z msgHandlerFn;
  mp_staticElements : gmap Z msgHandlerFn;
  mp_userCipherType : Z;
  mp_ciperHandlers : list encParameters;
  mp_msgHandlerHeaderBody : option msgHandlerFn_headerBody
}.

Definition msgMapTy : Type := gmap Z msgHandlerFn.
(** [msgMapTy::find] *)
Definition find_handler (m : msgMapTy) (code : Z) : option msgHandlerFn :=
  @lookup Z msgHandlerFn (gmap Z msgHandlerFn) _ code m.

(** [customMessageParser]; the buffer it gets is the first state component. *)
Definition customMessageParser : Type :=
  ConnPtr → HandlerTables → msgMapTy → msgMapTy → M (MessageBuffer * W) bool.

Record MessageProcedure : Type := mkMessageProcedure {
  mp_tables : HandlerTables;
  mp_packetParsingFunction : option customMessageParser;
  mp_packetHeaderManip : option MsgUserManip
}.

Definition MessageProcedure_new (msgParser : option customMessageParser)
    (manip : option MsgUserManip) : MessageProcedure :=
  mkMessageProcedure
    (mkHandlerTables ∅ ∅ NOT_SET_CIPHER_VALUE
       (replicate (Z.to_nat UINT8_MAX) (mkEncParameters 0 None None)) None)
    msgParser manip.

(** ** Registration *)

(** [registMessage(uint32_t, msgHandlerFn)] *)
Definition registMessage (protocol : Z) (fn : msgHandlerFn) : M HandlerTables bool :=
  t ← get_state;
  match mp_staticElements t !! protocol with
  | Some _ => mret false
  | None =>
      put_state (mkHandlerTables (mp_instanceElements t)
        (<[protocol := fn]> (mp_staticElements t)) (mp_userCipherType t)
        (mp_ciperHandlers t) (mp_msgHandlerHeaderBody t));;
      mret true
  end.

(** The overload for a member function; [fn] is already bound to its object. *)
Definition registMessage_member (protocol : Z) (fn : msgHandlerFn) : M HandlerTables bool :=
  t ← get_state;
  match mp_instanceElements t !! protocol with
  | Some _ => mret false
  | None =>
      put_state (mkHandlerTables (<[protocol := fn]> (mp_instanceElements t))
        (mp_staticElements t) (mp_userCipherType t)
        (mp_ciperHandlers t) (mp_msgHandlerHeaderBody t));;
      mret true
  end.

Definition setUserCipherType (cipherType : Z) : M HandlerTables unit :=
  modify (λ t, mkHandlerTables (mp_instanceElements t) (mp_staticElements t)
                 cipherType (mp_ciperHandlers t) (mp_msgHandlerHeaderBody t)).
Definition getUserCipherType (t : HandlerTables) : Z := mp_userCipherType t.

(** Both overloads of [setCipher]; [encType] is a [uint8_t] and
    [_ciperHandlers] has [UINT8_MAX] elements. *)
Definition setCipher (encType : Z) (initFunc : option msgHandlerFn_cipherInit)
    (decFunc : option msgHandlerFn_cipherDEC) : M HandlerTables unit :=
  t ← get_state;
  if bool_decide (encType < UINT8_MAX) then
    put_state (mkHandlerTables (mp_instanceElements t) (mp_staticElements t)
      (mp_userCipherType t)
      (<[Z.to_nat encType := mkEncParameters encType initFunc decFunc]> (mp_ciperHandlers t))
      (mp_msgHandlerHeaderBody t));;
    setUserCipherType encType
  else undefined "_ciperHandlers: index out of bounds".

Definition getCipherHandler {S} (t : HandlerTables) (encType : Z) : M S encParameters :=
  deref "_ciperHandlers: index out of bounds" (mp_ciperHandlers t !! Z.to_nat encType).

Definition setMsgHandler_HeaderBody (func : option msgHandlerFn_headerBody)
    : M HandlerTables unit :=
  modify (λ t, mkHandlerTables (mp_instanceElements t) (mp_staticElements t)
                 (mp_userCipherType t) (mp_ciperHandlers t) func).
Definition getMsgHandler_HeaderBody (t : HandlerTables) : option msgHandlerFn_headerBody :=
  mp_msgHandlerHeaderBody t.

(** ** Dispatch *)

(** [dispatch(spConn, msg)]: the buffer is dropped when it returns. *)
Definition MessageProcedure_dispatch `{!Connection W} (mp : MessageProcedure)
    (spConn : ConnPtr) (msg : MessageBuffer) : M W bool :=
  st ← conn_get_status spConn;
  if bool_decide (st ≠ status_open) then mret false
  else
    result ← match mp_packetParsingFunction mp with
             | Some parse =>
                 r ← with_local msg
                       (parse spConn (mp_tables mp) (mp_instanceElements (mp_tables mp))
                          (mp_staticElements (mp_tables mp)));
                 mret (snd r)
             | None => mret false
             end;
    _ ← conn_decReadHandlerPendingCount spConn;
    mret result.

End MessageProcedure.
Arguments msgHandlerFn : clear implicits.
Arguments msgHandlerFn_cipherInit : clear implicits.
Arguments msgHandlerFn_cipherDEC : clear implicits.
Arguments msgHandlerFn_headerBody : clear implicits.
Arguments encParameters : clear implicits.
Arguments HandlerTables : clear implicits.
Arguments msgMapTy : clear implicits.
Arguments customMessageParser : clear implicits.
Arguments MessageProcedure : clear implicits.

(** The parser of a procedure keeps a relation on the worlds. *)
Definition parser_keeps {W} (R : W → W → Prop) (mp : MessageProcedure W) : Prop :=
  ∀ parse, mp_packetParsingFunction mp = Some parse →
  ∀ c t m s, keeps (rel_snd R) (parse c t m s).
