(* ===== verification/EventReceiver.v ===== *)
(** * Event receivers

    Models the classes of net/eventReceiver.h: a receiver is a table of
    function pointers, all null at first; the [Register] templates fill it
    from the static functions of a class, an acceptor without the [onConnect]
    pointers and a connector without the [onAccept] ones, and [clone] copies
    the table into the receiver a service owns. *)
From stdpp Require Import strings list.
From S2P Require Import Prelude.
From S2P Require Import MessageBuffer.
From S2P Require Import Connection.
#[local] Open Scope Z_scope.

Section Receivers.
Context {W : Type}.

(** The static functions a [StaticFunctionsClass] may have; the templates
    only instantiate the ones they use. *)
Record StaticFunctionsClass : Type := mkStaticFunctionsClass {
  sf_onAccept : ConnPtr → M W unit;
  sf_onAcceptFailed : ConnPtr → M W unit;
  sf_onConnect : ConnPtr → M W unit;
  sf_onConnectFailed : ConnPtr → M W unit;
  sf_onClose : ConnPtr → M W unit;
  sf_onCloseFailed : ConnPtr → M W unit;
  sf_onExpiredSession : ConnPtr → M W unit;
  sf_onUpdate : Z → M W unit;
  sf_noHandler : ConnPtr → M (MessageBuffer * W) unit;
  sf_initHandler : MsgProcPtr → M W unit
}.

(** [EventReceiver::clone(target)]: the target's table afterwards. *)
Definition EventReceiver_clone (self target : EventReceiver W) : EventReceiver W :=
  mkEventReceiver (er_onAccept self) (er_onAcceptFailed self) (er_onConnect self)
    (er_onConnectFailed self) (er_onClose self) (er_onCloseFailed self)
    (er_onExpiredSession self) (er_onUpdate self) (er_noHandler self) (er_initHandler self).

(** [EventReceiverDummy]: what a service holds before [clone]. *)
Definition EventReceiverDummy : EventReceiver W := EventReceiver_empty.

Definition EventReceiverAcceptorRegister (f : StaticFunctionsClass) : EventReceiver W :=
  {| er_onAccept := Some (sf_onAccept f);
     er_onAcceptFailed := Some (sf_onAcceptFailed f);
     er_onConnect := None;
     er_onConnectFailed := None;
     er_onClose := Some (sf_onClose f);
     er_onCloseFailed := Some (sf_onCloseFailed f);
     er_onExpiredSession := Some (sf_onExpiredSession f);
     er_onUpdate := Some (sf_onUpdate f);
     er_noHandler := Some (sf_noHandler f);
     er_initHandler := Some (sf_initHandler f) |}.

Definition EventReceiverConnectorRegister (f : StaticFunctionsClass) : EventReceiver W :=
  {| er_onAccept := None;
     er_onAcceptFailed := None;
     er_onConnect := Some (sf_onConnect f);
     er_onConnectFailed := Some (sf_onConnectFailed f);
     er_onClose := Some (sf_onClose f);
     er_onCloseFailed := Some (sf_onCloseFailed f);
     er_onExpiredSession := Some (sf_onExpiredSession f);
     er_onUpdate := Some (sf_onUpdate f);
     er_noHandler := Some (sf_noHandler f);
     er_initHandler := Some (sf_initHandler f) |}.

(** The receiver of a service: the dummy, overwritten by [clone]. *)
Definition service_receiver (r : EventReceiver W) : EventReceiver W :=
  EventReceiver_clone r EventReceiverDummy.

Lemma service_receiver_eq r : service_receiver r = r.
Proof. by destruct r. Qed.
End Receivers.
Arguments StaticFunctionsClass : clear implicits.

(** ** Callbacks, related to the world they run in

    The callbacks of a receiver are code of the application: all of them keep
    a relation. *)
Section Keeps.
Context {W : Type} (R : W → W → Prop).

Definition callback_keeps {A} (f : option (A → M W unit)) : Prop :=
  ∀ g a, f = Some g → keeps R (g a).
Record receiver_keeps (er : EventReceiver W) : Prop := {
  rf_onAccept : callback_keeps (er_onAccept er);
  rf_onAcceptFailed : callback_keeps (er_onAcceptFailed er);
  rf_onConnect : callback_keeps (er_onConnect er);
  rf_onConnectFailed : callback_keeps (er_onConnectFailed er);
  rf_onClose : callback_keeps (er_onClose er);
  rf_onCloseFailed : callback_keeps (er_onCloseFailed er);
  rf_onExpiredSession : callback_keeps (er_onExpiredSession er);
  rf_onUpdate : callback_keeps (er_onUpdate er);
  rf_noHandler : ∀ g a, er_noHandler er = Some g → keeps (rel_snd R) (g a);
  rf_initHandler : callback_keeps (er_initHandler er)
}.

Lemma call_kept {A} (f : option (A → M W unit)) a : callback_keeps f → keeps R (call f a).
Proof. intros Hf. destruct f as [g|]; simpl; [by apply Hf|apply keeps_undefined]. Qed.
End Keeps.
