(* ===== verification/MlnUtils.v ===== *)
(** * String helpers of the lobby server

    Models lobbysvr/mlnUtils.cpp as it is built outside Windows: a
    [std::string] is a [string] of bytes.  [getLocalTimeSec] reads a clock, a
    parameter where it is used; [getRandomNumber] has no caller and is not
    modelled. *)
From stdpp Require Import strings list.
From coqutil Require Import Byte.
From Stdlib Require Import Ascii.
From Stdlib Require String.
From S2P Require Import Prelude.
#[local] Open Scope Z_scope.

(** The bytes of a [std::string], and back. *)
Definition string_bytes (s : string) : list byte := String.list_byte_of_string s.
Definition bytes_string (l : list byte) : string := String.string_of_list_byte l.

Lemma bytes_string_bytes s : bytes_string (string_bytes s) = s.
Proof. apply String.string_of_list_byte_of_string. Qed.
Lemma string_bytes_string l : string_bytes (bytes_string l) = l.
Proof. apply String.list_byte_of_string_of_list_byte. Qed.

(** A [std::string] made of a [const char *]: up to the first NUL. *)
Definition string_of_c_str (s : string) : string := bytes_string (c_str (string_bytes s)).

(** A [std::string] made of an array: without a NUL in the array the
    constructor reads past its end. *)
Definition has_nul (bs : list byte) : bool := existsb (λ b, bool_decide (b = Byte.x00)) bs.
Definition string_of_array {S} (bs : list byte) : M S string :=
  if has_nul bs then mret (bytes_string (c_str bs))
  else undefined "a char array without a terminating NUL read as a string".

Definition MB2UTF8 (mbString : string) : string := string_of_c_str mbString.

(** [::tolower] and [std::isspace] of the C locale. *)
Definition tolower (c : ascii) : ascii :=
  let n := nat_of_ascii c in
  if (65 <=? n)%nat && (n <=? 90)%nat then ascii_of_nat (n + 32) else c.
Definition isspace (c : ascii) : bool :=
  let n := nat_of_ascii c in (n =? 32)%nat || ((9 <=? n)%nat && (n <=? 13)%nat).

Fixpoint toLowerCase (src : string) : string :=
  match src with
  | EmptyString => EmptyString
  | String c s => String (tolower c) (toLowerCase s)
  end.

(** [trim] erases up to the first character that is not a space. *)
Fixpoint trim (s : string) : string :=
  match s with
  | EmptyString => EmptyString
  | String c s' => if isspace c then trim s' else s
  end.

Lemma has_nul_app l1 l2 : has_nul (l1 ++ l2) = has_nul l1 || has_nul l2.
Proof. apply existsb_app. Qed.

Lemma c_str_app_nul l1 l2 : has_nul l1 = false → c_str (l1 ++ Byte.x00 :: l2) = l1.
Proof.
  induction l1 as [|b l1 IH]; simpl; [done|]. intros Hn. apply orb_false_iff in Hn as [Hb Hn].
  apply bool_decide_eq_false in Hb. rewrite decide_False by done. by rewrite IH.
Qed.

Lemma string_of_array_padded {S} url n :
  (0 < n)%nat → has_nul url = false →
  (string_of_array (url ++ replicate n Byte.x00) : M S string) = mret (bytes_string url).
Proof.
  intros Hn Hu. destruct n as [|n]; [lia|]. simpl. unfold string_of_array.
  rewrite has_nul_app. simpl. rewrite orb_true_r. by rewrite c_str_app_nul.
Qed.

Lemma tolower_idem c : tolower (tolower c) = tolower c.
Proof. by destruct c as [[] [] [] [] [] [] [] []]. Qed.

Lemma toLowerCase_idem s : toLowerCase (toLowerCase s) = toLowerCase s.
Proof. induction s as [|c s IH]; simpl; [done|]. by rewrite tolower_idem, IH. Qed.

Lemma trim_idem s : trim (trim s) = trim s.
Proof.
  induction s as [|c s IH]; simpl; [done|]. destruct (isspace c) eqn:E; [done|].
  simpl. by rewrite E.
Qed.
