(* ===== verification/Protocol.v ===== *)
(** * Packet structures

    Models include/lobby_protocol.h and include/broker_protocol.h: packed
    structures, here the bytes of the object with an offset and a length for
    every member.  A copy that runs past the end of a member is undefined. *)
From stdpp Require Import strings list.
From coqutil Require Import Byte Word.LittleEndianList.
From S2P Require Import Prelude.
#[local] Open Scope Z_scope.

Record member : Type := mkMember { m_off : Z; m_len : Z }.

Definition object : Type := list byte.

(** [memcpy(m + i, src, n)] *)
Definition memcpy_member (m : member) (i : Z) (src : list byte) : M object unit :=
  if (0 <=? i) && (i + zlen src <=? m_len m)
  then modify (zsplice (m_off m + i) src)
  else undefined "memcpy past the end of an array member".
(** An assignment to a whole member. *)
Definition store_member (m : member) (src : list byte) : M object unit := memcpy_member m 0 src.
Definition load_member (m : member) (n : Z) (o : object) : list byte := zslice (m_off m) n o.
Definition load_uint (m : member) (o : object) : Z := le_combine (load_member m (m_len m) o).
(** A copy over the start of the object. *)
Definition memcpy_object (size : Z) (src : list byte) : M object unit :=
  if zlen src <=? size then modify (zsplice 0 src)
  else undefined "memcpy past the end of an object".

Definition byte_of (z : Z) : list byte := le_split 1 z.

Module LOBBY_PROTOCOL.
Definition PT_JSON_packet_value : Z := 1.
Definition MAX_BODY_SIZE : Z := 30000.
Definition MAX_URL_STRING : Z := 32.
Definition HEAD_SIZE : Z := 40.

(** [PT_JSON], [#pragma pack(1)]. *)
Definition code : member := mkMember 0 1.
Definition sequenceNo : member := mkMember 1 4.
Definition isCompressed : member := mkMember 5 1.
Definition url : member := mkMember 6 32.
Definition bodySize : member := mkMember 38 2.
Definition jsonBody : member := mkMember 40 30000.
Definition sizeof_PT_JSON : Z := 30040.

Section New.
Context `{FreshMemory}.
(** The initialisers of the members, then the body of the constructor. *)
Definition PT_JSON_init : M object unit :=
  store_member isCompressed (byte_of 0);;
  store_member bodySize (le16 0);;
  store_member code (byte_of PT_JSON_packet_value);;
  store_member url (replicate (Z.to_nat MAX_URL_STRING) Byte.x00).
Definition PT_JSON_raw : object := fresh_bytes (Z.to_nat sizeof_PT_JSON).
End New.

Definition PT_HEARTBEAT_packet_value : Z := 3.
Definition sizeof_PT_HEARTBEAT : Z := 1.
Definition PT_AUTHKEY_REQ_packet_value : Z := 5.
Definition PT_AUTHKEY_ACK_packet_value : Z := 6.
Definition KEY_SIZE : Z := 20.
Definition PT_Test_packet_value : Z := 7.
End LOBBY_PROTOCOL.

Module BROKER_PROTOCOL.
Definition PT_JSON_packet_value : Z := 1.
Definition MAX_BODY_SIZE : Z := 4000.
Definition MAX_URL_STRING : Z := 32.
Definition HEAD_SIZE : Z := 38.

Definition code : member := mkMember 0 4.
Definition url : member := mkMember 4 32.
Definition bodySize : member := mkMember 36 2.
Definition jsonBody : member := mkMember 38 4000.
Definition sizeof_PT_JSON : Z := 4038.

Section New.
Context `{FreshMemory}.
Definition PT_JSON_init : M object unit :=
  store_member bodySize (le16 0);;
  store_member code (le32 PT_JSON_packet_value);;
  store_member url (replicate (Z.to_nat MAX_URL_STRING) Byte.x00).
Definition PT_JSON_raw : object := fresh_bytes (Z.to_nat sizeof_PT_JSON).
End New.
End BROKER_PROTOCOL.

(** The layouts leave no gap: [HEAD_SIZE] is the offset of the body, and the
    structure ends where its last member ends. *)
Definition layout_ok (ms : list member) (size : Z) : bool :=
  bool_decide (foldl (λ o m, match o with
                             | Some off => if off =? m_off m then Some (off + m_len m) else None
                             | None => None end) (Some 0) ms = Some size).

(** ** Reading and writing members *)
Lemma memcpy_member_run m i src o :
  0 ≤ i → i + zlen src ≤ m_len m →
  memcpy_member m i src o = Done (zsplice (m_off m + i) src o) tt.
Proof.
  intros Hi Hl. unfold memcpy_member.
  by rewrite (proj2 (andb_true_iff _ _)) by (split; apply Z.leb_le; lia).
Qed.

Lemma store_member_run m src o :
  zlen src ≤ m_len m → store_member m src o = Done (zsplice (m_off m) src o) tt.
Proof.
  intros Hl. unfold store_member. rewrite memcpy_member_run by lia. by rewrite Z.add_0_r.
Qed.

Lemma memcpy_member_overrun m i src o :
  0 ≤ i → m_len m < i + zlen src →
  memcpy_member m i src o = Undef "memcpy past the end of an array member".
Proof.
  intros Hi Hl. unfold memcpy_member. rewrite (proj2 (andb_false_iff _ _)); [done|].
  right. apply Z.leb_gt. lia.
Qed.

(** Two members that do not overlap. *)
Lemma load_store_other m m' n src o :
  0 ≤ m_off m → 0 ≤ m_off m' → 0 ≤ n → m_off m' + zlen src ≤ zlen o →
  (m_off m + n ≤ m_off m' ∨ m_off m' + zlen src ≤ m_off m ∧ m_off m + n ≤ zlen o) →
  load_member m n (zsplice (m_off m') src o) = load_member m n o.
Proof.
  intros Hm Hm' Hn Hlen [Hb|[Ha Ho]]; unfold load_member.
  - apply zslice_zsplice_before; try lia. pose proof (zlen_nonneg src). lia.
  - apply zslice_zsplice_after; lia.
Qed.

Lemma load_store_same m src o :
  0 ≤ m_off m → m_off m + zlen src ≤ zlen o →
  load_member m (zlen src) (zsplice (m_off m) src o) = src.
Proof. intros. by apply zslice_zsplice_same. Qed.

(** An object as the sequence of its members: a copy into the [i]-th. *)
Lemma zsplice_concat (cs : list (list byte)) i off new old :
  cs !! i = Some old → off = zlen (concat (take i cs)) → zlen new ≤ zlen old →
  zsplice off new (concat cs) = concat (<[i := zsplice 0 new old]> cs).
Proof.
  intros Hi -> Hl. pose proof (take_drop_middle cs i old Hi) as Hcs.
  assert (Hlt : (i < length cs)%nat) by by eapply lookup_lt_Some.
  rewrite (insert_take_drop cs i _ Hlt). rewrite <- Hcs at 2.
  rewrite !concat_app. simpl.
  rewrite zsplice_app_ge, Z.sub_diag by lia. f_equal.
  unfold zsplice. change (Z.to_nat 0) with 0%nat. simpl. unfold zlen in Hl.
  by rewrite drop_app_le, <- app_assoc by lia.
Qed.

(** An object cut at given lengths. *)
Lemma cut_object (o : object) n :
  0 ≤ n ≤ zlen o → ∃ a b, o = a ++ b ∧ zlen a = n ∧ zlen b = zlen o - n.
Proof.
  intros Hn. exists (take (Z.to_nat n) o), (drop (Z.to_nat n) o).
  by rewrite take_drop, zlen_take, zlen_drop.
Qed.

Example lobby_layout :
  layout_ok [LOBBY_PROTOCOL.code; LOBBY_PROTOCOL.sequenceNo; LOBBY_PROTOCOL.isCompressed;
             LOBBY_PROTOCOL.url; LOBBY_PROTOCOL.bodySize; LOBBY_PROTOCOL.jsonBody]
    LOBBY_PROTOCOL.sizeof_PT_JSON = true.
Proof. reflexivity. Qed.
Example broker_layout :
  layout_ok [BROKER_PROTOCOL.code; BROKER_PROTOCOL.url; BROKER_PROTOCOL.bodySize;
             BROKER_PROTOCOL.jsonBody] BROKER_PROTOCOL.sizeof_PT_JSON = true.
Proof. reflexivity. Qed.
