(* ===== verification/Json.v ===== *)
(** * JSON values

    The server handles JSON through jsoncpp, which is not part of the
    repository: its values and functions are parameters ([Jsoncpp]), and what
    the server relies on of their documentation are the laws of [JsonLaws].
    [Module DemoJson] is a small implementation that shows the laws can hold
    and that the witnesses compute with. *)
From stdpp Require Import gmap strings list pretty.
From S2P Require Import Prelude.
#[local] Open Scope Z_scope.

(** What the reader makes of a text: [Json::Reader] throws on a text that is
    nested deeper than its limit. *)
Inductive parse_result (V : Type) : Type := Parsed (v : V) | NotJson | TooDeep.
#[global] Arguments Parsed {V}.
#[global] Arguments NotJson {V}.
#[global] Arguments TooDeep {V}.

(** Reading a member of a value that is neither null nor an object, and
    converting to a type the value does not convert to, throw. *)
Class Jsoncpp : Type := {
  Value : Type;
  json_null : Value;
  json_get : string → Value → option Value;          (* null if there is no such member *)
  json_set : string → Value → Value → option Value;
  json_isNull : Value → bool;
  json_asString : Value → option string;
  json_asCString : Value → option string;
  json_asInt : Value → option Z;
  json_asUInt : Value → option Z;
  json_asUInt64 : Value → option Z;
  json_int : Z → Value;
  json_uint : Z → Value;
  json_uint64 : Z → Value;
  json_string : string → Value;
  FastWriter_write : Value → string;
  Reader_parse : string → parse_result Value
}.

Class JsonLaws (J : Jsoncpp) : Prop := {
  get_set_same k v j j' : json_set k v j = Some j' → json_get k j' = Some v;
  get_set_other k k' v j j' :
    k ≠ k' → json_set k v j = Some j' → json_get k' j' = json_get k' j;
  get_null k : json_get k json_null = Some json_null;
  set_null k v : is_Some (json_set k v json_null);
  set_of_get k v v' j : json_get k j = Some v → is_Some (json_set k v' j);
  isNull_null : json_isNull json_null = true;
  isNull_int z : json_isNull (json_int z) = false;
  isNull_string s : json_isNull (json_string s) = false;
  asCString_string s : json_asCString (json_string s) = Some s;
  asUInt_int z : 0 ≤ z < 2 ^ 31 → json_asUInt (json_int z) = Some z
}.

Section Access.
Context `{Jsoncpp} {W : Type}.

Definition bad_value : exn := json_error "Json::Value".
Definition too_deep : exn := json_error "Exceeded stackLimit in readValue().".

(** [jv[key]] of a value that is not const: a missing member is made, null. *)
Definition json_at (key : string) : M (Value * W) Value :=
  on_fst
    (jv ← get_state;
     match json_get key jv with
     | None => throw bad_value
     | Some v =>
         match json_set key v jv with
         | None => throw bad_value
         | Some jv' => put_state jv';; mret v
         end
     end).

(** [jv[key] = v] *)
Definition json_assign (key : string) (v : Value) : M (Value * W) unit :=
  on_fst
    (jv ← get_state;
     match json_set key v jv with
     | None => throw bad_value
     | Some jv' => put_state jv'
     end).

(** The conversions, which may throw. *)
Definition json_conv {S A} (f : Value → option A) (v : Value) : M S A :=
  match f v with
  | Some a => mret a
  | None => throw bad_value
  end.

Lemma json_at_run key (jv v jv' : Value) (w : W) :
  json_get key jv = Some v → json_set key v jv = Some jv' →
  json_at key (jv, w) = Done (jv', w) v.
Proof. intros Hg Hs. unfold json_at. rewrite on_fst_run. run_step. rewrite Hg, Hs. by run_step. Qed.

Lemma json_assign_run key (jv v jv' : Value) (w : W) :
  json_set key v jv = Some jv' → json_assign key v (jv, w) = Done (jv', w) tt.
Proof. intros Hs. unfold json_assign. rewrite on_fst_run. run_step. by rewrite Hs. Qed.

Lemma keeps_json_at (R : W → W → Prop) `{!PreOrder R} key : keeps (rel_snd R) (json_at key).
Proof. unfold json_at. keeps_auto. Qed.
Lemma keeps_json_assign (R : W → W → Prop) `{!PreOrder R} key v :
  keeps (rel_snd R) (json_assign key v).
Proof. unfold json_assign. keeps_auto. Qed.
Lemma keeps_json_conv {S A} (R : S → S → Prop) `{!PreOrder R} (f : Value → option A) v :
  keeps R (json_conv f v).
Proof. unfold json_conv. keeps_auto. Qed.
End Access.
#[export] Hint Resolve keeps_json_at keeps_json_assign keeps_json_conv : keeps.

(** ** A small implementation *)
Module DemoJson.
#[warnings="-register-all"] Inductive jvalue : Type :=
| JNull
| JInt (z : Z)
| JStr (s : string)
| JObj (members : list (string * jvalue)).

Fixpoint assoc_get (k : string) (l : list (string * jvalue)) : jvalue :=
  match l with
  | [] => JNull
  | (k', v) :: l' => if decide (k = k') then v else assoc_get k l'
  end.
Fixpoint assoc_set (k : string) (v : jvalue) (l : list (string * jvalue)) : list (string * jvalue) :=
  match l with
  | [] => [(k, v)]
  | (k', v') :: l' => if decide (k = k') then (k, v) :: l' else (k', v') :: assoc_set k v l'
  end.

Definition members_of (j : jvalue) : option (list (string * jvalue)) :=
  match j with
  | JNull => Some []
  | JObj l => Some l
  | _ => None
  end.

(** Numbers in decimal, strings in quotes without escapes. *)
Definition quote_char : string := String (Ascii.ascii_of_nat 34) EmptyString.
Fixpoint write (j : jvalue) : string :=
  match j with
  | JNull => "null"
  | JInt z => pretty z
  | JStr s => quote_char +:+ s +:+ quote_char
  | JObj l =>
      "{" +:+ String.concat ","
        (map (λ kv, quote_char +:+ fst kv +:+ quote_char +:+ ":" +:+ write (snd kv)) l) +:+ "}"
  end.

Definition in_range (lo hi z : Z) : option Z :=
  if (lo <=? z) && (z <? hi) then Some z else None.
Definition as_int (lo hi : Z) (j : jvalue) : option Z :=
  match j with
  | JNull => Some 0
  | JInt z => in_range lo hi z
  | _ => None
  end.

(** [Reader_parse] knows one text per value it can return; four brackets are too
    deep for it. *)
Definition demo_jsoncpp (known : list (string * jvalue)) : Jsoncpp := {|
  Value := jvalue;
  json_null := JNull;
  json_get k j := l ← members_of j; Some (assoc_get k l);
  json_set k v j := l ← members_of j; Some (JObj (assoc_set k v l));
  json_isNull j := match j with JNull => true | _ => false end;
  json_asString j := match j with JStr s => Some s | JNull => Some "" | JInt z => Some (pretty z) | _ => None end;
  json_asCString j := match j with JStr s => Some s | _ => None end;
  json_asInt := as_int (- 2 ^ 31) (2 ^ 31);
  json_asUInt := as_int 0 (2 ^ 32);
  json_asUInt64 := as_int 0 (2 ^ 64);
  json_int := JInt;
  json_uint := JInt;
  json_uint64 := JInt;
  json_string := JStr;
  FastWriter_write j := write j +:+ String (Ascii.ascii_of_nat 10) EmptyString;
  Reader_parse s :=
    match find (λ kv, bool_decide (fst kv = s)) known with
    | Some kv => Parsed (snd kv)
    | None => if String.prefix "[[[[" s then TooDeep else NotJson
    end
|}.

Lemma assoc_get_set_same k v l : assoc_get k (assoc_set k v l) = v.
Proof.
  induction l as [|[k' v'] l IH]; simpl; [by rewrite decide_True|].
  destruct (decide (k = k')) as [<-|Hne]; simpl; [by rewrite decide_True|].
  by rewrite decide_False.
Qed.
Lemma assoc_get_set_other k k' v l : k ≠ k' → assoc_get k' (assoc_set k v l) = assoc_get k' l.
Proof.
  intros Hne. induction l as [|[k1 v1] l IH]; simpl; [by rewrite decide_False|].
  destruct (decide (k = k1)) as [<-|Hne1]; simpl.
  - by rewrite !decide_False.
  - by rewrite IH.
Qed.

#[export] Instance demo_laws known : JsonLaws (demo_jsoncpp known).
Proof.
  split; simpl.
  - intros k v j j'. destruct j as [| | |l]; simpl; intros Hs; simplify_eq; simpl.
    + by rewrite decide_True.
    + by rewrite assoc_get_set_same.
  - intros k k' v j j' Hne. destruct j as [| | |l]; simpl; intros Hs; simplify_eq; simpl.
    + by rewrite decide_False.
    + by rewrite assoc_get_set_other.
  - done.
  - by eexists.
  - intros k v v' j. destruct j; simpl; intros Hg; simplify_eq; by eexists.
  - done.
  - done.
  - done.
  - done.
  - intros z Hz. unfold in_range.
    rewrite (proj2 (andb_true_iff _ _)); [done|]. split; [apply Z.leb_le|apply Z.ltb_lt]; lia.
Qed.
End DemoJson.
