(* ===== verification/IoService.v ===== *)
(** * The io_service: asynchronous operations and the world they act on

    The network layer starts operations on a [boost::asio::io_service] and is
    called back when they complete.  Boost is not part of the repository: what
    is modelled here is the interface the source uses, a set of operations in
    flight, each with the arguments its initiation had, and a record of the
    synchronous socket calls.  Which operation completes next, and with what
    error code and data, is chosen by the environment (NetServiceSafety.v); the error
    codes of the synchronous calls are a parameter ([Sockets]). *)
From stdpp Require Import gmap strings list.
From coqutil Require Import Byte.
From S2P Require Import Prelude.
From S2P Require Import MessageBuffer.
From S2P Require Import Connection.
#[local] Open Scope Z_scope.

Definition ServicePtr : Type := N.

(** ** The state of a connection

    The data members of [ConnectionImpl] (net/connectionImpl.h); the socket,
    the strand and the timers are handles of the io_service, their state is in
    the operations in flight.  [ci_netServiceID] is not initialised by the
    constructor. *)
Record ConnectionImpl : Type := mkConnectionImpl {
  ci_status : status;
  ci_msg : option MessageBuffer;
  ci_tag : option TagPtr;
  ci_identity : Z;
  ci_netServiceID : option Z;
  ci_connectionID : Z;
  ci_syncEncryptionKey : list bool;
  ci_keepAliveTime : Z;
  ci_readHandlerPending : Z;
  ci_postRetryCount : Z;
  ci_msgProc : MsgProcPtr;
  ci_eventReceiver : option RecvPtr;
  ci_msgManipulator : option MsgUserManip
}.

Definition set_ci_status (s : status) (c : ConnectionImpl) : ConnectionImpl :=
  mkConnectionImpl s (ci_msg c) (ci_tag c) (ci_identity c) (ci_netServiceID c)
    (ci_connectionID c) (ci_syncEncryptionKey c) (ci_keepAliveTime c)
    (ci_readHandlerPending c) (ci_postRetryCount c) (ci_msgProc c)
    (ci_eventReceiver c) (ci_msgManipulator c).
Definition set_ci_msg (m : option MessageBuffer) (c : ConnectionImpl) : ConnectionImpl :=
  mkConnectionImpl (ci_status c) m (ci_tag c) (ci_identity c) (ci_netServiceID c)
    (ci_connectionID c) (ci_syncEncryptionKey c) (ci_keepAliveTime c)
    (ci_readHandlerPending c) (ci_postRetryCount c) (ci_msgProc c)
    (ci_eventReceiver c) (ci_msgManipulator c).
Definition set_ci_tag (t : option TagPtr) (c : ConnectionImpl) : ConnectionImpl :=
  mkConnectionImpl (ci_status c) (ci_msg c) t (ci_identity c) (ci_netServiceID c)
    (ci_connectionID c) (ci_syncEncryptionKey c) (ci_keepAliveTime c)
    (ci_readHandlerPending c) (ci_postRetryCount c) (ci_msgProc c)
    (ci_eventReceiver c) (ci_msgManipulator c).
Definition set_ci_netServiceID (i : option Z) (c : ConnectionImpl) : ConnectionImpl :=
  mkConnectionImpl (ci_status c) (ci_msg c) (ci_tag c) (ci_identity c) i
    (ci_connectionID c) (ci_syncEncryptionKey c) (ci_keepAliveTime c)
    (ci_readHandlerPending c) (ci_postRetryCount c) (ci_msgProc c)
    (ci_eventReceiver c) (ci_msgManipulator c).
Definition set_ci_syncEncryptionKey (l : list bool) (c : ConnectionImpl) : ConnectionImpl :=
  mkConnectionImpl (ci_status c) (ci_msg c) (ci_tag c) (ci_identity c) (ci_netServiceID c)
    (ci_connectionID c) l (ci_keepAliveTime c)
    (ci_readHandlerPending c) (ci_postRetryCount c) (ci_msgProc c)
    (ci_eventReceiver c) (ci_msgManipulator c).
Definition set_ci_readHandlerPending (n : Z) (c : ConnectionImpl) : ConnectionImpl :=
  mkConnectionImpl (ci_status c) (ci_msg c) (ci_tag c) (ci_identity c) (ci_netServiceID c)
    (ci_connectionID c) (ci_syncEncryptionKey c) (ci_keepAliveTime c)
    n (ci_postRetryCount c) (ci_msgProc c)
    (ci_eventReceiver c) (ci_msgManipulator c).
Definition set_ci_postRetryCount (n : Z) (c : ConnectionImpl) : ConnectionImpl :=
  mkConnectionImpl (ci_status c) (ci_msg c) (ci_tag c) (ci_identity c) (ci_netServiceID c)
    (ci_connectionID c) (ci_syncEncryptionKey c) (ci_keepAliveTime c)
    (ci_readHandlerPending c) n (ci_msgProc c)
    (ci_eventReceiver c) (ci_msgManipulator c).

(** ** Operations in flight

    [async_write] is given the address of a buffer, which has to be there until
    the write is complete.  [WriteAll] has the bytes that are in the buffer when
    it is called, and whether the buffer is still there ([transmitted] below). *)
Inductive async_op : Type :=
| ReadSome (c : ConnPtr) (off size : Z)          (* socket.async_read_some *)
| WriteAll (c : ConnPtr) (data : list byte) (there : bool)   (* boost::asio::async_write *)
| WaitKeep (c : ConnPtr) (cancelled : bool)      (* _keepTimer.async_wait *)
| WaitCloseReserve (c : ConnPtr) (cancelled : bool)
| PostDispatch (c : ConnPtr) (msgRecv : MessageBuffer)
| PostReadHandler (c : ConnPtr) (ec n : Z)
| PostClose (c : ConnPtr)
| AcceptConn (acceptor : ServicePtr) (c : ConnPtr)
| ConnectConn (connector : ServicePtr) (ep : Endpoint) (c : ConnPtr) (remainCnt : Z)
| WaitUpdate (service : ServicePtr) (cancelled : bool).

Inductive shutdown_type : Type := shutdown_receive | shutdown_send | shutdown_both.

(** Synchronous calls, the calls of [onClose] and the posts of a failed read, in
    the order they happen. *)
Inductive net_event : Type :=
| EvShutdown (c : ConnPtr) (what : shutdown_type)
| EvSetOption (c : ConnPtr)
| EvOpen (c : ConnPtr)
| EvSocketClose (c : ConnPtr)
| EvOnClose (c : ConnPtr)
| EvReadAgain (c : ConnPtr)     (* the handler of a failed read is posted again *)
| EvListenCall                  (* a call on the listening socket *)
| EvResolve
| EvClock.

Record NetWorld (U : Type) : Type := mkNetWorld {
  nw_conns : gmap ConnPtr ConnectionImpl;
  nw_identitySeed : Z;
  nw_pending : list async_op;
  nw_trace : list net_event;
  nw_app : U
}.
Arguments mkNetWorld {U}.
Arguments nw_conns {U}.
Arguments nw_identitySeed {U}.
Arguments nw_pending {U}.
Arguments nw_trace {U}.
Arguments nw_app {U}.

(** The error codes of the synchronous socket calls, as a function of the
    calls before, and two codes of Boost.  0 is success. *)
Class Sockets : Type := {
  os_shutdown : list net_event → ConnPtr → shutdown_type → Z;
  os_set_option : list net_event → ConnPtr → Z;
  os_open : list net_event → ConnPtr → Z;
  os_is_open : list net_event → ConnPtr → bool;
  os_listen_call : list net_event → Z;
  os_resolve : list net_event → string → string → option (list Endpoint);
  os_clock : list net_event → Z;
  os_connect : list net_event → ConnPtr → Z;
  os_remote_endpoint : list net_event → ConnPtr → option Endpoint;
  asio_eof : Z;
  asio_operation_aborted : Z
}.

(** What a write sends: [now] bytes are taken by the system while [async_write]
    runs; the others are read later from the same memory, in which there is
    [later] once the buffer is gone. *)
Definition transmitted (now : nat) (later : list byte) (o : async_op) : list byte :=
  match o with
  | WriteAll _ data there => if there then data else take now data ++ drop now (take (length data) later)
  | _ => []
  end.

Section World.
Context {U : Type}.
Local Abbreviation W := (NetWorld U).

Definition set_conns (m : gmap ConnPtr ConnectionImpl) (w : W) : W :=
  mkNetWorld m (nw_identitySeed w) (nw_pending w) (nw_trace w) (nw_app w).
Definition set_identitySeed (z : Z) (w : W) : W :=
  mkNetWorld (nw_conns w) z (nw_pending w) (nw_trace w) (nw_app w).
Definition set_pending (l : list async_op) (w : W) : W :=
  mkNetWorld (nw_conns w) (nw_identitySeed w) l (nw_trace w) (nw_app w).
Definition set_trace (l : list net_event) (w : W) : W :=
  mkNetWorld (nw_conns w) (nw_identitySeed w) (nw_pending w) l (nw_app w).
Definition set_app (u : U) (w : W) : W :=
  mkNetWorld (nw_conns w) (nw_identitySeed w) (nw_pending w) (nw_trace w) u.

(** The object a connection pointer designates. *)
Definition this_conn (c : ConnPtr) : M W ConnectionImpl :=
  w ← get_state; deref "no such connection" (nw_conns w !! c).
Definition upd_conn (c : ConnPtr) (f : ConnectionImpl → ConnectionImpl) : M W unit :=
  cn ← this_conn c;
  modify (λ w, set_conns (<[c := f cn]> (nw_conns w)) w).

(** Initiation of an operation, cancellation of the waits of a timer, and a
    synchronous call with its error code. *)
Definition start_op (o : async_op) : M W unit :=
  modify (λ w, set_pending (nw_pending w ++ [o]) w).
Definition map_pending (f : async_op → async_op) : M W unit :=
  modify (λ w, set_pending (f <$> nw_pending w) w).
Definition cancel_keep (c : ConnPtr) (o : async_op) : async_op :=
  match o with
  | WaitKeep c' b => WaitKeep c' (b || bool_decide (c = c'))
  | o => o
  end.
Definition cancel_closeReserve (c : ConnPtr) (o : async_op) : async_op :=
  match o with
  | WaitCloseReserve c' b => WaitCloseReserve c' (b || bool_decide (c = c'))
  | o => o
  end.

(** The buffers of the writes started since there were [n] operations are
    destroyed. *)
Definition buffer_gone (o : async_op) : async_op :=
  match o with WriteAll c data _ => WriteAll c data false | o => o end.
Definition destroy_buffers (n : nat) : M W unit :=
  modify (λ w, set_pending (take n (nw_pending w) ++ (buffer_gone <$> drop n (nw_pending w))) w).
Definition record_event (e : net_event) : M W unit :=
  modify (λ w, set_trace (nw_trace w ++ [e]) w).

Context `{!Sockets}.

Definition socket_shutdown (c : ConnPtr) (what : shutdown_type) : M W Z :=
  tr ← gets nw_trace;
  record_event (EvShutdown c what);;
  mret (os_shutdown tr c what).

(** [set_option] without an error code throws on failure. *)
Definition socket_set_option (c : ConnPtr) : M W unit :=
  tr ← gets nw_trace;
  record_event (EvSetOption c);;
  if os_set_option tr c =? 0 then mret tt else throw (system_error "set_option").

Definition socket_open (c : ConnPtr) : M W unit :=
  tr ← gets nw_trace;
  record_event (EvOpen c);;
  if os_open tr c =? 0 then mret tt else throw (system_error "open").

Definition socket_is_open (c : ConnPtr) : M W bool :=
  tr ← gets nw_trace; mret (os_is_open tr c).

(** [remote_endpoint] without an error code throws when the socket is not
    connected. *)
Definition socket_remote_endpoint (c : ConnPtr) : M W Endpoint :=
  tr ← gets nw_trace;
  match os_remote_endpoint tr c with
  | Some ep => mret ep
  | None => throw (system_error "remote_endpoint")
  end.

(** [connect] without an error code. *)
Definition socket_connect (c : ConnPtr) (ep : Endpoint) : M W unit :=
  tr ← gets nw_trace;
  record_event (EvOpen c);;
  if os_connect tr c =? 0 then mret tt else throw (system_error "connect").

(** The calls on the listening socket, with an error code, and without one. *)
Definition listen_call : M W Z :=
  tr ← gets nw_trace;
  record_event EvListenCall;;
  mret (os_listen_call tr).
Definition listen_call_throwing : M W unit :=
  ec ← listen_call;
  if ec =? 0 then mret tt else throw (system_error "acceptor socket").

(** The resolver: the endpoints found, or none at all when it fails. *)
Definition resolve (addr port : string) : M W (option (list Endpoint)) :=
  tr ← gets nw_trace;
  record_event EvResolve;;
  mret (os_resolve tr addr port).

Definition clock_now : M W Z :=
  tr ← gets nw_trace;
  record_event EvClock;;
  mret (os_clock tr).

Definition socket_close (c : ConnPtr) : M W unit := record_event (EvSocketClose c).
End World.
