(* ===== verification/ConnectionImpl.v ===== *)
(** * Connections

    Models [MLN::Net::ConnectionImpl] (net/connectionImpl.h,
    net/connectionImpl.cpp): every method, the completion handlers of its
    asynchronous operations included.  [ConnectionImpl_Connection] is the
    instance of the interface of Connection.v.  The invariants of the
    connection life cycle are in ConnectionSafety.v. *)
From stdpp Require Import gmap strings list.
From coqutil Require Import Byte.
From S2P Require Import Prelude.
From S2P Require Import MessageBuffer.
From S2P Require Import PacketHeader.
From S2P Require Import Connection.
From S2P Require Import MessageProcedure.
From S2P Require Import IoService.
#[local] Open Scope Z_scope.

Section Methods.
Context {U : Type} `{FreshMemory} `{!Sockets}.
Local Abbreviation W := (NetWorld U).

Definition ConnectionImpl_set_status (c : ConnPtr) (s : status) : M W unit :=
  upd_conn c (set_ci_status s).
Definition ConnectionImpl_get_status (c : ConnPtr) : M W status :=
  cn ← this_conn c; mret (ci_status cn).

Definition ConnectionImpl_setTag (c : ConnPtr) (tag : option TagPtr) : M W unit :=
  upd_conn c (set_ci_tag tag).
Definition ConnectionImpl_getTag (c : ConnPtr) : M W (option TagPtr) :=
  cn ← this_conn c; mret (ci_tag cn).
Definition ConnectionImpl_getIdentity (c : ConnPtr) : M W Z :=
  cn ← this_conn c; mret (ci_identity cn).
Definition ConnectionImpl_setServiceID (c : ConnPtr) (id : Z) : M W unit :=
  upd_conn c (set_ci_netServiceID (Some id)).
Definition ConnectionImpl_getServiceID (c : ConnPtr) : M W Z :=
  cn ← this_conn c; deref "_netServiceID is not initialised" (ci_netServiceID cn).
Definition ConnectionImpl_getConnectionID (c : ConnPtr) : M W Z :=
  cn ← this_conn c; mret (ci_connectionID cn).
Definition ConnectionImpl_getMsgManip (c : ConnPtr) : M W (option MsgUserManip) :=
  cn ← this_conn c; mret (ci_msgManipulator cn).

(** [_syncEncryptionKey] has [UINT8_MAX] = 255 elements, and [encType] is a
    [uint8_t]. *)
Definition ConnectionImpl_isSyncEncryptionKey (c : ConnPtr) (encType : Z) : M W bool :=
  cn ← this_conn c;
  deref "_syncEncryptionKey: index out of bounds" (ci_syncEncryptionKey cn !! Z.to_nat encType).
Definition ConnectionImpl_setSyncEncryptionKey (c : ConnPtr) (encType : Z) (sync : bool)
    : M W unit :=
  cn ← this_conn c;
  if bool_decide (Z.to_nat encType < length (ci_syncEncryptionKey cn))%nat
  then upd_conn c (λ cn,
         set_ci_syncEncryptionKey (<[Z.to_nat encType := sync]> (ci_syncEncryptionKey cn)) cn)
  else undefined "_syncEncryptionKey: index out of bounds".

(** The counters are [unsigned int]; both return the old value. *)
Definition ConnectionImpl_incReadHandlerPendingCount (c : ConnPtr) : M W Z :=
  cn ← this_conn c;
  upd_conn c (set_ci_readHandlerPending (u32 (ci_readHandlerPending cn + 1)));;
  mret (ci_readHandlerPending cn).
Definition ConnectionImpl_decReadHandlerPendingCount (c : ConnPtr) : M W Z :=
  cn ← this_conn c;
  upd_conn c (set_ci_readHandlerPending (u32 (ci_readHandlerPending cn - 1)));;
  mret (ci_readHandlerPending cn).

(** [expires_from_now] cancels the waits of the timer. *)
Definition ConnectionImpl_renewExpireTime (c : ConnPtr) : M W unit :=
  cn ← this_conn c;
  if 0 =? ci_keepAliveTime cn then mret tt
  else
    map_pending (cancel_keep c);;
    start_op (WaitKeep c false).

Definition ConnectionImpl_closeReserve (c : ConnPtr) (timeAfterMs : Z) : M W unit :=
  map_pending (cancel_closeReserve c);;
  start_op (WaitCloseReserve c false).

(** The constructor; [manip] is [msgProc->_packetHeaderManip]. *)
Definition ConnectionImpl_create (msgProc : MsgProcPtr) (manip : option MsgUserManip)
    (evntReceiver : option RecvPtr) (keepAliveTimeMs connectionID : Z) : M W ConnPtr :=
  w ← get_state;
  let c := fresh (dom (nw_conns w)) in
  modify (set_conns (<[c := mkConnectionImpl status_close None None (nw_identitySeed w) None
    connectionID (replicate (Z.to_nat UINT8_MAX) false) keepAliveTimeMs 0 0 msgProc
    evntReceiver manip]> (nw_conns w)));;
  modify (set_identitySeed (u64 (nw_identitySeed w + 1)));;
  ConnectionImpl_renewExpireTime c;;
  mret c.

(** [async_read_some] into the free part of [*_msg]. *)
Definition async_read_some (c : ConnPtr) : M W unit :=
  cn ← this_conn c;
  msg ← deref "_msg is null" (ci_msg cn);
  start_op (ReadSome c (MessageBuffer_enableBuffer msg)
                       (u64 (MAX_BUFFER_SIZE - mb_write msg))).

(** [_msg = MessageBuffer::Ptr(new MessageBuffer(_msgManipulator), ...)] *)
Definition renew_msg (c : ConnPtr) : M W unit :=
  cn ← this_conn c;
  m ← MessageBuffer_new_manip (ci_msgManipulator cn) false;
  upd_conn c (set_ci_msg (Some m)).

(** The two halves of [start_accept]: up to the read, and what follows while
    the read may already be completing in another thread. *)
Definition start_read (c : ConnPtr) : M W unit :=
  renew_msg c;;
  socket_set_option c;;
  socket_set_option c;;
  async_read_some c.
Definition start_opened (c : ConnPtr) : M W unit :=
  ConnectionImpl_set_status c status_open;;
  ConnectionImpl_renewExpireTime c.

Definition ConnectionImpl_start_accept (c : ConnPtr) : M W unit :=
  start_read c;; start_opened c.
Definition ConnectionImpl_start_connect (c : ConnPtr) : M W unit :=
  start_read c;; start_opened c.

(** ** Sending

    [sendPacket] writes from a buffer on its stack: it is destroyed on return,
    while the write is in flight. *)
Definition ConnectionImpl_send (c : ConnPtr) : M (MessageBuffer * W) unit :=
  on_fst MessageBuffer_facilitate;;
  data ← on_fst (msg ← get_state; mb_load (MessageBuffer_data msg) (mb_size msg));
  on_snd (this_conn c;; start_op (WriteAll c data true)).

Definition ConnectionImpl_sendRaw (c : ConnPtr) (sendBuffer : list byte) : M W unit :=
  this_conn c;; start_op (WriteAll c sendBuffer true).

Definition ConnectionImpl_sendPacket (c : ConnPtr) (sendBuffer : list byte) : M W unit :=
  cn ← this_conn c;
  started ← gets (λ w, length (nw_pending w));
  msg ← MessageBuffer_new_manip (ci_msgManipulator cn) true;
  r ← with_local msg
        (on_fst (MessageBuffer_write_from sendBuffer);;
         ConnectionImpl_send c);
  destroy_buffers started;;
  mret (snd r).

(** ** Closing *)
Definition cancel_timers (c : ConnPtr) : M W unit :=
  map_pending (cancel_keep c);;
  map_pending (cancel_closeReserve c).

Definition ConnectionImpl_closing (c : ConnPtr) (what : shutdown_type) : M W unit :=
  ec ← socket_shutdown c what;
  cn ← this_conn c;
  if (ec =? 0) && bool_decide (ci_status cn = status_open) then
    ConnectionImpl_set_status c status_closing;;
    cancel_timers c;;
    start_op (PostClose c)
  else mret tt.

(** ** Completion handlers *)
Definition ConnectionImpl_write_handler (c : ConnPtr) (ec bytes_transferred : Z) : M W unit :=
  if ec =? 0 then ConnectionImpl_renewExpireTime c
  else ConnectionImpl_closing c shutdown_send.

Definition ConnectionImpl_read_handler (c : ConnPtr) (ec bytes_transferred : Z) : M W unit :=
  if ec =? 0 then
    cn ← this_conn c;
    msg ← deref "_msg is null" (ci_msg cn);
    r ← local_only msg (MessageBuffer_write bytes_transferred);
    let msgRecv := fst r in
    renew_msg c;;
    _ ← ConnectionImpl_incReadHandlerPendingCount c;
    start_op (PostDispatch c msgRecv);;
    async_read_some c;;
    ConnectionImpl_renewExpireTime c
  else
    cn ← this_conn c;
    if negb (SHUTDOWN =? ec) && negb (asio_eof =? ec) && (0 <? ci_readHandlerPending cn) then
      upd_conn c (set_ci_postRetryCount (u64 (ci_postRetryCount cn + 1)));;
      if ci_postRetryCount cn <? 5
      then record_event (EvReadAgain c);; start_op (PostReadHandler c ec bytes_transferred)
      else ConnectionImpl_closing c shutdown_receive
    else ConnectionImpl_closing c shutdown_receive.

(** The handlers that call the event receiver. *)
Context (receiver_at : RecvPtr → EventReceiver W).

Definition ConnectionImpl_getReceiver (c : ConnPtr) : M W (EventReceiver W) :=
  cn ← this_conn c;
  r ← deref "the event receiver is null" (ci_eventReceiver cn);
  mret (receiver_at r).

Definition ConnectionImpl_close (c : ConnPtr) : M W unit :=
  ec ← socket_shutdown c shutdown_both;
  if ec =? 0 then
    ConnectionImpl_set_status c status_close;;
    cancel_timers c;;
    record_event (EvOnClose c);;
    er ← ConnectionImpl_getReceiver c;
    call (er_onClose er) c
  else mret tt.

Definition ConnectionImpl_onExpireTime (c : ConnPtr) (ec : Z) : M W unit :=
  if ec =? 0 then
    cn ← this_conn c;
    if bool_decide (ci_status cn = status_open) then
      match ci_eventReceiver cn with
      | Some r => call (er_onExpiredSession (receiver_at r)) c
      | None => mret tt
      end
    else mret tt
  else mret tt.

Definition ConnectionImpl_onCloseReserveTime (c : ConnPtr) (ec : Z) : M W unit :=
  if ec =? 0 then
    cn ← this_conn c;
    if bool_decide (ci_status cn = status_open) then ConnectionImpl_close c else mret tt
  else mret tt.
End Methods.

(** ** The instance *)
#[export] Instance ConnectionImpl_Connection {U} `{FreshMemory} `{!Sockets}
    : Connection (NetWorld U) := {|
  conn_set_status := ConnectionImpl_set_status;
  conn_get_status := ConnectionImpl_get_status;
  conn_start_accept := ConnectionImpl_start_accept;
  conn_start_connect := ConnectionImpl_start_connect;
  conn_send := ConnectionImpl_send;
  conn_sendRaw := ConnectionImpl_sendRaw;
  conn_sendPacket := ConnectionImpl_sendPacket;
  conn_setTag := ConnectionImpl_setTag;
  conn_getTag := ConnectionImpl_getTag;
  conn_setServiceID := ConnectionImpl_setServiceID;
  conn_getServiceID := ConnectionImpl_getServiceID;
  conn_getConnectionID := ConnectionImpl_getConnectionID;
  conn_getIdentity := ConnectionImpl_getIdentity;
  conn_isSyncEncryptionKey := ConnectionImpl_isSyncEncryptionKey;
  conn_setSyncEncryptionKey := ConnectionImpl_setSyncEncryptionKey;
  conn_closeReserve := ConnectionImpl_closeReserve;
  conn_incReadHandlerPendingCount := ConnectionImpl_incReadHandlerPendingCount;
  conn_decReadHandlerPendingCount := ConnectionImpl_decReadHandlerPendingCount;
  conn_getMsgManip := ConnectionImpl_getMsgManip;
  conn_remote_endpoint := socket_remote_endpoint
|}.

(** ** Completions

    What the environment says when an operation completes: the error code, and
    the bytes read or their number. *)
Record completion : Type := mkCompletion {
  cp_ec : Z;
  cp_data : list byte;
  cp_n : Z
}.

Section Completions.
Context {U : Type} `{FreshMemory} `{!Sockets}.
Local Abbreviation W := (NetWorld U).
Context (receiver_at : RecvPtr → EventReceiver W) (msgProc_at : MsgProcPtr → MessageProcedure W).

(** The bytes that arrive are in the buffer of the connection before the
    handler runs. *)
Definition deliver (c : ConnPtr) (off : Z) (data : list byte) : M W unit :=
  cn ← this_conn c;
  msg ← deref "async_read_some: the buffer is gone" (ci_msg cn);
  r ← local_only msg (mb_store off data);
  upd_conn c (set_ci_msg (Some (fst r))).

(** The handler of a connection operation. *)
Definition complete_conn_op (o : async_op) (cp : completion) : M W unit :=
  match o with
  | ReadSome c off size =>
      if cp_ec cp =? 0 then
        deliver c off (cp_data cp);;
        ConnectionImpl_read_handler c 0 (zlen (cp_data cp))
      else ConnectionImpl_read_handler c (cp_ec cp) 0
  | WriteAll c _ _ => ConnectionImpl_write_handler c (cp_ec cp) (cp_n cp)
  | WaitKeep c _ => ConnectionImpl_onExpireTime receiver_at c (cp_ec cp)
  | WaitCloseReserve c _ => ConnectionImpl_onCloseReserveTime receiver_at c (cp_ec cp)
  | PostDispatch c msgRecv =>
      cn ← this_conn c;
      _ ← MessageProcedure_dispatch (msgProc_at (ci_msgProc cn)) c msgRecv;
      mret tt
  | PostReadHandler c ec n => ConnectionImpl_read_handler c ec n
  | PostClose c => ConnectionImpl_close receiver_at c
  | AcceptConn _ _ | ConnectConn _ _ _ _ | WaitUpdate _ _ => mret tt
  end.
End Completions.

(** What the documentation of Boost.Asio promises of a completion: a read
    gives at most the bytes asked for, a wait that was not cancelled expires. *)
Definition completion_ok `{!Sockets} (o : async_op) (cp : completion) : bool :=
  match o with
  | ReadSome _ _ size => negb (cp_ec cp =? 0) || (zlen (cp_data cp) <=? size)
  | WaitKeep _ false | WaitCloseReserve _ false | WaitUpdate _ false => cp_ec cp =? 0
  | WaitKeep _ true | WaitCloseReserve _ true | WaitUpdate _ true =>
      (cp_ec cp =? 0) || (cp_ec cp =? asio_operation_aborted)
  | _ => true
  end.

(** Handlers posted to one strand run in the order they were posted. *)
Definition posted_on (o : async_op) : option ConnPtr :=
  match o with
  | PostDispatch c _ | PostReadHandler c _ _ => Some c
  | _ => None
  end.
Definition strand_ready (before : list async_op) (o : async_op) : bool :=
  match posted_on o with
  | Some c => forallb (λ o', bool_decide (posted_on o' ≠ Some c)) before
  | None => true
  end.
