(* ===== verification/ConnectionSafety.v ===== *)
(** * The life cycle of a connection

    What is true of every connection of a running server whatever the order in
    which the operations of the io_service complete: at most one read is in
    flight and it fills an empty buffer, [onClose] is called at most once, a
    failing read is retried at most five times.  The invariant is stated on
    the [view] of one connection, the handlers of ConnectionImpl.v are shown to
    preserve it one by one, and the code of the application, which calls the
    public methods, leaves the view alone ([frames]). *)
From stdpp Require Import gmap strings list.
From coqutil Require Import Byte.
From S2P Require Import Prelude.
From S2P Require Import MessageBuffer.
From S2P Require Import PacketHeader.
From S2P Require Import Connection.
From S2P Require Import MessageProcedure.
From S2P Require Import EventReceiver.
From S2P Require Import IoService.
From S2P Require Import ConnectionImpl.
#[local] Open Scope Z_scope.

(** ** The view of a connection *)
Definition is_read_of (c : ConnPtr) (o : async_op) : bool :=
  match o with
  | ReadSome c' _ _ | PostReadHandler c' _ _ => bool_decide (c = c')
  | _ => false
  end.
Definition is_close_of (c : ConnPtr) (o : async_op) : bool :=
  match o with PostClose c' => bool_decide (c = c') | _ => false end.
Definition is_start_of (c : ConnPtr) (o : async_op) : bool :=
  match o with
  | AcceptConn _ c' | ConnectConn _ _ c' _ => bool_decide (c = c')
  | _ => false
  end.
Definition is_onClose_of (c : ConnPtr) (e : net_event) : bool :=
  match e with EvOnClose c' => bool_decide (c = c') | _ => false end.

Definition is_retry_of (c : ConnPtr) (e : net_event) : bool :=
  match e with EvReadAgain c' => bool_decide (c = c') | _ => false end.

Record ConnCore : Type := mkConnCore {
  core_status : status;
  core_msg : option MessageBuffer;
  core_retries : Z
}.
Definition core_of (cn : ConnectionImpl) : ConnCore :=
  mkConnCore (ci_status cn) (ci_msg cn) (ci_postRetryCount cn).

(** The object, the reads in flight or retried, the posted closes, the calls
    of [onClose] so far, the accepts or connects waiting to start it, the times
    a failed read was posted again so far. *)
Record ConnView : Type := mkConnView {
  v_core : option ConnCore;
  v_reads : list async_op;
  v_closes : nat;
  v_onCloses : nat;
  v_starts : nat;
  v_retries : nat
}.

Definition count {A} (f : A → bool) (l : list A) : nat := length (filter (λ a, f a = true) l).

Definition view {U} (c : ConnPtr) (w : NetWorld U) : ConnView :=
  mkConnView (core_of <$> (nw_conns w !! c))
    (filter (λ o, is_read_of c o = true) (nw_pending w))
    (count (is_close_of c) (nw_pending w))
    (count (is_onClose_of c) (nw_trace w))
    (count (is_start_of c) (nw_pending w))
    (count (is_retry_of c) (nw_trace w)).

#[global] Arguments view : simpl never.

(** ** The invariant *)

(** A read is into the whole of an empty buffer, a posted read handler is for
    an error. *)
Definition read_ok (msg : option MessageBuffer) (o : async_op) : Prop :=
  match o with
  | ReadSome _ off size =>
      ∃ m, msg = Some m ∧ mb_wf m ∧ mb_read m = 0 ∧ mb_write m = 0
        ∧ off = 0 ∧ size = MAX_BUFFER_SIZE
  | PostReadHandler _ ec _ => ec ≠ 0
  | _ => True
  end.

Definition view_ok (v : ConnView) : Prop :=
  match v_core v with
  | None => v_reads v = [] ∧ v_closes v = 0%nat ∧ v_onCloses v = 0%nat ∧ v_starts v = 0%nat ∧ v_retries v = 0%nat
  | Some core =>
      (length (v_reads v) + v_starts v ≤ 1)%nat
      ∧ Forall (read_ok (core_msg core)) (v_reads v)
      ∧ (v_closes v + v_onCloses v ≤ 1)%nat
      ∧ (core_status core = status_open → v_closes v = 0%nat ∧ v_onCloses v = 0%nat)
      ∧ (v_onCloses v = 1%nat → core_status core = status_close)
      ∧ ((0 < v_starts v)%nat →
           v_closes v = 0%nat ∧ v_onCloses v = 0%nat ∧ core_status core = status_close
           ∧ core_retries core = 0)
      ∧ 0 ≤ core_retries core ≤ 6
      ∧ (v_reads v ≠ [] → core_retries core ≤ 5)
      ∧ Z.of_nat (v_retries v) = Z.min (core_retries core) 5
  end.

Definition net_inv {U} (w : NetWorld U) : Prop := ∀ c, view_ok (view c w).

(** ** What the code of the application may do

    It leaves the views alone, except that it may create connections, each
    with at most one operation that will start it. *)
Definition fresh_core : ConnCore := mkConnCore status_close None 0.

Definition view_frames (v v' : ConnView) : Prop :=
  v' = v
  ∨ v_core v = None ∧ v_core v' = Some fresh_core
    ∧ v_reads v' = v_reads v ∧ v_closes v' = v_closes v ∧ v_onCloses v' = v_onCloses v
    ∧ (v_starts v' ≤ v_starts v + 1)%nat ∧ v_retries v' = v_retries v.

Definition frames {U} (w w' : NetWorld U) : Prop := ∀ c, view_frames (view c w) (view c w').

#[export] Instance frames_preorder {U} : PreOrder (@frames U).
Proof.
  split.
  - intros w c. by left.
  - intros w1 w2 w3 H1 H2 c. specialize (H1 c). specialize (H2 c).
    destruct H1 as [<-|H1]; [done|].
    destruct H2 as [->|H2]; [by right|]. destruct H1 as (_ & H1 & _), H2 as (H2 & _). congruence.
Qed.

Lemma view_frames_ok v v' : view_frames v v' → view_ok v → view_ok v'.
Proof.
  intros [->|(Hc & Hc' & Hr & Hcl & Hon & Hst & Hre)]; [done|].
  unfold view_ok. rewrite Hc, Hc'. intros (Hr0 & Hcl0 & Hon0 & Hst0 & Hre0).
  rewrite Hr, Hcl, Hon, Hre, Hr0, Hcl0, Hon0, Hre0. rewrite Hst0 in Hst. simpl.
  split_and!; try done; try lia; auto.
Qed.

Lemma frames_inv {U} (w w' : NetWorld U) : frames w w' → net_inv w → net_inv w'.
Proof. intros Hf Hi c. eapply view_frames_ok; [apply Hf|apply Hi]. Qed.

(** The stronger relation of most methods: no view changes at all. *)
Definition same_views {U} (w w' : NetWorld U) : Prop := ∀ c, view c w' = view c w.

#[export] Instance same_views_preorder {U} : PreOrder (@same_views U).
Proof. split; [done|]. intros w1 w2 w3 H1 H2 c. by rewrite H2, H1. Qed.

Lemma same_views_frames {U A} (m : M (NetWorld U) A) : keeps same_views m → keeps frames m.
Proof. intros Hm w. specialize (Hm w). destruct (m w); try done; intros c; by left. Qed.
#[export] Hint Resolve same_views_frames : keeps.

Lemma count_app {A} (f : A → bool) l1 l2 : count f (l1 ++ l2) = (count f l1 + count f l2)%nat.
Proof. unfold count. by rewrite filter_app, length_app. Qed.

Lemma count_single {A} (f : A → bool) a : count f [a] = if f a then 1%nat else 0%nat.
Proof. unfold count. rewrite filter_cons, filter_nil. by destruct (f a). Qed.
Lemma filter_single {A} (f : A → bool) a :
  filter (λ a, f a = true) [a] = if f a then [a] else [].
Proof. rewrite filter_cons, filter_nil. by destruct (f a). Qed.

(** ** The view under the primitive changes *)
Section Views.
Context {U : Type} `{FreshMemory} `{!Sockets}.
Local Abbreviation W := (NetWorld U).
Implicit Types (w : W) (c : ConnPtr).

Lemma view_set_conns c (m : gmap ConnPtr ConnectionImpl) w :
  core_of <$> (m !! c) = core_of <$> (nw_conns w !! c) → view c (set_conns m w) = view c w.
Proof. intros Hm. unfold view. simpl. by rewrite Hm. Qed.

Lemma view_map_pending c f w :
  (∀ o, is_read_of c (f o) = is_read_of c o ∧ (is_read_of c o = true → f o = o)
        ∧ is_close_of c (f o) = is_close_of c o ∧ is_start_of c (f o) = is_start_of c o) →
  view c (set_pending (f <$> nw_pending w) w) = view c w.
Proof.
  intros Hf. unfold view. simpl. f_equal.
  - induction (nw_pending w) as [|o l IH]; [done|]. rewrite fmap_cons, !filter_cons, IH.
    destruct (Hf o) as (Hr & He & _). rewrite Hr.
    case_decide as Ho; [|done]. by rewrite He.
  - unfold count. induction (nw_pending w) as [|o l IH]; [done|].
    rewrite fmap_cons, !filter_cons. destruct (Hf o) as (_ & _ & Hc & _). rewrite Hc.
    case_decide; simpl; by rewrite IH.
  - unfold count. induction (nw_pending w) as [|o l IH]; [done|].
    rewrite fmap_cons, !filter_cons. destruct (Hf o) as (_ & _ & _ & Hc). rewrite Hc.
    case_decide; simpl; by rewrite IH.
Qed.

(** An operation that no view counts. *)
Definition silent_op (o : async_op) : Prop :=
  match o with
  | ReadSome _ _ _ | PostReadHandler _ _ _ | PostClose _ | AcceptConn _ _
  | ConnectConn _ _ _ _ => False
  | _ => True
  end.

Lemma view_start_silent c o w :
  silent_op o → view c (set_pending (nw_pending w ++ [o]) w) = view c w.
Proof.
  intros Ho. unfold view. simpl. rewrite filter_app, !count_app.
  destruct o; try done; simpl; unfold count; simpl; by rewrite ?app_nil_r, ?Nat.add_0_r.
Qed.

Definition silent_event (e : net_event) : Prop :=
  match e with EvOnClose _ | EvReadAgain _ => False | _ => True end.
Lemma view_record c e w :
  silent_event e → view c (set_trace (nw_trace w ++ [e]) w) = view c w.
Proof.
  intros He. unfold view. simpl. f_equal; rewrite count_app; by destruct e; try (unfold count; simpl; lia).
Qed.

(** The operations of a tail lose their buffers. *)
Lemma view_buffers_gone c l1 l2 w :
  nw_pending w = l1 ++ l2 → view c (set_pending (l1 ++ (buffer_gone <$> l2)) w) = view c w.
Proof.
  intros E. unfold view. simpl. rewrite E, !filter_app, !count_app.
  assert (Hf : ∀ f, (∀ o, f (buffer_gone o) = f o) → count f (buffer_gone <$> l2) = count f l2).
  { intros f Hf. unfold count. clear E. induction l2 as [|o l IH]; [done|].
    rewrite fmap_cons, !filter_cons, Hf. case_decide; cbn [length]; by rewrite IH. }
  rewrite !Hf by by intros []. do 2 f_equal.
  clear Hf E. induction l2 as [|o l IH]; [done|]. rewrite fmap_cons, !filter_cons, IH. by destruct o.
Qed.

(** ** The primitives keep the views *)
Lemma keeps_this_conn c : keeps same_views (this_conn (U := U) c).
Proof. unfold this_conn. keeps_auto. Qed.

Lemma keeps_upd_conn c f :
  (∀ cn, core_of (f cn) = core_of cn) → keeps same_views (upd_conn (U := U) c f).
Proof.
  intros Hf w. unfold upd_conn, this_conn. run_step.
  destruct (nw_conns w !! c) as [cn|] eqn:E; simpl; [|done].
  intros c'. apply view_set_conns. destruct (decide (c = c')) as [<-|Hne].
  - rewrite lookup_insert_eq, E. simpl. by rewrite Hf.
  - by rewrite lookup_insert_ne.
Qed.

Lemma keeps_start_silent o : silent_op o → keeps same_views (start_op (U := U) o).
Proof. intros Ho w c. by apply view_start_silent. Qed.

Lemma keeps_cancel_keep c : keeps same_views (map_pending (U := U) (cancel_keep c)).
Proof. intros w c'. apply view_map_pending. by intros []. Qed.
Lemma keeps_cancel_closeReserve c :
  keeps same_views (map_pending (U := U) (cancel_closeReserve c)).
Proof. intros w c'. apply view_map_pending. by intros []. Qed.

Lemma keeps_destroy_buffers n : keeps same_views (destroy_buffers (U := U) n).
Proof. intros w c. apply view_buffers_gone. by rewrite take_drop. Qed.
Lemma keeps_record e : silent_event e → keeps same_views (record_event (U := U) e).
Proof. intros He w c. by apply view_record. Qed.

Lemma keeps_shutdown c what : keeps same_views (socket_shutdown (U := U) c what).
Proof. unfold socket_shutdown. keeps_auto. by apply keeps_record. Qed.
Lemma keeps_set_option c : keeps same_views (socket_set_option (U := U) c).
Proof. unfold socket_set_option. keeps_auto. by apply keeps_record. Qed.
Lemma keeps_open c : keeps same_views (socket_open (U := U) c).
Proof. unfold socket_open. keeps_auto. by apply keeps_record. Qed.
Lemma keeps_remote_endpoint c : keeps same_views (socket_remote_endpoint (U := U) c).
Proof. unfold socket_remote_endpoint. keeps_auto. Qed.
Lemma keeps_socket_close c : keeps same_views (socket_close (U := U) c).
Proof. by apply keeps_record. Qed.
End Views.

#[export] Hint Resolve keeps_this_conn keeps_cancel_keep keeps_cancel_closeReserve
  keeps_destroy_buffers keeps_shutdown keeps_set_option keeps_open keeps_remote_endpoint keeps_socket_close : keeps.
#[export] Hint Extern 1 (keeps same_views (upd_conn _ _)) =>
  apply keeps_upd_conn; intros ?; reflexivity : keeps.
#[export] Hint Extern 1 (keeps same_views (start_op _)) =>
  apply keeps_start_silent; exact I : keeps.
#[export] Hint Extern 1 (keeps same_views (record_event _)) =>
  apply keeps_record; exact I : keeps.

(** ** The public methods and the views *)
Section Methods.
Context {U : Type} `{FreshMemory} `{!Sockets}.
Local Abbreviation W := (NetWorld U).
Implicit Types (w : W) (c : ConnPtr).

Lemma keeps_get_status c : keeps same_views (ConnectionImpl_get_status (U := U) c).
Proof. unfold ConnectionImpl_get_status. keeps_auto. Qed.
Lemma keeps_setTag c t : keeps same_views (ConnectionImpl_setTag (U := U) c t).
Proof. unfold ConnectionImpl_setTag. keeps_auto. Qed.
Lemma keeps_getTag c : keeps same_views (ConnectionImpl_getTag (U := U) c).
Proof. unfold ConnectionImpl_getTag. keeps_auto. Qed.
Lemma keeps_getIdentity c : keeps same_views (ConnectionImpl_getIdentity (U := U) c).
Proof. unfold ConnectionImpl_getIdentity. keeps_auto. Qed.
Lemma keeps_setServiceID c i : keeps same_views (ConnectionImpl_setServiceID (U := U) c i).
Proof. unfold ConnectionImpl_setServiceID. keeps_auto. Qed.
Lemma keeps_getServiceID c : keeps same_views (ConnectionImpl_getServiceID (U := U) c).
Proof. unfold ConnectionImpl_getServiceID. keeps_auto. Qed.
Lemma keeps_getConnectionID c : keeps same_views (ConnectionImpl_getConnectionID (U := U) c).
Proof. unfold ConnectionImpl_getConnectionID. keeps_auto. Qed.
Lemma keeps_getMsgManip c : keeps same_views (ConnectionImpl_getMsgManip (U := U) c).
Proof. unfold ConnectionImpl_getMsgManip. keeps_auto. Qed.
Lemma keeps_isSyncEncryptionKey c e :
  keeps same_views (ConnectionImpl_isSyncEncryptionKey (U := U) c e).
Proof. unfold ConnectionImpl_isSyncEncryptionKey. keeps_auto. Qed.
Lemma keeps_setSyncEncryptionKey c e b :
  keeps same_views (ConnectionImpl_setSyncEncryptionKey (U := U) c e b).
Proof. unfold ConnectionImpl_setSyncEncryptionKey. keeps_auto. Qed.
Lemma keeps_incPending c :
  keeps same_views (ConnectionImpl_incReadHandlerPendingCount (U := U) c).
Proof. unfold ConnectionImpl_incReadHandlerPendingCount. keeps_auto. Qed.
Lemma keeps_decPending c :
  keeps same_views (ConnectionImpl_decReadHandlerPendingCount (U := U) c).
Proof. unfold ConnectionImpl_decReadHandlerPendingCount. keeps_auto. Qed.
Lemma keeps_renewExpireTime c : keeps same_views (ConnectionImpl_renewExpireTime (U := U) c).
Proof. unfold ConnectionImpl_renewExpireTime. keeps_auto. Qed.
Lemma keeps_closeReserve c t : keeps same_views (ConnectionImpl_closeReserve (U := U) c t).
Proof. unfold ConnectionImpl_closeReserve. keeps_auto. Qed.
Lemma keeps_cancel_timers c : keeps same_views (cancel_timers (U := U) c).
Proof. unfold cancel_timers. keeps_auto. Qed.
Lemma keeps_new_manip (m : option MsgUserManip) b :
  keeps same_views (MessageBuffer_new_manip (S := W) m b).
Proof. unfold MessageBuffer_new_manip. keeps_auto. Qed.
Lemma keeps_send c : keeps (rel_snd same_views) (ConnectionImpl_send (U := U) c).
Proof. unfold ConnectionImpl_send. keeps_auto. Qed.
Lemma keeps_sendRaw c b : keeps same_views (ConnectionImpl_sendRaw (U := U) c b).
Proof. unfold ConnectionImpl_sendRaw. keeps_auto. Qed.
End Methods.
#[export] Hint Resolve keeps_get_status keeps_setTag keeps_getTag keeps_getIdentity
  keeps_setServiceID keeps_getServiceID keeps_getConnectionID keeps_getMsgManip
  keeps_isSyncEncryptionKey keeps_setSyncEncryptionKey keeps_incPending keeps_decPending
  keeps_renewExpireTime keeps_closeReserve keeps_cancel_timers keeps_new_manip keeps_send
  keeps_sendRaw : keeps.

(** ** The methods that change a view *)
Definition v_set_core (core : option ConnCore) (v : ConnView) : ConnView :=
  mkConnView core (v_reads v) (v_closes v) (v_onCloses v) (v_starts v) (v_retries v).
Definition v_add_op (c : ConnPtr) (o : async_op) (v : ConnView) : ConnView :=
  mkConnView (v_core v) (v_reads v ++ (if is_read_of c o then [o] else []))
    (v_closes v + (if is_close_of c o then 1 else 0)) (v_onCloses v)
    (v_starts v + (if is_start_of c o then 1 else 0)) (v_retries v).
Definition v_add_onClose (v : ConnView) : ConnView :=
  mkConnView (v_core v) (v_reads v) (v_closes v) (S (v_onCloses v)) (v_starts v) (v_retries v).
Definition v_add_retry (v : ConnView) : ConnView :=
  mkConnView (v_core v) (v_reads v) (v_closes v) (v_onCloses v) (v_starts v) (S (v_retries v)).

(** Only the view of [c] changes. *)
Definition others_same {U} (c : ConnPtr) (w w' : NetWorld U) : Prop :=
  ∀ c', c' ≠ c → view c' w' = view c' w.
#[export] Instance others_same_preorder {U} c : PreOrder (@others_same U c).
Proof. split; [done|]. intros w1 w2 w3 H1 H2 c' Hc. by rewrite H2, H1. Qed.
Lemma same_views_others {U} c (w w' : NetWorld U) : same_views w w' → others_same c w w'.
Proof. intros Hs c' _. apply Hs. Qed.

Section Handlers.
Context {U : Type} `{FreshMemory} `{!Sockets}.
Local Abbreviation W := (NetWorld U).
Implicit Types (w : W) (c : ConnPtr).

Lemma keeps_sendPacket c b : keeps same_views (ConnectionImpl_sendPacket (U := U) c b).
Proof. unfold ConnectionImpl_sendPacket. keeps_auto. Qed.

Lemma this_conn_run c w cn : nw_conns w !! c = Some cn → this_conn c w = Done w cn.
Proof. intros E. unfold this_conn. run_step. by rewrite E. Qed.

Lemma upd_conn_run c f w cn :
  nw_conns w !! c = Some cn →
  upd_conn c f w = Done (set_conns (<[c := f cn]> (nw_conns w)) w) tt.
Proof. intros E. unfold upd_conn. by run_with (this_conn_run _ _ _ E). Qed.

Lemma view_upd_conn c cn w :
  view c (set_conns (<[c := cn]> (nw_conns w)) w) = v_set_core (Some (core_of cn)) (view c w).
Proof. unfold view. simpl. by rewrite lookup_insert_eq. Qed.
Lemma others_upd_conn c cn w : others_same c w (set_conns (<[c := cn]> (nw_conns w)) w).
Proof. intros c' Hc. apply view_set_conns. by rewrite lookup_insert_ne. Qed.

Lemma view_start_op c o w :
  view c (set_pending (nw_pending w ++ [o]) w) = v_add_op c o (view c w).
Proof.
  unfold view, v_add_op. simpl. by rewrite filter_app, !count_app, !count_single, filter_single.
Qed.
Lemma view_onClose c w :
  view c (set_trace (nw_trace w ++ [EvOnClose c]) w) = v_add_onClose (view c w).
Proof.
  unfold view, v_add_onClose. simpl. rewrite !count_app, !count_single. simpl.
  rewrite bool_decide_true by done. by rewrite Nat.add_1_r, Nat.add_0_r.
Qed.
Lemma view_readAgain c w :
  view c (set_trace (nw_trace w ++ [EvReadAgain c]) w) = v_add_retry (view c w).
Proof.
  unfold view, v_add_retry. simpl. rewrite !count_app, !count_single. simpl.
  rewrite bool_decide_true by done. by rewrite Nat.add_1_r, Nat.add_0_r.
Qed.
Lemma others_readAgain c w : others_same c w (set_trace (nw_trace w ++ [EvReadAgain c]) w).
Proof.
  intros c' Hc. unfold view. simpl. rewrite !count_app, !count_single. simpl.
  rewrite bool_decide_false by done. by rewrite !Nat.add_0_r.
Qed.
Lemma others_onClose c w : others_same c w (set_trace (nw_trace w ++ [EvOnClose c]) w).
Proof.
  intros c' Hc. unfold view. simpl. rewrite !count_app, !count_single. simpl.
  rewrite bool_decide_false by done. by rewrite !Nat.add_0_r.
Qed.
Lemma view_core_conn c w cn :
  nw_conns w !! c = Some cn → v_core (view c w) = Some (core_of cn).
Proof. intros E. unfold view. simpl. by rewrite E. Qed.
Lemma view_core_inv c w w' cn :
  view c w' = view c w → nw_conns w !! c = Some cn →
  ∃ cn', nw_conns w' !! c = Some cn' ∧ core_of cn' = core_of cn.
Proof.
  intros Hv E. apply view_core_conn in E as Hc. rewrite <- Hv in Hc. unfold view in Hc. simpl in Hc.
  apply fmap_Some in Hc as (cn' & E' & Heq). by exists cn'.
Qed.

(** An operation that belongs to [c] only. *)
Definition op_of (c : ConnPtr) (o : async_op) : Prop :=
  ∀ c', c' ≠ c → is_read_of c' o = false ∧ is_close_of c' o = false ∧ is_start_of c' o = false.
Lemma others_start_op c o w :
  op_of c o → others_same c w (set_pending (nw_pending w ++ [o]) w).
Proof.
  intros Ho c' Hc. rewrite view_start_op. destruct (Ho c' Hc) as (Hr & Hcl & Hs).
  unfold v_add_op. rewrite Hr, Hcl, Hs, app_nil_r, !Nat.add_0_r. by destruct (view c' w).
Qed.
End Handlers.
#[export] Hint Resolve keeps_sendPacket : keeps.

(** ** The handlers, on the view *)
Section HandlerViews.
Context {U : Type} `{FreshMemory} `{!Sockets}.
Local Abbreviation W := (NetWorld U).
Implicit Types (w : W) (c : ConnPtr).

Lemma cancel_timers_run c w :
  ∃ w', cancel_timers c w = Done w' tt ∧ same_views w w' ∧ nw_conns w' = nw_conns w
    ∧ nw_trace w' = nw_trace w.
Proof.
  pose proof (keeps_cancel_timers c w) as Hk. eexists.
  split; [reflexivity|]. split; [exact Hk|done].
Qed.

Lemma renewExpireTime_run c w cn :
  nw_conns w !! c = Some cn →
  ∃ w', ConnectionImpl_renewExpireTime c w = Done w' tt ∧ same_views w w'
    ∧ nw_conns w' = nw_conns w ∧ nw_trace w' = nw_trace w.
Proof.
  intros E. pose proof (keeps_renewExpireTime c w) as Hk. revert Hk.
  unfold ConnectionImpl_renewExpireTime. run_with (this_conn_run _ _ _ E).
  destruct (0 =? ci_keepAliveTime cn); run_step; intros Hk; eexists; (split; [reflexivity|]);
    (split; [exact Hk|done]).
Qed.

Definition closing_core (cn : ConnectionImpl) : ConnCore := core_of (set_ci_status status_closing cn).

Lemma closing_run c what w cn :
  nw_conns w !! c = Some cn →
  ∃ w', ConnectionImpl_closing c what w = Done w' tt
    ∧ if (os_shutdown (nw_trace w) c what =? 0) && bool_decide (ci_status cn = status_open)
      then others_same c w w'
           ∧ view c w' = v_add_op c (PostClose c) (v_set_core (Some (closing_core cn)) (view c w))
      else same_views w w'.
Proof.
  intros E. unfold ConnectionImpl_closing, socket_shutdown. run_step.
  set (w1 := set_trace (nw_trace w ++ [EvShutdown c what]) w).
  assert (Hv1 : same_views w w1) by (intros c'; by apply view_record).
  assert (E1 : nw_conns w1 !! c = Some cn) by done.
  assert (Hrec : record_event (EvShutdown c what) w = Done w1 tt) by done.
  rewrite Hrec. run_step.
  rewrite (this_conn_run _ _ _ E1). run_step.
  destruct (_ && _); run_step; [|by eexists].
  unfold ConnectionImpl_set_status. rewrite (upd_conn_run _ _ _ _ E1). run_step.
  set (w2 := set_conns (<[c := set_ci_status status_closing cn]> (nw_conns w1)) w1).
  destruct (cancel_timers_run c w2) as (w3 & -> & Hv3 & _). run_step.
  eexists. split; [reflexivity|]. split.
  - etrans; [by apply same_views_others|]. etrans; [apply others_upd_conn|].
    etrans; [apply same_views_others, Hv3|]. apply others_start_op.
    intros c' Hc. simpl. by rewrite bool_decide_false.
  - rewrite view_start_op, Hv3. unfold w2. by rewrite view_upd_conn, Hv1.
Qed.

Lemma closing_ok c cn v :
  ci_status cn = status_open → v_core v = Some (core_of cn) → view_ok v →
  view_ok (v_add_op c (PostClose c) (v_set_core (Some (closing_core cn)) v)).
Proof.
  intros Hs Hc. unfold view_ok. rewrite Hc. simpl. rewrite Hs, bool_decide_true by done.
  destruct v as [core rs cl on st]; simpl in *. rewrite app_nil_r, Nat.add_0_r.
  intros (H1 & H2 & H3 & H4 & H5 & H6 & H7 & H8 & H9). destruct H4 as [-> ->]; [done|].
  split_and!; try done; try lia.
  intros Hst. destruct (H6 Hst) as (_ & _ & ? & _). done.
Qed.

Lemma view_ok_open v core :
  view_ok v → v_core v = Some core → core_status core = status_open →
  v_closes v = 0%nat ∧ v_onCloses v = 0%nat ∧ v_starts v = 0%nat.
Proof.
  unfold view_ok. intros Hok Hc Hs. rewrite Hc in Hok.
  destruct Hok as (_ & _ & _ & H4 & _ & H6 & _). destruct (H4 Hs). split_and!; [done..|].
  destruct (v_starts v); [done|]. destruct H6 as (_ & _ & Hst & _); [lia|congruence].
Qed.

(** A change of one view that keeps it well-formed. *)
Lemma others_same_inv c w w' : others_same c w w' → view_ok (view c w') → net_inv w → net_inv w'.
Proof.
  intros Ho Hok Hi c'. destruct (decide (c' = c)) as [->|Hne]; [done|]. by rewrite Ho.
Qed.

Definition inv_kept (w w' : W) : Prop := net_inv w → net_inv w'.
#[export] Instance inv_kept_preorder : PreOrder inv_kept.
Proof. split; [by intros w ?|]. intros w1 w2 w3 H1 H2 Hi. auto. Qed.

Lemma frames_kept {A} (m : M W A) : keeps frames m → keeps inv_kept m.
Proof.
  intros Hm w. specialize (Hm w). destruct (m w); try done; intros Hi; by eapply frames_inv.
Qed.

Lemma closing_kept c what : keeps inv_kept (ConnectionImpl_closing (U := U) c what).
Proof.
  intros w. destruct (nw_conns w !! c) as [cn|] eqn:E.
  - destruct (closing_run c what w cn E) as (w' & -> & Hw). intros Hi. revert Hw.
    destruct (_ =? 0); simpl; [|intros Hs c'; by rewrite Hs].
    case_bool_decide as Hst; [|intros Hs c'; by rewrite Hs].
    intros [Ho Hv]. apply (others_same_inv c w); [done| |done]. rewrite Hv.
    apply closing_ok; [done| |done]. by apply view_core_conn.
  - unfold ConnectionImpl_closing, socket_shutdown, this_conn, record_event. run_step. simpl.
    by rewrite E.
Qed.

Lemma write_handler_kept c ec n :
  keeps inv_kept (ConnectionImpl_write_handler (U := U) c ec n).
Proof.
  unfold ConnectionImpl_write_handler. destruct (ec =? 0).
  - apply frames_kept, same_views_frames, keeps_renewExpireTime.
  - apply closing_kept.
Qed.
End HandlerViews.

(** The callbacks and the parsers of an application that keep the frame
    condition. *)
Abbreviation receiver_frames := (receiver_keeps frames).
Abbreviation parser_frames := (parser_keeps frames).

(** ** Closing *)
Section Closing.
Context {U : Type} `{FreshMemory} `{!Sockets}.
Local Abbreviation W := (NetWorld U).
Implicit Types (w : W) (c : ConnPtr).

Context (receiver_at : RecvPtr → EventReceiver W).
Context (Hreceivers : ∀ r, receiver_frames (receiver_at r)).

Lemma keeps_getReceiver c : keeps same_views (ConnectionImpl_getReceiver receiver_at c).
Proof. unfold ConnectionImpl_getReceiver. keeps_auto. Qed.

Lemma keeps_receiver_call {A} c (f : EventReceiver W → M W A) :
  (∀ r, keeps frames (f (receiver_at r))) →
  keeps frames (er ← ConnectionImpl_getReceiver receiver_at c; f er).
Proof.
  intros Hf w. unfold ConnectionImpl_getReceiver, this_conn. run_step.
  destruct (nw_conns w !! c) as [cn|]; simpl; [|done].
  destruct (ci_eventReceiver cn) as [r|]; simpl; [|done]. apply Hf.
Qed.

Lemma close_core_ok c cn v :
  v_core v = Some (core_of cn) → view_ok v →
  v_closes v = 0%nat → v_onCloses v = 0%nat → v_starts v = 0%nat →
  view_ok (v_add_onClose (v_set_core (Some (core_of (set_ci_status status_close cn))) v)).
Proof.
  intros Hc. unfold view_ok. rewrite Hc. destruct v as [core rs cl on st]; simpl in *.
  intros (H1 & H2 & H3 & H4 & H5 & H6 & H7 & H8 & H9) -> -> ->.
  split_and!; try done; try lia.
Qed.

Lemma close_kept c w :
  v_closes (view c w) = 0%nat → v_onCloses (view c w) = 0%nat → v_starts (view c w) = 0%nat →
  match ConnectionImpl_close receiver_at c w with
  | Done w' _ | Threw w' _ => inv_kept w w'
  | Undef _ | NoFuel => True
  end.
Proof.
  intros Hcl Hon Hst. unfold ConnectionImpl_close, socket_shutdown. run_step.
  assert (Hrec : record_event (EvShutdown c shutdown_both) w
    = Done (set_trace (nw_trace w ++ [EvShutdown c shutdown_both]) w) tt) by done.
  rewrite Hrec. run_step.
  set (w1 := set_trace (nw_trace w ++ [EvShutdown c shutdown_both]) w).
  assert (Hv1 : same_views w w1) by (intros c'; by apply view_record).
  destruct (_ =? 0); run_step.
  2:{ intros Hi c'. by rewrite Hv1. }
  unfold ConnectionImpl_set_status.
  destruct (nw_conns w1 !! c) as [cn|] eqn:E1.
  2:{ unfold upd_conn, this_conn. run_step. by rewrite E1. }
  rewrite (upd_conn_run _ _ _ _ E1). run_step.
  set (w2 := set_conns (<[c := set_ci_status status_close cn]> (nw_conns w1)) w1).
  destruct (cancel_timers_run c w2) as (w3 & -> & Hv3 & _). run_step.
  assert (Hrec4 : record_event (EvOnClose c) w3
    = Done (set_trace (nw_trace w3 ++ [EvOnClose c]) w3) tt) by done.
  rewrite Hrec4. run_step.
  set (w4 := set_trace (nw_trace w3 ++ [EvOnClose c]) w3).
  assert (Hi4 : inv_kept w w4).
  { intros Hi. apply (others_same_inv c w); [| |done].
    - etrans; [by apply same_views_others|]. etrans; [apply others_upd_conn|].
      etrans; [apply same_views_others, Hv3|]. apply others_onClose.
    - unfold w4. rewrite view_onClose, Hv3. unfold w2. rewrite view_upd_conn, Hv1.
      apply close_core_ok; try done. by apply view_core_conn. }
  assert (Hk : keeps inv_kept (er ← ConnectionImpl_getReceiver receiver_at c; call (er_onClose er) c)).
  { apply frames_kept, keeps_receiver_call. intros r. apply call_kept, Hreceivers. }
  specialize (Hk w4). rewrite bind_run in Hk.
  destruct (bind_outcome _ _); try done; intros Hi; auto.
Qed.

Lemma onCloseReserveTime_kept c ec :
  keeps inv_kept (ConnectionImpl_onCloseReserveTime receiver_at c ec).
Proof.
  intros w. unfold ConnectionImpl_onCloseReserveTime, this_conn. destruct (ec =? 0); [|by intros Hi].
  run_step. destruct (nw_conns w !! c) as [cn|] eqn:E; simpl; [|done].
  case_bool_decide as Hs; [|by intros Hi].
  pose proof (close_kept c w) as Hk.
  destruct (ConnectionImpl_close receiver_at c w) eqn:Ec; try done; intros Hi;
    (destruct (view_ok_open (view c w) (core_of cn)) as (? & ? & ?);
     [apply Hi | by apply view_core_conn | done | by apply Hk]).
Qed.

Lemma onExpireTime_kept c ec :
  keeps inv_kept (ConnectionImpl_onExpireTime receiver_at c ec).
Proof.
  apply frames_kept. unfold ConnectionImpl_onExpireTime. keeps_auto.
  apply call_kept, Hreceivers.
Qed.
End Closing.

(** ** Reading *)
Definition is_dispatch (o : async_op) : bool :=
  match o with PostDispatch _ _ => true | _ => false end.
Definition dispatches (l : list async_op) : list async_op := filter (λ o, is_dispatch o = true) l.

Lemma dispatches_app l1 l2 : dispatches (l1 ++ l2) = dispatches l1 ++ dispatches l2.
Proof. apply filter_app. Qed.
Lemma dispatches_cancel_keep c l : dispatches (cancel_keep c <$> l) = dispatches l.
Proof.
  induction l as [|o l IH]; [done|]. rewrite fmap_cons. unfold dispatches in *.
  rewrite !filter_cons, IH. by destruct o.
Qed.

Section Reading.
Context {U : Type} `{FreshMemory} `{!Sockets}.
Local Abbreviation W := (NetWorld U).
Implicit Types (w : W) (c : ConnPtr).

Definition fresh_msg (cn : ConnectionImpl) : MessageBuffer :=
  raw_MessageBuffer (ci_msgManipulator cn).

Lemma renew_msg_run c w cn :
  nw_conns w !! c = Some cn →
  renew_msg c w
  = Done (set_conns (<[c := set_ci_msg (Some (fresh_msg cn)) cn]> (nw_conns w)) w) tt.
Proof.
  intros E. unfold renew_msg. run_with (this_conn_run _ _ _ E).
  unfold MessageBuffer_new_manip, local_only. run_step. cbn [MessageBuffer_clear].
  unfold MessageBuffer_clear. run_step. by apply upd_conn_run.
Qed.

Lemma renewed_msg_ok c v core cn :
  v_core v = Some core → v_reads v = [] → view_ok v →
  view_ok (v_set_core (Some (mkConnCore (core_status core) (Some (fresh_msg cn))
                               (core_retries core))) v).
Proof.
  intros Hc Hr. unfold view_ok. rewrite Hc. simpl. rewrite Hr.
  intros (H1 & H2 & H3 & H4 & H5 & H6 & H7 & H8 & H9). split_and!; try done; lia.
Qed.

Lemma fresh_read_ok c cn :
  read_ok (Some (fresh_msg cn)) (ReadSome c 0 (u64 (MAX_BUFFER_SIZE - 0))).
Proof.
  exists (fresh_msg cn). split_and!; try done. apply fresh_wf.
Qed.

(** A view that gets its read, in the status [s]. *)
Lemma reading_ok c v core cn s :
  v_core v = Some core → v_reads v = [] → v_starts v = 0%nat → core_retries core ≤ 5 →
  s = core_status core ∨ s = status_open ∧ v_closes v = 0%nat ∧ v_onCloses v = 0%nat →
  view_ok v →
  view_ok (v_add_op c (ReadSome c 0 (u64 (MAX_BUFFER_SIZE - 0)))
    (v_set_core (Some (mkConnCore s (Some (fresh_msg cn)) (core_retries core))) v)).
Proof.
  intros Hc Hr Hst Hret Hs. unfold view_ok. rewrite Hc. simpl.
  rewrite Hr, Hst, bool_decide_true by done. simpl. rewrite !Nat.add_0_r.
  intros (H1 & H2 & H3 & H4 & H5 & H6 & H7 & H8 & H9). split_and!; try done; try lia.
  - constructor; [apply fresh_read_ok|done].
  - destruct Hs as [->|(-> & Hcl & Hon)]; [done|]. done.
  - destruct Hs as [->|(-> & Hcl & Hon)]; [done|]. rewrite Hon. done.
Qed.

Lemma async_read_run c w cn :
  nw_conns w !! c = Some cn → ci_msg cn = Some (fresh_msg cn) →
  async_read_some c w
  = Done (set_pending (nw_pending w ++ [ReadSome c 0 (u64 (MAX_BUFFER_SIZE - 0))]) w) tt.
Proof.
  intros E Hm. unfold async_read_some. run_with (this_conn_run _ _ _ E). by rewrite Hm.
Qed.

Lemma op_of_read c off n : op_of c (ReadSome c off n).
Proof. intros c' Hc. simpl. by rewrite bool_decide_false. Qed.
End Reading.

Section ReadHandlers.
Context {U : Type} `{FreshMemory} `{!Sockets}.
Local Abbreviation W := (NetWorld U).
Implicit Types (w : W) (c : ConnPtr).

Definition read_op (c : ConnPtr) : async_op := ReadSome c 0 (u64 (MAX_BUFFER_SIZE - 0)).

(** [start_accept] and [start_connect]: with the socket options set the
    connection is open and reads. *)
Lemma start_run c w cn :
  nw_conns w !! c = Some cn →
  (∃ w', ConnectionImpl_start_accept c w = Done w' tt ∧ others_same c w w'
     ∧ view c w' = v_add_op c (read_op c)
         (v_set_core (Some (mkConnCore status_open (Some (fresh_msg cn)) (ci_postRetryCount cn)))
            (view c w)))
  ∨ (∃ w' e, ConnectionImpl_start_accept c w = Threw w' e ∧ others_same c w w'
     ∧ view c w' = v_set_core (Some (mkConnCore (ci_status cn) (Some (fresh_msg cn))
                                      (ci_postRetryCount cn))) (view c w)).
Proof.
  intros E. unfold ConnectionImpl_start_accept, start_read, start_opened. run_step.
  rewrite (renew_msg_run _ _ _ E). run_step.
  set (cn1 := set_ci_msg (Some (fresh_msg cn)) cn).
  set (w1 := set_conns (<[c := cn1]> (nw_conns w)) w).
  assert (E1 : nw_conns w1 !! c = Some cn1) by apply lookup_insert_eq.
  assert (Ho1 : others_same c w w1) by apply others_upd_conn.
  assert (Hv1 : view c w1 = v_set_core (Some (mkConnCore (ci_status cn) (Some (fresh_msg cn))
                                      (ci_postRetryCount cn))) (view c w)) by apply view_upd_conn.
  (* two socket options *)
  assert (Hopt : ∀ w0, same_views w1 w0 → nw_conns w0 = nw_conns w1 →
    ∃ w', same_views w1 w' ∧ nw_conns w' = nw_conns w1 ∧
      (socket_set_option c w0 = Done w' tt ∨ ∃ e, socket_set_option c w0 = Threw w' e)).
  { intros w0 Hs Hc. pose proof (keeps_set_option c w0) as Hk. revert Hk.
    unfold socket_set_option, record_event. run_step. destruct (_ =? 0); run_step; intros Hk;
      eexists; (split; [etrans; [exact Hs|exact Hk]|]); (split; [done|]); [left|right]; eauto. }
  destruct (Hopt w1) as (w2 & Hs2 & Hc2 & [->|[e ->]]); [done|done| |]; run_step.
  2:{ right. exists w2, e. split; [done|]. split; [|by rewrite Hs2].
      etrans; [exact Ho1|]. by apply same_views_others. }
  destruct (Hopt w2) as (w3 & Hs3 & Hc3 & [->|[e ->]]); [done|done| |]; run_step.
  2:{ right. exists w3, e. split; [done|]. split; [|by rewrite Hs3].
      etrans; [exact Ho1|]. by apply same_views_others. }
  assert (E3 : nw_conns w3 !! c = Some cn1) by by rewrite Hc3.
  rewrite (async_read_run c w3 cn1) by done. run_step.
  set (w4 := set_pending (nw_pending w3 ++ [read_op c]) w3).
  change (set_pending (nw_pending w3 ++ [ReadSome c 0 (u64 (MAX_BUFFER_SIZE - 0))]) w3) with w4.
  assert (E4 : nw_conns w4 !! c = Some cn1) by done.
  unfold ConnectionImpl_set_status. rewrite (upd_conn_run _ _ _ _ E4). run_step.
  set (w5 := set_conns (<[c := set_ci_status status_open cn1]> (nw_conns w4)) w4).
  destruct (renewExpireTime_run c w5 (set_ci_status status_open cn1)) as (w6 & -> & Hs6 & _ & _).
  { apply lookup_insert_eq. }
  left. exists w6. split; [done|]. split.
  - etrans; [exact Ho1|]. etrans; [by apply same_views_others|].
    etrans; [apply others_start_op, op_of_read|]. etrans; [apply others_upd_conn|].
    by apply same_views_others.
  - rewrite Hs6. unfold w5. rewrite view_upd_conn. unfold w4. rewrite view_start_op, Hs3, Hv1.
    reflexivity.
Qed.

Lemma start_kept c w :
  v_reads (view c w) = [] → v_starts (view c w) = 0%nat →
  v_closes (view c w) = 0%nat → v_onCloses (view c w) = 0%nat →
  (∀ core, v_core (view c w) = Some core → core_retries core ≤ 5) →
  match ConnectionImpl_start_accept c w with
  | Done w' _ | Threw w' _ => inv_kept w w'
  | Undef _ | NoFuel => True
  end.
Proof.
  intros Hr Hst Hcl Hon Hret. destruct (nw_conns w !! c) as [cn|] eqn:E.
  - pose proof (view_core_conn c w cn E) as Hcore. specialize (Hret _ Hcore).
    destruct (start_run c w cn E) as [(w' & -> & Ho & Hv)|(w' & e & -> & Ho & Hv)];
      intros Hi; apply (others_same_inv c w); try done; rewrite Hv.
    + apply (reading_ok c _ (core_of cn) cn status_open); try done. by right.
    + by apply (renewed_msg_ok c _ (core_of cn) cn).
  - unfold ConnectionImpl_start_accept, start_read, renew_msg, this_conn. run_step. by rewrite E.
Qed.

(** [read_handler] on data: the buffer with the bytes received is posted to
    the dispatcher and the next read is into a new buffer. *)
Lemma read_handler_run c w cn msg n :
  nw_conns w !! c = Some cn → ci_msg cn = Some msg →
  mb_wf msg → mb_read msg = 0 → mb_write msg = 0 → 0 ≤ n ≤ MAX_BUFFER_SIZE →
  ∃ w', ConnectionImpl_read_handler c 0 n w = Done w' tt ∧ others_same c w w'
    ∧ view c w' = v_add_op c (read_op c)
        (v_set_core (Some (mkConnCore (ci_status cn) (Some (fresh_msg cn))
                             (ci_postRetryCount cn))) (view c w))
    ∧ dispatches (nw_pending w') = dispatches (nw_pending w) ++ [PostDispatch c (set_mb_write n msg)].
Proof.
  intros E Hm Hwf Hr Hw Hn. unfold ConnectionImpl_read_handler.
  rewrite (proj2 (Z.eqb_eq 0 0)) by done. run_with (this_conn_run _ _ _ E). rewrite Hm. simpl. run_step.
  assert (Hwr : MessageBuffer_write n msg = Done (set_mb_write n msg) tt).
  { unfold MessageBuffer_write, MessageBuffer_size. run_step.
    assert (Hc : mb_content msg = []).
    { apply zlen_zero_inv. rewrite mb_content_length by done. lia. }
    rewrite write_guard by (done || unfold MAX_BUFFER_SIZE in *; lia).
    rewrite Hc, zlen_nil, (proj2 (Z.ltb_ge _ _)) by lia.
    rewrite advance_write_spec by lia. by rewrite Hw. }
  unfold local_only. rewrite Hwr. run_step.
  rewrite (renew_msg_run _ _ _ E). run_step.
  set (cn1 := set_ci_msg (Some (fresh_msg cn)) cn).
  set (w1 := set_conns (<[c := cn1]> (nw_conns w)) w).
  assert (E1 : nw_conns w1 !! c = Some cn1) by apply lookup_insert_eq.
  unfold ConnectionImpl_incReadHandlerPendingCount. run_with (this_conn_run _ _ _ E1). run_step.
  rewrite (upd_conn_run _ _ _ _ E1). run_step.
  set (cn2 := set_ci_readHandlerPending (u32 (ci_readHandlerPending cn1 + 1)) cn1).
  set (w2 := set_conns (<[c := cn2]> (nw_conns w1)) w1).
  assert (E2 : nw_conns w2 !! c = Some cn2) by apply lookup_insert_eq.
  change (start_op (PostDispatch c (set_mb_write n msg)) w2)
    with (Done (set_pending (nw_pending w2 ++ [PostDispatch c (set_mb_write n msg)]) w2) tt).
  run_step.
  set (w3 := set_pending (nw_pending w2 ++ [PostDispatch c (set_mb_write n msg)]) w2).
  rewrite (async_read_run c w3 cn2); [|exact E2|reflexivity]. run_step. fold (read_op c).
  set (w4 := set_pending (nw_pending w3 ++ [read_op c]) w3).
  assert (Hd : dispatches (nw_pending w4)
    = dispatches (nw_pending w) ++ [PostDispatch c (set_mb_write n msg)]).
  { unfold w4, w3. simpl. rewrite !dispatches_app.
    change (dispatches [read_op c]) with (@nil async_op). by rewrite app_nil_r. }
  pose proof (keeps_renewExpireTime c w4) as Hk. revert Hk.
  unfold ConnectionImpl_renewExpireTime. run_with (this_conn_run c w4 cn2 E2).
  assert (Hv4 : others_same c w w4 ∧ view c w4 = v_add_op c (read_op c)
        (v_set_core (Some (mkConnCore (ci_status cn) (Some (fresh_msg cn))
                             (ci_postRetryCount cn))) (view c w))).
  { split.
    - etrans; [apply others_upd_conn|]. etrans; [apply others_upd_conn|].
      etrans; [|apply others_start_op, op_of_read].
      apply same_views_others. intros c'. by apply view_start_silent.
    - unfold w4. rewrite view_start_op. unfold w3. rewrite view_start_silent by done.
      unfold w2. rewrite view_upd_conn. unfold w1. by rewrite view_upd_conn. }
  destruct Hv4 as [Ho4 Hv4].
  destruct (0 =? ci_keepAliveTime cn2); run_step; intros Hk.
  - by exists w4.
  - eexists. split; [reflexivity|]. split_and!.
    + etrans; [exact Ho4|]. by apply same_views_others.
    + by rewrite Hk.
    + unfold start_op, map_pending, modify, set_pending. simpl.
      rewrite dispatches_app, dispatches_cancel_keep.
      change (dispatches [WaitKeep c false]) with (@nil async_op). by rewrite app_nil_r.
Qed.
End ReadHandlers.

(** ** Errors *)
Section ReadErrors.
Context {U : Type} `{FreshMemory} `{!Sockets}.
Local Abbreviation W := (NetWorld U).
Implicit Types (w : W) (c : ConnPtr).

(** The conditions under which a failed read is posted again. *)
Definition read_retried (cn : ConnectionImpl) (ec : Z) : bool :=
  negb (SHUTDOWN =? ec) && negb (asio_eof =? ec) && (0 <? ci_readHandlerPending cn)
  && (ci_postRetryCount cn <? 5).

Definition retried_core (cn : ConnectionImpl) : ConnCore :=
  core_of (set_ci_postRetryCount (u64 (ci_postRetryCount cn + 1)) cn).

Lemma op_of_retry c ec n : op_of c (PostReadHandler c ec n).
Proof. intros c' Hc. simpl. by rewrite bool_decide_false. Qed.

Lemma read_handler_retry c w cn ec n :
  nw_conns w !! c = Some cn → ec ≠ 0 → read_retried cn ec = true →
  ∃ w', ConnectionImpl_read_handler c ec n w = Done w' tt ∧ others_same c w w'
    ∧ view c w' = v_add_op c (PostReadHandler c ec n)
                    (v_add_retry (v_set_core (Some (retried_core cn)) (view c w))).
Proof.
  intros E Hec Hre. unfold read_retried in Hre. unfold ConnectionImpl_read_handler.
  rewrite (proj2 (Z.eqb_neq _ _)) by done. run_with (this_conn_run _ _ _ E).
  apply andb_true_iff in Hre as [-> ->]. run_step.
  rewrite (upd_conn_run _ _ _ _ E). run_step. unfold record_event. run_step.
  eexists. split; [reflexivity|]. split.
  - etrans; [apply others_upd_conn|]. etrans; [apply others_readAgain|]. apply others_start_op, op_of_retry.
  - rewrite view_start_op. rewrite view_readAgain. by rewrite view_upd_conn.
Qed.

Lemma read_handler_error_kept c w ec n :
  ec ≠ 0 → v_reads (view c w) = [] → v_starts (view c w) = 0%nat →
  (∀ core, v_core (view c w) = Some core → core_retries core ≤ 5) →
  match ConnectionImpl_read_handler c ec n w with
  | Done w' _ | Threw w' _ => inv_kept w w'
  | Undef _ | NoFuel => True
  end.
Proof.
  intros Hec Hr Hst Hret.
  destruct (nw_conns w !! c) as [cn|] eqn:E.
  2:{ unfold ConnectionImpl_read_handler, this_conn. rewrite (proj2 (Z.eqb_neq _ _)) by done.
      run_step. by rewrite E. }
  pose proof (view_core_conn _ _ _ E) as Hc. specialize (Hret _ Hc). simpl in Hret.
  destruct (read_retried cn ec) eqn:Hre.
  - destruct (read_handler_retry c w cn ec n E Hec Hre) as (w' & -> & Ho & Hv).
    intros Hi. apply (others_same_inv c w); [done| |done]. rewrite Hv.
    specialize (Hi c). revert Hi. unfold view_ok. rewrite Hc. simpl.
    simpl in Hr, Hst. rewrite Hr, Hst, bool_decide_true by done. simpl. rewrite !Nat.add_0_r.
    unfold read_retried in Hre. apply andb_true_iff in Hre as [_ H5]. apply Z.ltb_lt in H5.
    intros (H1 & H2 & H3 & H4 & Hon & H6 & H7 & H8 & H9).
    rewrite u64_small by lia. split_and!; try done; try lia.
    constructor; [done|constructor].
  - unfold ConnectionImpl_read_handler. rewrite (proj2 (Z.eqb_neq _ _)) by done.
    run_with (this_conn_run _ _ _ E). unfold read_retried in Hre.
    destruct (negb (SHUTDOWN =? ec) && negb (asio_eof =? ec) && (0 <? ci_readHandlerPending cn)) eqn:Hg.
    + simpl in Hre. run_step. rewrite (upd_conn_run _ _ _ _ E). run_step. rewrite Hre.
      set (cn1 := set_ci_postRetryCount (u64 (ci_postRetryCount cn + 1)) cn).
      set (w1 := set_conns (<[c := cn1]> (nw_conns w)) w).
      pose proof (closing_kept c shutdown_receive w1) as Hk.
      assert (Hi1 : inv_kept w w1).
      { intros Hi. apply (others_same_inv c w); [apply others_upd_conn| |done].
        unfold w1. rewrite view_upd_conn. specialize (Hi c). revert Hi. unfold view_ok.
        rewrite Hc. simpl. simpl in Hr, Hst. rewrite Hr, Hst.
        intros (H1 & H2 & H3 & H4 & Hon & H6 & H7 & H8 & H9).
        rewrite u64_small by lia. split_and!; try done; try lia. }
      destruct (ConnectionImpl_closing c shutdown_receive w1); try done; intros Hi; auto.
    + pose proof (closing_kept c shutdown_receive w) as Hk.
      destruct (ConnectionImpl_closing c shutdown_receive w); done.
Qed.
End ReadErrors.

(** ** A completion: the operation leaves the set, its handler runs *)
Definition view_without (c : ConnPtr) (o : async_op) (v v0 : ConnView) : Prop :=
  v_core v0 = v_core v ∧ (v_onCloses v0 = v_onCloses v ∧ v_retries v0 = v_retries v)
  ∧ v_closes v = (v_closes v0 + if is_close_of c o then 1 else 0)%nat
  ∧ v_starts v = (v_starts v0 + if is_start_of c o then 1 else 0)%nat
  ∧ ∃ r1 r2, v_reads v = r1 ++ (if is_read_of c o then [o] else []) ++ r2
             ∧ v_reads v0 = r1 ++ r2.

Lemma view_without_ok c o v v0 : view_without c o v v0 → view_ok v → view_ok v0.
Proof.
  intros (Hc & [Hon Hret] & Hcl & Hst & r1 & r2 & Hr & Hr0). unfold view_ok. rewrite Hc, Hon, Hret, Hr0.
  destruct (v_core v) as [core|].
  - rewrite Hr, Hcl, Hst. rewrite !length_app, !Forall_app.
    intros (H1 & H2 & H3 & H4 & H5 & H6 & H7 & H8 & H9). destruct H2 as (H2a & _ & H2b).
    split_and!; try done; try lia.
    + intros Hs. destruct (H4 Hs). lia.
    + intros Hs. destruct H6 as (? & ? & ? & ?); [lia|]. split_and!; try done; lia.
    + intros Hne. apply H8. destruct r1; [|done]. simpl in *. by destruct (is_read_of c o), r2.
  - rewrite Hr, Hcl, Hst. intros (H1 & H2 & H3 & H4).
    apply app_eq_nil in H1 as [-> H1]. apply app_eq_nil in H1 as [_ ->]. split_and!; try done; lia.
Qed.

Section Removal.
Context {U : Type}.
Implicit Types (w : NetWorld U) (c : ConnPtr).

Definition without (l : list async_op) (w : NetWorld U) : NetWorld U := set_pending l w.

Lemma view_remove c w l1 o l2 :
  nw_pending w = l1 ++ o :: l2 → view_without c o (view c w) (view c (without (l1 ++ l2) w)).
Proof.
  intros E. unfold view_without, view, without. simpl. rewrite E.
  change (o :: l2) with ([o] ++ l2).
  rewrite !filter_app, !count_app, !count_single, filter_single.
  split_and!; try done; try lia. by eexists _, _.
Qed.

Lemma remove_inv w l1 o l2 :
  nw_pending w = l1 ++ o :: l2 → net_inv w → net_inv (without (l1 ++ l2) w).
Proof. intros E Hi c. eapply view_without_ok; [by apply view_remove|apply Hi]. Qed.

(** What the invariant says about an operation that is in flight. *)
Lemma in_flight_read c w l1 o l2 core :
  nw_pending w = l1 ++ o :: l2 → net_inv w → is_read_of c o = true →
  v_core (view c w) = Some core →
  let v0 := view c (without (l1 ++ l2) w) in
  v_reads v0 = [] ∧ v_starts v0 = 0%nat ∧ v_core v0 = Some core ∧ core_retries core ≤ 5
  ∧ read_ok (core_msg core) o.
Proof.
  intros E Hi Ho Hc v0. specialize (Hi c).
  destruct (view_remove c w l1 o l2 E) as (Hc0 & Hon & Hcl & Hst & r1 & r2 & Hr & Hr0). fold v0 in Hc0, Hon, Hcl, Hst, Hr0.
  unfold view_ok in Hi. rewrite Hc in Hi. destruct Hi as (H1 & H2 & H3 & H4 & H5 & H6 & H7 & H8 & H9).
  rewrite Ho in Hr. rewrite Hr in H1, H2, H8. rewrite !length_app in H1. cbn [length] in H1.
  assert (r1 = []) as -> by (apply length_zero_iff_nil; lia).
  assert (r2 = []) as -> by (apply length_zero_iff_nil; lia).
  rewrite Hr0, Hc0, Hc. split_and!; try done.
  - assert (is_start_of c o = false) as Hso by (by destruct o). rewrite Hso in Hst. lia.
  - apply H8. done.
  - by inversion H2.
Qed.

Lemma in_flight_missing c w l1 o l2 :
  nw_pending w = l1 ++ o :: l2 → net_inv w →
  is_read_of c o = true ∨ is_close_of c o = true ∨ is_start_of c o = true →
  ∃ cn, nw_conns w !! c = Some cn.
Proof.
  intros E Hi Ho. specialize (Hi c).
  destruct (view_remove c w l1 o l2 E) as (Hc0 & Hon & Hcl & Hst & r1 & r2 & Hr & Hr0).
  unfold view_ok in Hi. destruct (nw_conns w !! c) as [cn|] eqn:Ec; [by exists cn|].
  unfold view in Hi at 1. simpl in Hi. rewrite Ec in Hi. destruct Hi as (H1 & H2 & H3 & H4).
  destruct Ho as [Ho|[Ho|Ho]]; rewrite Ho in *.
  - simpl in Hr. rewrite H1 in Hr. by destruct r1.
  - simpl in Hcl. lia.
  - simpl in Hst. lia.
Qed.

Lemma in_flight_close c w l1 l2 :
  nw_pending w = l1 ++ PostClose c :: l2 → net_inv w →
  let v0 := view c (without (l1 ++ l2) w) in
  v_closes v0 = 0%nat ∧ v_onCloses v0 = 0%nat ∧ v_starts v0 = 0%nat.
Proof.
  intros E Hi v0.
  destruct (in_flight_missing c w l1 _ l2 E Hi) as [cn Ec].
  { right; left. simpl. by rewrite bool_decide_true. }
  specialize (Hi c).
  destruct (view_remove c w l1 _ l2 E) as (Hc0 & Hon & Hcl & Hst & _). fold v0 in Hc0, Hon, Hcl, Hst.
  unfold view_ok in Hi. rewrite (view_core_conn _ _ _ Ec) in Hi.
  destruct Hi as (H1 & H2 & H3 & H4 & H5 & H6 & H7 & H8 & H9).
  simpl is_close_of in Hcl. rewrite bool_decide_true in Hcl by done. simpl is_start_of in Hst.
  split_and!; try lia.
  destruct (v_starts v0) eqn:Es; [done|]. destruct H6 as (? & _); lia.
Qed.

(** An operation that will start a connection. *)
Lemma in_flight_start c w l1 o l2 core :
  nw_pending w = l1 ++ o :: l2 → net_inv w → is_start_of c o = true →
  v_core (view c w) = Some core →
  let v0 := view c (without (l1 ++ l2) w) in
  v_reads v0 = [] ∧ v_starts v0 = 0%nat ∧ v_closes v0 = 0%nat ∧ v_onCloses v0 = 0%nat
  ∧ v_core v0 = Some core ∧ core_retries core = 0.
Proof.
  intros E Hi Ho Hc v0. specialize (Hi c).
  destruct (view_remove c w l1 o l2 E) as (Hc0 & Hon & Hcl & Hst & r1 & r2 & Hr & Hr0). fold v0 in Hc0, Hon, Hcl, Hst, Hr0.
  unfold view_ok in Hi. rewrite Hc in Hi. destruct Hi as (H1 & H2 & H3 & H4 & H5 & H6 & H7 & H8 & H9).
  assert (is_read_of c o = false ∧ is_close_of c o = false) as [Hro Hco] by (by destruct o).
  rewrite Ho in Hst. rewrite Hro in Hr. rewrite Hco in Hcl. cbn [app] in Hr.
  rewrite Hr, length_app in H1.
  assert (r1 = []) as -> by (apply length_zero_iff_nil; lia).
  assert (r2 = []) as -> by (apply length_zero_iff_nil; lia).
  destruct H6 as (? & ? & ? & ?); [lia|].
  rewrite Hr0, Hc0, Hc. split_and!; try done; lia.
Qed.
End Removal.

(** ** The handlers of the connection operations keep the invariant *)
Section Completions.
Context {U : Type} `{FreshMemory} `{!Sockets}.
Local Abbreviation W := (NetWorld U).
Implicit Types (w : W) (c : ConnPtr).
Context (receiver_at : RecvPtr → EventReceiver W) (msgProc_at : MsgProcPtr → MessageProcedure W).
Context (Hreceivers : ∀ r, receiver_frames (receiver_at r)).

(** The packet parsers are code of the application as well. *)
Context (HmsgProcs : ∀ p, parser_frames (msgProc_at p)).

Lemma dispatch_frames p c msg :
  keeps frames (MessageProcedure_dispatch (msgProc_at p) c msg).
Proof.
  unfold MessageProcedure_dispatch. simpl.
  destruct (mp_packetParsingFunction (msgProc_at p)) as [parse|] eqn:Ep; keeps_auto.
  by apply (HmsgProcs p).
Qed.

(** Delivering bytes into the buffer of the connection. *)
Lemma deliver_run c w cn msg data :
  nw_conns w !! c = Some cn → ci_msg cn = Some msg →
  mb_wf msg → mb_read msg = 0 → mb_write msg = 0 → zlen data ≤ MAX_BUFFER_SIZE →
  let msg' := set_mb_buffer (zsplice 0 data (mb_buffer msg)) msg in
  mb_wf msg'
  ∧ deliver c 0 data w = Done (set_conns (<[c := set_ci_msg (Some msg') cn]> (nw_conns w)) w) tt.
Proof.
  intros E Hm Hwf Hr Hw Hd msg'. pose proof (zlen_nonneg data). destruct Hwf as [Hl Hr' Hw'].
  split; [split; simpl; rewrite ?zlen_zsplice; lia|].
  unfold deliver. run_with (this_conn_run _ _ _ E). rewrite Hm. simpl. run_step.
  unfold local_only, mb_store.
  rewrite (proj2 (andb_true_iff _ _)) by (split; apply Z.leb_le; lia). run_step.
  by apply upd_conn_run.
Qed.

(** The bytes received by a read in flight, all of it: never outside the
    buffer, never through a null pointer, and posted as they came. *)
Lemma read_completion_run c off size w l1 l2 data :
  nw_pending w = l1 ++ ReadSome c off size :: l2 → net_inv w → zlen data ≤ size →
  let w0 := without (l1 ++ l2) w in
  ∃ w', complete_conn_op receiver_at msgProc_at (ReadSome c off size) (mkCompletion 0 data 0) w0
        = Done w' tt
    ∧ net_inv w' ∧ v_reads (view c w') = [read_op c]
    ∧ ∃ msg, dispatches (nw_pending w') = dispatches (l1 ++ l2) ++ [PostDispatch c msg]
             ∧ mb_wf msg ∧ mb_content msg = data.
Proof.
  intros Epend Hi Hd w0.
  assert (Hro : is_read_of c (ReadSome c off size) = true) by (simpl; by rewrite bool_decide_true).
  destruct (in_flight_missing c w l1 _ l2 Epend Hi) as [cn Ec]; [by left|].
  pose proof (view_core_conn _ _ _ Ec) as Hcore.
  destruct (in_flight_read c w l1 _ l2 _ Epend Hi Hro Hcore) as (Hr0 & Hs0 & Hc0 & Hret & Hmsg).
  fold w0 in Hr0, Hs0, Hc0. destruct Hmsg as (msg & Hm & Hwf & Hrd & Hwr & -> & ->). simpl in Hm.
  pose proof (zlen_nonneg data) as Hd0.
  destruct (deliver_run c w0 cn msg data Ec Hm Hwf Hrd Hwr Hd) as [Hwf' Hdel].
  set (msg' := set_mb_buffer (zsplice 0 data (mb_buffer msg)) msg) in *.
  set (cn1 := set_ci_msg (Some msg') cn) in *.
  set (w1 := set_conns (<[c := cn1]> (nw_conns w0)) w0) in *.
  destruct (read_handler_run c w1 cn1 msg' (zlen data)) as (w' & E' & Ho & Hv & Hdis); try done.
  { apply lookup_insert_eq. }
  exists w'. split_and!.
  - simpl. rewrite bind_run, Hdel. simpl. exact E'.
  - apply (others_same_inv c w0); [|rewrite Hv|by eapply remove_inv].
    + etrans; [apply others_upd_conn|exact Ho].
    + unfold w1. rewrite view_upd_conn.
      change (v_set_core (Some (mkConnCore ?s ?m ?r)) (v_set_core _ ?v))
        with (v_set_core (Some (mkConnCore s m r)) v).
      apply (reading_ok c _ (core_of cn) cn1 (ci_status cn)); try done; [by left|].
      by eapply remove_inv.
  - rewrite Hv. unfold w1. rewrite view_upd_conn. cbn [v_reads v_add_op v_set_core].
    rewrite Hr0. simpl. by rewrite bool_decide_true.
  - exists (set_mb_write (zlen data) msg'). split; [done|].
    destruct Hwf as [Hl Hr' Hw']. split.
    + split; simpl; rewrite ?zlen_zsplice; lia.
    + unfold mb_content. simpl. rewrite Hrd, Z.sub_0_r. apply zslice_zsplice_same; lia.
Qed.

Lemma complete_conn_op_kept o cp w l1 l2 :
  nw_pending w = l1 ++ o :: l2 → net_inv w → completion_ok o cp = true →
  match complete_conn_op receiver_at msgProc_at o cp (without (l1 ++ l2) w) with
  | Done w' _ | Threw w' _ => net_inv w'
  | Undef _ | NoFuel => True
  end.
Proof.
  intros E Hi Hcp. pose proof (remove_inv w l1 o l2 E Hi) as Hi0.
  assert (Hkept : ∀ {A} (m : M W A), keeps inv_kept m →
    match m (without (l1 ++ l2) w) with
    | Done w' _ | Threw w' _ => net_inv w' | Undef _ | NoFuel => True end).
  { intros A m Hk. specialize (Hk (without (l1 ++ l2) w)). destruct (m _); try done; auto. }
  assert (Herr : ∀ c ec n, ec ≠ 0 → is_read_of c o = true →
    match ConnectionImpl_read_handler c ec n (without (l1 ++ l2) w) with
    | Done w' _ | Threw w' _ => net_inv w' | Undef _ | NoFuel => True end).
  { intros c ec n Hec Hro.
    destruct (in_flight_missing c w l1 o l2 E Hi) as [cn Ec]; [by left|].
    pose proof (view_core_conn _ _ _ Ec) as Hcore.
    destruct (in_flight_read c w l1 o l2 _ E Hi Hro Hcore) as (Hr0 & Hs0 & Hc0 & Hret & _).
    pose proof (read_handler_error_kept c (without (l1 ++ l2) w) ec n Hec Hr0 Hs0) as Hk.
    rewrite Hc0 in Hk.
    destruct (ConnectionImpl_read_handler c ec n _); try done; apply Hk; try done; intros ? [= <-]; done. }
  destruct o as [c off size|c d|c b|c b|c m|c ec n|c|? ?|? ? ? ?|? ?]; cbn [complete_conn_op].
  - destruct (Z.eqb_spec (cp_ec cp) 0) as [Hz|Hnz].
    + simpl in Hcp. rewrite (proj2 (Z.eqb_eq _ _) Hz) in Hcp. apply Z.leb_le in Hcp.
      destruct (read_completion_run c off size w l1 l2 (cp_data cp) E Hi Hcp) as (w' & E' & Hi' & _ & _).
      cbn [complete_conn_op cp_ec cp_data] in E'. rewrite (proj2 (Z.eqb_eq 0 0)) in E' by done.
      by rewrite E'.
    + apply Herr; [done|]. simpl. by rewrite bool_decide_true.
  - apply Hkept, write_handler_kept.
  - by apply Hkept, onExpireTime_kept.
  - by apply Hkept, onCloseReserveTime_kept.
  - apply Hkept, frames_kept. keeps_auto.
    apply dispatch_frames.
  - destruct (in_flight_missing c w l1 _ l2 E Hi) as [cn Ec].
    { left. simpl. by rewrite bool_decide_true. }
    apply Herr; [|simpl; by rewrite bool_decide_true].
    destruct (in_flight_read c w l1 _ l2 (core_of cn) E Hi) as (_ & _ & _ & _ & Hec); [|by apply view_core_conn|done].
    simpl. by rewrite bool_decide_true.
  - destruct (in_flight_close c w l1 l2 E Hi) as (H1 & H2 & H3).
    pose proof (close_kept receiver_at Hreceivers c _ H1 H2 H3) as Hk.
    destruct (ConnectionImpl_close receiver_at c _); try done; auto.
  - done.
  - done.
  - done.
Qed.
End Completions.
