(* ===== verification/ConnectionSend.v ===== *)
(** * Sending a packet

    What [ConnectionImpl::sendPacket] gives to [async_write]: the header of the
    manipulator and the body, for every manipulator that keeps its promise
    ([HeaderCodec] of PacketHeader.v), in a buffer that is gone when [sendPacket]
    returns; too large a body is refused by the buffer with an exception. *)
From stdpp Require Import gmap strings list.
From coqutil Require Import Byte.
From S2P Require Import Prelude.
From S2P Require Import MessageBuffer.
From S2P Require Import PacketHeader.
From S2P Require Import Connection.
From S2P Require Import IoService.
From S2P Require Import ConnectionImpl.
From S2P Require Import ConnectionSafety.
#[local] Open Scope Z_scope.

Section Send.
Context {U : Type} `{FreshMemory} `{!Sockets}.
Context {rules : HeaderRules} {manip : MsgUserManip} `{!HeaderCodec rules manip}.
Local Abbreviation W := (NetWorld U).
Implicit Types (w : W) (c : ConnPtr).

(** The buffer with room for the header in front. *)
Lemma new_with_header (w : W) :
  ∃ b, MessageBuffer_new_manip (Some manip) true w = Done w b ∧ mb_wf b
    ∧ mb_manip b = Some manip ∧ zlen (mb_content b) = sizeof_HEADER ∧ mb_write b = sizeof_HEADER.
Proof.
  unfold MessageBuffer_new_manip, local_only. run_step. unfold MessageBuffer_clear. run_step.
  cbn [deref]. run_step. rewrite codec_size. set (b0 := set_mb_write 0 (set_mb_read 0 (raw_MessageBuffer (Some manip)))).
  assert (Hwf0 : mb_wf b0) by apply fresh_wf.
  unfold MessageBuffer_write, MessageBuffer_size. run_step.
  rewrite write_guard by (done || unfold sizeof_HEADER; lia).
  change (mb_content b0) with (@nil byte). rewrite zlen_nil.
  change (MAX_BUFFER_SIZE <? 0 + sizeof_HEADER) with false. cbn [negb].
  rewrite advance_write_spec by (unfold MAX_BUFFER_SIZE, sizeof_HEADER; simpl; lia). run_step.
  eexists. split; [reflexivity|].
  assert (Hwf : mb_wf (set_mb_write (mb_write b0 + sizeof_HEADER) b0)).
  { destruct Hwf0. split; simpl; [done|unfold sizeof_HEADER; lia|
      unfold MAX_BUFFER_SIZE, sizeof_HEADER; lia]. }
  split_and!; try done. by rewrite mb_content_length.
Qed.

Lemma send_run c w cn b hdr body :
  nw_conns w !! c = Some cn →
  mb_wf b → mb_manip b = Some manip → mb_content b = hdr ++ body → zlen hdr = sizeof_HEADER →
  ∃ b', ConnectionImpl_send c (b, w)
    = Done (b', set_pending (nw_pending w ++ [WriteAll c (frame body) true]) w) tt.
Proof.
  intros E Hwf Hm Hc Hh.
  destruct (facilitate_spec b hdr body Hwf Hm Hc Hh) as (b' & Ef & Hwf' & Hc').
  exists b'. unfold ConnectionImpl_send. run_step. rewrite on_fst_run, Ef. run_step.
  rewrite on_fst_run. run_step. unfold MessageBuffer_data. rewrite mb_size_content by done.
  rewrite mb_load_content by (done || pose proof (zlen_nonneg (mb_content b')); lia). run_step.
  rewrite firstn_all_zlen, Hc', on_snd_run. by run_with (this_conn_run _ _ _ E).
Qed.

Lemma sendPacket_run c w cn body :
  nw_conns w !! c = Some cn → ci_msgManipulator cn = Some manip →
  zlen body + sizeof_HEADER ≤ MAX_BUFFER_SIZE →
  ConnectionImpl_sendPacket c body w
  = Done (set_pending (nw_pending w ++ [WriteAll c (frame body) false]) w) tt.
Proof.
  intros E Hm Hs. unfold ConnectionImpl_sendPacket. run_with (this_conn_run _ _ _ E).
  rewrite Hm. run_step. destruct (new_with_header w) as (b & -> & Hwf & Hmb & Hcb & Hwb). run_step.
  destruct (write_from_spec b body Hwf) as (b1 & E1 & Hwf1 & Hc1 & _ & _ & Hm1); [lia|].
  unfold with_local. run_step. rewrite on_fst_run, E1. run_step.
  destruct (send_run c w cn b1 (mb_content b) body E Hwf1) as (b' & E2); [congruence|done..|].
  rewrite E2. run_step. unfold destroy_buffers. run_step. simpl.
  by rewrite take_app_length, drop_app_length.
Qed.

Lemma sendPacket_overrun c w cn body :
  nw_conns w !! c = Some cn → ci_msgManipulator cn = Some manip →
  zlen body < 2 ^ 63 → MAX_BUFFER_SIZE < zlen body + sizeof_HEADER →
  ConnectionImpl_sendPacket c body w = Threw w overrun.
Proof.
  intros E Hm Hb Hs. unfold ConnectionImpl_sendPacket. run_with (this_conn_run _ _ _ E).
  rewrite Hm. run_step. destruct (new_with_header w) as (b & -> & Hwf & Hmb & Hcb & Hwb). run_step.
  unfold with_local. run_step. rewrite on_fst_run, write_from_full by (done || lia). by run_step.
Qed.
End Send.
