(* ===== verification/NetService.v ===== *)
(** * Network services: acceptors and connectors

    Models net/netService.{h,cpp}, net/netServiceImpl.{h,cpp},
    net/netServiceAcceptor.{h,cpp} and net/netServiceConnector.{h,cpp}: the
    registry of services and worker threads, the update timer, the loop that
    accepts connections and the chain of connection attempts.  [assert] is
    taken as compiled out ([NDEBUG]).  The part of the application state that
    belongs to this file is reached through [HasServices]. *)
From stdpp Require Import gmap strings list.
From S2P Require Import Prelude.
From S2P Require Import MessageBuffer.
From S2P Require Import Connection.
From S2P Require Import EventReceiver.
From S2P Require Import IoService.
From S2P Require Import ConnectionImpl.
#[local] Open Scope Z_scope.

(** ** Data *)
Definition IosPtr : Type := N.

(** [NetService::ServiceParams]; the parser is known by the message procedure
    that will be made of it. *)
Record ServiceParams : Type := mkServiceParams {
  sp_ios : IosPtr;
  sp_receiver : RecvPtr;
  sp_msgProc : MsgProcPtr;
  sp_manip : option MsgUserManip;
  sp_serviceUpdateTimeMs : Z;
  sp_keepAliveTimeMs : Z
}.
Record AcceptorUserParams : Type := mkAcceptorUserParams {
  ap_addr : string;
  ap_port : string;
  ap_workerThreadsCount : Z;
  ap_usePortReuseChecking : bool
}.
Record ConnectorUserParams : Type := mkConnectorUserParams {
  kp_addr : string;
  kp_port : string
}.

(** The resolver members of a connector: null until the first attempt; the
    iterator is null, at the end, or at an endpoint. *)
Record ConnectorState : Type := mkConnectorState {
  m_targetAddr : string;
  m_targetPort : string;
  m_resolver : bool;
  m_quary : option (string * string);
  m_endpoint_iter : option (list Endpoint)
}.

(** A service object: the members of [NetServiceImpl] and those of a
    connector, if it is one.  [m_index] is set after construction. *)
Record NetServiceImpl : Type := mkNetServiceImpl {
  ns_ios : IosPtr;
  ns_index : option Z;
  ns_updateTimeMs : Z;
  ns_keepAliveTimeMs : Z;
  ns_eventReceiver : RecvPtr;
  ns_msgProc : MsgProcPtr;
  ns_manip : option MsgUserManip;
  ns_prevTime : Z;
  ns_receiverEventClosed : bool;
  ns_connector : option ConnectorState
}.

Definition set_ns_index (i : Z) (s : NetServiceImpl) : NetServiceImpl :=
  mkNetServiceImpl (ns_ios s) (Some i) (ns_updateTimeMs s) (ns_keepAliveTimeMs s)
    (ns_eventReceiver s) (ns_msgProc s) (ns_manip s) (ns_prevTime s)
    (ns_receiverEventClosed s) (ns_connector s).
Definition set_ns_prevTime (t : Z) (s : NetServiceImpl) : NetServiceImpl :=
  mkNetServiceImpl (ns_ios s) (ns_index s) (ns_updateTimeMs s) (ns_keepAliveTimeMs s)
    (ns_eventReceiver s) (ns_msgProc s) (ns_manip s) t
    (ns_receiverEventClosed s) (ns_connector s).
Definition set_ns_connector (k : ConnectorState) (s : NetServiceImpl) : NetServiceImpl :=
  mkNetServiceImpl (ns_ios s) (ns_index s) (ns_updateTimeMs s) (ns_keepAliveTimeMs s)
    (ns_eventReceiver s) (ns_msgProc s) (ns_manip s) (ns_prevTime s)
    (ns_receiverEventClosed s) (Some k).

(** The statics of netService.cpp; a thread is known by the io_service it
    runs. *)
Record NetServices : Type := mkNetServices {
  s_acceptors : list (option ServicePtr);
  s_connectors : list (option ServicePtr);
  s_objects : gmap ServicePtr NetServiceImpl;
  s_threads : list IosPtr;
  s_currentIOS : option IosPtr;
  s_work : bool
}.
Definition NetServices_init : NetServices := mkNetServices [] [] ∅ [] None false.

Class HasServices (U : Type) : Type := {
  services_of : U → NetServices;
  with_services : NetServices → U → U
}.

Section Registry.
Context {U : Type} `{!HasServices U}.
Local Abbreviation W := (NetWorld U).

Definition get_services : M W NetServices := gets (λ w, services_of (nw_app w)).
Definition upd_services (f : NetServices → NetServices) : M W unit :=
  modify (λ w, set_app (with_services (f (services_of (nw_app w))) (nw_app w)) w).

Definition set_acceptors (l : list (option ServicePtr)) (s : NetServices) : NetServices :=
  mkNetServices l (s_connectors s) (s_objects s) (s_threads s) (s_currentIOS s) (s_work s).
Definition set_connectors (l : list (option ServicePtr)) (s : NetServices) : NetServices :=
  mkNetServices (s_acceptors s) l (s_objects s) (s_threads s) (s_currentIOS s) (s_work s).
Definition set_objects (m : gmap ServicePtr NetServiceImpl) (s : NetServices) : NetServices :=
  mkNetServices (s_acceptors s) (s_connectors s) m (s_threads s) (s_currentIOS s) (s_work s).
Definition set_threads (l : list IosPtr) (s : NetServices) : NetServices :=
  mkNetServices (s_acceptors s) (s_connectors s) (s_objects s) l (s_currentIOS s) (s_work s).
Definition set_currentIOS (i : option IosPtr) (s : NetServices) : NetServices :=
  mkNetServices (s_acceptors s) (s_connectors s) (s_objects s) (s_threads s) i (s_work s).
Definition set_work (b : bool) (s : NetServices) : NetServices :=
  mkNetServices (s_acceptors s) (s_connectors s) (s_objects s) (s_threads s) (s_currentIOS s) b.

(** The object of a service. *)
Definition this_service (p : ServicePtr) : M W NetServiceImpl :=
  s ← get_services; deref "no such service" (s_objects s !! p).
Definition upd_service (p : ServicePtr) (f : NetServiceImpl → NetServiceImpl) : M W unit :=
  o ← this_service p;
  upd_services (λ s, set_objects (<[p := f o]> (s_objects s)) s).

Definition getIndex (p : ServicePtr) : M W Z :=
  o ← this_service p; deref "m_index is not initialised" (ns_index o).
Definition setIndex (p : ServicePtr) (idx : Z) : M W unit := upd_service p (set_ns_index idx).

(** [std::vector<boost::shared_ptr<...>>]: [resize] appends null pointers. *)
Definition vector_resize (n : nat) (l : list (option ServicePtr)) : list (option ServicePtr) :=
  l ++ replicate (n - length l) None.

Definition getAcceptor (acceptorIdx : Z) : M W (option ServicePtr) :=
  s ← get_services; mret (mjoin (s_acceptors s !! Z.to_nat acceptorIdx)).
Definition getConnector (connectorIdx : Z) : M W (option ServicePtr) :=
  s ← get_services; mret (mjoin (s_connectors s !! Z.to_nat connectorIdx)).

(** ** Worker threads *)
Definition addWorkerThreads_ios (workerCount : Z) (ios : IosPtr) : M W Z :=
  upd_services (λ s, set_threads (s_threads s ++ replicate (Z.to_nat workerCount) ios) s);;
  s ← get_services; mret (zlen (s_threads s)).
Definition addWorkerThreads (workerCount : Z) : M W Z :=
  s ← get_services;
  match s_currentIOS s with
  | None => mret 0
  | Some ios => addWorkerThreads_ios workerCount ios
  end.

Definition getCurrentIOS : M W (option IosPtr) := s ← get_services; mret (s_currentIOS s).

(** [setWork]: an [io_service::work] and a timer of one hour on the current
    io_service, which must not be null. *)
Definition setWork : M W unit :=
  s ← get_services;
  _ ← deref "s_currentIOS is null" (s_currentIOS s);
  upd_services (set_work true).

(** [run], up to the call of [ios.run()] and after it: the threads are joined. *)
Definition run_enter (ios : IosPtr) : M W unit := upd_services (set_currentIOS (Some ios)).
Definition run_leave : M W unit := upd_services (set_threads []).

(** [waitServiceStart]: the loop ends when [stopped()] is false, here at the
    first poll that finds it so; [polls] are the results seen. *)
Fixpoint waitServiceStart (polls : list bool) (postServiceStart : M W unit) : M W unit :=
  match polls with
  | [] => no_fuel
  | stopped :: polls' => if stopped then waitServiceStart polls' postServiceStart
                         else postServiceStart
  end.

(** [runService(postServiceStart)] up to [ios.run()]: the io_service is that of
    the first acceptor, or else of the first connector. *)
Definition first_service (l : list (option ServicePtr)) : option ServicePtr := head (omap id l).

Definition runService : M W unit :=
  s ← get_services;
  match first_service (s_acceptors s) with
  | Some p => o ← this_service p; upd_services (set_currentIOS (Some (ns_ios o)))
  | None =>
      match first_service (s_connectors s) with
      | Some p => o ← this_service p; upd_services (set_currentIOS (Some (ns_ios o)))
      | None => mret tt
      end
  end;;
  setWork;;
  s ← get_services;
  ios ← deref "s_currentIOS is null" (s_currentIOS s);
  (if bool_decide (s_threads s = []) then upd_services (set_threads [ios]) else mret tt);;
  run_enter ios.

(** [runService(ios, postServiceStart)] *)
Definition runService_ios (ios : IosPtr) : M W unit :=
  s ← get_services;
  (if bool_decide (s_currentIOS s = None)
   then upd_services (set_currentIOS (Some ios)) else mret tt);;
  setWork;;
  s ← get_services;
  (if bool_decide (s_threads s = []) then upd_services (set_threads [ios]) else mret tt);;
  run_enter ios.
End Registry.

(** ** The update timer *)
Definition cancel_update (p : ServicePtr) (o : async_op) : async_op :=
  match o with
  | WaitUpdate p' b => WaitUpdate p' (b || bool_decide (p = p'))
  | o => o
  end.

Section Services.
Context {U : Type} `{!HasServices U} `{FreshMemory} `{!Sockets}.
Local Abbreviation W := (NetWorld U).

Definition expireTimerReady (p : ServicePtr) : M W unit :=
  o ← this_service p;
  if negb (0 =? ns_updateTimeMs o) then
    now ← clock_now;
    upd_service p (set_ns_prevTime now);;
    map_pending (cancel_update p);;
    start_op (WaitUpdate p false)
  else mret tt.

(** A new connection of a service. *)
Definition create_conn (p : ServicePtr) (connectionID : Z) : M W ConnPtr :=
  o ← this_service p;
  conn ← ConnectionImpl_create (ns_msgProc o) (ns_manip o) (Some (ns_eventReceiver o))
           (ns_keepAliveTimeMs o) connectionID;
  idx ← getIndex p;
  ConnectionImpl_setServiceID conn idx;;
  mret conn.

(** ** Connector *)
Definition set_connector (p : ServicePtr) (k : ConnectorState) : M W unit :=
  upd_service p (set_ns_connector k).
Definition this_connector (p : ServicePtr) : M W ConnectorState :=
  o ← this_service p; deref "not a connector" (ns_connector o).

Definition setTargetServer (p : ServicePtr) (addr port : string) : M W unit :=
  k ← this_connector p;
  set_connector p (mkConnectorState addr port (m_resolver k) (m_quary k) (m_endpoint_iter k)).

(** The resolver is asked once; when it throws, the members set before stay. *)
Definition setEndPoint (p : ServicePtr) (addr port : string) : M W bool :=
  let ipAddr := if bool_decide (addr = "") then "127.0.0.1" else addr in
  try_catch
    (k ← this_connector p;
     (if m_resolver k then mret tt
      else
        set_connector p (mkConnectorState (m_targetAddr k) (m_targetPort k) true
          (Some (ipAddr, port)) (Some []));;
        r ← resolve ipAddr port;
        match r with
        | None => throw (system_error "resolve")
        | Some eps =>
            k ← this_connector p;
            set_connector p (mkConnectorState (m_targetAddr k) (m_targetPort k) true
              (m_quary k) (Some eps))
        end);;
     k ← this_connector p;
     it ← deref "m_endpoint_iter is null" (m_endpoint_iter k);
     mret (negb (bool_decide (it = []))))
    (λ _, mret false).

(** The endpoint the iterator designates. *)
Definition current_endpoint (p : ServicePtr) : M W Endpoint :=
  k ← this_connector p;
  it ← deref "m_endpoint_iter is null" (m_endpoint_iter k);
  deref "dereference of the end iterator" (head it).

Definition createConnectSession (p : ServicePtr) (connectionID : Z) : M W ConnPtr :=
  conn ← create_conn p connectionID;
  _ ← current_endpoint p;
  socket_open conn;;
  socket_set_option conn;;
  socket_set_option conn;;
  socket_set_option conn;;
  mret conn.

(** [sessionCnt - 1] is an [int], narrowed to the [uint16_t] parameter of the
    handler. *)
Definition start_connect_attempt (p : ServicePtr) (ep : Endpoint) (conn : ConnPtr)
    (remainCnt : Z) : M W unit :=
  start_op (ConnectConn p ep conn (u16 remainCnt)).

Definition connectImplement (p : ServicePtr) (addr port : string) (sessionCnt connectionID : Z)
    : M W bool :=
  ok ← setEndPoint p addr port;
  if negb ok then mret false
  else
    try_catch
      (conn ← createConnectSession p connectionID;
       ep ← current_endpoint p;
       start_connect_attempt p ep conn (sessionCnt - 1);;
       expireTimerReady p;;
       mret true)
      (λ _, mret false).

Definition connectWait (p : ServicePtr) (sessionCnt workerThreadsCount connectionID : Z)
    : M W unit :=
  o ← this_service p;
  (if 0 <? workerThreadsCount
   then _ ← addWorkerThreads_ios workerThreadsCount (ns_ios o); mret tt else mret tt);;
  k ← this_connector p;
  _ ← connectImplement p (m_targetAddr k) (m_targetPort k) (u16 sessionCnt) connectionID;
  mret tt.

(** ** The handlers and the constructors, which run the event receivers *)
Context (receiver_at : RecvPtr → EventReceiver W).

Definition update_handler (p : ServicePtr) (ec : Z) : M W unit :=
  if ec =? 0 then
    o ← this_service p;
    if ns_receiverEventClosed o then mret tt
    else
      now ← clock_now;
      let elapse := u64 (now - ns_prevTime o) in
      upd_service p (set_ns_prevTime now);;
      call (er_onUpdate (receiver_at (ns_eventReceiver o))) elapse;;
      map_pending (cancel_update p);;
      start_op (WaitUpdate p false)
  else mret tt.

(** [NetServiceImpl::NetServiceImpl]: the new object, and [initHandler]. *)
Definition NetServiceImpl_new (params : ServiceParams) (k : option ConnectorState)
    : M W ServicePtr :=
  s ← get_services;
  let p := fresh (dom (s_objects s)) in
  upd_services (λ s, set_objects (<[p := mkNetServiceImpl (sp_ios params) None
    (sp_serviceUpdateTimeMs params) (sp_keepAliveTimeMs params) (sp_receiver params)
    (sp_msgProc params) (sp_manip params) 0 false k]> (s_objects s)) s);;
  call (er_initHandler (service_receiver (receiver_at (sp_receiver params)))) (sp_msgProc params);;
  mret p.

Definition NetServiceAcceptor_new (params : ServiceParams) : M W ServicePtr :=
  NetServiceImpl_new params None.
Definition NetServiceConnector_new (params : ServiceParams) (userParams : ConnectorUserParams)
    : M W ServicePtr :=
  p ← NetServiceImpl_new params (Some (mkConnectorState "" "" false None None));
  setTargetServer p (kp_addr userParams) (kp_port userParams);;
  mret p.

Context (hardware_concurrency : Z).

Definition acceptWait (p : ServicePtr) (addr port : string) (workerThreadsCount : Z) : M W unit :=
  let workers := if 0 =? workerThreadsCount then hardware_concurrency else workerThreadsCount in
  let ipAddr := if bool_decide (addr = "") then "0.0.0.0" else addr in
  r ← resolve ipAddr port;
  endpoint ← deref "dereference of the end iterator" (head (default [] r));
  _ ← listen_call;                       (* open *)
  listen_call_throwing;;                 (* the three set_option *)
  listen_call_throwing;;
  listen_call_throwing;;
  _ ← listen_call;                       (* bind: an error is logged *)
  _ ← listen_call;                       (* listen: an error is logged *)
  conn ← create_conn p 0;
  start_op (AcceptConn p conn);;
  o ← this_service p;
  _ ← addWorkerThreads_ios workers (ns_ios o);
  expireTimerReady p.

Definition accept_handler (p : ServicePtr) (ec : Z) (conn : ConnPtr) : M W unit :=
  if ec =? 0 then
    o ← this_service p;
    call (er_onAccept (receiver_at (ns_eventReceiver o))) conn;;
    ConnectionImpl_start_accept conn;;
    newConn ← create_conn p 0;
    start_op (AcceptConn p newConn)
  else mret tt.

Definition connect_handler (p : ServicePtr) (ec : Z) (endpoint_iter : Endpoint) (conn : ConnPtr)
    (remainCnt : Z) : M W bool :=
  o ← this_service p;
  let er := receiver_at (ns_eventReceiver o) in
  opened ← socket_is_open conn;
  if negb opened then
    socket_close conn;; call (er_onConnectFailed er) conn;; mret false
  else if negb (ec =? 0) then
    socket_close conn;; call (er_onConnectFailed er) conn;; mret false
  else
    ConnectionImpl_start_connect conn;;
    call (er_onConnect er) conn;;
    if 0 <? remainCnt then
      try_catch
        (conn ← createConnectSession p 0;
         start_connect_attempt p endpoint_iter conn (remainCnt - 1);;
         mret true)
        (λ _, mret false)
    else mret true.

Definition connect_handler_sync (p : ServicePtr) (endpoint_iter : Endpoint) (conn : ConnPtr)
    : M W bool :=
  ConnectionImpl_start_connect conn;;
  o ← this_service p;
  call (er_onConnect (receiver_at (ns_eventReceiver o))) conn;;
  mret true.

Definition connectImplement_sync (p : ServicePtr) (addr port : string) (connectionID : Z)
    : M W (option ConnPtr) :=
  ok ← setEndPoint p addr port;
  if negb ok then mret None
  else
    try_catch
      (conn ← createConnectSession p connectionID;
       ep ← current_endpoint p;
       socket_connect conn ep;;
       made ← connect_handler_sync p ep conn;
       if negb made then mret None
       else expireTimerReady p;; mret (Some conn))
      (λ _, mret None).

Definition NetServiceConnector_connect (p : ServicePtr) : M W (option ConnPtr) :=
  k ← this_connector p;
  connectImplement_sync p (m_targetAddr k) (m_targetPort k) 0.

(** ** The registry *)
Definition createAcceptor (acceptorIdx : Z) (svcParams : ServiceParams)
    (userParams : AcceptorUserParams) : M W (option ServicePtr) :=
  upd_services (λ s, set_acceptors
    (vector_resize (S (Z.to_nat acceptorIdx)) (s_acceptors s)) s);;
  a ← getAcceptor acceptorIdx;
  match a with
  | Some p => mret (Some p)
  | None =>
      p ← NetServiceAcceptor_new svcParams;
      upd_services (λ s, set_acceptors
        (<[Z.to_nat acceptorIdx := Some p]> (s_acceptors s)) s);;
      setIndex p acceptorIdx;;
      acceptWait p (ap_addr userParams) (ap_port userParams) (ap_workerThreadsCount userParams);;
      getAcceptor acceptorIdx
  end.

Definition createConnector (connectorIdx : Z) (svcParams : ServiceParams)
    (userParams : ConnectorUserParams) : M W (option ServicePtr) :=
  upd_services (λ s, set_connectors
    (vector_resize (S (Z.to_nat connectorIdx)) (s_connectors s)) s);;
  a ← getConnector connectorIdx;
  match a with
  | Some p => mret (Some p)
  | None =>
      p ← NetServiceConnector_new svcParams userParams;
      upd_services (λ s, set_connectors
        (<[Z.to_nat connectorIdx := Some p]> (s_connectors s)) s);;
      setIndex p connectorIdx;;
      getConnector connectorIdx
  end.
End Services.
