(* ===== verification/NetServiceSafety.v ===== *)
(** * Services and the life cycle of connections

    The operations of NetService.v create connections and start them; this file
    shows that they keep the invariant of ConnectionSafety.v, gives the step
    relation of the whole io_service, and the facts about the registry, the
    accept loop and the chain of connection attempts. *)
From stdpp Require Import gmap strings list.
From S2P Require Import Prelude.
From S2P Require Import MessageBuffer.
From S2P Require Import Connection.
From S2P Require Import MessageProcedure.
From S2P Require Import EventReceiver.
From S2P Require Import IoService.
From S2P Require Import ConnectionImpl.
From S2P Require Import ConnectionSafety.
From S2P Require Import NetService.
#[local] Open Scope Z_scope.

Section Frames.
Context {U : Type} `{!HasServices U} `{FreshMemory} `{!Sockets}.
Local Abbreviation W := (NetWorld U).
Implicit Types (w : W) (c : ConnPtr) (p : ServicePtr).

Lemma keeps_get_services : keeps same_views (get_services (U := U)).
Proof. unfold get_services. keeps_auto. Qed.
Lemma keeps_upd_services f : keeps same_views (upd_services (U := U) f).
Proof. by intros w c. Qed.
Lemma keeps_this_service p : keeps same_views (this_service (U := U) p).
Proof. unfold this_service. keeps_auto; apply keeps_get_services. Qed.
Lemma keeps_upd_service p f : keeps same_views (upd_service (U := U) p f).
Proof.
  unfold upd_service. keeps_auto; first [apply keeps_this_service | apply keeps_upd_services].
Qed.
Lemma keeps_cancel_update p : keeps same_views (map_pending (U := U) (cancel_update p)).
Proof. intros w c'. apply view_map_pending. by intros []. Qed.
End Frames.
#[export] Hint Resolve keeps_get_services keeps_upd_services keeps_this_service
  keeps_upd_service keeps_cancel_update : keeps.

Section Frames2.
Context {U : Type} `{!HasServices U} `{FreshMemory} `{!Sockets}.
Local Abbreviation W := (NetWorld U).
Implicit Types (w : W) (c : ConnPtr) (p : ServicePtr).

Lemma keeps_getIndex p : keeps same_views (getIndex (U := U) p).
Proof. unfold getIndex. keeps_auto. Qed.
Lemma keeps_this_connector p : keeps same_views (this_connector (U := U) p).
Proof. unfold this_connector. keeps_auto. Qed.
Lemma keeps_set_connector p k : keeps same_views (set_connector (U := U) p k).
Proof. unfold set_connector. keeps_auto. Qed.
Lemma keeps_clock_now : keeps same_views (clock_now (U := U)).
Proof. unfold clock_now. keeps_auto. Qed.
Lemma keeps_resolve a s : keeps same_views (resolve (U := U) a s).
Proof. unfold resolve. keeps_auto. Qed.
Lemma keeps_listen_call : keeps same_views (listen_call (U := U)).
Proof. unfold listen_call. keeps_auto. Qed.
Lemma keeps_addWorkerThreads_ios n i : keeps same_views (addWorkerThreads_ios (U := U) n i).
Proof. unfold addWorkerThreads_ios. keeps_auto. Qed.
Lemma keeps_getConnector i : keeps same_views (getConnector (U := U) i).
Proof. unfold getConnector. keeps_auto. Qed.
Lemma keeps_is_open c : keeps same_views (socket_is_open (U := U) c).
Proof. unfold socket_is_open. keeps_auto. Qed.
Lemma keeps_socket_connect c e : keeps same_views (socket_connect (U := U) c e).
Proof. unfold socket_connect. keeps_auto. Qed.
End Frames2.
#[export] Hint Resolve keeps_getIndex keeps_this_connector keeps_set_connector keeps_clock_now
  keeps_resolve keeps_listen_call keeps_addWorkerThreads_ios keeps_getConnector keeps_is_open
  keeps_socket_connect : keeps.

Section Frames3.
Context {U : Type} `{!HasServices U} `{FreshMemory} `{!Sockets}.
Local Abbreviation W := (NetWorld U).
Implicit Types (w : W) (c : ConnPtr) (p : ServicePtr).

Lemma keeps_expireTimerReady p : keeps same_views (expireTimerReady (U := U) p).
Proof. unfold expireTimerReady. keeps_auto. Qed.
Lemma keeps_setEndPoint p a s : keeps same_views (setEndPoint (U := U) p a s).
Proof. unfold setEndPoint. keeps_auto. Qed.
Lemma keeps_current_endpoint p : keeps same_views (current_endpoint (U := U) p).
Proof. unfold current_endpoint. keeps_auto. Qed.

(** A connection that did not exist before. *)
Definition created (c : ConnPtr) (w w' : W) : Prop :=
  others_same c w w' ∧ v_core (view c w) = None
  ∧ view c w' = v_set_core (Some fresh_core) (view c w).

Lemma created_after c w w1 w2 : created c w w1 → same_views w1 w2 → created c w w2.
Proof.
  intros (Ho & Hn & Hv) Hs. split; [|split; [done|by rewrite Hs]].
  etrans; [exact Ho|by apply same_views_others].
Qed.

Lemma created_frames c w w' : created c w w' → frames w w'.
Proof.
  intros (Ho & Hn & Hv) c'. destruct (decide (c' = c)) as [->|Hne].
  - right. rewrite Hv. simpl. split_and!; try done; lia.
  - left. by apply Ho.
Qed.

Lemma create_run r m e k i w :
  ∃ w' c, ConnectionImpl_create (U := U) r m e k i w = Done w' c ∧ created c w w'.
Proof.
  unfold ConnectionImpl_create. run_step.
  set (c := fresh (dom (nw_conns w))).
  assert (Hn : nw_conns w !! c = None) by (apply not_elem_of_dom, is_fresh).
  set (cn := mkConnectionImpl _ _ _ _ _ _ _ _ _ _ _ _ _).
  set (w1 := set_conns _ w). set (w2 := set_identitySeed _ w1).
  assert (E2 : nw_conns w2 !! c = Some cn) by apply lookup_insert_eq.
  destruct (renewExpireTime_run c w2 cn E2) as (w3 & -> & Hs & _ & _). run_step.
  exists w3, c. split; [done|].
  apply (created_after c w w1); [|exact Hs]. split; [apply others_upd_conn|].
  split; [unfold view; cbn [v_core]; by rewrite Hn|apply view_upd_conn].
Qed.

(** What creates a connection and goes on with silent steps. *)
Definition creates {A} (conn_of : A → ConnPtr) (m : M W A) : Prop :=
  ∀ w, match m w with
       | Done w' a => created (conn_of a) w w'
       | Threw w' _ => frames w w'
       | Undef _ | NoFuel => True
       end.

Lemma creates_bind {A B} (f : A → ConnPtr) (g : B → ConnPtr) (m : M W A) (k : A → M W B) :
  creates f m →
  (∀ a w, keeps same_views (k a) ∧
     match k a w with Done _ b => g b = f a | _ => True end) →
  creates g (m ≫= k).
Proof.
  intros Hm Hk w. rewrite bind_run. specialize (Hm w).
  destruct (m w) as [w1 a|w1 e| |]; simpl; try done.
  destruct (Hk a w1) as [Hs Hg]. specialize (Hs w1).
  destruct (k a w1) as [w2 b|w2 e| |]; try done.
  - rewrite Hg. by eapply created_after.
  - etrans; [by eapply created_frames|]. intros c. left. apply Hs.
Qed.

Lemma create_conn_creates p i : creates id (create_conn (U := U) p i).
Proof.
  intros w. unfold create_conn. run_step. pose proof (keeps_this_service p w) as Hs.
  destruct (this_service p w) as [w0 o|w0 e| |]; try done; cbn [bind_outcome].
  2:{ intros c. left. apply Hs. }
  run_step.
  destruct (create_run (ns_msgProc o) (ns_manip o) (Some (ns_eventReceiver o))
              (ns_keepAliveTimeMs o) i w0) as (w1 & c & -> & Hc). run_step.
  assert (Hc0 : created c w w1).
  { destruct Hc as (Ho & Hn & Hv). split; [|split].
    - etrans; [by apply same_views_others|done].
    - by rewrite <- Hs.
    - by rewrite Hv, Hs. }
  pose proof (keeps_getIndex p w1) as Hs1.
  destruct (getIndex p w1) as [w2 idx|w2 e| |]; try done; cbn [bind_outcome].
  2:{ etrans; [by eapply created_frames|]. intros c'. left. apply Hs1. }
  run_step. pose proof (keeps_setServiceID c idx w2) as Hs2.
  destruct (ConnectionImpl_setServiceID c idx w2) as [w3 []|w3 e| |]; try done; run_step.
  - eapply created_after; [by eapply created_after|done].
  - etrans; [by eapply created_frames|]. intros c'. left. rewrite Hs2. apply Hs1.
Qed.

Lemma createConnectSession_creates p i : creates id (createConnectSession (U := U) p i).
Proof.
  unfold createConnectSession. apply (creates_bind id id); [apply create_conn_creates|].
  intros c w. split.
  - keeps_auto. apply keeps_current_endpoint.
  - run_step. destruct (current_endpoint p w) as [w1 ep| | |]; simpl; try done. run_step.
    destruct (socket_open c w1) as [w2 []| | |]; simpl; try done. run_step.
    destruct (socket_set_option c w2) as [w3 []| | |]; simpl; try done. run_step.
    destruct (socket_set_option c w3) as [w4 []| | |]; simpl; try done. run_step.
    by destruct (socket_set_option c w4) as [w5 []| | |].
Qed.

(** The new connection gets the operation that will start it. *)
Lemma created_start c w w' o :
  is_start_of c o = true → op_of c o → created c w w' →
  frames w (set_pending (nw_pending w' ++ [o]) w').
Proof.
  intros Hst Ho (Hoth & Hn & Hv) c'. destruct (decide (c' = c)) as [->|Hne].
  - right. rewrite view_start_op, Hv. unfold v_add_op. simpl. rewrite Hst.
    assert (is_read_of c o = false ∧ is_close_of c o = false) as [-> ->] by (by destruct o).
    rewrite app_nil_r, Nat.add_0_r. split_and!; try done.
  - left. rewrite (others_start_op c o w' Ho c' Hne). by apply Hoth.
Qed.

Lemma op_of_connect p ep c n : op_of c (ConnectConn p ep c n).
Proof. intros c' Hc. simpl. by rewrite bool_decide_false. Qed.
Lemma op_of_accept p c : op_of c (AcceptConn p c).
Proof. intros c' Hc. simpl. by rewrite bool_decide_false. Qed.

(** Creating a connection, some silent steps, the start, some more. *)
Lemma keeps_create_start {A B} (f : A → ConnPtr) (m : M W A) (pre : A → M W B)
    (o : A → B → async_op) {C} (post : A → B → M W C) :
  creates f m → (∀ a, keeps same_views (pre a)) →
  (∀ a b, is_start_of (f a) (o a b) = true ∧ op_of (f a) (o a b)) →
  (∀ a b, keeps frames (post a b)) →
  keeps frames (a ← m; b ← pre a; start_op (o a b);; post a b).
Proof.
  intros Hm Hpre Ho Hpost w. rewrite bind_run. specialize (Hm w).
  destruct (m w) as [w1 a|w1 e| |]; simpl; try done. rewrite bind_run.
  specialize (Hpre a w1). destruct (pre a w1) as [w2 b|w2 e| |]; simpl; try done.
  - rewrite bind_run. unfold start_op. run_step.
    destruct (Ho a b) as [Hst Hop].
    assert (Hf : frames w (set_pending (nw_pending w2 ++ [o a b]) w2)).
    { apply (created_start (f a)); [done|done|by eapply created_after]. }
    specialize (Hpost a b (set_pending (nw_pending w2 ++ [o a b]) w2)).
    destruct (post a b _); try done; by etrans.
  - etrans; [by eapply created_frames|]. intros c. left. apply Hpre.
Qed.
End Frames3.
#[export] Hint Resolve keeps_expireTimerReady keeps_setEndPoint keeps_current_endpoint : keeps.

(** ** The operations that create connections *)
Section Creators.
Context {U : Type} `{!HasServices U} `{FreshMemory} `{!Sockets}.
Local Abbreviation W := (NetWorld U).
Implicit Types (w : W) (c : ConnPtr) (p : ServicePtr).

Lemma keeps_connectImplement p a s n i :
  keeps frames (connectImplement (U := U) p a s n i).
Proof.
  unfold connectImplement. apply keeps_bind; [apply _|auto with keeps|]. intros ok.
  destruct (negb ok); [keeps_auto|]. apply keeps_try_catch; [apply _| |intros; keeps_auto].
  unfold start_connect_attempt.
  apply (keeps_create_start id _ (λ _, current_endpoint p)
           (λ conn ep, ConnectConn p ep conn (u16 (n - 1)))
           (λ _ _, expireTimerReady p;; mret true)).
  - apply createConnectSession_creates.
  - intros c. auto with keeps.
  - intros c ep. simpl. rewrite bool_decide_true by done. split; [done|apply op_of_connect].
  - intros c ep. keeps_auto.
Qed.

Lemma keeps_connectWait p n t i : keeps frames (connectWait (U := U) p n t i).
Proof. unfold connectWait. keeps_auto; apply keeps_connectImplement. Qed.

(** ** Handlers *)
Context (receiver_at : RecvPtr → EventReceiver W).
Context (Hreceivers : ∀ r, receiver_frames (receiver_at r)).

Lemma keeps_update_handler p ec : keeps frames (update_handler receiver_at p ec).
Proof. unfold update_handler. keeps_auto; try apply call_kept, Hreceivers; auto with keeps. Qed.

(** The end of [accept_handler] and of [connect_handler]: the next attempt. *)
Lemma keeps_next_accept p :
  keeps frames (newConn ← create_conn p 0; start_op (U := U) (AcceptConn p newConn)).
Proof.
  intros w. pose proof (keeps_create_start id (create_conn (U := U) p 0) (λ _, mret tt)
    (λ conn _, AcceptConn p conn) (λ _ _, mret tt)) as Hk.
  assert (Hk' : keeps frames (a ← create_conn (U := U) p 0; _ ← mret tt;
    start_op (AcceptConn p a);; mret tt)).
  { apply Hk; [apply create_conn_creates|intros; keeps_auto| |intros; keeps_auto].
    intros c _. simpl. rewrite bool_decide_true by done. split; [done|apply op_of_accept]. }
  specialize (Hk' w). revert Hk'. rewrite !bind_run. by destruct (create_conn p 0 w).
Qed.

Lemma keeps_next_connect p ep n :
  keeps frames (try_catch
    (conn ← createConnectSession (U := U) p 0;
     start_connect_attempt p ep conn n;; mret true) (λ _, mret false)).
Proof.
  apply keeps_try_catch; [apply _| |intros; keeps_auto].
  intros w. pose proof (keeps_create_start id (createConnectSession (U := U) p 0)
    (λ _, mret tt) (λ conn _, ConnectConn p ep conn (u16 n)) (λ _ _, mret true)) as Hk.
  assert (Hk' : keeps frames (a ← createConnectSession (U := U) p 0; _ ← mret tt;
    start_op (ConnectConn p ep a (u16 n));; mret true)).
  { apply Hk; [apply createConnectSession_creates|intros; keeps_auto| |intros; keeps_auto].
    intros c _. simpl. rewrite bool_decide_true by done. split; [done|apply op_of_connect]. }
  specialize (Hk' w). revert Hk'. rewrite !bind_run. by destruct (createConnectSession p 0 w).
Qed.

(** A connection that is about to start: what the invariant says of it once
    its operation is out of the set. *)
Definition startable (c : ConnPtr) (w : W) : Prop :=
  v_reads (view c w) = [] ∧ v_starts (view c w) = 0%nat ∧ v_closes (view c w) = 0%nat
  ∧ v_onCloses (view c w) = 0%nat
  ∧ ∃ core, v_core (view c w) = Some core ∧ core_retries core = 0.

Lemma startable_frames c w w' : frames w w' → startable c w → startable c w'.
Proof.
  intros Hf (Hr & Hs & Hcl & Hon & core & Hc & Hret). unfold startable.
  destruct (Hf c) as [->|(Hn & _)]; [by eauto 10|congruence].
Qed.

Lemma start_startable c w :
  startable c w →
  match ConnectionImpl_start_accept c w with
  | Done w' _ | Threw w' _ => inv_kept w w'
  | Undef _ | NoFuel => True
  end.
Proof.
  intros (Hr & Hs & Hcl & Hon & core & Hc & Hret). apply start_kept; try done.
  rewrite Hc. intros ? [= <-]. lia.
Qed.

Lemma accept_handler_kept p ec c w :
  (ec = 0 → startable c w) →
  match accept_handler receiver_at p ec c w with
  | Done w' _ | Threw w' _ => inv_kept w w'
  | Undef _ | NoFuel => True
  end.
Proof.
  intros Hstart. unfold accept_handler.
  destruct (Z.eqb_spec ec 0) as [Hz|Hnz]; [|by intros Hi]. specialize (Hstart Hz).
  assert (Hpre : keeps frames (o ← this_service p;
      call (er_onAccept (receiver_at (ns_eventReceiver o))) c)).
  { keeps_auto. apply call_kept, Hreceivers. }
  specialize (Hpre w). revert Hpre. rewrite !bind_run.
  destruct (this_service p w) as [w0 o|w0 e| |]; simpl; try done.
  2:{ intros Hf Hi. by eapply frames_inv. }
  rewrite bind_run. destruct (call _ c w0) as [w1 []|w1 e| |]; simpl; try done.
  2:{ intros Hf Hi. by eapply frames_inv. }
  intros Hf. rewrite bind_run.
  pose proof (start_startable c w1 (startable_frames c w w1 Hf Hstart)) as Hst.
  destruct (ConnectionImpl_start_accept c w1) as [w2 []|w2 e| |]; simpl; try done.
  2:{ intros Hi. apply Hst. by eapply frames_inv. }
  pose proof (keeps_next_accept p w2) as Hn. revert Hn.
  destruct ((newConn ← create_conn p 0; start_op (AcceptConn p newConn)) w2); try done;
    intros Hn Hi; eapply frames_inv; try exact Hn; apply Hst; by eapply frames_inv.
Qed.
End Creators.
#[export] Hint Resolve keeps_connectWait : keeps.

(** ** The steps of the io_service *)
Section Steps.
Context {U : Type} `{!HasServices U} `{FreshMemory} `{!Sockets}.
Local Abbreviation W := (NetWorld U).
Implicit Types (w : W) (c : ConnPtr) (p : ServicePtr).
Context (receiver_at : RecvPtr → EventReceiver W) (msgProc_at : MsgProcPtr → MessageProcedure W).

Definition complete_op (o : async_op) (cp : completion) : M W unit :=
  match o with
  | AcceptConn p c => accept_handler receiver_at p (cp_ec cp) c
  | ConnectConn p ep c n => _ ← connect_handler receiver_at p (cp_ec cp) ep c n; mret tt
  | WaitUpdate p _ => update_handler receiver_at p (cp_ec cp)
  | o => complete_conn_op receiver_at msgProc_at o cp
  end.

(** One completion, executed: the operation at [i] completes with [cp]. *)
Definition exec_completion (i : nat) (cp : completion) (w : W) : option (outcome W unit) :=
  o ← nw_pending w !! i;
  if strand_ready (take i (nw_pending w)) o && completion_ok o cp
  then Some (complete_op o cp (without (take i (nw_pending w) ++ drop (S i) (nw_pending w)) w))
  else None.

Fixpoint exec_completions (l : list (nat * completion)) (w : W) : option W :=
  match l with
  | [] => Some w
  | (i, cp) :: l' =>
      match exec_completion i cp w with
      | Some (Done w' _) => exec_completions l' w'
      | _ => None
      end
  end.

(** An operation completes and its handler runs to the end, or a thread of the
    application uses the public methods. *)
Inductive net_step (w w' : W) : Prop :=
| step_complete l1 o l2 cp :
    nw_pending w = l1 ++ o :: l2 → strand_ready l1 o = true → completion_ok o cp = true →
    complete_op o cp (without (l1 ++ l2) w) = Done w' tt → net_step w w'
| step_application : frames w w' → net_step w w'.

Lemma exec_completions_steps l w w' :
  exec_completions l w = Some w' → rtc net_step w w'.
Proof.
  revert w. induction l as [|[i cp] l IH]; intros w Hx; simpl in Hx; [by simplify_eq|].
  destruct (exec_completion i cp w) as [[w1 []|? ?| |]|] eqn:E; try done.
  eapply rtc_l; [|by apply IH]. unfold exec_completion in E.
  destruct (nw_pending w !! i) as [o|] eqn:Eo; simpl in E; [|done].
  destruct (strand_ready _ o && completion_ok o cp) eqn:Eg; simpl in E; [|done].
  apply andb_true_iff in Eg as [Es Ec]. simplify_eq.
  by apply (step_complete _ _ (take i (nw_pending w)) o (drop (S i) (nw_pending w)) cp);
    [rewrite take_drop_middle|..].
Qed.

Definition net_init (u : U) : W := mkNetWorld ∅ 1 [] [] u.

Context (Hreceivers : ∀ r, receiver_frames (receiver_at r)).
Context (HmsgProcs : ∀ p, parser_frames (msgProc_at p)).

Lemma in_flight_startable w l1 o l2 c :
  nw_pending w = l1 ++ o :: l2 → net_inv w → is_start_of c o = true →
  startable c (without (l1 ++ l2) w).
Proof.
  intros E Hi Ho. destruct (in_flight_missing c w l1 o l2 E Hi) as [cn Ec]; [by right; right|].
  destruct (in_flight_start c w l1 o l2 (core_of cn) E Hi Ho) as (H1 & H2 & H3 & H4 & H5 & H6);
    [by apply view_core_conn|].
  unfold startable. eauto 10.
Qed.

Lemma frames_then {A} (m : M W A) w w0 :
  keeps frames m → inv_kept w w0 →
  match m w0 with
  | Done w' _ | Threw w' _ => inv_kept w w'
  | Undef _ | NoFuel => True
  end.
Proof.
  intros Hm Hk. specialize (Hm w0). destruct (m w0); try done; intros Hi;
    eapply frames_inv; eauto.
Qed.

Lemma connect_handler_kept p ec ep c n w :
  startable c w →
  match connect_handler receiver_at p ec ep c n w with
  | Done w' _ | Threw w' _ => inv_kept w w'
  | Undef _ | NoFuel => True
  end.
Proof.
  intros Hstart. unfold connect_handler. rewrite bind_run.
  pose proof (keeps_this_service p w) as Hs.
  destruct (this_service p w) as [w0 o|w0 e| |]; simpl; try done.
  2:{ intros Hi c'. by rewrite Hs. }
  assert (Hf0 : frames w w0) by (intros c'; left; apply Hs). clear Hs.
  assert (Hstart0 : startable c w0) by by eapply startable_frames.
  assert (Hfail : keeps frames (socket_close c;;
    call (er_onConnectFailed (receiver_at (ns_eventReceiver o))) c;; mret false)).
  { keeps_auto. apply call_kept, Hreceivers. }
  assert (Hk : inv_kept w w0) by (intros Hi; by eapply frames_inv).
  pose proof (frames_then _ w w0 Hfail Hk) as Hfail'.
  rewrite bind_run. unfold socket_is_open. run_step. 
  destruct (negb (os_is_open _ _)); [exact Hfail'|].
  destruct (negb (ec =? 0)); [exact Hfail'|]. clear Hfail Hfail'.
  change (ConnectionImpl_start_connect c) with (ConnectionImpl_start_accept (U := U) c).
  rewrite bind_run. pose proof (start_startable c w0 Hstart0) as Hst.
  destruct (ConnectionImpl_start_accept c w0) as [w1 []|w1 e| |]; cbn [bind_outcome]; try done.
  2:{ by etrans. }
  assert (Hpost : keeps frames (call (er_onConnect (receiver_at (ns_eventReceiver o))) c;;
    if 0 <? n then
      try_catch
        (conn ← createConnectSession p 0;
         start_connect_attempt p ep conn (n - 1);;
         mret true)
        (λ _, mret false)
    else mret true)).
  { apply keeps_bind; [apply _|apply call_kept, Hreceivers|]. intros _.
    destruct (0 <? n); [|keeps_auto]. apply keeps_next_connect. }
  apply (frames_then _ w w1 Hpost). by etrans.
Qed.

Lemma complete_op_kept o cp w l1 l2 :
  nw_pending w = l1 ++ o :: l2 → net_inv w → completion_ok o cp = true →
  match complete_op o cp (without (l1 ++ l2) w) with
  | Done w' _ | Threw w' _ => net_inv w'
  | Undef _ | NoFuel => True
  end.
Proof.
  intros E Hi Hcp. pose proof (remove_inv w l1 o l2 E Hi) as Hi0.
  pose proof (complete_conn_op_kept receiver_at msgProc_at Hreceivers HmsgProcs o cp w l1 l2
                E Hi Hcp) as Hconn.
  destruct o as [c off size|c d|c b|c b|c m|c ec n|c|p c|p ep c n|p b]; try exact Hconn;
    cbn [complete_op]; clear Hconn.
  - pose proof (accept_handler_kept receiver_at Hreceivers p (cp_ec cp) c (without (l1 ++ l2) w)) as Hk.
    assert (Hs : startable c (without (l1 ++ l2) w)).
    { apply (in_flight_startable w l1 _ l2 c E Hi). simpl. by rewrite bool_decide_true. }
    destruct (accept_handler _ _ _ _ _); try done; apply Hk; auto.
  - pose proof (connect_handler_kept p (cp_ec cp) ep c n (without (l1 ++ l2) w)) as Hk.
    assert (Hs : startable c (without (l1 ++ l2) w)).
    { apply (in_flight_startable w l1 _ l2 c E Hi). simpl. by rewrite bool_decide_true. }
    rewrite bind_run. destruct (connect_handler _ _ _ _ _ _ _); try done; by apply Hk.
  - pose proof (keeps_update_handler receiver_at Hreceivers p (cp_ec cp) (without (l1 ++ l2) w)) as Hk.
    destruct (update_handler _ _ _ _); try done; by eapply frames_inv.
Qed.

Lemma net_init_inv u : net_inv (net_init u).
Proof. intros c. unfold view_ok, view. simpl. by rewrite lookup_empty. Qed.

Lemma net_step_inv w w' : net_step w w' → net_inv w → net_inv w'.
Proof.
  intros [l1 o l2 cp E _ Hcp Hrun|Hf] Hi; [|by eapply frames_inv].
  pose proof (complete_op_kept o cp w l1 l2 E Hi Hcp) as Hk. by rewrite Hrun in Hk.
Qed.

Lemma reachable_inv u w : rtc net_step (net_init u) w → net_inv w.
Proof.
  intros Hr. remember (net_init u) as w0 eqn:E.
  assert (Hi : net_inv w0) by (subst; apply net_init_inv). clear E.
  induction Hr as [|w1 w2 w3 Hs _ IH]; [done|]. apply IH. by eapply net_step_inv.
Qed.
End Steps.
