(* ===== verification/NetKeeps.v ===== *)
(** * What the network library does to the world

    [NetCalm R] says that a relation [R] on worlds contains the primitive
    changes the library makes to what exists without opening or closing a
    connection: to the members of a connection that say neither whom it belongs
    to nor its status, to the operations in flight (but for those that start or
    close a connection), to the trace and to the bookkeeping of services.
    [NetKeeps] adds changes of the status, [NetKeepsNew] the creation and the
    start of connections.  Every operation of the library keeps a relation of
    the weakest of these classes that suffices. *)
From stdpp Require Import gmap strings list.
From coqutil Require Import Byte.
From S2P Require Import Prelude.
From S2P Require Import MessageBuffer.
From S2P Require Import Connection.
From S2P Require Import MessageProcedure.
From S2P Require Import EventReceiver.
From S2P Require Import IoService.
From S2P Require Import ConnectionImpl.
From S2P Require Import NetService.
From S2P Require Import NetServiceSafety.
#[local] Open Scope Z_scope.

(** Whom a connection and a service belong to. *)
Definition conn_fixed (cn : ConnectionImpl)
    : option TagPtr * Z * option MsgUserManip * option RecvPtr * MsgProcPtr :=
  (ci_tag cn, ci_identity cn, ci_msgManipulator cn, ci_eventReceiver cn, ci_msgProc cn).
Definition service_fixed (o : NetServiceImpl) : RecvPtr * MsgProcPtr * option MsgUserManip :=
  (ns_eventReceiver o, ns_msgProc o, ns_manip o).

(** The operations that start a connection, and those that will close one. *)
Definition is_start (o : async_op) : bool :=
  match o with AcceptConn _ _ | ConnectConn _ _ _ _ => true | _ => false end.
Definition is_close (o : async_op) : bool := match o with PostClose _ => true | _ => false end.
(** What a cancellation leaves alone. *)
Definition only_waits (f : async_op → async_op) : Prop :=
  ∀ o, is_start (f o) = is_start o ∧ is_close (f o) = is_close o
       ∧ (is_start o || is_close o = true → f o = o).

(** Writes that lose their buffers neither start nor close a connection. *)
Lemma buffers_gone_elem n l o :
  is_start o || is_close o = true → (o ∈ take n l ++ (buffer_gone <$> drop n l)) ↔ o ∈ l.
Proof.
  intros Ho. rewrite <- (take_drop n l) at 3. rewrite !elem_of_app, list_elem_of_fmap.
  assert (Hg : ∀ o', (o = buffer_gone o' ∧ o' ∈ drop n l) → o ∈ drop n l) by (intros []; intros [-> ?]; done).
  split; [intros [?|(o' & ?)]; eauto|]. intros [?|?]; [by left|]. right. exists o. by destruct o.
Qed.

(** What the library does to connections without opening or closing one; their
    orderly end is begun by [closing]. *)
Class NetCalm {U : Type} `{!HasServices U} `{!Sockets} (R : NetWorld U → NetWorld U → Prop) : Prop := {
  nc_preorder :: PreOrder R;
  nc_upd_conn c f :
    (∀ cn, conn_fixed (f cn) = conn_fixed cn ∧ ci_status (f cn) = ci_status cn) →
    keeps R (upd_conn c f);
  nc_start_op o : is_start o = false → is_close o = false → keeps R (start_op o);
  nc_map_pending f : only_waits f → keeps R (map_pending f);
  nc_destroy_buffers n : keeps R (destroy_buffers n);
  nc_record_event e : keeps R (record_event e);
  nc_upd_services f :
    (∀ s, s_objects (f s) = s_objects s ∧ s_connectors (f s) = s_connectors s) →
    keeps R (upd_services f);
  nc_upd_service p f :
    (∀ o, service_fixed (f o) = service_fixed o ∧ (is_Some (ns_index o) → is_Some (ns_index (f o)))) →
    keeps R (upd_service p f);
  nc_closing c what : keeps R (ConnectionImpl_closing c what)
}.
Class NetKeeps {U : Type} `{!HasServices U} `{!Sockets} (R : NetWorld U → NetWorld U → Prop) : Prop := {
  nk_calm :: NetCalm R;
  nk_set_status c s : keeps R (ConnectionImpl_set_status c s)
}.

Lemma keeps_weaken {S A} (R R' : S → S → Prop) (m : M S A) :
  (∀ s s', R s s' → R' s s') → keeps R m → keeps R' m.
Proof. intros Hsub Hm s. specialize (Hm s). destruct (m s); auto. Qed.

Section Classes.
Context {U : Type} `{!HasServices U} `{!Sockets}.
Local Abbreviation W := (NetWorld U).
Implicit Types (R : W → W → Prop).

Lemma net_calm_weaken R R' :
  PreOrder R' → (∀ w w', R w w' → R' w w') → NetCalm R → NetCalm R'.
Proof. intros HR Hsub []. split; intros; [done|..]; eapply keeps_weaken; eauto. Qed.
Lemma net_keeps_weaken R R' :
  PreOrder R' → (∀ w w', R w w' → R' w w') → NetKeeps R → NetKeeps R'.
Proof.
  intros HR Hsub [Hc Hs]. split; [by eapply net_calm_weaken|].
  intros. eapply keeps_weaken; eauto.
Qed.

(** A relation that does not look at the status. *)
Lemma net_keeps_intro R :
  PreOrder R →
  (∀ c f, (∀ cn, conn_fixed (f cn) = conn_fixed cn) → keeps R (upd_conn c f)) →
  (∀ o, is_start o = false → keeps R (start_op o)) →
  (∀ f, only_waits f → keeps R (map_pending f)) →
  (∀ n, keeps R (destroy_buffers n)) →
  (∀ e, keeps R (record_event e)) →
  (∀ f, (∀ s, s_objects (f s) = s_objects s ∧ s_connectors (f s) = s_connectors s) →
        keeps R (upd_services f)) →
  (∀ p f, (∀ o, service_fixed (f o) = service_fixed o ∧ (is_Some (ns_index o) → is_Some (ns_index (f o)))) →
          keeps R (upd_service p f)) →
  NetKeeps R.
Proof.
  intros HR Hu Hs Hm Hd Hr Hss Hsv.
  assert (Hst : ∀ c s, keeps R (ConnectionImpl_set_status c s)).
  { intros c s. by apply Hu. }
  split; [|done]. split; auto.
  - intros c f Hf. apply Hu. intros cn. apply Hf.
  - intros c what. unfold ConnectionImpl_closing, socket_shutdown, this_conn, cancel_timers.
    keeps_auto; first [apply Hr|apply Hst|by apply Hs|apply Hm; by intros []].
Qed.
End Classes.

#[export] Hint Resolve nc_record_event nc_closing nk_set_status : keeps.
#[export] Hint Extern 1 (keeps _ (start_op _)) => apply nc_start_op; reflexivity : keeps.
#[export] Hint Extern 1 (keeps _ (upd_conn _ _)) =>
  apply nc_upd_conn; intros ?; split; reflexivity : keeps.
#[export] Hint Extern 1 (keeps _ (map_pending _)) => apply nc_map_pending; by intros [] : keeps.
#[export] Hint Extern 1 (keeps _ (upd_services _)) => apply nc_upd_services; intros ?; by split : keeps.
#[export] Hint Extern 1 (keeps _ (upd_service _ _)) =>
  apply nc_upd_service; intros ?; split; [reflexivity|by intros; eauto] : keeps.

Section NetCalm.
Context {U : Type} `{!HasServices U} `{FreshMemory} `{!Sockets}.
Local Abbreviation W := (NetWorld U).
Context (R : W → W → Prop) `{!NetCalm R}.
Implicit Types (w : W) (c : ConnPtr) (p : ServicePtr).

Lemma net_this_conn c : keeps R (this_conn c).
Proof. unfold this_conn. keeps_auto. Qed.
#[local] Hint Resolve net_this_conn : keeps.
Lemma net_shutdown c what : keeps R (socket_shutdown c what).
Proof. unfold socket_shutdown. keeps_auto. Qed.
#[local] Hint Resolve net_shutdown : keeps.
Lemma net_set_option c : keeps R (socket_set_option c).
Proof. unfold socket_set_option. keeps_auto. Qed.
#[local] Hint Resolve net_set_option : keeps.
Lemma net_remote_endpoint c : keeps R (socket_remote_endpoint c).
Proof. unfold socket_remote_endpoint. keeps_auto. Qed.
#[local] Hint Resolve net_remote_endpoint : keeps.
Lemma net_clock : keeps R clock_now.
Proof. unfold clock_now. keeps_auto. Qed.
#[local] Hint Resolve net_clock : keeps.
Lemma net_listen_call : keeps R listen_call.
Proof. unfold listen_call. keeps_auto. Qed.
#[local] Hint Resolve net_listen_call : keeps.
Lemma net_resolve a s : keeps R (resolve a s).
Proof. unfold resolve. keeps_auto. Qed.
#[local] Hint Resolve net_resolve : keeps.
Lemma net_socket_close c : keeps R (socket_close c).
Proof. unfold socket_close. keeps_auto. Qed.
#[local] Hint Resolve net_socket_close : keeps.
Lemma net_is_open c : keeps R (socket_is_open c).
Proof. unfold socket_is_open. keeps_auto. Qed.
#[local] Hint Resolve net_is_open : keeps.
Lemma net_listen_throwing : keeps R listen_call_throwing.
Proof. unfold listen_call_throwing. keeps_auto. Qed.
#[local] Hint Resolve net_listen_throwing : keeps.

(** ** Connections *)
Lemma net_renew_msg c : keeps R (renew_msg c).
Proof.
  unfold renew_msg. apply keeps_bind; [typeclasses eauto|auto with keeps|]. intros cn.
  apply keeps_bind; [typeclasses eauto| |intros m; auto with keeps].
  unfold MessageBuffer_new_manip. keeps_auto.
Qed.
#[local] Hint Resolve net_renew_msg : keeps.
Lemma net_renewExpireTime c : keeps R (ConnectionImpl_renewExpireTime c).
Proof. unfold ConnectionImpl_renewExpireTime. keeps_auto. Qed.
#[local] Hint Resolve net_renewExpireTime : keeps.
Lemma net_async_read c : keeps R (async_read_some c).
Proof. unfold async_read_some. keeps_auto. Qed.
#[local] Hint Resolve net_async_read : keeps.
Lemma net_cancel_timers c : keeps R (cancel_timers c).
Proof. unfold cancel_timers. keeps_auto. Qed.
#[local] Hint Resolve net_cancel_timers : keeps.
Lemma net_incPending c : keeps R (ConnectionImpl_incReadHandlerPendingCount c).
Proof. unfold ConnectionImpl_incReadHandlerPendingCount. keeps_auto. Qed.
#[local] Hint Resolve net_incPending : keeps.
Lemma net_decPending c : keeps R (ConnectionImpl_decReadHandlerPendingCount c).
Proof. unfold ConnectionImpl_decReadHandlerPendingCount. keeps_auto. Qed.
#[local] Hint Resolve net_decPending : keeps.
Lemma net_read_handler c ec n : keeps R (ConnectionImpl_read_handler c ec n).
Proof. unfold ConnectionImpl_read_handler. keeps_auto. Qed.
#[local] Hint Resolve net_read_handler : keeps.
Lemma net_write_handler c ec n : keeps R (ConnectionImpl_write_handler c ec n).
Proof. unfold ConnectionImpl_write_handler. keeps_auto. Qed.
#[local] Hint Resolve net_write_handler : keeps.
Lemma net_deliver c off data : keeps R (deliver c off data).
Proof. unfold deliver. keeps_auto. Qed.
#[local] Hint Resolve net_deliver : keeps.
Lemma net_sendPacket c d : keeps R (ConnectionImpl_sendPacket c d).
Proof.
  pose proof nc_destroy_buffers as Hd.
  unfold ConnectionImpl_sendPacket. apply keeps_bind; [typeclasses eauto|auto with keeps|]. intros cn.
  apply keeps_bind; [typeclasses eauto|keeps_auto|]. intros started.
  apply keeps_bind; [typeclasses eauto|unfold MessageBuffer_new_manip; keeps_auto|]. intros m.
  unfold ConnectionImpl_send. keeps_auto.
Qed.
#[local] Hint Resolve net_sendPacket : keeps.

(** ** Services *)
Lemma net_get_services : keeps R get_services.
Proof. unfold get_services. keeps_auto. Qed.
#[local] Hint Resolve net_get_services : keeps.
Lemma net_this_service p : keeps R (this_service p).
Proof. unfold this_service. keeps_auto. Qed.
#[local] Hint Resolve net_this_service : keeps.
Lemma net_expireTimerReady p : keeps R (expireTimerReady p).
Proof. unfold expireTimerReady. keeps_auto. Qed.
#[local] Hint Resolve net_expireTimerReady : keeps.
Lemma net_addWorkerThreads n i : keeps R (addWorkerThreads_ios n i).
Proof. unfold addWorkerThreads_ios. keeps_auto. Qed.
#[local] Hint Resolve net_addWorkerThreads : keeps.
Lemma net_getIndex p : keeps R (getIndex p).
Proof. unfold getIndex. keeps_auto. Qed.
#[local] Hint Resolve net_getIndex : keeps.
Lemma net_setIndex p i : keeps R (setIndex p i).
Proof. unfold setIndex. keeps_auto. Qed.
#[local] Hint Resolve net_setIndex : keeps.
Lemma net_runService : keeps R runService.
Proof. unfold runService, setWork, run_enter. keeps_auto. Qed.
#[local] Hint Resolve net_runService : keeps.
Lemma net_setServiceID c i : keeps R (ConnectionImpl_setServiceID c i).
Proof. unfold ConnectionImpl_setServiceID. keeps_auto. Qed.
#[local] Hint Resolve net_setServiceID : keeps.
Lemma net_socket_open c : keeps R (socket_open c).
Proof. unfold socket_open. keeps_auto. Qed.
#[local] Hint Resolve net_socket_open : keeps.
Lemma net_this_connector p : keeps R (this_connector p).
Proof. unfold this_connector. keeps_auto. Qed.
#[local] Hint Resolve net_this_connector : keeps.
Lemma net_current_endpoint p : keeps R (current_endpoint p).
Proof. unfold current_endpoint. keeps_auto. Qed.
#[local] Hint Resolve net_current_endpoint : keeps.
Lemma net_setEndPoint p a s : keeps R (setEndPoint p a s).
Proof. unfold setEndPoint, set_connector. keeps_auto. Qed.
#[local] Hint Resolve net_setEndPoint : keeps.
Lemma net_getConnector i : keeps R (getConnector i).
Proof. unfold getConnector. keeps_auto. Qed.
#[local] Hint Resolve net_getConnector : keeps.
Lemma net_getAcceptor i : keeps R (getAcceptor i).
Proof. unfold getAcceptor. keeps_auto. Qed.
#[local] Hint Resolve net_getAcceptor : keeps.
End NetCalm.
#[export] Hint Resolve net_this_conn net_shutdown net_set_option net_remote_endpoint net_clock net_listen_call
  net_resolve net_socket_close net_is_open net_listen_throwing net_renew_msg
  net_renewExpireTime net_async_read net_cancel_timers
  net_incPending net_decPending net_read_handler net_write_handler net_deliver
  net_sendPacket net_get_services net_this_service net_expireTimerReady net_addWorkerThreads
  net_getIndex net_setIndex net_runService net_setServiceID
  net_socket_open net_this_connector net_current_endpoint net_setEndPoint net_getConnector net_getAcceptor : keeps.

Section Status.
Context {U : Type} `{!HasServices U} `{FreshMemory} `{!Sockets}.
Context (R : NetWorld U → NetWorld U → Prop) `{!NetKeeps R}.

Lemma net_start_accept c : keeps R (ConnectionImpl_start_accept c).
Proof. unfold ConnectionImpl_start_accept, start_read, start_opened. keeps_auto. Qed.
End Status.
#[export] Hint Resolve net_start_accept : keeps.

(** ** Dispatching what was received *)
Section Dispatch.
Context {U : Type} `{!HasServices U} `{FreshMemory} `{!Sockets}.
Local Abbreviation W := (NetWorld U).
Context (R : W → W → Prop) `{!NetCalm R}.

Lemma net_dispatch (mp : MessageProcedure W) c msg :
  parser_keeps R mp → keeps R (MessageProcedure_dispatch mp c msg).
Proof.
  intros Hmp. unfold MessageProcedure_dispatch. simpl. unfold ConnectionImpl_get_status.
  keeps_step; [keeps_auto|]. case_match; [keeps_auto|]. keeps_step; [|keeps_auto].
  destruct (mp_packetParsingFunction mp) as [parse|] eqn:E; [|keeps_auto].
  apply keeps_bind; [typeclasses eauto| |intros; keeps_auto].
  by apply keeps_with_local, Hmp.
Qed.
End Dispatch.

(** ** With new connections *)
Class NetKeepsNew {U : Type} `{!HasServices U} `{!Sockets} (R : NetWorld U → NetWorld U → Prop) : Prop := {
  nkn_keeps :: NetKeeps R;
  nkn_start_op o : keeps R (start_op o);
  nkn_create mp manip er keepAlive i : keeps R (ConnectionImpl_create mp manip er keepAlive i)
}.
#[export] Hint Resolve nkn_start_op nkn_create : keeps.

Section NetKeepsNew.
Context {U : Type} `{!HasServices U} `{FreshMemory} `{!Sockets}.
Local Abbreviation W := (NetWorld U).
Context (R : W → W → Prop) `{!NetKeepsNew R}.
Implicit Types (c : ConnPtr) (p : ServicePtr).

Lemma net_create_conn p i : keeps R (create_conn p i).
Proof. unfold create_conn. keeps_auto. Qed.
#[local] Hint Resolve net_create_conn : keeps.
Lemma net_createConnectSession p i : keeps R (createConnectSession p i).
Proof. unfold createConnectSession. keeps_auto. Qed.
#[local] Hint Resolve net_createConnectSession : keeps.
Lemma net_start_attempt p ep c n : keeps R (start_connect_attempt p ep c n).
Proof. unfold start_connect_attempt. keeps_auto. Qed.
#[local] Hint Resolve net_start_attempt : keeps.
Lemma net_connectWait p n t i : keeps R (connectWait p n t i).
Proof. unfold connectWait, connectImplement. keeps_auto. Qed.
Lemma net_acceptWait hc p a s n : keeps R (acceptWait hc p a s n).
Proof. unfold acceptWait. keeps_auto. Qed.

(** The handlers, with receivers and parsers that keep the relation. *)
Context (receiver_at : RecvPtr → EventReceiver W) (msgProc_at : MsgProcPtr → MessageProcedure W).
Context (Hreceivers : ∀ r, receiver_keeps R (receiver_at r)).
Context (HmsgProcs : ∀ p, parser_keeps R (msgProc_at p)).

Local Ltac callbacks := keeps_auto; apply call_kept, Hreceivers.

Lemma net_getReceiver {A} c (k : EventReceiver W → M W A) :
  (∀ r, keeps R (k (receiver_at r))) →
  keeps R (er ← ConnectionImpl_getReceiver receiver_at c; k er).
Proof.
  intros Hk w. unfold ConnectionImpl_getReceiver, this_conn. run_step.
  destruct (nw_conns w !! c) as [cn|]; simpl; [|done].
  destruct (ci_eventReceiver cn) as [r|]; simpl; [|done]. apply Hk.
Qed.

Lemma net_close c : keeps R (ConnectionImpl_close receiver_at c).
Proof.
  unfold ConnectionImpl_close. keeps_step; [keeps_auto|].
  destruct (_ =? 0); [|keeps_auto]. do 3 (keeps_step; [keeps_auto|]).
  apply net_getReceiver. intros r. apply call_kept, Hreceivers.
Qed.
#[local] Hint Resolve net_close : keeps.
#[local] Hint Extern 1 (keeps R (MessageProcedure_dispatch _ _ _)) => apply net_dispatch, HmsgProcs : keeps.

Lemma net_complete_conn_op o cp : keeps R (complete_conn_op receiver_at msgProc_at o cp).
Proof.
  destruct o; simpl; try (keeps_auto; fail).
  - unfold ConnectionImpl_onExpireTime. callbacks.
  - unfold ConnectionImpl_onCloseReserveTime. keeps_auto.
Qed.

Lemma net_complete_op o cp : keeps R (complete_op receiver_at msgProc_at o cp).
Proof.
  destruct o; try apply net_complete_conn_op; cbn [complete_op].
  - unfold accept_handler. callbacks.
  - unfold connect_handler.
    change (ConnectionImpl_start_connect c) with (ConnectionImpl_start_accept (U := U) c). callbacks.
  - unfold update_handler. callbacks.
Qed.
End NetKeepsNew.
#[export] Hint Resolve net_create_conn net_connectWait net_acceptWait : keeps.
