(* ===== verification/NetStopped.v ===== *)
(** * A connection that does not read any more

    A connection that was started and has no read in flight, posted or waiting
    ([stopped]) never reads again, whatever else the io_service and the
    application do: no code starts a read but the start of a connection and the
    handler of its own read. *)
From stdpp Require Import gmap strings list.
From S2P Require Import Prelude.
From S2P Require Import MessageBuffer.
From S2P Require Import Connection.
From S2P Require Import MessageProcedure.
From S2P Require Import EventReceiver.
From S2P Require Import IoService.
From S2P Require Import ConnectionImpl.
From S2P Require Import ConnectionSafety.
From S2P Require Import NetService.
From S2P Require Import NetServiceSafety.
#[local] Open Scope Z_scope.

Section Stopped.
Context {U : Type} `{!HasServices U} `{FreshMemory} `{!Sockets}.
Local Abbreviation W := (NetWorld U).
Implicit Types (w : W) (c : ConnPtr) (p : ServicePtr).

Definition stopped (c : ConnPtr) (w : W) : Prop :=
  is_Some (nw_conns w !! c) ∧ v_reads (view c w) = [] ∧ v_starts (view c w) = 0%nat.
Definition stays (c : ConnPtr) (w w' : W) : Prop := stopped c w → stopped c w'.
#[export] Instance stays_preorder c : PreOrder (stays c).
Proof. split; [by intros w Hs|]. intros w1 w2 w3 H12 H23 Hs. auto. Qed.

Lemma stopped_core c w : is_Some (nw_conns w !! c) ↔ is_Some (v_core (view c w)).
Proof. unfold view. simpl. by rewrite fmap_is_Some. Qed.
Lemma stopped_view c w w' : view c w' = view c w → stays c w w'.
Proof. intros E (Hc & Hr & Hs). apply stopped_core in Hc. unfold stopped. by rewrite stopped_core, E. Qed.

(** ** What keeps a connection stopped *)
Lemma frames_stays c w w' : frames w w' → stays c w w'.
Proof.
  intros Hf Hs. destruct (Hf c) as [E|(Hn & _)]; [by apply (stopped_view c w)|].
  destruct Hs as [[x Hx]%stopped_core _]. congruence.
Qed.
Lemma stays_frames c {A} (m : M W A) : keeps frames m → keeps (stays c) m.
Proof. intros Hm w. specialize (Hm w). destruct (m w); try done; by apply frames_stays. Qed.
Lemma stays_others c c' w w' : c' ≠ c → others_same c' w w' → stays c w w'.
Proof. intros Hne Ho. apply stopped_view, Ho. done. Qed.

Lemma stays_upd_conn c c' f : keeps (stays c) (upd_conn (U := U) c' f).
Proof.
  intros w. unfold upd_conn, this_conn. run_step. destruct (nw_conns w !! c') as [cn|] eqn:E; simpl; [|done].
  destruct (decide (c' = c)) as [->|Hne]; [|by eapply stays_others, others_upd_conn].
  intros (Hc & Hr & Hs). split; [simpl; by rewrite lookup_insert_eq|]. by rewrite view_upd_conn.
Qed.
Lemma stays_record c e : keeps (stays c) (record_event (U := U) e).
Proof. intros w (Hc & Hr & Hs). by split_and!. Qed.
Lemma stays_start_op c o : is_read_of c o || is_start_of c o = false → keeps (stays c) (start_op (U := U) o).
Proof.
  intros [Hr0 Hs0]%orb_false_iff w (Hc & Hr & Hs). split; [done|]. rewrite view_start_op.
  cbn [v_add_op v_reads v_starts]. by rewrite Hr0, Hs0, Hr, Hs.
Qed.
#[local] Hint Resolve stays_upd_conn stays_record : keeps.
#[local] Hint Extern 1 (keeps (stays _) (start_op _)) => apply stays_start_op; cbn; by rewrite ?bool_decide_false : keeps.
#[local] Hint Extern 2 (keeps (stays _) _) => apply stays_frames; solve [auto with keeps] : keeps.
#[local] Hint Extern 3 (keeps (stays _) _) => apply stays_frames, same_views_frames; solve [auto with keeps] : keeps.

Lemma stays_closing c c' what : keeps (stays c) (ConnectionImpl_closing (U := U) c' what).
Proof.
  unfold ConnectionImpl_closing, socket_shutdown, ConnectionImpl_set_status. keeps_auto.
Qed.
#[local] Hint Resolve stays_closing : keeps.
Lemma stays_write_handler c c' ec n : keeps (stays c) (ConnectionImpl_write_handler (U := U) c' ec n).
Proof. unfold ConnectionImpl_write_handler. keeps_auto. Qed.
Lemma stays_renew_msg c c' : keeps (stays c) (renew_msg (U := U) c').
Proof. unfold renew_msg. keeps_auto. Qed.
#[local] Hint Resolve stays_write_handler stays_renew_msg : keeps.
(** Reading, for another connection. *)
Lemma stays_async_read c c' : c ≠ c' → keeps (stays c) (async_read_some (U := U) c').
Proof. intros Hne. unfold async_read_some. keeps_auto. Qed.
#[local] Hint Resolve stays_async_read : keeps.
Lemma stays_read_handler c c' ec n : c ≠ c' → keeps (stays c) (ConnectionImpl_read_handler (U := U) c' ec n).
Proof. intros Hne. unfold ConnectionImpl_read_handler. keeps_auto. Qed.
Lemma stays_deliver c c' off d : keeps (stays c) (deliver (U := U) c' off d).
Proof. unfold deliver. keeps_auto. Qed.
Lemma stays_start_accept c c' : c ≠ c' → keeps (stays c) (ConnectionImpl_start_accept (U := U) c').
Proof.
  intros Hne. unfold ConnectionImpl_start_accept, start_read, start_opened, ConnectionImpl_set_status. keeps_auto.
Qed.
#[local] Hint Resolve stays_read_handler stays_deliver stays_start_accept : keeps.

(** ** The handlers *)
Context (receiver_at : RecvPtr → EventReceiver W) (msgProc_at : MsgProcPtr → MessageProcedure W).
Context (Hreceivers : ∀ r, receiver_frames (receiver_at r)).
Context (HmsgProcs : ∀ p, parser_frames (msgProc_at p)).

Lemma stays_close c c' : keeps (stays c) (ConnectionImpl_close receiver_at c').
Proof.
  unfold ConnectionImpl_close, socket_shutdown, ConnectionImpl_set_status.
  apply keeps_bind; [typeclasses eauto|keeps_auto|]. intros ec. destruct (ec =? 0); [|keeps_auto].
  do 3 (apply keeps_bind; [typeclasses eauto|keeps_auto|intros _]).
  apply stays_frames, keeps_receiver_call. intros r. apply call_kept, Hreceivers.
Qed.
#[local] Hint Resolve stays_close : keeps.
Lemma stays_complete_conn_op c o cp :
  is_read_of c o || is_start_of c o = false → keeps (stays c) (complete_conn_op receiver_at msgProc_at o cp).
Proof.
  intros Ho. destruct o as [c' off size|c' d t|c' b|c' b|c' m|c' ec n|c'|p c'|p ep c' n|p b]; cbn [complete_conn_op].
  1,6: assert (c ≠ c') by (intros ->; cbn in Ho; by rewrite bool_decide_true in Ho).
  - keeps_auto.
  - keeps_auto.
  - keeps_auto.
  - apply stays_frames. unfold ConnectionImpl_onExpireTime. keeps_auto. apply call_kept, Hreceivers.
  - unfold ConnectionImpl_onCloseReserveTime. keeps_auto.
  - apply stays_frames. keeps_auto. by apply dispatch_frames.
  - keeps_auto.
  - keeps_auto.
  - keeps_auto.
  - keeps_auto.
Qed.
Lemma stays_complete_op c o cp :
  is_read_of c o || is_start_of c o = false → keeps (stays c) (complete_op receiver_at msgProc_at o cp).
Proof.
  intros Ho. pose proof (stays_complete_conn_op c o cp Ho) as Hk.
  destruct o as [c' off size|c' d t|c' b|c' b|c' m|c' ec n|c'|p c'|p ep c' n|p b]; try exact Hk; cbn [complete_op]; clear Hk.
  1,2: assert (c ≠ c') by (intros ->; cbn in Ho; by rewrite bool_decide_true in Ho).
  - unfold accept_handler. destruct (_ =? 0); [|keeps_auto].
    apply keeps_bind; [typeclasses eauto|keeps_auto|intros s].
    apply keeps_bind; [typeclasses eauto|apply stays_frames, call_kept, Hreceivers|intros _].
    apply keeps_bind; [typeclasses eauto|keeps_auto|intros _].
    apply stays_frames, keeps_next_accept.
  - apply keeps_bind; [typeclasses eauto| |intros ?; keeps_auto]. unfold connect_handler.
    apply keeps_bind; [typeclasses eauto|keeps_auto|intros s].
    apply keeps_bind; [typeclasses eauto|keeps_auto|intros opened].
    assert (Hfail : keeps (stays c) (socket_close c';;
      call (er_onConnectFailed (receiver_at (ns_eventReceiver s))) c';; mret false)).
    { apply stays_frames. keeps_auto. apply call_kept, Hreceivers. }
    destruct (negb opened); [exact Hfail|]. destruct (negb _); [exact Hfail|].
    apply keeps_bind; [typeclasses eauto|by apply stays_start_accept|intros _].
    apply keeps_bind; [typeclasses eauto|apply stays_frames, call_kept, Hreceivers|intros _].
    destruct (0 <? n); [|keeps_auto]. apply stays_frames, keeps_next_connect.
  - apply stays_frames. by apply keeps_update_handler.
Qed.
(** No step makes it read. *)
Lemma stopped_step c w w' : net_inv w → net_step receiver_at msgProc_at w w' → stays c w w'.
Proof.
  intros Hi [l1 o l2 cp E _ _ Hrun|Hf] Hs; [|by eapply frames_stays].
  assert (Ho : is_read_of c o || is_start_of c o = false).
  { destruct Hs as (_ & Hr & Hs). destruct (view_remove c w l1 o l2 E) as (_ & _ & _ & Hst & r1 & r2 & Hrd & _).
    apply orb_false_iff. split.
    - destruct (is_read_of c o); [|done]. rewrite Hr in Hrd. by destruct r1.
    - destruct (is_start_of c o); [lia|done]. }
  pose proof (stays_complete_op c o cp Ho (without (l1 ++ l2) w)) as Hk. rewrite Hrun in Hk. apply Hk.
  destruct Hs as (Hc & Hr & Hs). destruct (view_remove c w l1 o l2 E) as (_ & _ & _ & Hst & r1 & r2 & Hrd & Hr0).
  apply orb_false_iff in Ho as [Ho1 Ho2]. rewrite Ho1, Hr in Hrd. rewrite Ho2 in Hst.
  symmetry in Hrd. apply app_eq_nil in Hrd as [-> Hrd]. cbn in Hrd. subst r2.
  split_and!; [done|done|lia].
Qed.
Lemma stopped_for_ever c w w' :
  net_inv w → rtc (net_step receiver_at msgProc_at) w w' → stays c w w'.
Proof.
  intros Hi Hr. induction Hr as [|w1 w2 w3 Hs _ IH]; [by intros ?|].
  intros Hst. apply IH; [by eapply net_step_inv|by eapply stopped_step].
Qed.
End Stopped.
