(* ===== verification/NetProperties.v ===== *)
(** * What the network layer guarantees

    The theorems about reachable states of the io_service, each with a run of
    a small server as its witness ([Module Demo]). *)
From stdpp Require Import gmap strings list.
From coqutil Require Import Byte.
From S2P Require Import Prelude.
From S2P Require Import MessageBuffer.
From S2P Require Import PacketHeader.
From S2P Require Import Connection.
From S2P Require Import MessageProcedure.
From S2P Require Import EventReceiver.
From S2P Require Import IoService.
From S2P Require Import ConnectionImpl.
From S2P Require Import ConnectionSafety.
From S2P Require Import ConnectionSend.
From S2P Require Import NetService.
From S2P Require Import NetServiceSafety.
From S2P Require Import NetStopped.
#[local] Open Scope Z_scope.

(** ** A server to try things on *)
Module Demo.
#[local] Existing Instance zero_memory.

#[export] Instance demo_has_services : HasServices NetServices :=
  {| services_of := id; with_services := λ s _, s |}.

(** Every socket call succeeds, except that [shutdown] gives [ec]. *)
Definition demo_sockets (ec : Z) : Sockets := {|
  os_shutdown _ _ _ := ec;
  os_set_option _ _ := 0;
  os_open _ _ := 0;
  os_is_open _ _ := true;
  os_listen_call _ := 0;
  os_resolve _ _ _ := Some [1%N];
  os_clock tr := zlen tr;
  os_connect _ _ := 0;
  os_remote_endpoint _ _ := Some 9%N;
  asio_eof := 2;
  asio_operation_aborted := 125
|}.

Definition quiet : StaticFunctionsClass (NetWorld NetServices) := {|
  sf_onAccept _ := mret tt;
  sf_onAcceptFailed _ := mret tt;
  sf_onConnect _ := mret tt;
  sf_onConnectFailed _ := mret tt;
  sf_onClose _ := mret tt;
  sf_onCloseFailed _ := mret tt;
  sf_onExpiredSession _ := mret tt;
  sf_onUpdate _ := mret tt;
  sf_noHandler _ := mret tt;
  sf_initHandler _ := mret tt
|}.
Definition demo_receiver (r : RecvPtr) : EventReceiver (NetWorld NetServices) :=
  EventReceiverAcceptorRegister quiet.
Definition demo_msgProc (p : MsgProcPtr) : MessageProcedure (NetWorld NetServices) :=
  MessageProcedure_new (Some (λ _ _ _ _, mret true)) (Some json_getMsgManipulatorTest).

Lemma demo_receivers (r : RecvPtr) : receiver_frames (demo_receiver r).
Proof. split; intros g ?; [intros [= <-]; keeps_auto..]. Qed.
Lemma demo_msgProcs (p : MsgProcPtr) : parser_frames (demo_msgProc p).
Proof. intros parse [= <-] c t m s. keeps_auto. Qed.

(** One acceptor, with a connection waiting to be accepted. *)
Definition demo_services : NetServices :=
  mkNetServices [Some 7%N] [] {[ 7%N := mkNetServiceImpl 1%N (Some 0) 0 0 0%N 0%N
    (Some json_getMsgManipulatorTest) 0 false None ]} [1%N] (Some 1%N) true.

Section Run.
Context `{!Sockets}.
Definition demo_accept : M (NetWorld NetServices) unit :=
  newConn ← create_conn 7%N 0; start_op (AcceptConn 7%N newConn).
Definition demo_listening : NetWorld NetServices :=
  match demo_accept (net_init demo_services) with
  | Done w _ => w
  | _ => net_init demo_services
  end.

Lemma demo_listening_reachable :
  rtc (net_step demo_receiver demo_msgProc) (net_init demo_services) demo_listening.
Proof.
  apply rtc_once, step_application. unfold demo_listening.
  assert (Hk : keeps frames demo_accept) by apply keeps_next_accept.
  specialize (Hk (net_init demo_services)). by destruct (demo_accept _).
Qed.

(** The state after a script of completions. *)
Definition demo_run (script : list (nat * completion)) : NetWorld NetServices :=
  default demo_listening (exec_completions demo_receiver demo_msgProc script demo_listening).

Lemma demo_run_reachable script :
  rtc (net_step demo_receiver demo_msgProc) (net_init demo_services) (demo_run script).
Proof.
  etrans; [apply demo_listening_reachable|]. unfold demo_run.
  destruct (exec_completions _ _ script _) eqn:E; [|done]. by eapply exec_completions_steps.
Qed.
End Run.

Definition ok : completion := mkCompletion 0 [] 0.
Definition got (data : list byte) : completion := mkCompletion 0 data 0.
Definition failed (ec : Z) : completion := mkCompletion ec [] 0.
End Demo.

(** ** Theorems *)
Section Theorems.
Context {U : Type} `{!HasServices U} `{FreshMemory} `{!Sockets}.
Local Abbreviation W := (NetWorld U).
Implicit Types (w : W) (c : ConnPtr).
Context (receiver_at : RecvPtr → EventReceiver W) (msgProc_at : MsgProcPtr → MessageProcedure W).
Context (Hreceivers : ∀ r, receiver_frames (receiver_at r)).
Context (HmsgProcs : ∀ p, parser_frames (msgProc_at p)).

Lemma reachable_onClose u w c :
  rtc (net_step receiver_at msgProc_at) (net_init u) w →
  (count (is_onClose_of c) (nw_trace w) ≤ 1)%nat
  ∧ (count (is_onClose_of c) (nw_trace w) = 1%nat →
     ∃ cn, nw_conns w !! c = Some cn ∧ ci_status cn = status_close).
Proof.
  intros Hr. pose proof (reachable_inv receiver_at msgProc_at Hreceivers HmsgProcs u w Hr c) as Hi.
  unfold view_ok, view in Hi. simpl in Hi.
  destruct (nw_conns w !! c) as [cn|]; simpl in Hi.
  - destruct Hi as (_ & _ & H3 & _ & H5 & _). split; [lia|]. intros H1. exists cn. auto.
  - destruct Hi as (_ & _ & H3 & _). split; [lia|]. lia.
Qed.

Lemma reachable_reads u w c :
  rtc (net_step receiver_at msgProc_at) (net_init u) w →
  (length (v_reads (view c w)) ≤ 1)%nat
  ∧ ∀ off size, ReadSome c off size ∈ nw_pending w →
      ∃ cn msg, nw_conns w !! c = Some cn ∧ ci_msg cn = Some msg ∧ mb_wf msg
        ∧ mb_content msg = [] ∧ off = mb_write msg ∧ off + size = MAX_BUFFER_SIZE.
Proof.
  intros Hr. pose proof (reachable_inv receiver_at msgProc_at Hreceivers HmsgProcs u w Hr) as Hi.
  pose proof (Hi c) as Hc. unfold view_ok in Hc. split.
  - destruct (v_core (view c w)); [lia|]. destruct Hc as (-> & _). simpl. lia.
  - intros off size Hin.
    apply list_elem_of_split in Hin as (l1 & l2 & E).
    assert (Hro : is_read_of c (ReadSome c off size) = true) by (simpl; by rewrite bool_decide_true).
    destruct (in_flight_missing c w l1 _ l2 E Hi) as [cn Ec]; [by left|].
    destruct (in_flight_read c w l1 _ l2 _ E Hi Hro (view_core_conn _ _ _ Ec))
      as (_ & _ & _ & _ & msg & Hm & Hwf & Hrd & Hwr & -> & ->).
    exists cn, msg. split_and!; try done.
    apply zlen_zero_inv. rewrite mb_content_length by done. lia.
Qed.

(** C9. Whatever the order in which operations complete, the callback [onClose] is called
    at most once for a connection, and only with the connection in status [close]. *)
Theorem onClose_at_most_once u w c :
  rtc (net_step receiver_at msgProc_at) (net_init u) w →
  (count (is_onClose_of c) (nw_trace w) ≤ 1)%nat
  ∧ (count (is_onClose_of c) (nw_trace w) = 1%nat →
     ∃ cn, nw_conns w !! c = Some cn ∧ ci_status cn = status_close).
Proof. by apply reachable_onClose. Qed.

(** C10. In every reachable state at most one read of a connection is in flight (or waiting to
    be retried), and it fills the whole of an empty well-formed buffer that the connection owns. *)
Theorem one_read_in_flight u w c :
  rtc (net_step receiver_at msgProc_at) (net_init u) w →
  (length (v_reads (view c w)) ≤ 1)%nat
  ∧ ∀ off size, ReadSome c off size ∈ nw_pending w →
      ∃ cn msg, nw_conns w !! c = Some cn ∧ ci_msg cn = Some msg ∧ mb_wf msg
        ∧ mb_content msg = [] ∧ off = mb_write msg ∧ off + size = MAX_BUFFER_SIZE.
Proof. by apply reachable_reads. Qed.

(** C11. In every reachable state, the completion of a read with any bytes the system may
    deliver runs without an error: the bytes are posted to the dispatcher, exactly as they
    came and after the buffers posted before, and a new read is started. *)
Theorem read_completion_delivers u w c off size l1 l2 data :
  rtc (net_step receiver_at msgProc_at) (net_init u) w →
  nw_pending w = l1 ++ ReadSome c off size :: l2 → zlen data ≤ size →
  ∃ w' msg,
    complete_op receiver_at msgProc_at (ReadSome c off size) (mkCompletion 0 data 0)
      (without (l1 ++ l2) w) = Done w' tt
    ∧ dispatches (nw_pending w') = dispatches (l1 ++ l2) ++ [PostDispatch c msg]
    ∧ mb_wf msg ∧ mb_content msg = data ∧ length (v_reads (view c w')) = 1%nat.
Proof.
  intros Hr E Hd. pose proof (reachable_inv receiver_at msgProc_at Hreceivers HmsgProcs u w Hr) as Hi.
  destruct (read_completion_run receiver_at msgProc_at c off size w l1 l2 data E Hi Hd)
    as (w' & Erun & _ & Hv & msg & Hdis & Hwf & Hc).
  exists w', msg. split_and!; try done. by rewrite Hv.
Qed.

(** C29. Whatever the order in which operations complete, the handler of a failed read is posted again
    at most five times in the life of a connection; the counter of the connection counts these posts,
    and goes on to six when the limit is met. *)
Theorem read_retries_bounded u w c :
  rtc (net_step receiver_at msgProc_at) (net_init u) w →
  (count (is_retry_of c) (nw_trace w) ≤ 5)%nat
  ∧ ∀ cn, nw_conns w !! c = Some cn →
      Z.of_nat (count (is_retry_of c) (nw_trace w)) = Z.min (ci_postRetryCount cn) 5
      ∧ 0 ≤ ci_postRetryCount cn ≤ 6.
Proof.
  intros Hr. pose proof (reachable_inv receiver_at msgProc_at Hreceivers HmsgProcs u w Hr c) as Hi.
  unfold view_ok in Hi. unfold view in Hi. simpl in Hi.
  destruct (nw_conns w !! c) as [cn|]; simpl in Hi.
  - destruct Hi as (_ & _ & _ & _ & _ & _ & H7 & _ & H9). split; [lia|]. by intros ? [= <-].
  - destruct Hi as (_ & _ & _ & _ & H9). split; [lia|done].
Qed.
End Theorems.

(** ** Closing after an error *)
Section Closing.
Context {U : Type} `{!HasServices U} `{FreshMemory} `{!Sockets}.
Local Abbreviation W := (NetWorld U).
Implicit Types (w : W) (c : ConnPtr).
Context (receiver_at : RecvPtr → EventReceiver W) (msgProc_at : MsgProcPtr → MessageProcedure W).

Lemma read_handler_closing c w cn ec n :
  nw_conns w !! c = Some cn → ec ≠ 0 → read_retried cn ec = false →
  0 ≤ ci_postRetryCount cn →
  ∃ w1 cn1, ConnectionImpl_read_handler c ec n w = ConnectionImpl_closing c shutdown_receive w1
    ∧ nw_conns w1 !! c = Some cn1 ∧ ci_status cn1 = ci_status cn ∧ nw_trace w1 = nw_trace w
    ∧ v_reads (view c w1) = v_reads (view c w) ∧ v_closes (view c w1) = v_closes (view c w)
    ∧ v_onCloses (view c w1) = v_onCloses (view c w).
Proof.
  intros E Hec Hre Hnn. unfold ConnectionImpl_read_handler.
  rewrite (proj2 (Z.eqb_neq _ _)) by done. run_with (this_conn_run _ _ _ E).
  unfold read_retried in Hre.
  destruct (negb (SHUTDOWN =? ec) && negb (asio_eof =? ec) && (0 <? ci_readHandlerPending cn)) eqn:Hg.
  - simpl in Hre. run_step. rewrite (upd_conn_run _ _ _ _ E). run_step. rewrite Hre.
    eexists _, _. split; [reflexivity|]. split; [apply lookup_insert_eq|].
    rewrite view_upd_conn. done.
  - by exists w, cn.
Qed.

(** A read of an open connection fails and is not posted again. *)
Lemma read_error_run u w c cn off size l1 l2 ec
    (Hreceivers : ∀ r, receiver_frames (receiver_at r))
    (HmsgProcs : ∀ p, parser_frames (msgProc_at p)) :
  rtc (net_step receiver_at msgProc_at) (net_init u) w →
  nw_pending w = l1 ++ ReadSome c off size :: l2 →
  nw_conns w !! c = Some cn → ci_status cn = status_open →
  ec ≠ 0 → read_retried cn ec = false →
  ∃ w' cn',
    complete_op receiver_at msgProc_at (ReadSome c off size) (mkCompletion ec [] 0)
      (without (l1 ++ l2) w) = Done w' tt
    ∧ nw_conns w' !! c = Some cn' ∧ v_reads (view c w') = [] ∧ v_onCloses (view c w') = 0%nat
    ∧ if os_shutdown (nw_trace w) c shutdown_receive =? 0
      then ci_status cn' = status_closing ∧ v_closes (view c w') = 1%nat
      else ci_status cn' = status_open ∧ v_closes (view c w') = 0%nat.
Proof.
  intros Hr E Ec Hst Hec Hre.
  pose proof (reachable_inv receiver_at msgProc_at Hreceivers HmsgProcs u w Hr) as Hi.
  assert (Hro : is_read_of c (ReadSome c off size) = true) by (simpl; by rewrite bool_decide_true).
  destruct (in_flight_read c w l1 _ l2 _ E Hi Hro (view_core_conn _ _ _ Ec)) as (Hr0 & _ & Hc0 & _).
  set (w0 := without (l1 ++ l2) w) in *.
  pose proof (remove_inv w l1 _ l2 E Hi c) as Hi0. fold w0 in Hi0.
  destruct (view_ok_open _ _ Hi0 Hc0 Hst) as (Hcl0 & Hon0 & _).
  assert (Hnn : 0 ≤ ci_postRetryCount cn).
  { unfold view_ok in Hi0. rewrite Hc0 in Hi0. destruct Hi0 as (_ & _ & _ & _ & _ & _ & H7 & _).
    simpl in H7. lia. }
  cbn [complete_op complete_conn_op cp_ec]. rewrite (proj2 (Z.eqb_neq _ _)) by done.
  destruct (read_handler_closing c w0 cn ec 0 Ec Hec Hre Hnn)
    as (w1 & cn1 & -> & E1 & Hs1 & Ht1 & Hr1 & Hcl1 & Hon1).
  destruct (closing_run c shutdown_receive w1 cn1 E1) as (w' & -> & Hw). rewrite Ht1 in Hw.
  change (nw_trace w0) with (nw_trace w) in Hw.
  exists w'. destruct (os_shutdown (nw_trace w) c shutdown_receive =? 0); cbn [andb] in Hw.
  - rewrite bool_decide_true in Hw by congruence. destruct Hw as [_ Hv].
    pose proof (f_equal v_core Hv) as Hcore. unfold view at 1 in Hcore. simpl in Hcore.
    apply fmap_Some in Hcore as (cn' & Ecn' & Hcn'). exists cn'. split; [done|]. split; [done|].
    rewrite Hv. cbn [v_reads v_closes v_onCloses v_add_op v_set_core].
    rewrite Hr1, Hcl1, Hon1, Hr0, Hcl0, Hon0. simpl. rewrite bool_decide_true by done.
    split_and!; try done. by inversion Hcn'.
  - destruct (view_core_inv c w1 w' cn1 (Hw c) E1) as (cn' & Ecn' & Hcore).
    exists cn'. split; [done|]. split; [done|]. rewrite Hw, Hr1, Hcl1, Hon1.
    split_and!; try done. inversion Hcore. congruence.
Qed.

(** C30. A read of an open connection fails and is not posted again: if the operating system lets the
    socket be shut down, the connection is closing and its [close] is posted; if it does not (as for a
    connection the peer has reset), the connection is still open, without a close posted. In both cases
    it never reads again, whatever happens later. *)
Theorem read_error_closes_or_leaks u w c cn off size l1 l2 ec
    (Hreceivers : ∀ r, receiver_frames (receiver_at r))
    (HmsgProcs : ∀ p, parser_frames (msgProc_at p)) :
  rtc (net_step receiver_at msgProc_at) (net_init u) w →
  nw_pending w = l1 ++ ReadSome c off size :: l2 →
  nw_conns w !! c = Some cn → ci_status cn = status_open →
  ec ≠ 0 → read_retried cn ec = false →
  ∃ w' cn',
    complete_op receiver_at msgProc_at (ReadSome c off size) (mkCompletion ec [] 0)
      (without (l1 ++ l2) w) = Done w' tt
    ∧ nw_conns w' !! c = Some cn' ∧ v_reads (view c w') = [] ∧ v_onCloses (view c w') = 0%nat
    ∧ (if os_shutdown (nw_trace w) c shutdown_receive =? 0
      then ci_status cn' = status_closing ∧ v_closes (view c w') = 1%nat
      else ci_status cn' = status_open ∧ v_closes (view c w') = 0%nat)
    ∧ ∀ w2, rtc (net_step receiver_at msgProc_at) w' w2 → v_reads (view c w2) = [].
Proof.
  intros Hr E Ec Hst Hec Hre.
  destruct (read_error_run u w c cn off size l1 l2 ec Hreceivers HmsgProcs Hr E Ec Hst Hec Hre)
    as (w' & cn' & Hrun & Ec' & Hrd & Hon & Hif).
  exists w', cn'. split_and!; try done. intros w2 Hr2.
  assert (Hi : net_inv w').
  { pose proof (reachable_inv receiver_at msgProc_at Hreceivers HmsgProcs u w Hr) as Hi.
    pose proof (complete_op_kept receiver_at msgProc_at Hreceivers HmsgProcs _ (mkCompletion ec [] 0) w l1 l2 E Hi) as Hk.
    rewrite Hrun in Hk. apply Hk. simpl. by rewrite (proj2 (Z.eqb_neq _ _)). }
  apply (stopped_for_ever receiver_at msgProc_at Hreceivers HmsgProcs c w' w2 Hi Hr2).
  split_and!; [by rewrite Ec'|done|].
  destruct (v_starts (view c w')) eqn:Es; [done|]. specialize (Hi c). unfold view_ok in Hi.
  rewrite (view_core_conn _ _ _ Ec') in Hi. destruct Hi as (_ & _ & _ & _ & _ & H6 & _).
  destruct H6 as (_ & _ & Hcl & _); [lia|]. cbn in Hcl.
  destruct (_ =? 0) in Hif; destruct Hif as [Hs _]; congruence.
Qed.
End Closing.

(** ** Sending *)

(** [sendPacket] with a manipulator that keeps its promise writes one frame, header and
    body, of a body that fits; a larger one raises the buffer's exception and writes nothing. *)
Theorem sendPacket_writes_frame {U : Type} `{FreshMemory} rules manip
    `{!HeaderCodec rules manip} (w : NetWorld U) c cn body :
  nw_conns w !! c = Some cn → ci_msgManipulator cn = Some manip → zlen body < 2 ^ 63 →
  ConnectionImpl_sendPacket c body w
  = if zlen body + sizeof_HEADER <=? MAX_BUFFER_SIZE
    then Done (set_pending (nw_pending w ++ [WriteAll c (frame body) false]) w) tt
    else Threw w overrun.
Proof.
  intros E Hm Hb. destruct (Z.leb_spec (zlen body + sizeof_HEADER) MAX_BUFFER_SIZE).
  - by eapply sendPacket_run.
  - by eapply sendPacket_overrun.
Qed.

(** ** Witnesses *)
Section Witnesses.
Import Demo.
#[local] Existing Instance zero_memory.

(** Accepted, reset by the peer, closed. *)
Definition closed_run : NetWorld NetServices :=
  @demo_run (demo_sockets 0) [(0%nat, ok); (0%nat, failed 104); (1%nat, ok)].
(** Accepted and reading. *)
Definition reading_run : NetWorld NetServices := @demo_run (demo_sockets 0) [(0%nat, ok)].
Definition reading_run_107 : NetWorld NetServices := @demo_run (demo_sockets 107) [(0%nat, ok)].
(** Accepted, some bytes received but not dispatched, then reset: a retry. *)
Definition retried_run : NetWorld NetServices :=
  @demo_run (demo_sockets 0) [(0%nat, ok); (0%nat, got [Byte.x01]); (2%nat, failed 104)].

Lemma onClose_at_most_once_witness :
  count (is_onClose_of 0%N) (nw_trace closed_run) = 1%nat
  ∧ ∃ cn, nw_conns closed_run !! 0%N = Some cn ∧ ci_status cn = status_close.
Proof.
  assert (Hc : count (is_onClose_of 0%N) (nw_trace closed_run) = 1%nat)
    by (vm_compute; reflexivity).
  split; [exact Hc|].
  exact (proj2 (onClose_at_most_once demo_receiver demo_msgProc demo_receivers demo_msgProcs
           demo_services closed_run 0%N (demo_run_reachable _)) Hc).
Defined.

Lemma one_read_in_flight_witness :
  length (v_reads (view 0%N reading_run)) = 1%nat
  ∧ ∃ cn msg, nw_conns reading_run !! 0%N = Some cn ∧ ci_msg cn = Some msg ∧ mb_wf msg
        ∧ mb_content msg = [] ∧ 0 = mb_write msg ∧ 0 + 32768 = MAX_BUFFER_SIZE.
Proof.
  split; [vm_compute; reflexivity|].
  refine (proj2 (one_read_in_flight demo_receiver demo_msgProc demo_receivers demo_msgProcs
           demo_services reading_run 0%N (demo_run_reachable _)) 0 32768 _).
  apply list_elem_of_lookup_2 with 0%nat. vm_compute. reflexivity.
Defined.

Lemma read_completion_delivers_witness :
  ∃ w' msg,
    complete_op (H0 := demo_sockets 0) demo_receiver demo_msgProc (ReadSome 0%N 0 32768)
      (mkCompletion 0 [Byte.x01; Byte.x02] 0)
      (without (drop 1 (nw_pending reading_run)) reading_run) = Done w' tt
    ∧ dispatches (nw_pending w') = [PostDispatch 0%N msg]
    ∧ mb_wf msg ∧ mb_content msg = [Byte.x01; Byte.x02] ∧ length (v_reads (view 0%N w')) = 1%nat.
Proof.
  apply (read_completion_delivers (H0 := demo_sockets 0) demo_receiver demo_msgProc demo_receivers
           demo_msgProcs demo_services reading_run 0%N 0 32768 [] (drop 1 (nw_pending reading_run))
           [Byte.x01; Byte.x02] (demo_run_reachable _)).
  - vm_compute. reflexivity.
  - vm_compute. discriminate.
Defined.

Lemma read_retries_bounded_witness :
  count (is_retry_of 0%N) (nw_trace retried_run) = 1%nat
  ∧ ∃ cn, nw_conns retried_run !! 0%N = Some cn
    ∧ Z.of_nat (count (is_retry_of 0%N) (nw_trace retried_run)) = Z.min (ci_postRetryCount cn) 5
    ∧ 0 ≤ ci_postRetryCount cn ≤ 6.
Proof.
  split; [vm_compute; reflexivity|].
  assert (Hc : ci_postRetryCount <$> (nw_conns retried_run !! 0%N) = Some 1)
    by (vm_compute; reflexivity).
  apply fmap_Some in Hc as (cn & E & _). exists cn. split; [exact E|].
  exact (proj2 (read_retries_bounded (H0 := demo_sockets 0) demo_receiver demo_msgProc
    demo_receivers demo_msgProcs demo_services retried_run 0%N (demo_run_reachable _)) cn E).
Defined.

Lemma read_error_closes_or_leaks_witness :
  ∃ w' cn',
    complete_op (H0 := demo_sockets 107) demo_receiver demo_msgProc (ReadSome 0%N 0 32768)
      (mkCompletion 104 [] 0)
      (without (drop 1 (nw_pending reading_run_107)) reading_run_107) = Done w' tt
    ∧ nw_conns w' !! 0%N = Some cn' ∧ v_reads (view 0%N w') = []
    ∧ v_onCloses (view 0%N w') = 0%nat
    ∧ (ci_status cn' = status_open ∧ v_closes (view 0%N w') = 0%nat)
    ∧ ∀ w2, rtc (net_step (H0 := demo_sockets 107) demo_receiver demo_msgProc) w' w2 → v_reads (view 0%N w2) = [].
Proof.
  assert (Hc : (λ cn, (ci_status cn, read_retried (H0 := demo_sockets 107) cn 104))
                 <$> (nw_conns reading_run_107 !! 0%N) = Some (status_open, false))
    by (vm_compute; reflexivity).
  apply fmap_Some in Hc as (cn & E & Hcn). injection Hcn as Hst Hre.
  refine (read_error_closes_or_leaks (H0 := demo_sockets 107) demo_receiver demo_msgProc
    demo_services reading_run_107 0%N cn 0 32768 [] (drop 1 (nw_pending reading_run_107)) 104
    demo_receivers demo_msgProcs (demo_run_reachable _) _ E (eq_sym Hst) _ (eq_sym Hre)).
  - vm_compute. reflexivity.
  - discriminate.
Defined.

(** A world with one connection, with the manipulator of the [Test] parsers. *)
Definition one_conn : ConnectionImpl :=
  mkConnectionImpl status_open None None 1 (Some 0) 0 (replicate 255 false) 0 0 0 0%N (Some 0%N)
    (Some json_getMsgManipulatorTest).
Definition one_world : NetWorld unit := mkNetWorld {[ 0%N := one_conn ]} 2 [] [] tt.

Lemma sendPacket_writes_frame_witness :
  ConnectionImpl_sendPacket 0%N [Byte.x41] one_world
  = Done (set_pending [WriteAll 0%N [Byte.x05; Byte.x00; Byte.x00; Byte.x00;
                                     Byte.x01; Byte.x00; Byte.x00; Byte.x00; Byte.x41] false]
            one_world) tt.
Proof.
  exact (sendPacket_writes_frame test_rules json_getMsgManipulatorTest
           one_world 0%N one_conn [Byte.x41] (lookup_insert_eq _ _ _) eq_refl eq_refl).
Defined.
End Witnesses.
