(* ===== verification/LobbyState.v ===== *)
(** * The state of the lobby server

    The objects and the global variables of lobbysvr/: user objects
    (lobbysvr/userBasis.h, lobbyUser.h, connectorUser.h) on a heap with the
    pointers that [Connection::setTag] stores, the maps of [LobbyUserManager],
    the statics of [BrokerConnector] and [LobbyAcceptorReceiver], and the
    fields of [Environment] the handlers read.  [HasLobby] is how code reaches
    this state in its world. *)
From stdpp Require Import gmap strings list.
From S2P Require Import Prelude.
From S2P Require Import Connection.
#[local] Open Scope Z_scope.

(** [chase_lobbysvr::User] with its base [UserBasis].  The constructor leaves
    [_playerType], [_roomNo] and [_roomBaseMoney] unset. *)
Record User : Type := mkUser {
  u_conn : ConnPtr;
  u_connected : bool;
  u_playerType : option Z;
  u_roomNo : option Z;
  u_roomBaseMoney : option Z;
  u_userIDX : Z;
  u_userID : string
}.
Definition User_new (conn : ConnPtr) : User := mkUser conn false None None None 0 "".

Record ConnectorUser : Type := mkConnectorUser {
  cu_conn : ConnPtr;
  cu_connected : bool
}.
Definition ConnectorUser_new (conn : ConnPtr) : ConnectorUser := mkConnectorUser conn false.

Inductive heap_object : Type :=
| OUser (u : User)
| OConnectorUser (u : ConnectorUser).

(** The functions the URL maps hold. *)
Inductive lobby_handler : Type := nh_lobby_login | nh_chat_sendMsg.
Inductive broker_handler : Type :=
| ConnectorHandler_auth
| ConnectorHandler_loginedUser
| ConnectorHandler_isOnline
| ConnectorHandler_chatSendMsg
| ConnectorHandler_chatReceiveMsg.

Record LobbyState : Type := mkLobbyState {
  l_heap : gmap TagPtr heap_object;
  m_users : gmap Z ConnPtr;
  m_nodeToUserMap : gmap Z Z;
  m_user : option TagPtr;                       (* BrokerConnector::m_user *)
  g_idx4Broker : Z;
  lobby_URLs : gmap string lobby_handler;       (* LobbyAcceptorReceiver::m_URLs *)
  broker_URLs : gmap string broker_handler;     (* BrokerConnector::m_URLs *)
  m_encType : Z;                                (* UserBasis::m_encType *)
  m_clientVersion : Z                           (* Environment *)
}.
(** Before any handler is registered; [m_encType] is [GREETING]. *)
Definition LobbyState_init (clientVersion : Z) : LobbyState :=
  mkLobbyState ∅ ∅ ∅ None 0 ∅ ∅ 0 clientVersion.

Definition set_heap (h : gmap TagPtr heap_object) (s : LobbyState) : LobbyState :=
  mkLobbyState h (m_users s) (m_nodeToUserMap s) (m_user s) (g_idx4Broker s)
    (lobby_URLs s) (broker_URLs s) (m_encType s) (m_clientVersion s).
Definition set_users (m : gmap Z ConnPtr) (s : LobbyState) : LobbyState :=
  mkLobbyState (l_heap s) m (m_nodeToUserMap s) (m_user s) (g_idx4Broker s)
    (lobby_URLs s) (broker_URLs s) (m_encType s) (m_clientVersion s).
Definition set_nodeToUserMap (m : gmap Z Z) (s : LobbyState) : LobbyState :=
  mkLobbyState (l_heap s) (m_users s) m (m_user s) (g_idx4Broker s)
    (lobby_URLs s) (broker_URLs s) (m_encType s) (m_clientVersion s).
Definition set_m_user (p : option TagPtr) (s : LobbyState) : LobbyState :=
  mkLobbyState (l_heap s) (m_users s) (m_nodeToUserMap s) p (g_idx4Broker s)
    (lobby_URLs s) (broker_URLs s) (m_encType s) (m_clientVersion s).
Definition set_idx4Broker (z : Z) (s : LobbyState) : LobbyState :=
  mkLobbyState (l_heap s) (m_users s) (m_nodeToUserMap s) (m_user s) z
    (lobby_URLs s) (broker_URLs s) (m_encType s) (m_clientVersion s).
Definition set_lobby_URLs (m : gmap string lobby_handler) (s : LobbyState) : LobbyState :=
  mkLobbyState (l_heap s) (m_users s) (m_nodeToUserMap s) (m_user s) (g_idx4Broker s)
    m (broker_URLs s) (m_encType s) (m_clientVersion s).
Definition set_broker_URLs (m : gmap string broker_handler) (s : LobbyState) : LobbyState :=
  mkLobbyState (l_heap s) (m_users s) (m_nodeToUserMap s) (m_user s) (g_idx4Broker s)
    (lobby_URLs s) m (m_encType s) (m_clientVersion s).
Definition set_encType (z : Z) (s : LobbyState) : LobbyState :=
  mkLobbyState (l_heap s) (m_users s) (m_nodeToUserMap s) (m_user s) (g_idx4Broker s)
    (lobby_URLs s) (broker_URLs s) z (m_clientVersion s).

Class HasLobby (W : Type) : Type := {
  lobby_of : W → LobbyState;
  with_lobby : LobbyState → W → W
}.

Section Access.
Context {W : Type} `{!HasLobby W}.

Definition get_lobby : M W LobbyState := gets lobby_of.
Definition upd_lobby (f : LobbyState → LobbyState) : M W unit :=
  modify (λ w, with_lobby (f (lobby_of w)) w).

(** [new], [delete] and the dereference of a pointer to a user. *)
Definition new_object (o : heap_object) : M W TagPtr :=
  s ← get_lobby;
  let p := fresh (dom (l_heap s)) in
  upd_lobby (λ s, set_heap (<[p := o]> (l_heap s)) s);;
  mret p.
Definition delete_object (p : TagPtr) : M W unit :=
  s ← get_lobby;
  _ ← deref "delete of a pointer to no object" (l_heap s !! p);
  upd_lobby (λ s, set_heap (delete p (l_heap s)) s).

Definition this_user (p : TagPtr) : M W User :=
  s ← get_lobby;
  deref "use of a pointer to no user"
    (match l_heap s !! p with Some (OUser u) => Some u | _ => None end).
Definition upd_user (p : TagPtr) (f : User → User) : M W unit :=
  u ← this_user p;
  upd_lobby (λ s, set_heap (<[p := OUser (f u)]> (l_heap s)) s).
Definition this_connectorUser (p : TagPtr) : M W ConnectorUser :=
  s ← get_lobby;
  deref "use of a pointer to no connector user"
    (match l_heap s !! p with Some (OConnectorUser u) => Some u | _ => None end).
End Access.

(** [weak_ptr::lock]: whether the object is still there. *)
Class WeakConnection (W : Type) : Type := {
  weak_lock : ConnPtr → M W (option ConnPtr)
}.
