(* ===== verification/LobbyUser.v ===== *)
(** * Users

    Models lobbysvr/userBasis.cpp ([UserBasis]), lobbysvr/lobbyUser.cpp
    ([User]) and lobbysvr/connectorUser.cpp ([ConnectorUser]): how a JSON value
    becomes a packet and is sent.  The build does not define
    [USE_COMPRESS_FOR_PACKET].  The file ends with the packets themselves
    ([lobby_packet], [broker_packet]) and the theorems that relate the two. *)
From stdpp Require Import gmap strings list.
From coqutil Require Import Byte Word.LittleEndianList.
From S2P Require Import Prelude.
From S2P Require Import MessageBuffer.
From S2P Require Import PacketHeader.
From S2P Require Import Connection.
From S2P Require Import MlnUtils.
From S2P Require Import Protocol.
From S2P Require Import Json.
From S2P Require Import LobbyState.
#[local] Open Scope Z_scope.

Definition RSP_SEQ : string := "packetSequenceNum".
Definition RSP_RC : string := "resultCode".
Definition RSP_RM : string := "resultMsg".
Definition RSP_OK : string := "OK".

Section Users.
Context `{FreshMemory} `{Jsoncpp} {W : Type} `{!Connection W} `{!HasLobby W}.

(** ** UserBasis *)

(** [initEncKey]: the other encryption types are commented out. *)
Definition UserBasis_initEncKey (user : TagPtr) (encType : Z) : M W bool :=
  u ← this_user user;
  (if encType =? EncType.GREETING
   then conn_sendPacket (u_conn u) (string_bytes "hello") else mret tt);;
  mret true.

(** [Send(char *, uint32_t)]: returns the size as an [int32_t]. *)
Definition UserBasis_Send (user : TagPtr) (data : list byte) : M W Z :=
  u ← this_user user;
  s ← get_lobby;
  if m_encType s =? EncType.GREETING then
    conn_sendPacket (u_conn u) data;;
    mret (s32 (u32 (zlen data)))
  else mret 0.

Definition UserBasis_Decrypt (user : TagPtr) (encType : Z) (encrypted : list byte)
    (decryptedBufferSize : Z) : M W Z := mret 0.

(** ** User *)

(** The packet of [SendJsonPacket]: the members set in the order of the code. *)
Definition lobby_fill (packetSequenceNo : Z) (url serialized : list byte) : M object unit :=
  LOBBY_PROTOCOL.PT_JSON_init;;
  store_member LOBBY_PROTOCOL.sequenceNo (le32 packetSequenceNo);;
  memcpy_member LOBBY_PROTOCOL.url 0 url;;
  let rawBodySize := s32 (zlen serialized) + 1 in
  memcpy_member LOBBY_PROTOCOL.jsonBody 0 serialized;;
  memcpy_member LOBBY_PROTOCOL.jsonBody (zlen serialized) [Byte.x00];;
  store_member LOBBY_PROTOCOL.bodySize (le16 (u16 rawBodySize)).

(** The first part: the message is converted, the sequence number read. *)
Definition send_prologue : M (Value * W) Z :=
  rm ← json_at RSP_RM;
  (if negb (json_isNull rm) then
     rm ← json_at RSP_RM;
     s ← json_conv json_asCString rm;
     json_assign RSP_RM (json_string (MB2UTF8 s))
   else mret tt);;
  seq ← json_at RSP_SEQ;
  (if negb (json_isNull seq)
   then seq ← json_at RSP_SEQ; json_conv json_asUInt seq
   else mret 0).

Definition User_SendJsonPacket (user : TagPtr) (url : string) : M (Value * W) Z :=
  packetSequenceNo ← send_prologue;
  jv ← on_fst get_state;
  let serialized := string_bytes (FastWriter_write jv) in
  r ← local_only LOBBY_PROTOCOL.PT_JSON_raw
        (lobby_fill packetSequenceNo (string_bytes url) serialized);
  let pk := fst r in
  let bodySize := load_uint LOBBY_PROTOCOL.bodySize pk in
  if LOBBY_PROTOCOL.MAX_BODY_SIZE <? bodySize then mret 0
  else on_snd (UserBasis_Send user
                 (take (Z.to_nat (LOBBY_PROTOCOL.HEAD_SIZE + bodySize)) pk)).

Definition User_recvHeartBeat (user : TagPtr) : M W unit := mret tt.
Definition User_logoutProcess (user : TagPtr) : M W unit := mret tt.

(** [GET_USER_LOBBY(user)]: null when the connection has no user. *)
Definition GET_USER_LOBBY (conn : ConnPtr) : M W (option TagPtr) := conn_getTag conn.

(** ** ConnectorUser *)
Definition ConnectorUser_Send (user : TagPtr) (data : list byte) : M W Z :=
  u ← this_connectorUser user;
  conn_sendPacket (cu_conn u) data;;
  mret (s32 (u32 (zlen data))).

Definition broker_fill (url serialized : list byte) : M object unit :=
  BROKER_PROTOCOL.PT_JSON_init;;
  memcpy_member BROKER_PROTOCOL.url 0 url;;
  store_member BROKER_PROTOCOL.bodySize (le16 (u16 (zlen serialized)));;
  memcpy_member BROKER_PROTOCOL.jsonBody 0 serialized.

Definition ConnectorUser_SendJsonPacket (user : TagPtr) (url : string) : M (Value * W) Z :=
  jv ← on_fst get_state;
  let serialized := string_bytes (FastWriter_write jv) in
  r ← local_only BROKER_PROTOCOL.PT_JSON_raw (broker_fill (string_bytes url) serialized);
  let pk := fst r in
  let bodySize := load_uint BROKER_PROTOCOL.bodySize pk in
  on_snd (ConnectorUser_Send user
            (take (Z.to_nat (BROKER_PROTOCOL.HEAD_SIZE + bodySize)) pk)).
End Users.

(** ** The packets *)
Definition pad (n : Z) (l : list byte) : list byte :=
  l ++ replicate (Z.to_nat n - length l) Byte.x00.

Definition lobby_packet (seq : Z) (url body : list byte) : list byte :=
  byte_of 1 ++ le32 seq ++ byte_of 0 ++ pad 32 url ++ le16 (zlen body + 1) ++ body ++ [Byte.x00].

Definition broker_packet (url body : list byte) : list byte :=
  le32 1 ++ pad 32 url ++ le16 (zlen body) ++ body.

#[global] Arguments pad : simpl never.
#[global] Arguments byte_of : simpl never.

(** ** Filling the structures *)
Section Fill.
Context `{FreshMemory}.

Lemma zlen_byte_of z : zlen (byte_of z) = 1.
Proof. unfold byte_of, zlen. by rewrite length_le_split. Qed.

Lemma zlen_pad n l : zlen l ≤ n → zlen (pad n l) = n.
Proof. unfold pad, zlen. intros. rewrite length_app, length_replicate. lia. Qed.

Lemma zsplice_pad url n :
  zlen url ≤ n → zsplice 0 url (replicate (Z.to_nat n) Byte.x00) = pad n url.
Proof.
  intros Hu. unfold zsplice, pad. change (Z.to_nat 0) with 0%nat. simpl.
  by rewrite drop_replicate.
Qed.

Lemma zsplice_all (new old : list byte) : zlen old = zlen new → zsplice 0 new old = new.
Proof.
  intros Hl. unfold zsplice. change (Z.to_nat 0) with 0%nat. simpl.
  unfold zlen in Hl. rewrite drop_ge by lia. apply app_nil_r.
Qed.

Lemma zlen_zeros n : 0 ≤ n → zlen (replicate (Z.to_nat n) Byte.x00) = n.
Proof. intros. rewrite zlen_replicate. lia. Qed.

Ltac chunk_size :=
  simpl; rewrite ?zlen_byte_of, ?zlen_le32, ?zlen_le16, ?zlen_zeros by lia; len.

(** The next store of the program in the goal fills the [i]-th piece, [old]. *)
Ltac store_chunk i old :=
  first [rewrite store_member_run by chunk_size | rewrite memcpy_member_run by chunk_size]; run_step;
  rewrite (zsplice_concat _ i _ _ old) by (reflexivity || chunk_size);
  rewrite (zsplice_all _ old) by chunk_size; cbn [insert list_insert].

Lemma lobby_fill_run seq url body :
  zlen url ≤ 32 → zlen body < 30000 →
  ∃ rest, lobby_fill seq url body LOBBY_PROTOCOL.PT_JSON_raw
    = Done (lobby_packet seq url body ++ rest) tt.
Proof.
  intros Hu Hb. pose proof (zlen_nonneg url) as Hu0. pose proof (zlen_nonneg body) as Hb0.
  remember LOBBY_PROTOCOL.PT_JSON_raw as raw eqn:Eraw.
  assert (Hraw : zlen raw = 30040).
  { subst raw. unfold LOBBY_PROTOCOL.PT_JSON_raw, zlen. by rewrite fresh_bytes_length. }
  clear Eraw.
  destruct (cut_object raw 1) as (o1 & r1 & -> & H1 & Hr1); [lia|].
  destruct (cut_object r1 4) as (o2 & r2 & -> & H2 & Hr2); [lia|].
  destruct (cut_object r2 1) as (o3 & r3 & -> & H3 & Hr3); [lia|].
  destruct (cut_object r3 32) as (o4 & r4 & -> & H4 & Hr4); [lia|].
  destruct (cut_object r4 2) as (o5 & r5 & -> & H5 & Hr5); [lia|].
  destruct (cut_object r5 (zlen body)) as (o6 & r6 & -> & H6 & Hr6); [lia|].
  destruct (cut_object r6 1) as (o7 & o8 & -> & H7 & H8); [lia|].
  exists o8.
  assert (E : o1 ++ o2 ++ o3 ++ o4 ++ o5 ++ o6 ++ o7 ++ o8
              = concat [o1; o2; o3; o4; o5; o6; o7; o8]) by (simpl; by rewrite app_nil_r).
  rewrite E. clear E.
  unfold lobby_fill, LOBBY_PROTOCOL.PT_JSON_init. run_step.
  store_chunk 2%nat o3. store_chunk 4%nat o5. store_chunk 0%nat o1. store_chunk 3%nat o4.
  store_chunk 1%nat o2.
  rewrite memcpy_member_run by chunk_size. run_step.
  rewrite (zsplice_concat _ 3 _ _ (replicate (Z.to_nat LOBBY_PROTOCOL.MAX_URL_STRING) Byte.x00))
    by (reflexivity || chunk_size).
  rewrite zsplice_pad by done. cbn [insert list_insert].
  assert (Hp : zlen (pad LOBBY_PROTOCOL.MAX_URL_STRING url) = 32) by by apply zlen_pad.
  store_chunk 5%nat o6. store_chunk 6%nat o7. store_chunk 4%nat (le16 0).
  f_equal. unfold lobby_packet. cbn [concat]. rewrite app_nil_r, <- !app_assoc.
  rewrite s32_small, u16_small by lia. reflexivity.
Qed.

(** The body does not fit: the copy, or the NUL after it, leaves [jsonBody]. *)
Lemma lobby_fill_overrun seq url body :
  zlen url ≤ 32 → 30000 ≤ zlen body →
  ∃ why, lobby_fill seq url body LOBBY_PROTOCOL.PT_JSON_raw = Undef why.
Proof.
  intros Hu Hb. unfold lobby_fill, LOBBY_PROTOCOL.PT_JSON_init. run_step.
  repeat (rewrite store_member_run by chunk_size; run_step).
  rewrite memcpy_member_run by (simpl; lia). run_step.
  destruct (Z.lt_ge_cases 30000 (zlen body)).
  - rewrite memcpy_member_overrun by (simpl; lia). run_step. by eexists.
  - rewrite memcpy_member_run by (simpl; lia). run_step.
    rewrite memcpy_member_overrun by (simpl; rewrite ?zlen_cons, ?zlen_nil; lia). by eexists.
Qed.

Lemma broker_fill_run url body :
  zlen url ≤ 32 → zlen body ≤ 4000 →
  ∃ rest, broker_fill url body BROKER_PROTOCOL.PT_JSON_raw
    = Done (broker_packet url body ++ rest) tt.
Proof.
  intros Hu Hb. pose proof (zlen_nonneg url) as Hu0. pose proof (zlen_nonneg body) as Hb0.
  remember BROKER_PROTOCOL.PT_JSON_raw as raw eqn:Eraw.
  assert (Hraw : zlen raw = 4038).
  { subst raw. unfold BROKER_PROTOCOL.PT_JSON_raw, zlen. by rewrite fresh_bytes_length. }
  clear Eraw.
  destruct (cut_object raw 4) as (o1 & r1 & -> & H1 & Hr1); [lia|].
  destruct (cut_object r1 32) as (o2 & r2 & -> & H2 & Hr2); [lia|].
  destruct (cut_object r2 2) as (o3 & r3 & -> & H3 & Hr3); [lia|].
  destruct (cut_object r3 (zlen body)) as (o4 & o5 & -> & H4 & H5); [lia|].
  exists o5.
  assert (E : o1 ++ o2 ++ o3 ++ o4 ++ o5 = concat [o1; o2; o3; o4; o5])
    by (simpl; by rewrite app_nil_r).
  rewrite E. clear E.
  unfold broker_fill, BROKER_PROTOCOL.PT_JSON_init. run_step.
  store_chunk 2%nat o3. store_chunk 0%nat o1. store_chunk 1%nat o2.
  rewrite memcpy_member_run by chunk_size. run_step.
  rewrite (zsplice_concat _ 1 _ _ (replicate (Z.to_nat BROKER_PROTOCOL.MAX_URL_STRING) Byte.x00))
    by (reflexivity || chunk_size).
  rewrite zsplice_pad by done. cbn [insert list_insert].
  assert (Hp : zlen (pad BROKER_PROTOCOL.MAX_URL_STRING url) = 32) by by apply zlen_pad.
  store_chunk 2%nat (le16 0). store_chunk 3%nat o4.
  f_equal. unfold broker_packet. cbn [concat]. rewrite app_nil_r, <- !app_assoc.
  rewrite u16_small by lia. reflexivity.
Qed.

Lemma broker_fill_overrun url body :
  zlen url ≤ 32 → 4000 < zlen body →
  broker_fill url body BROKER_PROTOCOL.PT_JSON_raw
  = Undef "memcpy past the end of an array member".
Proof.
  intros Hu Hb. unfold broker_fill, BROKER_PROTOCOL.PT_JSON_init. run_step.
  repeat (rewrite store_member_run by chunk_size; run_step).
  rewrite memcpy_member_run by (simpl; lia). run_step.
  rewrite store_member_run by chunk_size. run_step.
  rewrite memcpy_member_overrun by (simpl; lia). done.
Qed.

Lemma zlen_lobby_packet seq url body :
  zlen url ≤ 32 → zlen (lobby_packet seq url body) = LOBBY_PROTOCOL.HEAD_SIZE + (zlen body + 1).
Proof.
  intros Hu. pose proof (zlen_pad 32 url Hu). unfold lobby_packet, LOBBY_PROTOCOL.HEAD_SIZE.
  rewrite !zlen_app, !zlen_byte_of, zlen_le32, zlen_le16, zlen_cons, zlen_nil. lia.
Qed.

Lemma zlen_broker_packet url body :
  zlen url ≤ 32 → zlen (broker_packet url body) = BROKER_PROTOCOL.HEAD_SIZE + zlen body.
Proof.
  intros Hu. pose proof (zlen_pad 32 url Hu). unfold broker_packet, BROKER_PROTOCOL.HEAD_SIZE.
  rewrite !zlen_app, zlen_le32, zlen_le16. lia.
Qed.

(** The sizes read back from the packets. *)
Lemma lobby_packet_bodySize seq url body rest :
  zlen url ≤ 32 → zlen body < 30000 →
  load_uint LOBBY_PROTOCOL.bodySize (lobby_packet seq url body ++ rest) = zlen body + 1.
Proof.
  intros Hu Hb. pose proof (zlen_nonneg body).
  assert (Hp : zlen (pad 32 url) = 32) by by apply zlen_pad.
  unfold load_uint, load_member.
  change (m_off LOBBY_PROTOCOL.bodySize) with 38. change (m_len LOBBY_PROTOCOL.bodySize) with 2.
  assert (E : lobby_packet seq url body ++ rest
    = (byte_of 1 ++ le32 seq ++ byte_of 0 ++ pad 32 url)
      ++ le16 (zlen body + 1) ++ body ++ [Byte.x00] ++ rest).
  { unfold lobby_packet. by rewrite <- !app_assoc. }
  rewrite E, zslice_app_at by chunk_size.
  rewrite le_combine_le16, u16_small; lia.
Qed.

Lemma broker_packet_bodySize url body rest :
  zlen url ≤ 32 → zlen body ≤ 4000 →
  load_uint BROKER_PROTOCOL.bodySize (broker_packet url body ++ rest) = zlen body.
Proof.
  intros Hu Hb. pose proof (zlen_nonneg body).
  assert (Hp : zlen (pad 32 url) = 32) by by apply zlen_pad.
  unfold load_uint, load_member.
  change (m_off BROKER_PROTOCOL.bodySize) with 36. change (m_len BROKER_PROTOCOL.bodySize) with 2.
  assert (E : broker_packet url body ++ rest
    = (le32 1 ++ pad 32 url) ++ le16 (zlen body) ++ body ++ rest).
  { unfold broker_packet. by rewrite <- !app_assoc. }
  rewrite E, zslice_app_at by chunk_size.
  rewrite le_combine_le16, u16_small; lia.
Qed.
End Fill.
