(* ===== verification/LobbyUserManager.v ===== *)
(** * The user manager

    Models lobbysvr/lobbyUserManager.cpp ([LobbyUserManager]) and
    lobbysvr/userManagerBasis.cpp, and [BrokerConnector::sendJsonPacket] of
    lobbysvr/brokerConnector.cpp, which [deleteUser] calls.  The maps are those
    of LobbyState.v.  The mutex is held for the whole of the functions that
    change the maps; a handler runs as one step here, so it does not appear. *)
From stdpp Require Import gmap strings list sorting.
From S2P Require Import Prelude.
From S2P Require Import MessageBuffer.
From S2P Require Import Connection.
From S2P Require Import Json.
From S2P Require Import LobbyState.
From S2P Require Import LobbyUser.
#[local] Open Scope Z_scope.

Section Manager.
Context `{FreshMemory} `{Jsoncpp} {W : Type} `{!Connection W} `{!HasLobby W} `{!WeakConnection W}.

(** A local [Json::Value] for a part of a function. *)
Definition with_json {A} (jv : Value) (m : M (Value * W) A) : M W A :=
  r ← with_local jv m; mret (snd r).

(** ** UserManagerBasis: everything is commented out *)
Definition UserManagerBasis_createUser (encType : Z) (header : option TagPtr) (conn : ConnPtr)
    (size : Z) : M (MessageBuffer * W) bool := mret true.
Definition UserManagerBasis_decryptMessage (encType : Z) (conn : ConnPtr) (msgSize : Z)
    : M (MessageBuffer * (MessageBuffer * W)) bool := mret true.
Definition UserManagerBasis_onClose (conn : ConnPtr) : M W unit := mret tt.

(** [BrokerConnector::sendJsonPacket] *)
Definition BrokerConnector_sendJsonPacket (url : string) : M (Value * W) Z :=
  s ← on_snd get_lobby;
  match m_user s with
  | None => mret 0
  | Some p => ConnectorUser_SendJsonPacket p url
  end.

(** ** LobbyUserManager *)
Definition addUser (conn : ConnPtr) : M W unit :=
  tag ← conn_getTag conn;
  match tag with
  | Some _ =>
      _ ← conn_getIdentity conn;       (* for the log *)
      mret tt
  | None =>
      user ← new_object (OUser (User_new conn));
      conn_setTag conn (Some user);;
      identity ← conn_getIdentity conn;
      s ← get_lobby;
      match m_users s !! identity with
      | Some _ => mret tt
      | None =>
          upd_lobby (λ s, set_users (<[identity := conn]> (m_users s)) s);;
          with_json json_null
            (json_assign RSP_SEQ (json_int 0);;
             json_assign RSP_RC (json_int 0);;
             json_assign RSP_RM (json_string RSP_OK);;
             _ ← User_SendJsonPacket user "/account/connected";
             mret tt)
      end
  end.

(** The second half of [deleteUser]: the user leaves the maps and is deleted. *)
Definition deleteUser_erase (conn : ConnPtr) (user : TagPtr) : M W unit :=
  u ← this_user user;
  upd_lobby (λ s, set_nodeToUserMap (delete (u_userIDX u) (m_nodeToUserMap s)) s);;
  identity ← conn_getIdentity (u_conn u);
  s ← get_lobby;
  match m_users s !! identity with
  | None => delete_object user;; conn_setTag conn None
  | Some _ =>
      upd_lobby (λ s, set_users (delete identity (m_users s)) s);;
      delete_object user;;
      conn_setTag conn None
  end.

Definition deleteUser (conn : ConnPtr) : M W unit :=
  tag ← conn_getTag conn;
  match tag with
  | None => mret tt
  | Some user =>
      User_logoutProcess user;;
      u ← this_user user;
      with_json json_null
        (json_assign "userIDX" (json_uint (u_userIDX u));;
         json_assign "nick" (json_string (u_userID u));;
         _ ← BrokerConnector_sendJsonPacket "/userLogout";
         mret tt);;
      deleteUser_erase conn user
  end.

(** The user of an identity, or what the functions below return without one. *)
Definition find_user (identity : Z) : M W (Z + TagPtr) :=
  s ← get_lobby;
  match m_users s !! identity with
  | None => mret (inl (-1))
  | Some weak =>
      target ← weak_lock weak;
      match target with
      | None => mret (inl (-2))
      | Some targetConn =>
          tag ← conn_getTag targetConn;
          match tag with
          | None => mret (inl (-3))
          | Some user => mret (inr user)
          end
      end
  end.

Definition processUser {A} (identity : Z) (callback : TagPtr → A → M W unit) (param1 : A) : M W Z :=
  r ← find_user identity;
  match r with
  | inl ret => mret ret
  | inr user => callback user param1;; mret 0
  end.

Definition processUser2 (identity : Z) (callback : TagPtr → Z → Z → M W Z) (param1 param2 : Z)
    : M W Z :=
  r ← find_user identity;
  match r with
  | inl ret => mret ret
  | inr user => callback user param1 param2
  end.

(** [emplace] does not replace; the failure is only logged. *)
Definition userLogined (identity userIDX : Z) (accountID : string) : M W bool :=
  upd_lobby (λ s, match m_nodeToUserMap s !! userIDX with
                  | Some _ => s
                  | None => set_nodeToUserMap (<[userIDX := identity]> (m_nodeToUserMap s)) s
                  end);;
  mret true.

Definition userLogout (identity userIDX : Z) (accountID : string) : M W bool :=
  upd_lobby (λ s, set_nodeToUserMap (delete userIDX (m_nodeToUserMap s)) s);;
  mret true.

(** [getUser]: the weak pointer, empty when there is none. *)
Definition getUser (identity : Z) : M W (option ConnPtr) :=
  s ← get_lobby; mret (m_users s !! identity).

(** What the three senders do with a connection found in the map. *)
Definition send_to (weak : ConnPtr) (userFunc : TagPtr → M W unit) (url : string)
    : M (Value * W) unit :=
  conn ← on_snd (weak_lock weak);
  match conn with
  | None => mret tt
  | Some conn =>
      tag ← on_snd (conn_getTag conn);
      match tag with
      | None => mret tt
      | Some user =>
          on_snd (userFunc user);;
          _ ← User_SendJsonPacket user url;
          mret tt
      end
  end.

Definition sendPacketFromBroker (identity : Z) (url : string) (userFunc : TagPtr → M W unit)
    : M (Value * W) unit :=
  s ← on_snd get_lobby;
  match m_users s !! identity with
  | None => mret tt
  | Some connWeak => send_to connWeak userFunc url
  end.

Definition sendPacketFromBroker_byUserIDX (userIDX : Z) (url : string) : M (Value * W) unit :=
  s ← on_snd get_lobby;
  match m_nodeToUserMap s !! userIDX with
  | None => mret tt
  | Some identity =>
      match m_users s !! identity with
      | None => mret tt
      | Some connWeak => send_to connWeak (λ _, mret tt) url
      end
  end.

(** A [std::map] is iterated in the order of its keys. *)
Definition key_le (a b : Z * ConnPtr) : Prop := a.1 ≤ b.1.
#[export] Instance key_le_dec : RelDecision key_le := λ a b, decide (a.1 ≤ b.1).
Definition users_in_order (m : gmap Z ConnPtr) : list (Z * ConnPtr) :=
  merge_sort key_le (map_to_list m).

Fixpoint send_to_each (conns : list ConnPtr) (url : string) : M (Value * W) unit :=
  match conns with
  | [] => mret tt
  | connWeak :: rest => send_to connWeak (λ _, mret tt) url;; send_to_each rest url
  end.

Definition sendPacketFromBroker_All (url : string) : M (Value * W) unit :=
  s ← on_snd get_lobby;
  send_to_each (snd <$> users_in_order (m_users s)) url.
End Manager.
