(* ===== verification/LobbyHandlers.v ===== *)
(** * URL handlers of the lobby and of the broker connection

    Models lobbysvr/nh_lobby.cpp, lobbysvr/nh_chat.cpp and
    lobbysvr/connectorHandler.cpp: what a JSON request does, by its URL. *)
From stdpp Require Import gmap strings list.
From S2P Require Import Prelude.
From S2P Require Import MessageBuffer.
From S2P Require Import Connection.
From S2P Require Import MlnUtils.
From S2P Require Import Json.
From S2P Require Import LobbyState.
From S2P Require Import LobbyUser.
From S2P Require Import LobbyUserManager.
#[local] Open Scope Z_scope.

(** [ChaseGameDef::PLAYER_TYPE] *)
Definition PLAYER_TYPE_NORMAL : Z := 0.

(** [MLN_Utils::getLocalTimeSec]: the clock of the machine. *)
Class LocalTime (W : Type) : Type := { getLocalTimeSec : M W Z }.

Section Handlers.
Context `{FreshMemory} `{Jsoncpp} {W : Type} `{!Connection W} `{!HasLobby W} `{!WeakConnection W}
  `{!LocalTime W}.

(** ** nh_lobby *)

(** The user's fields at the start of a login. *)
Definition login_reset (u : User) : User :=
  mkUser (u_conn u) (u_connected u) (Some PLAYER_TYPE_NORMAL) (Some (-1)) (Some 0)
    (u_userIDX u) (u_userID u).

(** The lambda [sendDBFailed]; the state is the local [rsp]. *)
Definition sendDBFailed (conn : ConnPtr) (user : TagPtr) (url : string) (retCode : Z)
    (retMsg : string) : M (Value * W) unit :=
  json_assign RSP_RC (json_int retCode);;
  json_assign RSP_RM (json_string retMsg);;
  _ ← User_SendJsonPacket user url;
  on_snd (conn_closeReserve conn 0).

Definition login (conn : ConnPtr) (url : string) : M (Value * W) unit :=
  tag ← on_snd (GET_USER_LOBBY conn);
  match tag with
  | None => _ ← on_snd (conn_getIdentity conn); mret tt
  | Some user =>
      seq ← json_at RSP_SEQ;
      rsp ← on_snd (r ← with_local json_null (json_assign RSP_SEQ seq); mret (fst r));
      v ← json_at "userID"; userID ← json_conv json_asString v;
      v ← json_at "userPW"; userPW ← json_conv json_asString v;
      v ← json_at "clientVersion"; clientVersion ← json_conv json_asInt v;
      userAddr ← on_snd (conn_remote_endpoint conn);
      on_snd (upd_user user login_reset);;
      s ← on_snd get_lobby;
      if negb (clientVersion =? m_clientVersion s)
      then on_snd (with_json rsp (sendDBFailed conn user url (-1) "client version"))
      else mret tt
  end.

Definition loginSuccessed (user : TagPtr) (url : string) : M W unit := mret tt.

(** ** nh_chat *)
Definition sendMsg (conn : ConnPtr) (url : string) : M (Value * W) unit :=
  tag ← on_snd (GET_USER_LOBBY conn);
  match tag with
  | None => _ ← on_snd (conn_getIdentity conn); mret tt
  | Some user =>
      v ← json_at "msg"; msg ← json_conv json_asString v;
      if bool_decide (msg = "") then _ ← on_snd (this_user user); mret tt
      else
        v ← json_at "channelType"; channelType ← json_conv json_asInt v;
        short ← (if 2 =? channelType
                 then v ← json_at "to"; to ← json_conv json_asString v;
                      mret (String.length to <? 2)%nat
                 else mret false);
        if (short : bool) then _ ← on_snd (this_user user); mret tt
        else
          u ← on_snd (this_user user);
          s ← on_snd get_lobby;
          json_assign "addition_fromIDX" (json_uint (u_userIDX u));;
          json_assign "addition_fromSVR" (json_uint (g_idx4Broker s));;
          json_assign "from" (json_string (u_userID u));;
          seq ← json_at RSP_SEQ; json_assign "seq" seq;;
          now ← on_snd getLocalTimeSec;
          json_assign "sendTime" (json_uint64 (u64 now));;
          identity ← on_snd (conn_getIdentity (u_conn u));
          json_assign "identity" (json_uint (u32 identity));;
          _ ← BrokerConnector_sendJsonPacket "/chatSendMsg";
          mret tt
  end.

(** ** ConnectorHandler *)
Definition auth (conn : ConnPtr) (url : string) : M (Value * W) unit :=
  v ← json_at "serverIDX"; idx ← json_conv json_asUInt v;
  on_snd (upd_lobby (set_idx4Broker idx)).

Definition loginedUser (conn : ConnPtr) (url : string) : M (Value * W) unit :=
  v ← json_at "identity"; identity ← json_conv json_asUInt64 v;
  user ← on_snd (getUser identity);
  match user with
  | None => mret tt
  | Some weak => _ ← on_snd (weak_lock weak); mret tt
  end.

Definition isOnline (conn : ConnPtr) (url : string) : M (Value * W) unit :=
  json_assign RSP_RC (json_int 0);;
  json_assign RSP_RM (json_string RSP_OK);;
  seq ← json_at "pkSeq"; json_assign RSP_SEQ seq;;
  v ← json_at "identity"; identity ← json_conv json_asUInt64 v;
  sendPacketFromBroker identity "/friend/list" (λ _, mret tt).

Definition chatSendMsg (conn : ConnPtr) (url : string) : M (Value * W) unit :=
  v ← json_at "identity"; identity ← json_conv json_asUInt64 v;
  sendPacketFromBroker identity "/chat/sendMsg" (λ _, mret tt).

Definition chatReceiveMsg (conn : ConnPtr) (url : string) : M (Value * W) unit :=
  v ← json_at "channelType"; channelType ← json_conv json_asInt v;
  if channelType =? 1 then sendPacketFromBroker_All "/chat/receiveMsg"
  else if channelType =? 2 then
    v ← json_at "addition_toIDX"; toIDX ← json_conv json_asUInt v;
    sendPacketFromBroker_byUserIDX toIDX "/chat/receiveMsg"
  else mret tt.

(** ** What the names in the URL maps stand for *)
Definition run_lobby_handler (h : lobby_handler) : ConnPtr → string → M (Value * W) unit :=
  match h with
  | nh_lobby_login => login
  | nh_chat_sendMsg => sendMsg
  end.
Definition run_broker_handler (h : broker_handler) : ConnPtr → string → M (Value * W) unit :=
  match h with
  | ConnectorHandler_auth => auth
  | ConnectorHandler_loginedUser => loginedUser
  | ConnectorHandler_isOnline => isOnline
  | ConnectorHandler_chatSendMsg => chatSendMsg
  | ConnectorHandler_chatReceiveMsg => chatReceiveMsg
  end.
End Handlers.
