(* ===== verification/PacketParser.v ===== *)
(** * The packet parsing loop

    The parsers of net/packetParserSimple.cpp and lobbysvr/packetParserJson.cpp
    are copies of one loop that differ in the header rules and in what is done
    with the body of a part.  This file has the loop, generic in both, its
    reference semantics on sequences of bodies, and the theorems that hold for
    every copy.  The copies themselves are in PacketParserSimple.v and
    PacketParserJson.v. *)
From stdpp Require Import list strings gmap.
From coqutil Require Import Byte Word.LittleEndianList.
From S2P Require Import Prelude.
From S2P Require Import MessageBuffer.
From S2P Require Import PacketHeader.
#[local] Open Scope Z_scope.

(** The local variables that live across iterations; [header] is read again
    before every use. *)
Record ParserLocals : Type := mkParserLocals {
  readStartFromMainKey : bool;
  total_size : Z
}.

(** What an iteration does: go on, or leave the function with a result. *)
Inductive loop_ctl : Type :=
| LoopNext (l : ParserLocals)
| LoopReturn (result : bool).

(** What the code that consumes the body of a part does next: the next
    iteration ([continue] or the end of the body), [break], or
    [readAll(); return false]. *)
Inductive part_ctl : Type := PartNext | PartBreak | PartFail.

#[export] Instance part_ctl_eq_dec : EqDecision part_ctl.
Proof. solve_decision. Defined.

Section Loop.
Context {W : Type} (rules : HeaderRules).

(** The code between the part key and the end of the loop body: it gets
    [part_body_size]; the state is the received buffer and the world. *)
Context (consume_part : Z → M (MessageBuffer * W) part_ctl).

Definition fail_readAll : M (MessageBuffer * W) loop_ctl :=
  on_fst MessageBuffer_readAll;; mret (LoopReturn false).

(** The [if (true == readStartFromMainKey)] block: the new [total_size], or
    the way out. *)
Definition parse_main_key : M (MessageBuffer * W) (Z + loop_ctl) :=
  h ← on_fst (MessageBuffer_readable_to sizeof_HEADER);
  match h with
  | None => mret (inr (LoopReturn true))
  | Some hb =>
      let mainKey := s32 (le_combine (take 4 hb)) in
      if negb (main_key_ok rules mainKey) then
        r ← fail_readAll; mret (inr r)
      else
        let total := main_total_size rules mainKey in
        ok ← on_fst (MessageBuffer_readable total);
        if negb ok then mret (inr (LoopReturn true))
        else
          on_fst (MessageBuffer_read 4);;
          mret (inl total)
  end.

(** The rest of the loop body. *)
Definition parse_part (total : Z) : M (MessageBuffer * W) loop_ctl :=
  kb ← on_fst (MessageBuffer_read_to 4);
  let partKey := s32 (le_combine kb) in
  if negb (part_key_ok rules partKey) then fail_readAll
  else
    let body_size := part_body_size rules partKey in
    let part_size := u32 (body_size + 4) in
    ok ← on_fst (MessageBuffer_readable body_size);
    if negb ok then fail_readAll
    else
      let total' := u32 (total - part_size) in
      r ← consume_part body_size;
      match r with
      | PartNext => mret (LoopNext (mkParserLocals (total' =? 4) total'))
      | PartBreak => mret (LoopReturn true)
      | PartFail => fail_readAll
      end.

Definition parse_iteration (l : ParserLocals) : M (MessageBuffer * W) loop_ctl :=
  t ← (if readStartFromMainKey l then parse_main_key else mret (inl (total_size l)));
  match t with
  | inr r => mret r
  | inl total => parse_part total
  end.

Fixpoint parse_loop (fuel : nat) (l : ParserLocals) : M (MessageBuffer * W) bool :=
  match fuel with
  | O => no_fuel
  | S fuel' =>
      r ← parse_iteration l;
      match r with
      | LoopNext l' => parse_loop fuel' l'
      | LoopReturn b => mret b
      end
  end.

(** The whole function: every iteration that goes on has taken a part key
    out of the buffer, so the number of bytes at the start bounds the number
    of iterations. *)
Definition run_parser : M (MessageBuffer * W) bool :=
  n ← on_fst MessageBuffer_size;
  parse_loop (S (Z.to_nat n)) (mkParserLocals true 0).
End Loop.

(** ** Copying the body into a local buffer

    All parsers but the encrypted branch consume a part by copying its body
    into a fresh [MessageBuffer procMsg] and handing that to a handler. *)
Section CopyBody.
Context `{FreshMemory} {W : Type}.

(** [handle] works on [procMsg] and the world. *)
Context (handle : Z → M (MessageBuffer * W) part_ctl).

(** [msg->read(procMsg.enableBuffer(), n); procMsg.write(n);] *)
Definition copy_to_procMsg (n : Z) : M (MessageBuffer * W) MessageBuffer :=
  body ← on_fst (MessageBuffer_read_to n);
  r ← local_only MessageBuffer_new
        (b ← get_state;
         mb_store (MessageBuffer_enableBuffer b) body;;
         MessageBuffer_write n);
  mret (fst r).

Definition consume_copied (n : Z) : M (MessageBuffer * W) part_ctl :=
  procMsg ← copy_to_procMsg n;
  r ← on_snd (with_local procMsg (handle n));
  mret (snd r).

(** [procMsg] once the body is in. *)
Definition procMsg_of (body : list byte) : MessageBuffer :=
  set_mb_write (zlen body)
    (set_mb_buffer (zsplice 0 body (mb_buffer MessageBuffer_new)) MessageBuffer_new).

(** ** Reference semantics: what a sequence of bodies does to the world *)
Definition handle_body (body : list byte) : M W part_ctl :=
  r ← with_local (procMsg_of body) (handle (zlen body));
  mret (snd r).
End CopyBody.

(** The bodies one after the other until one is refused: [sem] is what
    consuming one body does to the world. *)
Fixpoint run_bodies {W} (sem : list byte → M W part_ctl) (bodies : list (list byte))
    : M W part_ctl :=
  match bodies with
  | [] => mret PartNext
  | body :: rest =>
      r ← sem body;
      match r with
      | PartNext => run_bodies sem rest
      | r => mret r
      end
  end.

(** The contract between the loop and the code that consumes a body: it takes
    exactly the body out of the received buffer, and what it does to the world
    depends on the body alone. *)
Definition consumes {W} (consume_part : Z → M (MessageBuffer * W) part_ctl)
    (sem : list byte → M W part_ctl) : Prop :=
  ∀ b w body rest, mb_wf b → mb_content b = body ++ rest →
    ∃ b', mb_wf b' ∧ mb_content b' = rest
      ∧ consume_part (zlen body) (b, w) = map_state (λ w', (b', w')) (sem body w).

(** Neither undefined behaviour nor lack of fuel, and a final state in [I]. *)
Definition safe_in {S A} (I : S → Prop) (o : outcome S A) : Prop :=
  match o with Done s _ | Threw s _ => I s | Undef _ | NoFuel => False end.

(** The end of a stream that does not hold a whole packet. *)
Definition incomplete (rules : HeaderRules) (rest : list byte) : Prop :=
  let mainKey := s32 (le_combine (take 4 rest)) in
  zlen rest < sizeof_HEADER
  ∨ main_key_ok rules mainKey = true ∧ zlen rest < main_total_size rules mainKey.

(** The bytes of a packet with several parts. *)
Section Packets.
Context {rules : HeaderRules} {manip : MsgUserManip} `{!HeaderCodec rules manip}.

Definition part_bytes (body : list byte) : list byte :=
  le32 (codec_part (rules := rules) (manip := manip) (zlen body)) ++ body.
Definition parts_bytes (bodies : list (list byte)) : list byte :=
  concat (part_bytes <$> bodies).
Definition packet_bytes (bodies : list (list byte)) : list byte :=
  le32 (codec_main (rules := rules) (manip := manip) (zlen (parts_bytes bodies) - 4))
  ++ parts_bytes bodies.
Definition stream_bytes (packets : list (list (list byte))) : list byte :=
  concat (packet_bytes <$> packets).
End Packets.

(** [packetCode]: an [int32_t] that stays 0 when the body is too short. *)
Definition packetCode_int32 : M MessageBuffer Z :=
  r ← MessageBuffer_readable_to 4;
  mret (match r with Some bs => s32 (le_combine bs) | None => 0 end).

(** The outcome of a parser, given what the reference semantics says: the
    world is the same, the result tells whether a body was refused, and the
    received buffer then holds [rest], or nothing after a refusal; after an
    exception it holds some well-formed content. *)
Definition parser_agrees {W} (o : outcome (MessageBuffer * W) bool)
    (ref : outcome W part_ctl) (rest : list byte) : Prop :=
  match ref with
  | Done w PartNext =>
      ∃ b, o = Done (b, w) true ∧ mb_wf b ∧ mb_content b = rest
  | Done w PartBreak => ∃ b, o = Done (b, w) true ∧ mb_wf b
  | Done w PartFail =>
      ∃ b, o = Done (b, w) false ∧ mb_wf b ∧ mb_content b = []
  | Threw w e => ∃ b, o = Threw (b, w) e ∧ mb_wf b
  | Undef why => o = Undef why
  | NoFuel => o = NoFuel
  end.

(** What [parse_part] makes of the outcome of consuming the body. *)
Definition part_result {W} (b : MessageBuffer) (total' : Z) (o : outcome W part_ctl)
    : outcome (MessageBuffer * W) loop_ctl :=
  match o with
  | Done w PartNext => Done (b, w) (LoopNext (mkParserLocals (total' =? 4) total'))
  | Done w PartBreak => Done (b, w) (LoopReturn true)
  | Done w PartFail => fail_readAll (b, w)
  | Threw w e => Threw (b, w) e
  | Undef why => Undef why
  | NoFuel => NoFuel
  end.

(** ** Copying *)
Section CopyLemmas.
Context `{FreshMemory} {W : Type}.

Lemma procMsg_of_wf body :
  zlen body ≤ MAX_BUFFER_SIZE →
  mb_wf (procMsg_of body) ∧ mb_content (procMsg_of body) = body.
Proof.
  intros Hb. pose proof (fresh_wf None) as Hwf.
  destruct (append_spec _ body Hwf Hb) as (_ & Hwf' & Hc'). by split.
Qed.

Lemma copy_to_procMsg_spec b (w : W) body rest :
  mb_wf b → mb_content b = body ++ rest →
  ∃ b', mb_wf b' ∧ mb_content b' = rest
    ∧ copy_to_procMsg (zlen body) (b, w) = Done (b', w) (procMsg_of body).
Proof.
  intros Hwf Hc. pose proof (mb_content_bound b Hwf) as Hb.
  rewrite Hc, zlen_app in Hb. pose proof (zlen_nonneg rest). pose proof (zlen_nonneg body).
  destruct (read_to_spec b (zlen body) Hwf) as (b' & E & Hwf' & Hc' & _).
  { rewrite Hc, zlen_app. lia. }
  rewrite Hc in E, Hc'. rewrite take_app_zlen in E by done. rewrite drop_app_zlen in Hc' by done.
  exists b'. split_and!; [done..|].
  unfold copy_to_procMsg. run_step. rewrite on_fst_run, E. run_step.
  destruct (append_spec _ body (fresh_wf None) ltac:(simpl; lia)) as (E1 & _ & _).
  unfold local_only. run_step. change (MessageBuffer_enableBuffer _) with (mb_write (raw_MessageBuffer None)).
  unfold MessageBuffer_new. rewrite E1. run_step.
  unfold MessageBuffer_write, MessageBuffer_size. run_step.
  change (mb_size (set_mb_buffer _ _)) with (mb_size (raw_MessageBuffer None)).
  rewrite write_guard by (apply fresh_wf || unfold MAX_BUFFER_SIZE in *; lia).
  rewrite fresh_content, zlen_nil, (proj2 (Z.ltb_ge _ _)) by lia.
  by rewrite advance_write_spec by (simpl; lia).
Qed.

Lemma consume_copied_consumes (handle : Z → M (MessageBuffer * W) part_ctl) :
  consumes (consume_copied handle) (handle_body handle).
Proof.
  intros b w body rest Hwf Hc.
  destruct (copy_to_procMsg_spec b w body rest Hwf Hc) as (b' & Hwf' & Hc' & E).
  exists b'. split_and!; [done..|].
  unfold consume_copied. run_with E. run_step. rewrite on_snd_run.
  unfold handle_body. run_step. by destruct (with_local _ _ w).
Qed.
End CopyLemmas.

(** ** The loop on one iteration *)
Section LoopLemmas.
Context {W : Type} (rules : HeaderRules).
Context (consume_part : Z → M (MessageBuffer * W) part_ctl).
Context (sem : list byte → M W part_ctl) (Hconsume : consumes consume_part sem).

Lemma fail_readAll_run b (w : W) :
  mb_wf b → ∃ b', fail_readAll (b, w) = Done (b', w) (LoopReturn false)
    ∧ mb_wf b' ∧ mb_content b' = [].
Proof.
  intros Hwf. destruct (readAll_spec b Hwf) as (b' & E & Hwf' & Hc' & _).
  exists b'. split; [|done]. unfold fail_readAll. run_step. by rewrite on_fst_run, E.
Qed.

Lemma parse_main_key_stop b (w : W) :
  mb_wf b → incomplete rules (mb_content b) →
  parse_main_key rules (b, w) = Done (b, w) (inr (LoopReturn true)).
Proof.
  intros Hwf Hinc. unfold parse_main_key. run_step.
  rewrite on_fst_run, readable_to_spec by (done || unfold sizeof_HEADER; lia).
  destruct (Z.leb_spec sizeof_HEADER (zlen (mb_content b))) as [H8|H8]; [|done].
  destruct Hinc as [?|[Hok Hlt]]; [lia|]. run_step.
  rewrite take_take. replace (4 `min` Z.to_nat sizeof_HEADER)%nat with 4%nat by done.
  rewrite Hok. simpl. run_step. rewrite on_fst_run, readable_spec by done. run_step.
  by rewrite (proj2 (Z.leb_gt _ _)) by done.
Qed.

(** A main key that is refused, or one whose packet is there. *)
Lemma parse_main_key_refused b (w : W) :
  mb_wf b → sizeof_HEADER ≤ zlen (mb_content b) →
  main_key_ok rules (s32 (le_combine (take 4 (mb_content b)))) = false →
  ∃ b', parse_main_key rules (b, w) = Done (b', w) (inr (LoopReturn false))
    ∧ mb_wf b' ∧ mb_content b' = [].
Proof.
  intros Hwf H8 Hbad. unfold parse_main_key. run_step.
  rewrite on_fst_run, readable_to_spec by (done || unfold sizeof_HEADER; lia).
  rewrite (proj2 (Z.leb_le _ _)) by done. run_step.
  rewrite take_take. replace (4 `min` Z.to_nat sizeof_HEADER)%nat with 4%nat by done.
  rewrite Hbad. simpl. run_step.
  destruct (fail_readAll_run b w Hwf) as (b' & E & ?). exists b'. by rewrite E.
Qed.

Lemma parse_main_key_next b (w : W) :
  mb_wf b → sizeof_HEADER ≤ zlen (mb_content b) →
  let k := s32 (le_combine (take 4 (mb_content b))) in
  main_key_ok rules k = true → main_total_size rules k ≤ zlen (mb_content b) →
  ∃ b', parse_main_key rules (b, w) = Done (b', w) (inl (main_total_size rules k))
    ∧ mb_wf b' ∧ mb_content b' = drop 4 (mb_content b).
Proof.
  intros Hwf H8 k Hok Htot. unfold parse_main_key. run_step.
  rewrite on_fst_run, readable_to_spec by (done || unfold sizeof_HEADER; lia).
  rewrite (proj2 (Z.leb_le _ _)) by done. run_step.
  rewrite take_take. replace (4 `min` Z.to_nat sizeof_HEADER)%nat with 4%nat by done.
  fold k. rewrite Hok. simpl. run_step. rewrite on_fst_run, readable_spec by done. run_step.
  rewrite (proj2 (Z.leb_le _ _)) by done. simpl. run_step.
  unfold sizeof_HEADER in H8.
  destruct (read_spec b 4 Hwf ltac:(lia)) as (b' & E & Hwf' & Hc' & _).
  rewrite on_fst_run, E. run_step. exists b'. done.
Qed.

(** The rest of an iteration, by what follows in the buffer. *)
Lemma parse_part_short b (w : W) total :
  mb_wf b → zlen (mb_content b) < 4 →
  parse_part rules consume_part total (b, w) = Threw (b, w) not_readable.
Proof.
  intros Hwf Hs. unfold parse_part. run_step. by rewrite on_fst_run, read_to_short.
Qed.

Lemma parse_part_run b w total k body rest :
  mb_wf b → mb_content b = k ++ body ++ rest → zlen k = 4 →
  part_key_ok rules (s32 (le_combine k)) = true →
  part_body_size rules (s32 (le_combine k)) = zlen body →
  ∃ b', mb_wf b' ∧ mb_content b' = rest
    ∧ parse_part rules consume_part total (b, w)
      = part_result b' (u32 (total - u32 (zlen body + 4))) (sem body w).
Proof.
  intros Hwf Hc Hk Hok Hsz. pose proof (zlen_nonneg body). pose proof (zlen_nonneg rest).
  destruct (read_to_spec b 4 Hwf) as (b1 & E & Hwf1 & Hc1 & _).
  { rewrite Hc. len. }
  rewrite Hc in E, Hc1.
  rewrite take_app_zlen in E by done. rewrite drop_app_zlen in Hc1 by done.
  destruct (Hconsume b1 w body rest Hwf1 Hc1) as (b2 & Hwf2 & Hc2 & E2).
  exists b2. split_and!; [done..|].
  unfold parse_part. run_step. rewrite on_fst_run, E. run_step.
  rewrite Hok. simpl. run_step. rewrite on_fst_run, readable_spec by done. run_step.
  rewrite Hc1, Hsz, (proj2 (Z.leb_le _ _)) by len. simpl. run_step. rewrite E2.
  unfold part_result. destruct (sem body w) as [w' []| | |]; reflexivity.
Qed.

(** A part key that is refused, or a body that is not all there. *)
Lemma parse_part_refused b w total :
  mb_wf b → 4 ≤ zlen (mb_content b) →
  let k := s32 (le_combine (take 4 (mb_content b))) in
  part_key_ok rules k = false ∨ zlen (mb_content b) - 4 < part_body_size rules k →
  ∃ b', parse_part rules consume_part total (b, w) = Done (b', w) (LoopReturn false)
    ∧ mb_wf b' ∧ mb_content b' = [].
Proof.
  intros Hwf H4 k Hbad.
  destruct (read_to_spec b 4 Hwf ltac:(lia)) as (b1 & E & Hwf1 & Hc1 & _).
  destruct (fail_readAll_run b1 w Hwf1) as (b' & E' & ?).
  exists b'. split; [|done].
  unfold parse_part. run_step. rewrite on_fst_run, E. run_step.
  change (Z.to_nat 4) with 4%nat. fold k.
  destruct (part_key_ok rules k) eqn:Hok; simpl; [|by rewrite E'].
  destruct Hbad as [?|Hlt]; [done|].
  run_step. rewrite on_fst_run, readable_spec by done. run_step.
  rewrite Hc1, zlen_drop by lia. rewrite (proj2 (Z.leb_gt _ _)) by lia. simpl. by rewrite E'.
Qed.

Lemma parse_loop_S fuel l s :
  parse_loop rules consume_part (S fuel) l s
  = bind_outcome (parse_iteration rules consume_part l s) (λ s' r,
      match r with
      | LoopNext l' => parse_loop rules consume_part fuel l' s'
      | LoopReturn res => Done s' res
      end).
Proof. cbn [parse_loop]. rewrite bind_run. by destruct (parse_iteration _ _ _ _) as [? []| | |]. Qed.

Lemma parse_iteration_part total s :
  parse_iteration rules consume_part (mkParserLocals false total) s
  = parse_part rules consume_part total s.
Proof. reflexivity. Qed.

Lemma parse_iteration_main t s :
  parse_iteration rules consume_part (mkParserLocals true t) s
  = bind_outcome (parse_main_key rules s) (λ s' r,
      match r with
      | inl total => parse_part rules consume_part total s'
      | inr c => Done s' c
      end).
Proof.
  unfold parse_iteration. cbn [readStartFromMainKey]. rewrite bind_run.
  by destruct (parse_main_key _ _) as [? []| | |].
Qed.
End LoopLemmas.

(** ** Streams of packets *)
Section Stream.
Context {W : Type} {rules : HeaderRules} {manip : MsgUserManip} `{!HeaderCodec rules manip}.
Context (consume_part : Z → M (MessageBuffer * W) part_ctl).
Context (sem : list byte → M W part_ctl) (Hconsume : consumes consume_part sem).

Lemma zlen_part_bytes body : zlen (part_bytes body) = zlen body + 4.
Proof. unfold part_bytes. len. Qed.

Lemma parts_bytes_cons body bodies :
  parts_bytes (body :: bodies) = part_bytes body ++ parts_bytes bodies.
Proof. reflexivity. Qed.

Lemma zlen_parts_bytes_ge bodies : 4 * Z.of_nat (length bodies) ≤ zlen (parts_bytes bodies).
Proof.
  induction bodies as [|body bodies IH]; [done|].
  rewrite parts_bytes_cons, zlen_app, zlen_part_bytes. simpl length.
  pose proof (zlen_nonneg body). lia.
Qed.

Lemma stream_bytes_cons p ps : stream_bytes (p :: ps) = packet_bytes p ++ stream_bytes ps.
Proof. reflexivity. Qed.

Lemma packet_bytes_single body : packet_bytes [body] = frame body.
Proof.
  unfold packet_bytes, frame. rewrite parts_bytes_cons, zlen_app, zlen_part_bytes.
  change (parts_bytes []) with (@nil byte). rewrite zlen_nil, app_nil_r.
  unfold part_bytes. by replace (zlen body + 4 + 0 - 4) with (zlen body) by lia.
Qed.

(** The main key of a packet that is all in the buffer. *)
Lemma parse_main_key_packet b (w : W) bodies rest :
  mb_wf b → bodies ≠ [] → mb_content b = packet_bytes bodies ++ rest →
  ∃ b', parse_main_key rules (b, w) = Done (b', w) (inl (zlen (parts_bytes bodies) + 4))
    ∧ mb_wf b' ∧ mb_content b' = parts_bytes bodies ++ rest.
Proof.
  intros Hwf Hne Hc. pose proof (mb_content_bound b Hwf) as Hb.
  pose proof (zlen_parts_bytes_ge bodies) as Hge. pose proof (zlen_nonneg rest).
  destruct bodies as [|body0 bodies0] eqn:Eb; [done|]. rewrite <- Eb in *. clear Hne.
  assert (Hlen : 1 ≤ Z.of_nat (length bodies)) by (rewrite Eb; simpl; lia). clear Eb.
  unfold packet_bytes in Hc. rewrite <- app_assoc in Hc.
  set (n := zlen (parts_bytes bodies) - 4) in *.
  assert (Hcl : zlen (mb_content b) = 4 + (zlen (parts_bytes bodies) + zlen rest))
    by (rewrite Hc; len).
  assert (Hk : take 4 (mb_content b) = le32 (codec_main n)).
  { rewrite Hc. by apply (take_app_zlen _ _ 4). }
  destruct (codec_main_ok n) as [Hok Htot]; [lia|].
  edestruct (parse_main_key_next rules b w Hwf) as (b' & E & Hwf' & Hc').
  - unfold sizeof_HEADER. lia.
  - by rewrite Hk, le_combine_le32.
  - rewrite Hk, le_combine_le32, Htot. lia.
  - rewrite Hk, le_combine_le32, Htot in E. exists b'. split_and!; [|done|].
    + rewrite E. do 2 f_equal. lia.
    + rewrite Hc', Hc. by apply (drop_app_zlen _ _ 4).
Qed.

(** One part: after its body is consumed the loop knows whether the next
    iteration starts with a main key. *)
Lemma parse_part_packet b w body bodies rest :
  mb_wf b → mb_content b = parts_bytes (body :: bodies) ++ rest →
  ∃ b', mb_wf b' ∧ mb_content b' = parts_bytes bodies ++ rest
    ∧ parse_part rules consume_part (zlen (parts_bytes (body :: bodies)) + 4) (b, w)
      = part_result b' (zlen (parts_bytes bodies) + 4) (sem body w).
Proof.
  intros Hwf Hc. pose proof (mb_content_bound b Hwf) as Hb.
  rewrite parts_bytes_cons, <- app_assoc in Hc. unfold part_bytes in Hc.
  rewrite <- app_assoc in Hc.
  pose proof (zlen_nonneg rest). pose proof (zlen_nonneg (parts_bytes bodies)).
  pose proof (zlen_nonneg body).
  assert (Hbound : zlen body + zlen (parts_bytes bodies) ≤ MAX_BUFFER_SIZE - 4)
    by (rewrite Hc in Hb; len).
  unfold MAX_BUFFER_SIZE in *.
  destruct (codec_part_ok (zlen body)) as [Hok Hsz]; [unfold MAX_BUFFER_SIZE; lia|].
  destruct (parse_part_run rules consume_part sem Hconsume b w
              (zlen (parts_bytes (body :: bodies)) + 4) _ body (parts_bytes bodies ++ rest) Hwf Hc)
    as (b' & Hwf' & Hc' & E); rewrite ?zlen_le32, ?le_combine_le32; [done..|].
  exists b'. split_and!; [done..|]. rewrite E. f_equal.
  rewrite parts_bytes_cons, zlen_app, zlen_part_bytes.
  rewrite (u32_small (zlen body + 4)) by lia. rewrite u32_small; lia.
Qed.

Lemma part_result_agrees (b : MessageBuffer) total' (o : outcome W part_ctl) rest
    (k : W → outcome W part_ctl) (go : ParserLocals → M (MessageBuffer * W) bool) :
  mb_wf b →
  (∀ w, o = Done w PartNext →
     parser_agrees (go (mkParserLocals (total' =? 4) total') (b, w)) (k w) rest) →
  parser_agrees
    (bind_outcome (part_result b total' o) (λ s r,
       match r with LoopNext l => go l s | LoopReturn res => Done s res end))
    (bind_outcome o (λ w r, match r with PartNext => k w | r => Done w r end)) rest.
Proof.
  intros Hwf Hgo. destruct o as [w []|w e| |]; cbn [part_result bind_outcome].
  - by apply Hgo.
  - by exists b.
  - destruct (fail_readAll_run b w Hwf) as (b' & -> & ?). by exists b'.
  - by exists b.
  - done.
  - done.
Qed.

Lemma run_bodies_cons body bodies w :
  run_bodies sem (body :: bodies) w
  = bind_outcome (sem body w) (λ w' r,
      match r with PartNext => run_bodies sem bodies w' | r => Done w' r end).
Proof. cbn [run_bodies]. rewrite bind_run. by destruct (sem body w) as [? []| | |]. Qed.

(** The state of the loop when the parts [bodies] of the current packet are
    still in the buffer. *)
Definition locals_at (l : ParserLocals) (bodies : list (list byte)) : Prop :=
  match bodies with
  | [] => readStartFromMainKey l = true
  | _ => l = mkParserLocals false (zlen (parts_bytes bodies) + 4)
  end.

Lemma locals_at_next bodies :
  locals_at (mkParserLocals (zlen (parts_bytes bodies) + 4 =? 4) (zlen (parts_bytes bodies) + 4))
    bodies.
Proof.
  destruct bodies as [|body bodies]; [done|]. unfold locals_at. f_equal. apply Z.eqb_neq.
  pose proof (zlen_parts_bytes_ge (body :: bodies)). cbn [length] in *. lia.
Qed.

Lemma parse_loop_stream n : ∀ fuel l bodies packets b w rest,
  length (bodies ++ concat packets) = n → (n < fuel)%nat →
  Forall (λ p, p ≠ []) packets → locals_at l bodies → incomplete rules rest →
  mb_wf b → mb_content b = parts_bytes bodies ++ stream_bytes packets ++ rest →
  parser_agrees (parse_loop rules consume_part fuel l (b, w))
    (run_bodies sem (bodies ++ concat packets) w) rest.
Proof.
  induction n as [n IH] using lt_wf_ind. intros fuel l bodies packets b w rest
    Hn Hfuel Hne Hl Hinc Hwf Hc.
  destruct fuel as [|fuel]; [lia|]. rewrite parse_loop_S.
  (* a pending part, whichever way the iteration reached it *)
  assert (Hpart : ∀ body bs ps b1,
    length ((body :: bs) ++ concat ps) = n → Forall (λ p, p ≠ []) ps →
    mb_wf b1 → mb_content b1 = parts_bytes (body :: bs) ++ stream_bytes ps ++ rest →
    parser_agrees
      (bind_outcome (parse_part rules consume_part (zlen (parts_bytes (body :: bs)) + 4) (b1, w))
         (λ s r, match r with
                 | LoopNext l => parse_loop rules consume_part fuel l s
                 | LoopReturn res => Done s res end))
      (run_bodies sem ((body :: bs) ++ concat ps) w) rest).
  { intros body bs ps b1 Hn1 Hne1 Hwf1 Hc1.
    destruct (parse_part_packet b1 w body bs _ Hwf1 Hc1) as (b2 & Hwf2 & Hc2 & ->).
    cbn [app]. rewrite run_bodies_cons. cbn [app length] in Hn1.
    apply part_result_agrees; [done|]. intros w' _.
    eapply IH; [|reflexivity|..]; [lia|lia|done|apply locals_at_next|done..]. }
  destruct bodies as [|body bs].
  - destruct l as [st t]. simpl in Hl. subst st. rewrite parse_iteration_main.
    destruct packets as [|p ps].
    + change (mb_content b = rest) in Hc.
      rewrite parse_main_key_stop by (done || by rewrite Hc). simpl. by exists b.
    + apply Forall_cons in Hne as [Hp Hps].
      change (mb_content b = stream_bytes (p :: ps) ++ rest) in Hc.
      rewrite stream_bytes_cons, <- app_assoc in Hc.
      destruct (parse_main_key_packet b w p _ Hwf Hp Hc) as (b1 & -> & Hwf1 & Hc1). simpl.
      destruct p as [|body bs]; [done|]. by apply Hpart.
  - simpl in Hl. subst l. rewrite parse_iteration_part. by apply Hpart.
Qed.

Lemma length_stream_bytes packets :
  Z.of_nat (length (concat packets)) ≤ zlen (stream_bytes packets).
Proof.
  induction packets as [|p ps IH]; [done|]. rewrite stream_bytes_cons.
  simpl concat. unfold packet_bytes. rewrite !zlen_app, length_app, zlen_le32.
  pose proof (zlen_parts_bytes_ge p). lia.
Qed.

Lemma run_parser_stream packets rest b w :
  Forall (λ p, p ≠ []) packets → incomplete rules rest →
  mb_wf b → mb_content b = stream_bytes packets ++ rest →
  parser_agrees (run_parser rules consume_part (b, w))
    (run_bodies sem (concat packets) w) rest.
Proof.
  intros Hne Hinc Hwf Hc. unfold run_parser. run_step. rewrite on_fst_run.
  unfold MessageBuffer_size. run_step. rewrite mb_size_content by done.
  apply (parse_loop_stream (length ([] ++ concat packets)) _ _ [] packets); try done.
  pose proof (length_stream_bytes packets). pose proof (zlen_nonneg rest).
  rewrite Hc, zlen_app. simpl app. lia.
Qed.
End Stream.

(** ** Arbitrary input *)
Section Safety.
Context {W : Type} (rules : HeaderRules) (Hrules : ∀ k, 0 ≤ part_body_size rules k).
Context (consume_part : Z → M (MessageBuffer * W) part_ctl).
Context (sem : list byte → M W part_ctl) (Hconsume : consumes consume_part sem).
Context (I : W → Prop) (Hsem : ∀ body w, I w → zlen body ≤ MAX_BUFFER_SIZE → safe_in I (sem body w)).

(** An iteration on any content stays inside the buffer, and goes on only
    after it has taken at least a part key. *)
Definition iteration_ok (n : Z) (o : outcome (MessageBuffer * W) loop_ctl) : Prop :=
  match o with
  | Done (b, w) (LoopNext _) => mb_wf b ∧ I w ∧ zlen (mb_content b) + 4 ≤ n
  | Done (b, w) (LoopReturn _) => mb_wf b ∧ I w
  | Threw (b, w) _ => mb_wf b ∧ I w
  | Undef _ | NoFuel => False
  end.

Lemma iteration_ok_le n m o : iteration_ok n o → n ≤ m → iteration_ok m o.
Proof. destruct o as [[b w] []|[b w] e| |]; simpl; intuition lia. Qed.

Lemma parse_part_ok b w total :
  mb_wf b → I w →
  iteration_ok (zlen (mb_content b)) (parse_part rules consume_part total (b, w)).
Proof.
  intros Hwf HI. destruct (Z.lt_ge_cases (zlen (mb_content b)) 4) as [Hs|H4].
  { by rewrite parse_part_short. }
  set (k := take 4 (mb_content b)). set (n := part_body_size rules (s32 (le_combine k))).
  assert (Hrefused : part_key_ok rules (s32 (le_combine k)) = false ∨ zlen (mb_content b) - 4 < n
    → iteration_ok (zlen (mb_content b)) (parse_part rules consume_part total (b, w))).
  { intros Hbad. destruct (parse_part_refused rules consume_part b w total Hwf H4 Hbad)
      as (b' & -> & ? & ?). done. }
  destruct (part_key_ok rules (s32 (le_combine k))) eqn:Hok; [|by apply Hrefused; left].
  destruct (Z.lt_ge_cases (zlen (mb_content b) - 4) n) as [Hlt|Hge]; [by apply Hrefused; right|].
  clear Hrefused. pose proof (Hrules (s32 (le_combine k))) as Hn0. fold n in Hn0.
  assert (Hk : zlen k = 4) by (apply (zlen_take 4); lia).
  set (tl := drop 4 (mb_content b)).
  assert (Htl : zlen tl = zlen (mb_content b) - 4) by (apply (zlen_drop 4); lia).
  destruct (parse_part_run rules consume_part sem Hconsume b w total k
              (take (Z.to_nat n) tl) (drop (Z.to_nat n) tl)) as (b' & Hwf' & Hc' & ->); try done.
  { unfold k, tl. by rewrite !take_drop. }
  { rewrite zlen_take; [done|lia]. }
  assert (Hlen : zlen (mb_content b') = zlen tl - n) by (rewrite Hc', zlen_drop; lia).
  pose proof (mb_content_bound b Hwf) as Hbound.
  assert (Hs : safe_in I (sem (take (Z.to_nat n) tl) w))
    by (apply Hsem; [done|]; rewrite zlen_take; lia).
  destruct (sem _ w) as [w' []|w' e| |]; try done; cbn [part_result].
  - cbn [iteration_ok]. split_and!; [done|done|lia].
  - destruct (fail_readAll_run b' w' Hwf') as (b2 & -> & ? & ?). done.
Qed.

Lemma parse_iteration_ok l b w :
  mb_wf b → I w → iteration_ok (zlen (mb_content b)) (parse_iteration rules consume_part l (b, w)).
Proof.
  intros Hwf HI. destruct l as [[] t]; [|by apply parse_part_ok].
  rewrite parse_iteration_main.
  destruct (Z.lt_ge_cases (zlen (mb_content b)) sizeof_HEADER) as [H8|H8].
  { rewrite parse_main_key_stop; [done..|by left]. }
  destruct (main_key_ok rules (s32 (le_combine (take 4 (mb_content b))))) eqn:Hok.
  - destruct (Z.lt_ge_cases (zlen (mb_content b))
      (main_total_size rules (s32 (le_combine (take 4 (mb_content b)))))) as [Hlt|Hge].
    + rewrite parse_main_key_stop; [done..|by right].
    + destruct (parse_main_key_next rules b w Hwf H8 Hok Hge) as (b' & -> & Hwf' & Hc').
      cbn [bind_outcome]. eapply iteration_ok_le; [by apply parse_part_ok|].
      unfold sizeof_HEADER in H8. rewrite Hc', (zlen_drop 4); lia.
  - destruct (parse_main_key_refused rules b w Hwf H8 Hok) as (b' & -> & ? & ?). done.
Qed.

Definition parser_total (o : outcome (MessageBuffer * W) bool) : Prop :=
  match o with
  | Done (b, w) _ | Threw (b, w) _ => mb_wf b ∧ I w
  | Undef _ | NoFuel => False
  end.

Lemma parse_loop_total fuel : ∀ l b w,
  mb_wf b → I w → zlen (mb_content b) < Z.of_nat fuel →
  parser_total (parse_loop rules consume_part fuel l (b, w)).
Proof.
  induction fuel as [|fuel IH]; intros l b w Hwf HI Hf.
  { pose proof (zlen_nonneg (mb_content b)). lia. }
  rewrite parse_loop_S. pose proof (parse_iteration_ok l b w Hwf HI) as Hit.
  destruct (parse_iteration _ _ l (b, w)) as [[b' w'] [l'|]|[b' w'] e| |]; try done.
  destruct Hit as (Hwf' & HI' & Hlen). apply IH; [done|done|lia].
Qed.

Lemma run_parser_total b w :
  mb_wf b → I w → parser_total (run_parser rules consume_part (b, w)).
Proof.
  intros Hwf HI. unfold run_parser. run_step. rewrite on_fst_run.
  unfold MessageBuffer_size. run_step. rewrite mb_size_content by done.
  apply parse_loop_total; [done|done|]. pose proof (zlen_nonneg (mb_content b)). lia.
Qed.
End Safety.

(** ** Refusals *)
Section Refusals.
Context {W : Type} (rules : HeaderRules).
Context (consume_part : Z → M (MessageBuffer * W) part_ctl).
Context (sem : list byte → M W part_ctl) (Hconsume : consumes consume_part sem).

Lemma run_parser_bad_main_key b w :
  mb_wf b → sizeof_HEADER ≤ zlen (mb_content b) →
  main_key_ok rules (s32 (le_combine (take 4 (mb_content b)))) = false →
  ∃ b', run_parser rules consume_part (b, w) = Done (b', w) false ∧ mb_content b' = [].
Proof.
  intros Hwf H8 Hbad. unfold run_parser. run_step. rewrite on_fst_run.
  unfold MessageBuffer_size. run_step. rewrite mb_size_content by done.
  rewrite parse_loop_S, parse_iteration_main.
  destruct (parse_main_key_refused rules b w Hwf H8 Hbad) as (b' & -> & ? & ?). by exists b'.
Qed.

(** A packet whose main key announces [total] bytes, but whose first part
    already takes all the bytes that are there: the next iteration reads a
    part key from the empty buffer and the exception leaves the parser. *)
Lemma run_parser_short_total b w mk pk body w' total :
  let m := s32 (le_combine mk) in
  let p := s32 (le_combine pk) in
  mb_wf b → zlen mk = 4 → zlen pk = 4 → mb_content b = mk ++ pk ++ body →
  main_key_ok rules m = true → main_total_size rules m = total →
  total ≤ zlen body + 8 → u32 (total - u32 (zlen body + 4)) ≠ 4 →
  part_key_ok rules p = true → part_body_size rules p = zlen body →
  sem body w = Done w' PartNext →
  ∃ b', run_parser rules consume_part (b, w) = Threw (b', w') not_readable
    ∧ mb_content b' = [].
Proof.
  intros m p Hwf Hmk Hpk Hc Hok Htot Hle Hne Hpok Hpsz Hsem.
  pose proof (zlen_nonneg body). subst m p.
  assert (H4 : take 4 (mb_content b) = mk) by (rewrite Hc; by apply (take_app_zlen _ _ 4)).
  unfold run_parser. run_step. rewrite on_fst_run.
  unfold MessageBuffer_size. run_step. rewrite mb_size_content by done.
  rewrite parse_loop_S, parse_iteration_main.
  destruct (parse_main_key_next rules b w Hwf) as (b1 & E1 & Hwf1 & Hc1);
    rewrite ?H4, ?Htot; try done.
  { rewrite Hc. unfold sizeof_HEADER. len. }
  { rewrite Hc. len. }
  rewrite E1, H4, Htot. cbn [bind_outcome].
  assert (Hd : drop 4 (mb_content b) = pk ++ body ++ []).
  { rewrite Hc, app_nil_r. by apply (drop_app_zlen _ _ 4). }
  rewrite Hd in Hc1.
  destruct (parse_part_run rules consume_part sem Hconsume b1 w total pk body [] Hwf1 Hc1 Hpk
              Hpok Hpsz) as (b2 & Hwf2 & Hc2 & ->).
  rewrite Hsem. cbn [part_result bind_outcome].
  rewrite (proj2 (Z.eqb_neq _ _)) by done.
  assert (Hfuel : Z.to_nat (zlen (mb_content b)) = S (Z.to_nat (zlen (mb_content b) - 1))).
  { rewrite Hc. len. }
  rewrite Hfuel, parse_loop_S, parse_iteration_part, parse_part_short; [|done|].
  - by exists b2.
  - by rewrite Hc2.
Qed.
End Refusals.
