(* ===== verification/PacketParserSimple.v ===== *)
(** * The simple packet parsers

    Models net/packetParserSimple.cpp ([SIMPLE_PACKET_PARSING_SUPPORT]): the
    parser that may decrypt, the one that does not, and the unimplemented
    "performanced" one; all dispatch on the packet code through the handler
    maps of the [MessageProcedure].  The encrypted branch is shared with
    [JSON_PACKET_PARSING_SUPPORT::packetParser]. *)
From stdpp Require Import list strings gmap.
From coqutil Require Import Byte Word.LittleEndianList.
From S2P Require Import Prelude.
From S2P Require Import MessageBuffer.
From S2P Require Import PacketHeader.
From S2P Require Import Connection.
From S2P Require Import MessageProcedure.
From S2P Require Import PacketParser.
#[local] Open Scope Z_scope.

Section SimpleParsers.
Context `{FreshMemory} {W : Type} `{!Connection W} `{!ConnectionReceiver W}.

(** [spConn->getReceiver()->noHandler(spConn, procMsg)]. *)
Definition call_noHandler (spConn : ConnPtr) : M (MessageBuffer * W) unit :=
  er ← on_snd (conn_getReceiver spConn);
  call (er_noHandler er) spConn.

(** The dispatch on the packet code: member functions first, then static
    ones, then [noHandler] and the refusal of the packet. *)
Definition dispatch_maps (spConn : ConnPtr) (memberFuncMap staticFuncMap : msgMapTy W)
    (part_body_size : Z) : M (MessageBuffer * W) part_ctl :=
  packetCode ← on_fst packetCode_int32;
  match find_handler memberFuncMap (u32 packetCode) with
  | Some h => _ ← h spConn part_body_size; mret PartNext
  | None =>
      match find_handler staticFuncMap (u32 packetCode) with
      | Some h => _ ← h spConn part_body_size; mret PartNext
      | None => call_noHandler spConn;; mret PartFail
      end
  end.

(** The cipher entry in force: the user's, or [AES_128_CBC] by default. *)
Definition ciperData (msg_proc : HandlerTables W) : M (MessageBuffer * W) (encParameters W) :=
  if NOT_SET_CIPHER_VALUE =? getUserCipherType msg_proc
  then getCipherHandler msg_proc EncType.AES_128_CBC
  else getCipherHandler msg_proc (u8 (getUserCipherType msg_proc)).

(** A call of an empty [boost::function] throws [bad_function_call]. *)
Definition call_target {S A} (f : option A) : M S A :=
  match f with
  | Some g => mret g
  | None => throw (runtime_error "call to empty boost::function")
  end.

(** The part of [packetParser] between the header checks and the end of an
    iteration. *)
Definition consume_cipher (spConn : ConnPtr) (msg_proc : HandlerTables W)
    (memberFuncMap staticFuncMap : msgMapTy W) (part_body_size : Z)
    : M (MessageBuffer * W) part_ctl :=
  ciper ← ciperData msg_proc;
  match enc_init ciper with
  | Some cipherInitHandler =>
      sync ← on_snd (conn_isSyncEncryptionKey spConn (enc_type ciper));
      if negb sync then
        ok ← cipherInitHandler (enc_type ciper) None spConn part_body_size;
        if negb ok then mret PartFail
        else
          ok ← on_fst (MessageBuffer_readable part_body_size);
          if negb ok then mret PartFail
          else on_fst (MessageBuffer_read part_body_size);; mret PartNext
      else if EncType.GREETING =? enc_type ciper then
        consume_copied (dispatch_maps spConn memberFuncMap staticFuncMap) part_body_size
      else
        cipherDecHandler ← call_target (enc_dec ciper);
        r ← with_local MessageBuffer_new
              (cipherDecHandler (enc_type ciper) spConn part_body_size);
        let procMsg := fst r in
        on_fst (MessageBuffer_read part_body_size);;
        if mb_size procMsg =? 0 then mret PartBreak
        else
          r ← on_snd (with_local procMsg
                (dispatch_maps spConn memberFuncMap staticFuncMap part_body_size));
          mret (snd r)
  | None => consume_copied (dispatch_maps spConn memberFuncMap staticFuncMap) part_body_size
  end.

Definition simple_packetParser : customMessageParser W :=
  λ spConn msg_proc memberFuncMap staticFuncMap,
    run_parser simple_rules (consume_cipher spConn msg_proc memberFuncMap staticFuncMap).

Definition simple_packetParser_notUseEnc : customMessageParser W :=
  λ spConn _ memberFuncMap staticFuncMap,
    run_parser simple_rules
      (consume_copied (dispatch_maps spConn memberFuncMap staticFuncMap)).

Definition simple_packetParser_performanced : customMessageParser W :=
  λ _ _ _ _, mret false.
End SimpleParsers.

(** ** Lemmas *)
Section SimpleLemmas.
Context `{FreshMemory} {W : Type} `{!Connection W} `{!ConnectionReceiver W}.

Lemma packetCode_int32_run b :
  mb_wf b →
  packetCode_int32 b = Done b (if 4 <=? zlen (mb_content b)
                               then s32 (le_combine (take 4 (mb_content b))) else 0).
Proof.
  intros Hwf. unfold packetCode_int32. run_step. rewrite readable_to_spec by (done || lia).
  run_step. by destruct (_ <=? _).
Qed.

Lemma u32_packetCode_le32 code body :
  u32 (s32 (le_combine (take 4 (le32 code ++ body)))) = u32 code.
Proof.
  assert (take 4 (le32 code ++ body) = le32 code) as -> by (by apply (take_app_zlen _ _ 4)).
  rewrite le_combine_le32, u32_s32. unfold u32. by rewrite Zmod_mod.
Qed.

(** A body that starts with a registered code runs its handler. *)
Lemma dispatch_maps_static spConn m s body code n h (w : W) :
  zlen (le32 code ++ body) ≤ MAX_BUFFER_SIZE →
  find_handler m (u32 code) = None → find_handler s (u32 code) = Some h →
  dispatch_maps spConn m s n (procMsg_of (le32 code ++ body), w)
  = bind_outcome (h spConn n (procMsg_of (le32 code ++ body), w)) (λ st _, Done st PartNext).
Proof.
  intros Hlen Hm Hs. destruct (procMsg_of_wf _ Hlen) as [Hwf Hc].
  unfold dispatch_maps. run_step. rewrite on_fst_run, packetCode_int32_run by done.
  rewrite Hc, (proj2 (Z.leb_le _ _)) by len. run_step.
  by rewrite u32_packetCode_le32, Hm, Hs.
Qed.

Lemma dispatch_maps_member spConn m s body code n h (w : W) :
  zlen (le32 code ++ body) ≤ MAX_BUFFER_SIZE →
  find_handler m (u32 code) = Some h →
  dispatch_maps spConn m s n (procMsg_of (le32 code ++ body), w)
  = bind_outcome (h spConn n (procMsg_of (le32 code ++ body), w)) (λ st _, Done st PartNext).
Proof.
  intros Hlen Hm. destruct (procMsg_of_wf _ Hlen) as [Hwf Hc].
  unfold dispatch_maps. run_step. rewrite on_fst_run, packetCode_int32_run by done.
  rewrite Hc, (proj2 (Z.leb_le _ _)) by len. run_step.
  by rewrite u32_packetCode_le32, Hm.
Qed.

Lemma simple_rules_nonneg k : 0 ≤ part_body_size simple_rules k.
Proof. apply u32_bound. Qed.
Lemma json_rules_nonneg k : 0 ≤ part_body_size json_rules k.
Proof. apply u32_bound. Qed.
Lemma test_rules_nonneg k : 0 ≤ part_body_size test_rules k.
Proof. apply u32_bound. Qed.
End SimpleLemmas.
