(* ===== verification/BrokerConnector.v ===== *)
(** * The receiver of the connection to the broker

    Models lobbysvr/brokerConnector.cpp: the callbacks of the connector, the
    JSON requests the broker sends and their dispatch by URL.
    [NetServiceApi] is what [tryConnect] needs of the network services;
    [BrokerConnector::sendJsonPacket] is in LobbyUserManager.v, whose functions
    call it. *)
From stdpp Require Import gmap strings list.
From coqutil Require Import Byte.
From S2P Require Import Prelude.
From S2P Require Import MessageBuffer.
From S2P Require Import Connection.
From S2P Require Import EventReceiver.
From S2P Require Import MlnUtils.
From S2P Require Import Protocol.
From S2P Require Import Json.
From S2P Require Import LobbyState.
From S2P Require Import LobbyUser.
From S2P Require Import LobbyUserManager.
From S2P Require Import LobbyHandlers.
#[local] Open Scope Z_scope.

(** [CONNECTOR_INDEX] *)
Definition BROKER_CONNECTOR : Z := 0.

(** [NetService::getConnector] and [NetServiceConnector::connectWait]. *)
Class NetServiceApi (W : Type) : Type := {
  api_getConnector : Z → M W (option N);
  api_connectWait : N → Z → Z → M W unit
}.

(** A JSON request read from a buffer: the part of the two [readJsonPacket]
    functions that follows the header.  [read_body] is the [try] block: [None]
    when the body is not there. *)
Section Request.
Context `{FreshMemory} `{Jsoncpp} {W : Type}.

Definition read_body (n : Z) : M (MessageBuffer * W) (option (list byte)) :=
  try_catch (body ← on_fst (MessageBuffer_read_to n); mret (Some body)) (λ _, mret None).

(** The value a request holds, when its text is JSON; the call is outside of
    every [try]. *)
Definition parse_request {S} (text : list byte) : M S (option Value) :=
  match Reader_parse (bytes_string text) with
  | Parsed value => mret (Some value)
  | NotJson => mret None
  | TooDeep => throw too_deep
  end.
End Request.

Section Broker.
Context `{FreshMemory} `{Jsoncpp} {W : Type} `{!Connection W} `{!HasLobby W} `{!WeakConnection W}
  `{!LocalTime W} `{!NetServiceApi W}.

Definition BrokerConnector_tryConnect (sessionCnt additionalWorkingThreadsCnt : Z) : M W unit :=
  svcConnector ← api_getConnector BROKER_CONNECTOR;
  p ← deref "svcConnector is null" svcConnector;
  api_connectWait p (u16 sessionCnt) additionalWorkingThreadsCnt.

Definition BrokerConnector_onConnect (spConn : ConnPtr) : M W unit :=
  p ← new_object (OConnectorUser (ConnectorUser_new spConn));
  upd_lobby (set_m_user (Some p));;
  conn_setTag spConn (Some p);;
  with_json json_null
    (json_assign "test" (json_string "test");;
     _ ← ConnectorUser_SendJsonPacket p "/auth";
     mret tt).

(** [m_user] is deleted, not set to null. *)
Definition BrokerConnector_onClose (spConn : ConnPtr) : M W unit :=
  s ← get_lobby;
  match m_user s with
  | Some p => delete_object p
  | None => mret tt
  end;;
  conn_setTag spConn None;;
  BrokerConnector_tryConnect 1 0.

Definition BrokerConnector_noHandler (spConn : ConnPtr) : M (MessageBuffer * W) unit :=
  on_snd (conn_closeReserve spConn 0).
Definition BrokerConnector_onConnectFailed (spConn : ConnPtr) : M W unit :=
  BrokerConnector_tryConnect 1 0.
Definition BrokerConnector_onCloseFailed (spConn : ConnPtr) : M W unit := mret tt.
Definition BrokerConnector_onUpdate (elapse : Z) : M W unit := mret tt.
Definition BrokerConnector_onExpiredSession (spConn : ConnPtr) : M W unit :=
  conn_closeReserve spConn 0.

Definition BrokerConnector_initHandler (msgProc : MsgProcPtr) : M W unit :=
  let reg url h := upd_lobby (λ s, set_broker_URLs (<[url := h]> (broker_URLs s)) s) in
  reg "/auth" ConnectorHandler_auth;;
  reg "/loginedUser" ConnectorHandler_loginedUser;;
  reg "/isOnline" ConnectorHandler_isOnline;;
  reg "/chatSendMsg" ConnectorHandler_chatSendMsg;;
  reg "/chatReceiveMsg" ConnectorHandler_chatReceiveMsg.

(** Every exception of a handler is caught and logged. *)
Definition BrokerConnector_dispatch (conn : ConnPtr) (url : string) : M (Value * W) unit :=
  s ← on_snd get_lobby;
  match broker_URLs s !! url with
  | Some h => try_catch (run_broker_handler h conn url) (λ _, mret tt)
  | None => mret tt
  end.

Definition BrokerConnector_readJsonPacket (conn : ConnPtr) (size : Z)
    : M (MessageBuffer * W) unit :=
  req ← local_only BROKER_PROTOCOL.PT_JSON_raw BROKER_PROTOCOL.PT_JSON_init;
  head ← on_fst (MessageBuffer_read_to BROKER_PROTOCOL.HEAD_SIZE);
  req ← local_only (fst req) (memcpy_object BROKER_PROTOCOL.sizeof_PT_JSON head);
  let bodySize := load_uint BROKER_PROTOCOL.bodySize (fst req) in
  if (BROKER_PROTOCOL.MAX_BODY_SIZE <? bodySize) || (bodySize <=? 0) then mret tt
  else
    body ← read_body bodySize;
    match body with
    | None => mret tt
    | Some body =>
        req ← local_only (fst req) (memcpy_member BROKER_PROTOCOL.jsonBody 0 body);
        value ← parse_request (load_member BROKER_PROTOCOL.jsonBody bodySize (fst req));
        match value with
        | None => mret tt
        | Some value =>
            url ← string_of_array
                    (load_member BROKER_PROTOCOL.url BROKER_PROTOCOL.MAX_URL_STRING (fst req));
            on_snd (with_json value (BrokerConnector_dispatch conn url))
        end
    end.

(** The functions that [EventReceiverConnectorRegister<BrokerConnector>]
    takes the addresses of; the accept functions do not exist and are not
    instantiated. *)
Definition BrokerConnector_functions : StaticFunctionsClass W := {|
  sf_onAccept _ := undefined "BrokerConnector has no onAccept";
  sf_onAcceptFailed _ := undefined "BrokerConnector has no onAcceptFailed";
  sf_onConnect := BrokerConnector_onConnect;
  sf_onConnectFailed := BrokerConnector_onConnectFailed;
  sf_onClose := BrokerConnector_onClose;
  sf_onCloseFailed := BrokerConnector_onCloseFailed;
  sf_onExpiredSession := BrokerConnector_onExpiredSession;
  sf_onUpdate := BrokerConnector_onUpdate;
  sf_noHandler := BrokerConnector_noHandler;
  sf_initHandler := BrokerConnector_initHandler
|}.
End Broker.
