(* ===== verification/LobbyAcceptorReceiver.v ===== *)
(** * The receiver of the lobby's clients

    Models lobbysvr/lobbyAcceptorReceiver.cpp: the callbacks of the acceptor,
    the JSON requests of the clients and their dispatch by URL.  The log
    statements that ask the socket for its remote endpoint are part of the
    model, because that call throws when the peer is gone. *)
From stdpp Require Import gmap strings list.
From coqutil Require Import Byte.
From S2P Require Import Prelude.
From S2P Require Import MessageBuffer.
From S2P Require Import Connection.
From S2P Require Import EventReceiver.
From S2P Require Import MlnUtils.
From S2P Require Import Protocol.
From S2P Require Import Json.
From S2P Require Import LobbyState.
From S2P Require Import LobbyUser.
From S2P Require Import LobbyUserManager.
From S2P Require Import LobbyHandlers.
From S2P Require Import BrokerConnector.
#[local] Open Scope Z_scope.

Section Lobby.
Context `{FreshMemory} `{Jsoncpp} {W : Type} `{!Connection W} `{!HasLobby W} `{!WeakConnection W}
  `{!LocalTime W}.

(** Address and port are asked for one after the other. *)
Definition log_endpoint (spConn : ConnPtr) : M W unit :=
  _ ← conn_remote_endpoint spConn;
  _ ← conn_remote_endpoint spConn;
  mret tt.

Definition LobbyAcceptorReceiver_onAccept (spConn : ConnPtr) : M W unit :=
  log_endpoint spConn;; addUser spConn.
Definition LobbyAcceptorReceiver_onClose (spConn : ConnPtr) : M W unit :=
  log_endpoint spConn;; deleteUser spConn.
Definition LobbyAcceptorReceiver_onUpdate (elapse : Z) : M W unit := mret tt.
Definition LobbyAcceptorReceiver_noHandler (spConn : ConnPtr) : M (MessageBuffer * W) unit :=
  on_snd (conn_closeReserve spConn 0).
Definition LobbyAcceptorReceiver_onAcceptFailed (spConn : ConnPtr) : M W unit := mret tt.
Definition LobbyAcceptorReceiver_onCloseFailed (spConn : ConnPtr) : M W unit := mret tt.
Definition LobbyAcceptorReceiver_onExpiredSession (spConn : ConnPtr) : M W unit :=
  _ ← conn_remote_endpoint spConn;
  conn_closeReserve spConn 0.

Definition LobbyAcceptorReceiver_initHandler (msgProc : MsgProcPtr) : M W unit :=
  let reg url h := upd_lobby (λ s, set_lobby_URLs (<[url := h]> (lobby_URLs s)) s) in
  reg "login" nh_lobby_login;;
  reg "/chat/sendMsg" nh_chat_sendMsg.

(** The handler of exceptions only logs, with the user's index if the
    connection has a user.  After it the code goes on to the log line for an
    unknown URL. *)
Definition dispatch_exceptionHandler (conn : ConnPtr) : M (Value * W) unit :=
  tag ← on_snd (conn_getTag conn);
  match tag with
  | None => mret tt
  | Some user => _ ← on_snd (this_user user); mret tt
  end.

Definition LobbyAcceptorReceiver_dispatch (conn : ConnPtr) (url : string) : M (Value * W) unit :=
  s ← on_snd get_lobby;
  match lobby_URLs s !! url with
  | Some h => try_catch (run_lobby_handler h conn url) (λ _, dispatch_exceptionHandler conn)
  | None => mret tt
  end.

Definition LobbyAcceptorReceiver_readJsonPacket (conn : ConnPtr) (size : Z)
    : M (MessageBuffer * W) unit :=
  tag ← on_snd (GET_USER_LOBBY conn);
  match tag with
  | None => _ ← on_snd (conn_getIdentity conn); mret tt
  | Some user =>
      if size <? LOBBY_PROTOCOL.HEAD_SIZE then on_snd (conn_closeReserve conn 0)
      else
        req ← local_only LOBBY_PROTOCOL.PT_JSON_raw LOBBY_PROTOCOL.PT_JSON_init;
        head ← on_fst (MessageBuffer_read_to LOBBY_PROTOCOL.HEAD_SIZE);
        req ← local_only (fst req) (memcpy_object LOBBY_PROTOCOL.sizeof_PT_JSON head);
        let bodySize := load_uint LOBBY_PROTOCOL.bodySize (fst req) in
        if (LOBBY_PROTOCOL.MAX_BODY_SIZE <? bodySize) || (bodySize <=? 0)
        then _ ← on_snd (this_user user); mret tt
        else
          body ← read_body bodySize;
          match body with
          | None => _ ← on_snd (this_user user); mret tt
          | Some body =>
              req ← local_only (fst req) (memcpy_member LOBBY_PROTOCOL.jsonBody 0 body);
              value ← parse_request (load_member LOBBY_PROTOCOL.jsonBody bodySize (fst req));
              match value with
              | None => mret tt
              | Some value =>
                  url ← string_of_array
                          (load_member LOBBY_PROTOCOL.url LOBBY_PROTOCOL.MAX_URL_STRING (fst req));
                  on_snd (with_json value (LobbyAcceptorReceiver_dispatch conn url))
              end
          end
  end.

(** [HEAD_SIZE] of [PT_JSON] bytes are read into a [PT_HEARTBEAT]. *)
Definition LobbyAcceptorReceiver_recvHeartBeat (conn : ConnPtr) (size : Z)
    : M (MessageBuffer * W) unit :=
  tag ← on_snd (GET_USER_LOBBY conn);
  match tag with
  | None => _ ← on_snd (conn_getIdentity conn); mret tt
  | Some user =>
      if size <? LOBBY_PROTOCOL.sizeof_PT_HEARTBEAT then on_snd (conn_closeReserve conn 0)
      else
        bytes ← on_fst (MessageBuffer_read_to LOBBY_PROTOCOL.HEAD_SIZE);
        _ ← local_only (byte_of LOBBY_PROTOCOL.PT_HEARTBEAT_packet_value)
              (memcpy_object LOBBY_PROTOCOL.sizeof_PT_HEARTBEAT bytes);
        on_snd (User_recvHeartBeat user)
  end.

Definition LobbyAcceptorReceiver_functions : StaticFunctionsClass W := {|
  sf_onAccept := LobbyAcceptorReceiver_onAccept;
  sf_onAcceptFailed := LobbyAcceptorReceiver_onAcceptFailed;
  sf_onConnect _ := undefined "LobbyAcceptorReceiver has no onConnect";
  sf_onConnectFailed _ := undefined "LobbyAcceptorReceiver has no onConnectFailed";
  sf_onClose := LobbyAcceptorReceiver_onClose;
  sf_onCloseFailed := LobbyAcceptorReceiver_onCloseFailed;
  sf_onExpiredSession := LobbyAcceptorReceiver_onExpiredSession;
  sf_onUpdate := LobbyAcceptorReceiver_onUpdate;
  sf_noHandler := LobbyAcceptorReceiver_noHandler;
  sf_initHandler := LobbyAcceptorReceiver_initHandler
|}.
End Lobby.
