(* ===== verification/PacketParserJson.v ===== *)
(** * The JSON packet parsers

    Models lobbysvr/packetParserJson.cpp ([JSON_PACKET_PARSING_SUPPORT]): six
    copies of the parsing loop of PacketParser.v.  [packetParser] dispatches
    through the handler maps as the one of PacketParserSimple.v does; the
    others call [LobbyAcceptorReceiver::readJsonPacket] or
    [BrokerConnector::readJsonPacket] directly.  main.cpp installs
    [packetParser_notUseEncTest] for the clients and [packetParser_brokerTest]
    for the broker. *)
From stdpp Require Import list strings gmap.
From coqutil Require Import Byte Word.LittleEndianList.
From S2P Require Import Prelude.
From S2P Require Import MessageBuffer.
From S2P Require Import PacketHeader.
From S2P Require Import Connection.
From S2P Require Import MessageProcedure.
From S2P Require Import PacketParser.
From S2P Require Import PacketParserSimple.
From S2P Require Import Protocol.
From S2P Require Import Json.
From S2P Require Import LobbyState.
From S2P Require Import LobbyUser.
From S2P Require Import LobbyHandlers.
From S2P Require Import LobbyUserManager.
From S2P Require Import BrokerConnector.
From S2P Require Import LobbyAcceptorReceiver.
#[local] Open Scope Z_scope.

(** The loop that hides the body in [packetParser_xor]: five passes over the
    bytes behind [startBufPos], from the last key character to the first. *)
Definition xor_keys : list byte := [Byte.x49; Byte.x67; Byte.x4e; Byte.x69; Byte.x53].
Definition xor_byte (c b : byte) : byte := byte.of_Z (Z.lxor (byte.unsigned b) (byte.unsigned c)).

(** The inner loop: [n] bytes from [curPos] on. *)
Fixpoint xor_pass (n : nat) (curPos : Z) (c : byte) : M MessageBuffer unit :=
  match n with
  | O => mret tt
  | S n' =>
      b ← mb_load curPos 1;
      mb_store curPos (xor_byte c <$> b);;
      xor_pass n' (curPos + 1) c
  end.
Definition xor_body (startBufPos : Z) (part_body_size : Z) : M MessageBuffer unit :=
  foldr (λ c rest, rest;; xor_pass (Z.to_nat part_body_size) startBufPos c)
    (mret tt) xor_keys.

Section JsonParsers.
Context `{FreshMemory} `{Jsoncpp} {W : Type} `{!Connection W} `{!ConnectionReceiver W}
  `{!HasLobby W} `{!WeakConnection W} `{!LocalTime W} `{!NetServiceApi W}.

(** The [switch] on the packet code of a client, and the test for the broker. *)
Definition dispatch_lobby (code : M MessageBuffer Z) (spConn : ConnPtr) (part_body_size : Z)
    : M (MessageBuffer * W) part_ctl :=
  packetCode ← on_fst code;
  if packetCode =? LOBBY_PROTOCOL.PT_JSON_packet_value then
    LobbyAcceptorReceiver_readJsonPacket spConn part_body_size;; mret PartNext
  else if packetCode =? LOBBY_PROTOCOL.PT_HEARTBEAT_packet_value then mret PartNext
  else call_noHandler spConn;; mret PartFail.

Definition dispatch_broker (spConn : ConnPtr) (part_body_size : Z)
    : M (MessageBuffer * W) part_ctl :=
  packetCode ← on_fst packetCode_int32;
  if 1 =? packetCode then
    BrokerConnector_readJsonPacket spConn part_body_size;; mret PartNext
  else call_noHandler spConn;; mret PartFail.

(** [uint8_t packetCode] of [packetParser_notUseEncTest]. *)
Definition packetCode_uint8 : M MessageBuffer Z :=
  r ← MessageBuffer_readable_to 1;
  mret (match r with Some bs => le_combine bs | None => 0 end).

(** The body of [packetParser_xor], hidden between the copy and the switch;
    [procMsg] is fresh, so that [startBufPos] is the start of its storage. *)
Definition dispatch_xor (spConn : ConnPtr) (part_body_size : Z) : M (MessageBuffer * W) part_ctl :=
  on_fst (xor_body (MessageBuffer_enableBuffer MessageBuffer_new) part_body_size);;
  dispatch_lobby packetCode_int32 spConn part_body_size.

Definition packetParser : customMessageParser W :=
  λ spConn msg_proc memberFuncMap staticFuncMap,
    run_parser json_rules (consume_cipher spConn msg_proc memberFuncMap staticFuncMap).

Definition packetParser_notUseEnc : customMessageParser W :=
  λ spConn _ _ _, run_parser json_rules (consume_copied (dispatch_lobby packetCode_int32 spConn)).

Definition packetParser_xor : customMessageParser W :=
  λ spConn _ _ _, run_parser json_rules (consume_copied (dispatch_xor spConn)).

Definition packetParser_broker : customMessageParser W :=
  λ spConn _ _ _, run_parser json_rules (consume_copied (dispatch_broker spConn)).

Definition packetParser_brokerTest : customMessageParser W :=
  λ spConn _ _ _, run_parser test_rules (consume_copied (dispatch_broker spConn)).

Definition packetParser_notUseEncTest : customMessageParser W :=
  λ spConn _ _ _, run_parser test_rules (consume_copied (dispatch_lobby packetCode_uint8 spConn)).
End JsonParsers.
