(* ===== verification/LobbySafety.v ===== *)
(** * What the application does to the world

    The interfaces say that a relation [R] on worlds contains the effects the
    application has: [ConnKeeps] those of the connection methods it calls
    without touching a tag, [UserKeeps] also those of the three operations the
    lobby does on its users, [LobbyKeeps] every change of its own state and of
    a tag, [AppKeeps] also a new connection attempt.  Against the weakest interface that
    suffices every function of lobbysvr/ and every packet parser is shown to
    keep [R], also when it throws.  The worlds of Server.v are an instance of
    [AppKeeps] with the relation [frames] of ConnectionSafety.v
    (ServerProperties.v) and of [UserKeeps] with the invariant of the users
    (LobbyInvariant.v). *)
From stdpp Require Import gmap strings list.
From coqutil Require Import Byte.
From S2P Require Import Prelude.
From S2P Require Import MessageBuffer.
From S2P Require Import PacketHeader.
From S2P Require Import Connection.
From S2P Require Import MessageProcedure.
From S2P Require Import EventReceiver.
From S2P Require Import MlnUtils.
From S2P Require Import Protocol.
From S2P Require Import Json.
From S2P Require Import LobbyState.
From S2P Require Import LobbyUser.
From S2P Require Import LobbyUserManager.
From S2P Require Import LobbyHandlers.
From S2P Require Import BrokerConnector.
From S2P Require Import LobbyAcceptorReceiver.
From S2P Require Import PacketParser.
From S2P Require Import PacketParserSimple.
From S2P Require Import PacketParserJson.
#[local] Open Scope Z_scope.

Class ConnKeeps (W : Type) `{!Connection W} `{!HasLobby W} `{!WeakConnection W} `{!LocalTime W}
    (R : W → W → Prop) : Prop := {
  ck_preorder :: PreOrder R;
  ck_sendPacket c d : keeps R (conn_sendPacket c d);
  ck_getTag c : keeps R (conn_getTag c);
  ck_getIdentity c : keeps R (conn_getIdentity c);
  ck_closeReserve c t : keeps R (conn_closeReserve c t);
  ck_remote_endpoint c : keeps R (conn_remote_endpoint c);
  ck_weak_lock c : keeps R (weak_lock c);
  ck_getLocalTimeSec : keeps R getLocalTimeSec
}.
Class RequestKeeps (W : Type) `{!Connection W} `{!HasLobby W}
    `{!WeakConnection W} `{!LocalTime W} (R : W → W → Prop) : Prop := {
  rk_conn :: ConnKeeps W R;
  rk_login_reset p : keeps R (upd_user p login_reset);
  rk_idx4Broker i : keeps R (upd_lobby (set_idx4Broker i))
}.
Class UserKeeps (W : Type) `{FreshMemory} `{Jsoncpp} `{!Connection W} `{!HasLobby W}
    `{!WeakConnection W} `{!LocalTime W} (R : W → W → Prop) : Prop := {
  uk_request :: RequestKeeps W R;
  uk_addUser c : keeps R (addUser c);
  uk_deleteUser c : keeps R (deleteUser c)
}.
Class LobbyKeeps (W : Type) `{!Connection W} `{!HasLobby W} `{!WeakConnection W} `{!LocalTime W}
    (R : W → W → Prop) : Prop := {
  lk_conn :: ConnKeeps W R;
  lk_with_lobby l w : R w (with_lobby l w);
  lk_setTag c t : keeps R (conn_setTag c t)
}.
Class AppKeeps (W : Type) `{!Connection W} `{!HasLobby W} `{!WeakConnection W} `{!LocalTime W}
    `{!NetServiceApi W} (R : W → W → Prop) : Prop := {
  ak_lobby :: LobbyKeeps W R;
  ak_getConnector i : keeps R (api_getConnector i);
  ak_connectWait p n t : keeps R (api_connectWait p n t)
}.
#[export] Hint Resolve ck_sendPacket ck_getTag ck_getIdentity ck_closeReserve
  ck_remote_endpoint ck_weak_lock ck_getLocalTimeSec rk_login_reset rk_idx4Broker uk_addUser
  uk_deleteUser   lk_setTag ak_getConnector ak_connectWait : keeps.

(** ** Code that leaves the state of the lobby alone *)
Section ConnLevel.
Context `{FreshMemory} `{Jsoncpp} {W : Type} `{!Connection W} `{!HasLobby W} `{!WeakConnection W}
  `{!LocalTime W} (R : W → W → Prop) `{!ConnKeeps W R}.

Lemma keeps_get_lobby : keeps R get_lobby.
Proof. apply keeps_gets. typeclasses eauto. Qed.
#[local] Hint Resolve keeps_get_lobby : keeps.
Lemma keeps_this_user p : keeps R (this_user p).
Proof. unfold this_user. keeps_auto. Qed.
Lemma keeps_this_connectorUser p : keeps R (this_connectorUser p).
Proof. unfold this_connectorUser. keeps_auto. Qed.
#[local] Hint Resolve keeps_this_user keeps_this_connectorUser : keeps.

Lemma keeps_UserBasis_Send p d : keeps R (UserBasis_Send p d).
Proof. unfold UserBasis_Send. keeps_auto. Qed.
Lemma keeps_ConnectorUser_Send p d : keeps R (ConnectorUser_Send p d).
Proof. unfold ConnectorUser_Send. keeps_auto. Qed.
Lemma keeps_send_prologue : keeps (rel_snd R) send_prologue.
Proof. unfold send_prologue. keeps_auto. Qed.
#[local] Hint Resolve keeps_UserBasis_Send keeps_ConnectorUser_Send keeps_send_prologue : keeps.
Lemma keeps_User_SendJsonPacket p url : keeps (rel_snd R) (User_SendJsonPacket p url).
Proof. unfold User_SendJsonPacket. keeps_auto. Qed.
Lemma keeps_ConnectorUser_SendJsonPacket p url :
  keeps (rel_snd R) (ConnectorUser_SendJsonPacket p url).
Proof. unfold ConnectorUser_SendJsonPacket. keeps_auto. Qed.
Lemma keeps_with_json {A} jv (m : M (Value * W) A) : keeps (rel_snd R) m → keeps R (with_json jv m).
Proof. intros Hm. unfold with_json. keeps_auto. Qed.
#[local] Hint Resolve keeps_User_SendJsonPacket keeps_ConnectorUser_SendJsonPacket : keeps.
Lemma keeps_BrokerConnector_sendJsonPacket url : keeps (rel_snd R) (BrokerConnector_sendJsonPacket url).
Proof. unfold BrokerConnector_sendJsonPacket. keeps_auto. Qed.
#[local] Hint Resolve keeps_BrokerConnector_sendJsonPacket : keeps.
Ltac keeps_lobby := repeat (apply keeps_with_json || keeps_step).

Lemma keeps_getUser i : keeps R (getUser i).
Proof. unfold getUser. keeps_lobby. Qed.
Lemma keeps_send_to c f url : (∀ u, keeps R (f u)) → keeps (rel_snd R) (send_to c f url).
Proof. intros Hf. unfold send_to. keeps_lobby. Qed.
Lemma keeps_sendPacketFromBroker i url :
  keeps (rel_snd R) (sendPacketFromBroker i url (λ _, mret tt)).
Proof. unfold sendPacketFromBroker. keeps_lobby. apply keeps_send_to. intros u. keeps_auto. Qed.
Lemma keeps_sendPacketFromBroker_byUserIDX i url :
  keeps (rel_snd R) (sendPacketFromBroker_byUserIDX i url).
Proof.
  unfold sendPacketFromBroker_byUserIDX. keeps_lobby. apply keeps_send_to. intros u. keeps_auto.
Qed.
Lemma keeps_send_to_each cs url : keeps (rel_snd R) (send_to_each cs url).
Proof.
  induction cs as [|c cs IH]; simpl; [keeps_auto|].
  apply keeps_bind; [typeclasses eauto|apply keeps_send_to; intros u; keeps_auto|done].
Qed.
Lemma keeps_sendPacketFromBroker_All url : keeps (rel_snd R) (sendPacketFromBroker_All url).
Proof. unfold sendPacketFromBroker_All. keeps_lobby. apply keeps_send_to_each. Qed.

Lemma keeps_GET_USER_LOBBY c : keeps R (GET_USER_LOBBY c).
Proof. unfold GET_USER_LOBBY. keeps_auto. Qed.
#[local] Hint Resolve keeps_GET_USER_LOBBY : keeps.
Lemma keeps_sendDBFailed c p url n s : keeps (rel_snd R) (sendDBFailed c p url n s).
Proof. unfold sendDBFailed. keeps_lobby. Qed.
Lemma keeps_sendMsg c url : keeps (rel_snd R) (sendMsg c url).
Proof. unfold sendMsg. keeps_lobby. Qed.
Lemma keeps_read_body n : keeps (rel_snd (S := MessageBuffer) R) (read_body n).
Proof. unfold read_body. keeps_auto. Qed.
Lemma keeps_parse_request `{Jsoncpp} {S} (R' : S → S → Prop) `{!PreOrder R'} bs :
  keeps R' (parse_request bs).
Proof. unfold parse_request. by repeat keeps_step. Qed.
Lemma keeps_string_of_array {S} (R' : S → S → Prop) `{!PreOrder R'} bs : keeps R' (string_of_array bs).
Proof. unfold string_of_array. keeps_auto. Qed.
Lemma keeps_exceptionHandler c : keeps (rel_snd R) (dispatch_exceptionHandler c).
Proof. unfold dispatch_exceptionHandler. keeps_lobby. Qed.
Lemma keeps_lobby_onExpiredSession c : keeps R (LobbyAcceptorReceiver_onExpiredSession c).
Proof. unfold LobbyAcceptorReceiver_onExpiredSession. keeps_auto. Qed.
Lemma keeps_lobby_noHandler c : keeps (rel_snd (S := MessageBuffer) R) (LobbyAcceptorReceiver_noHandler c).
Proof. unfold LobbyAcceptorReceiver_noHandler. keeps_auto. Qed.
Lemma keeps_broker_noHandler c : keeps (rel_snd (S := MessageBuffer) R) (BrokerConnector_noHandler c).
Proof. unfold BrokerConnector_noHandler. keeps_auto. Qed.
Lemma keeps_broker_onExpiredSession c : keeps R (BrokerConnector_onExpiredSession c).
Proof. unfold BrokerConnector_onExpiredSession. keeps_auto. Qed.
End ConnLevel.
#[export] Hint Resolve keeps_get_lobby keeps_this_user keeps_this_connectorUser
  keeps_User_SendJsonPacket keeps_ConnectorUser_SendJsonPacket keeps_BrokerConnector_sendJsonPacket
  keeps_getUser keeps_sendPacketFromBroker keeps_sendPacketFromBroker_byUserIDX
  keeps_sendPacketFromBroker_All keeps_GET_USER_LOBBY keeps_sendDBFailed keeps_sendMsg
  keeps_read_body keeps_parse_request keeps_string_of_array keeps_exceptionHandler keeps_lobby_onExpiredSession
  keeps_lobby_noHandler keeps_broker_noHandler keeps_broker_onExpiredSession : keeps.
Ltac keeps_lobby :=
  repeat ((apply keeps_with_json; [solve [typeclasses eauto]|]) || keeps_step).

(** ** The requests of the clients and of the broker *)
Section RequestLevel.
Context `{FreshMemory} `{Jsoncpp} {W : Type} `{!Connection W} `{!HasLobby W} `{!WeakConnection W}
  `{!LocalTime W} (R : W → W → Prop) `{!RequestKeeps W R}.

Lemma keeps_lobby_handlers h c url : keeps (rel_snd R) (run_lobby_handler h c url).
Proof. destruct h; simpl; [unfold login|]; keeps_lobby. Qed.
#[local] Hint Resolve keeps_lobby_handlers : keeps.
Lemma keeps_lobby_dispatch c url : keeps (rel_snd R) (LobbyAcceptorReceiver_dispatch c url).
Proof. unfold LobbyAcceptorReceiver_dispatch. keeps_lobby. Qed.
#[local] Hint Resolve keeps_lobby_dispatch : keeps.
Lemma keeps_lobby_readJsonPacket c n :
  keeps (rel_snd (S := MessageBuffer) R) (LobbyAcceptorReceiver_readJsonPacket c n).
Proof. unfold LobbyAcceptorReceiver_readJsonPacket. keeps_lobby. Qed.

Lemma keeps_broker_handlers h c url : keeps (rel_snd R) (run_broker_handler h c url).
Proof.
  destruct h; simpl; [unfold auth|unfold loginedUser|unfold isOnline|unfold chatSendMsg|
    unfold chatReceiveMsg]; keeps_lobby.
Qed.
#[local] Hint Resolve keeps_broker_handlers : keeps.
Lemma keeps_broker_dispatch c url : keeps (rel_snd R) (BrokerConnector_dispatch c url).
Proof. unfold BrokerConnector_dispatch. keeps_lobby. Qed.
#[local] Hint Resolve keeps_broker_dispatch : keeps.
Lemma keeps_broker_readJsonPacket c n :
  keeps (rel_snd (S := MessageBuffer) R) (BrokerConnector_readJsonPacket c n).
Proof. unfold BrokerConnector_readJsonPacket. keeps_lobby. Qed.
End RequestLevel.
#[export] Hint Resolve keeps_lobby_readJsonPacket keeps_broker_readJsonPacket : keeps.

(** ** The users of the clients *)
Section UserLevel.
Context `{FreshMemory} `{Jsoncpp} {W : Type} `{!Connection W} `{!HasLobby W} `{!WeakConnection W}
  `{!LocalTime W} (R : W → W → Prop) `{!UserKeeps W R}.

Lemma keeps_lobby_onAccept c : keeps R (LobbyAcceptorReceiver_onAccept c).
Proof. unfold LobbyAcceptorReceiver_onAccept, log_endpoint. keeps_auto. Qed.
Lemma keeps_lobby_onClose c : keeps R (LobbyAcceptorReceiver_onClose c).
Proof. unfold LobbyAcceptorReceiver_onClose, log_endpoint. keeps_auto. Qed.
End UserLevel.
#[export] Hint Resolve keeps_lobby_onAccept keeps_lobby_onClose : keeps.

(** ** Users *)
Section LobbyLevel.
Context `{FreshMemory} `{Jsoncpp} {W : Type} `{!Connection W} `{!HasLobby W} `{!WeakConnection W}
  `{!LocalTime W} (R : W → W → Prop) `{!LobbyKeeps W R}.

Lemma keeps_upd_lobby f : keeps R (upd_lobby f).
Proof. apply keeps_modify. intros w. apply lk_with_lobby. Qed.
#[local] Hint Resolve keeps_upd_lobby : keeps.
Lemma keeps_new_object o : keeps R (new_object o).
Proof. unfold new_object. keeps_auto. Qed.
Lemma keeps_delete_object p : keeps R (delete_object p).
Proof. unfold delete_object. keeps_auto. Qed.
#[local] Hint Resolve keeps_new_object keeps_delete_object : keeps.
Lemma keeps_upd_user p f : keeps R (upd_user p f).
Proof. unfold upd_user. keeps_auto. Qed.
Lemma keeps_addUser c : keeps R (addUser c).
Proof. unfold addUser. keeps_lobby. Qed.
Lemma keeps_deleteUser c : keeps R (deleteUser c).
Proof. unfold deleteUser, deleteUser_erase, User_logoutProcess. keeps_lobby. Qed.

#[export] Instance lobby_user_keeps : UserKeeps W R.
Proof.
  split; [split; [typeclasses eauto|intros; apply keeps_upd_user|intros; apply keeps_upd_lobby]
         |apply keeps_addUser|apply keeps_deleteUser].
Qed.
Lemma keeps_lobby_initHandler p : keeps R (LobbyAcceptorReceiver_initHandler p).
Proof. unfold LobbyAcceptorReceiver_initHandler. keeps_auto. Qed.
End LobbyLevel.
#[export] Hint Resolve keeps_upd_lobby keeps_new_object keeps_delete_object : keeps.

(** ** The connection to the broker *)
Section AppLevel.
Context `{FreshMemory} `{Jsoncpp} {W : Type} `{!Connection W} `{!HasLobby W} `{!WeakConnection W}
  `{!LocalTime W} `{!NetServiceApi W} (R : W → W → Prop) `{!AppKeeps W R}.

#[local] Instance app_preorder : PreOrder R := ck_preorder.

Lemma keeps_tryConnect n t : keeps R (BrokerConnector_tryConnect n t).
Proof. unfold BrokerConnector_tryConnect. keeps_auto. Qed.
#[local] Hint Resolve keeps_tryConnect : keeps.
Lemma keeps_broker_onConnect c : keeps R (BrokerConnector_onConnect c).
Proof. unfold BrokerConnector_onConnect. keeps_lobby. Qed.
Lemma keeps_broker_onClose c : keeps R (BrokerConnector_onClose c).
Proof. unfold BrokerConnector_onClose. keeps_auto. Qed.
Lemma keeps_broker_onConnectFailed c : keeps R (BrokerConnector_onConnectFailed c).
Proof. apply keeps_tryConnect. Qed.
Lemma keeps_broker_initHandler p : keeps R (BrokerConnector_initHandler p).
Proof. unfold BrokerConnector_initHandler. keeps_auto. Qed.
End AppLevel.

(** ** The packet parsers, whatever the bodies of the packets do *)
Section Parsers.
Context `{FreshMemory} {W : Type} (R : W → W → Prop) `{!PreOrder R}.

Lemma keeps_consume_copied (handle : Z → M (MessageBuffer * W) part_ctl) n :
  keeps (rel_snd R) (handle n) → keeps (rel_snd R) (consume_copied handle n).
Proof. intros Hh. unfold consume_copied, copy_to_procMsg. keeps_auto. Qed.

Lemma keeps_fail_readAll : keeps (rel_snd (S := MessageBuffer) R) fail_readAll.
Proof. unfold fail_readAll. keeps_auto. Qed.
#[local] Hint Resolve keeps_fail_readAll : keeps.

Lemma keeps_parse_iteration rules consume_part l :
  (∀ n, keeps (rel_snd R) (consume_part n)) →
  keeps (rel_snd (S := MessageBuffer) R) (parse_iteration rules consume_part l).
Proof.
  intros Hc. unfold parse_iteration, parse_main_key, parse_part. keeps_auto.
Qed.

Lemma keeps_run_parser rules consume_part :
  (∀ n, keeps (rel_snd R) (consume_part n)) →
  keeps (rel_snd (S := MessageBuffer) R) (run_parser rules consume_part).
Proof.
  intros Hc. unfold run_parser.
  apply keeps_bind; [typeclasses eauto|keeps_auto|]. intros n.
  generalize (mkParserLocals true 0). induction (S (Z.to_nat n)) as [|fuel IH]; intros l; simpl.
  { intros s. done. }
  apply keeps_bind; [typeclasses eauto|by apply keeps_parse_iteration|].
  intros []; [apply IH|keeps_auto].
Qed.
End Parsers.

(** ** The parsers of the two services *)
Section LobbyParser.
Context `{FreshMemory} `{Jsoncpp} {W : Type} `{!Connection W} `{!ConnectionReceiver W}
  `{!HasLobby W} `{!WeakConnection W} `{!LocalTime W} (R : W → W → Prop) `{!RequestKeeps W R}.
Context (HnoHandler : ∀ c, keeps (rel_snd R) (call_noHandler c)).
#[local] Hint Resolve HnoHandler : keeps.

Lemma keeps_dispatch_lobby code c n : keeps (rel_snd R) (dispatch_lobby code c n).
Proof. unfold dispatch_lobby. keeps_auto. Qed.
#[local] Hint Resolve keeps_dispatch_lobby : keeps.
Lemma keeps_notUseEncTest c t m s : keeps (rel_snd R) (packetParser_notUseEncTest c t m s).
Proof.
  apply keeps_run_parser; [typeclasses eauto|]. intros n.
  apply keeps_consume_copied; [typeclasses eauto|]. keeps_auto.
Qed.
End LobbyParser.

Section BrokerParser.
Context `{FreshMemory} `{Jsoncpp} {W : Type} `{!Connection W} `{!ConnectionReceiver W}
  `{!HasLobby W} `{!WeakConnection W} `{!LocalTime W} (R : W → W → Prop) `{!RequestKeeps W R}.
Context (HnoHandler : ∀ c, keeps (rel_snd R) (call_noHandler c)).
#[local] Hint Resolve HnoHandler : keeps.

#[local] Instance broker_preorder : PreOrder R := ck_preorder.

Lemma keeps_dispatch_broker c n : keeps (rel_snd R) (dispatch_broker c n).
Proof. unfold dispatch_broker. keeps_auto. Qed.
#[local] Hint Resolve keeps_dispatch_broker : keeps.
Lemma keeps_brokerTest c t m s : keeps (rel_snd R) (packetParser_brokerTest c t m s).
Proof.
  apply keeps_run_parser; [typeclasses eauto|]. intros n.
  apply keeps_consume_copied; [typeclasses eauto|]. keeps_auto.
Qed.
End BrokerParser.
