(* ===== verification/Environment.v ===== *)
(** * Configuration

    Models lobbysvr/environment.{h,cpp} and the macros of
    net/xmlParsingSupport.h.  Reading XML and converting the text of a node is
    Boost.PropertyTree, a parameter ([PropertyTree]).  A member the constructor
    leaves unset is an [option]. *)
From stdpp Require Import strings list.
From S2P Require Import Prelude.
#[local] Open Scope Z_scope.

(** [read_xml] and [get<T>(path)]: without a result they throw an
    [xml_parser_error] or a [ptree_error]. *)
Class PropertyTree : Type := {
  ptree : Type;
  read_xml : string → option ptree;
  get_string : string → ptree → option string;
  get_bool : string → ptree → option bool;
  get_uint8 : string → ptree → option Z;
  get_uint16 : string → ptree → option Z;
  get_uint32 : string → ptree → option Z;
  get_size_t : string → ptree → option Z;
  get_int32 : string → ptree → option Z
}.

Record MLN_SvrSetting : Type := mkMLN_SvrSetting {
  activate : option bool;
  addr : string;
  listenPort : string;
  keep_alive_ms : Z;
  session_timeout_ms : option Z;
  workers : Z;
  enc_type : Z;
  tick_time_ms : Z
}.
Definition MLN_SvrSetting_new : MLN_SvrSetting := mkMLN_SvrSetting None "" "" 0 None 1 1 1000.

Record Environment : Type := mkEnvironment {
  m_title : string;
  m_svrBroker : MLN_SvrSetting;
  m_svrLobby : MLN_SvrSetting;
  m_svrRoom : MLN_SvrSetting;
  m_testInterfacePort : option Z;
  env_clientVersion : option Z          (* m_clientVersion *)
}.
Definition Environment_new : Environment :=
  mkEnvironment "" MLN_SvrSetting_new MLN_SvrSetting_new MLN_SvrSetting_new None None.

Section Initialize.
Context `{PropertyTree}.

(** [XML_PARSING_GET(out, path)] *)
Definition XML_PARSING_GET {S A} (pt : ptree) (get : string → ptree → option A) (path : string)
    (set : A → S → S) : M S unit :=
  match get path pt with
  | Some a => modify (set a)
  | None => throw (ptree_error path)
  end.

(** The lambda [loadSvrSetting]; the state is the setting it fills. *)
Definition loadSvrSetting (pt : ptree) (svrRootString : string) : M MLN_SvrSetting unit :=
  XML_PARSING_GET pt get_bool (svrRootString +:+ ".activate")
    (λ v '(mkMLN_SvrSetting _ a l k t w e i), mkMLN_SvrSetting (Some v) a l k t w e i);;
  XML_PARSING_GET pt get_string (svrRootString +:+ ".addr")
    (λ v '(mkMLN_SvrSetting b _ l k t w e i), mkMLN_SvrSetting b v l k t w e i);;
  XML_PARSING_GET pt get_string (svrRootString +:+ ".listenPort")
    (λ v '(mkMLN_SvrSetting b a _ k t w e i), mkMLN_SvrSetting b a v k t w e i);;
  XML_PARSING_GET pt get_uint32 (svrRootString +:+ ".keep_alive_ms")
    (λ v '(mkMLN_SvrSetting b a l _ t w e i), mkMLN_SvrSetting b a l v t w e i);;
  XML_PARSING_GET pt get_uint32 (svrRootString +:+ ".session_timeout_ms")
    (λ v '(mkMLN_SvrSetting b a l k _ w e i), mkMLN_SvrSetting b a l k (Some v) w e i);;
  XML_PARSING_GET pt get_size_t (svrRootString +:+ ".workers")
    (λ v '(mkMLN_SvrSetting b a l k t _ e i), mkMLN_SvrSetting b a l k t v e i);;
  XML_PARSING_GET pt get_uint8 (svrRootString +:+ ".enc_type")
    (λ v '(mkMLN_SvrSetting b a l k t w _ i), mkMLN_SvrSetting b a l k t w v i);;
  XML_PARSING_GET pt get_uint32 (svrRootString +:+ ".tick_time_ms")
    (λ v '(mkMLN_SvrSetting b a l k t w e _), mkMLN_SvrSetting b a l k t w e v).

Definition set_svrBroker (v : MLN_SvrSetting) (e : Environment) : Environment :=
  mkEnvironment (m_title e) v (m_svrLobby e) (m_svrRoom e) (m_testInterfacePort e) (env_clientVersion e).
Definition set_svrLobby (v : MLN_SvrSetting) (e : Environment) : Environment :=
  mkEnvironment (m_title e) (m_svrBroker e) v (m_svrRoom e) (m_testInterfacePort e) (env_clientVersion e).
Definition set_svrRoom (v : MLN_SvrSetting) (e : Environment) : Environment :=
  mkEnvironment (m_title e) (m_svrBroker e) (m_svrLobby e) v (m_testInterfacePort e) (env_clientVersion e).

Definition Environment_read (pt : ptree) : M Environment unit :=
  XML_PARSING_GET pt get_string "config.title"
    (λ v '(mkEnvironment _ b l r p c), mkEnvironment v b l r p c);;
  zoom m_svrBroker set_svrBroker (loadSvrSetting pt "config.servers.broker");;
  zoom m_svrLobby set_svrLobby (loadSvrSetting pt "config.servers.lobby");;
  zoom m_svrRoom set_svrRoom (loadSvrSetting pt "config.servers.room");;
  XML_PARSING_GET pt get_int32 "config.misc.clientVersion"
    (λ v '(mkEnvironment t b l r p _), mkEnvironment t b l r p (Some v));;
  XML_PARSING_GET pt get_uint16 "config.test_interface.listenPort"
    (λ v '(mkEnvironment t b l r _ c), mkEnvironment t b l r (Some v) c).

(** The [try] of [XML_PARSING_BEGIN] and [XML_PARSING_END]. *)
Definition Environment_Initialize (szFileName : string) : M Environment bool :=
  try_catch
    (match read_xml szFileName with
     | Some pt => Environment_read pt
     | None => throw (ptree_error szFileName)
     end;;
     mret true)
    (λ _, mret false).
End Initialize.

(** ** What a configuration file says *)
Section Spec.
Context `{PropertyTree}.

Definition setting_of (pt : ptree) (root : string) : option MLN_SvrSetting :=
  b ← get_bool (root +:+ ".activate") pt;
  a ← get_string (root +:+ ".addr") pt;
  l ← get_string (root +:+ ".listenPort") pt;
  k ← get_uint32 (root +:+ ".keep_alive_ms") pt;
  t ← get_uint32 (root +:+ ".session_timeout_ms") pt;
  w ← get_size_t (root +:+ ".workers") pt;
  e ← get_uint8 (root +:+ ".enc_type") pt;
  i ← get_uint32 (root +:+ ".tick_time_ms") pt;
  Some (mkMLN_SvrSetting (Some b) a l k (Some t) w e i).

Definition environment_of (pt : ptree) : option Environment :=
  title ← get_string "config.title" pt;
  broker ← setting_of pt "config.servers.broker";
  lobby ← setting_of pt "config.servers.lobby";
  room ← setting_of pt "config.servers.room";
  version ← get_int32 "config.misc.clientVersion" pt;
  port ← get_uint16 "config.test_interface.listenPort" pt;
  Some (mkEnvironment title broker lobby room (Some port) (Some version)).

(** [m] leaves the state [o] whatever it starts from, or throws. *)
Definition sets {S} (m : M S unit) (s : S) (o : option S) : Prop :=
  match o with
  | Some s' => m s = Done s' tt
  | None => ∃ s' e, m s = Threw s' e
  end.

Lemma sets_get {S A} pt (get : string → ptree → option A) path set (m : M S unit) s o :
  (∀ a, sets m (set a s) (o a)) → sets (XML_PARSING_GET pt get path set;; m) s (a ← get path pt; o a).
Proof.
  intros Hm. unfold sets, XML_PARSING_GET. simpl. destruct (get path pt) as [a|]; simpl.
  - apply Hm.
  - by exists s, (ptree_error path).
Qed.

Lemma sets_get_last {S A} pt (get : string → ptree → option A) path set (s : S) o :
  (∀ a, Some (set a s) = o a) → sets (XML_PARSING_GET pt get path set) s (a ← get path pt; o a).
Proof.
  unfold sets, XML_PARSING_GET. simpl. intros Ho. destruct (get path pt) as [a|]; simpl.
  - by rewrite <- Ho.
  - by exists s, (ptree_error path).
Qed.

Lemma sets_zoom {S T} (get : S → T) set (l : M T unit) (m : M S unit) s (v : option T) (o : T → option S) :
  sets l (get s) v → (∀ t, sets m (set t s) (o t)) →
  sets (zoom get set l;; m) s (t ← v; o t).
Proof.
  unfold sets. simpl. intros Hl Hm. rewrite bind_run. unfold zoom. destruct v as [t|]; simpl.
  - rewrite Hl. apply Hm.
  - destruct Hl as (t' & e & ->). simpl. by eexists _, _.
Qed.

Lemma loadSvrSetting_sets pt root s : sets (loadSvrSetting pt root) s (setting_of pt root).
Proof.
  unfold loadSvrSetting, setting_of. destruct s.
  repeat (apply sets_get; intros ?). by apply sets_get_last.
Qed.

Lemma Environment_read_sets pt env : sets (Environment_read pt) env (environment_of pt).
Proof.
  unfold Environment_read, environment_of. destruct env. apply sets_get. intros title.
  repeat (apply sets_zoom; [apply loadSvrSetting_sets|intros ?]).
  apply sets_get. intros version. by apply sets_get_last.
Qed.

(** C31. [Initialize] returns true exactly when the file is read and every setting is in it with
    a value of its type; the environment is then what the file says, whatever it was before.  In
    every other case it returns false: no exception leaves it. *)
Theorem Initialize_reads_file szFileName env :
  match read_xml szFileName ≫= environment_of with
  | Some env' => Environment_Initialize szFileName env = Done env' true
  | None => ∃ env', Environment_Initialize szFileName env = Done env' false
  end.
Proof.
  unfold Environment_Initialize, try_catch. destruct (read_xml szFileName) as [pt|]; simpl.
  - pose proof (Environment_read_sets pt env) as Hr. unfold sets in Hr.
    destruct (environment_of pt) as [env'|]; rewrite bind_run.
    + by rewrite Hr.
    + destruct Hr as (env' & e & ->). by exists env'.
  - by exists env.
Qed.
End Spec.
