(* ===== verification/Utilities.v ===== *)
(** * Utilities of the network library

    Models net/flagChecker.h ([flag_checker]), net/singleton.h ([Singleton],
    [SingletonLight]) and net/netUtil.cpp.  [boost::tokenizer] and the resolver
    are parameters. *)
From stdpp Require Import strings list pretty sets.
From Stdlib Require Import Ascii.
From S2P Require Import Prelude.
From S2P Require Import MlnUtils.
#[local] Open Scope Z_scope.

(** ** flag_checker: the flags are the bits of a [uint64_t] *)
Module flag_checker.

Definition getFlagValue {S} (flag : Z) : M S Z :=
  if (0 <=? flag) && (flag <? 64) then mret (u64 (Z.shiftl 1 flag))
  else undefined "shift by the width of the type or more".

Definition isUsingFlag (flag : Z) : M Z bool :=
  m_flagContainer ← get_state;
  v ← getFlagValue flag;
  mret (negb (0 =? Z.land m_flagContainer v)).

Definition addFlag (flag : Z) : M Z Z :=
  v ← getFlagValue flag;
  modify (λ m_flagContainer, u64 (m_flagContainer + v));;
  get_state.

Definition subFlag (flag : Z) : M Z Z :=
  v ← getFlagValue flag;
  modify (λ m_flagContainer, u64 (m_flagContainer - v));;
  get_state.

(** [addFlags(flags...)] *)
Fixpoint addFlags (flags : list Z) : M Z unit :=
  match flags with
  | [] => mret tt
  | flag :: remainFlagList => _ ← addFlag flag; addFlags remainFlagList
  end.

Definition new : Z := 0.
End flag_checker.

(** ** Singletons: the static pointer, the [once_flag], and the next address
    [new] gives *)
Record SingletonState : Type := mkSingletonState {
  sg_instance : option N;
  sg_once_flag : bool;
  sg_next : N
}.
Definition SingletonState_init : SingletonState := mkSingletonState None false 0.

Definition sg_new : M SingletonState unit :=
  modify (λ s, mkSingletonState (Some (sg_next s)) (sg_once_flag s) (N.succ (sg_next s))).

Definition Singleton_instance : M SingletonState (option N) :=
  s ← get_state;
  (if sg_once_flag s then mret tt
   else sg_new;; modify (λ s, mkSingletonState (sg_instance s) true (sg_next s)));;
  gets sg_instance.
Definition SingletonLight_instance : M SingletonState (option N) :=
  s ← get_state;
  (if bool_decide (sg_instance s = None) then sg_new else mret tt);;
  gets sg_instance.
(** [Release] of the one, [release] of the other. *)
Definition Singleton_Release : M SingletonState unit :=
  modify (λ s, mkSingletonState None (sg_once_flag s) (sg_next s)).
Definition SingletonLight_release : M SingletonState unit :=
  modify (λ s, mkSingletonState None (sg_once_flag s) (sg_next s)).

(** ** NetworkUtil *)

(** [atoi]: white space, a sign, digits; undefined if the value is no [int]. *)
Definition digit_of (c : ascii) : option Z :=
  let n := Z.of_nat (nat_of_ascii c) in
  if (48 <=? n) && (n <=? 57) then Some (n - 48) else None.
Fixpoint atoi_digits (acc : Z) (s : string) : Z :=
  match s with
  | EmptyString => acc
  | String c s' => match digit_of c with
                   | Some d => atoi_digits (10 * acc + d) s'
                   | None => acc
                   end
  end.
Definition atoi_sign (s : string) : Z * string :=
  match s with
  | String "-" s' => (-1, s')
  | String "+" s' => (1, s')
  | s' => (1, s')
  end.
Definition atoi {S} (s : string) : M S Z :=
  let '(sign, ds) := atoi_sign (trim s) in
  let v := sign * atoi_digits 0 ds in
  if (- 2 ^ 31 <=? v) && (v <? 2 ^ 31) then mret v
  else undefined "atoi: the value is not representable".

Class Tokenizer : Type := {
  tokenize : string → list string      (* boost::tokenizer<char_separator<char>> *)
}.

Section NetworkUtil.
Context `{Tokenizer} {S : Type}.

(** [std::vector::at] *)
Definition vector_at (l : list string) (i : nat) : M S string :=
  match l !! i with
  | Some s => mret s
  | None => throw (runtime_error "vector::at")
  end.

Definition isPrivateAddress (ip : string) : M S bool :=
  if bool_decide (ip = "") then mret false
  else
    let nums := filter (λ t, t ≠ ".") (tokenize ip) in
    if (length nums <? 4)%nat then mret false
    else
      a ← vector_at nums 0;
      if bool_decide (a = "169") then mret true
      else if bool_decide (a = "10") then mret true
      else if bool_decide (a = "172") then
        b ← vector_at nums 1;
        secNum ← atoi b;
        mret ((16 <=? secNum) && (secNum <=? 31))
      else if bool_decide (a = "192") then
        b ← vector_at nums 1;
        mret (bool_decide (b = "168"))
      else mret false.

(** The loop of [getAcceptorIP_first] over the local addresses. *)
Fixpoint first_public (ips : list string) : M S (option string) :=
  match ips with
  | [] => mret None
  | ip :: rest =>
      p ← isPrivateAddress ip;
      if negb p then mret (Some ip) else first_public rest
  end.

(** The choice among the local addresses. *)
Definition choose_address (ips : list string) : M S string :=
  if bool_decide (ips = []) then mret ""
  else
    r ← first_public ips;
    match r with
    | Some ip => mret ip
    | None => vector_at ips (length ips - 1)
    end.
End NetworkUtil.

(** What the resolver gives for the name of the host: nothing when it throws, or
    the endpoints as text, with whether they are of version 6. *)
Class HostResolver : Type := { resolve_host : option (list (bool * string)) }.

Section LocalAddresses.
Context `{Tokenizer} `{HostResolver}.

(** The state is what was printed. *)
Fixpoint address_loop (it : list (bool * string)) (ips : list string) : M (list string) (list string) :=
  match it with
  | [] => mret ips
  | (is_v6, addr) :: it =>
      modify (λ out, out ++ [(if (is_v6 : bool) then "ipv6:" else "ipv4:") +:+ addr]);;
      address_loop it (ips ++ [addr])
  end.
Definition getLocalAddresses (ips : list string) : M (list string) (list string * Z) :=
  match resolve_host with
  | None => throw (system_error "resolve")
  | Some it => ips ← address_loop it ips; mret (ips, s32 (Z.of_nat (length ips)))
  end.
Definition getAcceptorIP_first : M (list string) string :=
  '(ips, _) ← getLocalAddresses []; choose_address ips.
End LocalAddresses.

(** ** Flags *)
Section Flags.
Import flag_checker.

Lemma getFlagValue_run {S} f (s : S) : 0 ≤ f < 64 → getFlagValue f s = Done s (2 ^ f).
Proof.
  intros Hf. unfold getFlagValue.
  rewrite (proj2 (andb_true_iff _ _)) by (split; [apply Z.leb_le|apply Z.ltb_lt]; lia).
  rewrite ret_run. f_equal. rewrite Z.shiftl_1_l. apply u64_small. split; [apply Z.pow_nonneg; lia|].
  apply Z.pow_lt_mono_r; lia.
Qed.

Lemma isUsingFlag_run f c : 0 ≤ f < 64 → isUsingFlag f c = Done c (Z.testbit c f).
Proof.
  intros Hf. unfold isUsingFlag. run_step. rewrite getFlagValue_run by done. run_step. f_equal.
  assert (Hl : Z.land c (2 ^ f) = if Z.testbit c f then 2 ^ f else 0).
  { apply Z.bits_inj'. intros n Hn. rewrite Z.land_spec, Z.pow2_bits_eqb by lia.
    destruct (Z.eqb_spec f n) as [<-|Hne].
    - destruct (Z.testbit c f) eqn:E; rewrite ?Z.pow2_bits_true, ?Z.bits_0 by lia; done.
    - rewrite andb_false_r. destruct (Z.testbit c f); [|by rewrite Z.bits_0].
      by rewrite Z.pow2_bits_false. }
  rewrite Hl. destruct (Z.testbit c f); [|done].
  pose proof (Z.pow_pos_nonneg 2 f). by rewrite (proj2 (Z.eqb_neq _ _)) by lia.
Qed.

(** Adding a flag that is not set sets its bit. *)
Lemma add_clear_bit c f :
  0 ≤ c < 2 ^ 64 → 0 ≤ f < 64 → Z.testbit c f = false → u64 (c + 2 ^ f) = Z.setbit c f.
Proof.
  intros Hc Hf Hb.
  assert (E : c + 2 ^ f = Z.setbit c f).
  { rewrite Z.setbit_spec'. rewrite Z.add_nocarry_lxor, Z.lxor_lor; [done|..];
    (apply Z.bits_inj'; intros n Hn; rewrite Z.land_spec, Z.pow2_bits_eqb, Z.bits_0 by lia;
     destruct (Z.eqb_spec f n) as [<-|]; [by rewrite Hb|apply andb_false_r]). }
  rewrite E. apply u64_small. rewrite Z.setbit_spec'.
  assert (Hm : Z.lor c (2 ^ f) = Z.land (Z.lor c (2 ^ f)) (Z.ones 64)).
  { apply Z.bits_inj'. intros n Hn. rewrite Z.land_spec, Z.lor_spec, Z.testbit_ones_nonneg by lia.
    destruct (Z.ltb_spec n 64) as [|Hge]; [by rewrite andb_true_r|].
    rewrite andb_false_r, Z.pow2_bits_false by lia. rewrite orb_false_r.
    apply Z.bits_above_log2; [lia|]. destruct (decide (c = 0)) as [->|]; [simpl; lia|].
    apply Z.log2_lt_pow2; [lia|]. eapply Z.lt_le_trans; [apply Hc|]. apply Z.pow_le_mono_r; lia. }
  rewrite Hm, Z.land_ones by lia. apply Z.mod_pos_bound. lia.
Qed.

Lemma addFlags_run flags : ∀ c,
  0 ≤ c < 2 ^ 64 → NoDup flags → Forall (λ f, 0 ≤ f < 64 ∧ Z.testbit c f = false) flags →
  ∃ c', addFlags flags c = Done c' tt ∧ 0 ≤ c' < 2 ^ 64
    ∧ ∀ f, 0 ≤ f → Z.testbit c' f = Z.testbit c f || bool_decide (f ∈ flags).
Proof.
  induction flags as [|f flags IH]; intros c Hc Hnd Hall.
  { exists c. split; [done|]. split; [done|]. intros f Hf. rewrite bool_decide_false by set_solver.
    by rewrite orb_false_r. }
  apply NoDup_cons in Hnd as [Hnin Hnd]. apply Forall_cons in Hall as [[Hf Hb] Hall].
  assert (E : u64 (c + 2 ^ f) = Z.setbit c f) by by apply add_clear_bit.
  assert (Hset : 0 ≤ Z.setbit c f < 2 ^ 64) by (rewrite <- E; apply u64_bound).
  destruct (IH (Z.setbit c f)) as (c' & Erun & Hc' & Hbits); [done|done|..].
  - apply Forall_forall. intros g Hg. rewrite Forall_forall in Hall. destruct (Hall g Hg) as [Hg1 Hg2].
    split; [done|]. rewrite Z.setbit_eqb, Hg2 by lia. rewrite (proj2 (Z.eqb_neq _ _)); [done|].
    intros ->. done.
  - exists c'. split_and!; [|lia|lia|].
    + cbn [addFlags]. unfold addFlag. run_step. rewrite getFlagValue_run by done. run_step.
      by rewrite E.
    + intros g Hg. rewrite Hbits by done. rewrite Z.setbit_eqb by lia.
      destruct (Z.eqb_spec f g) as [->|Hne].
      * simpl. rewrite (bool_decide_true (g ∈ g :: flags)) by set_solver. by rewrite orb_true_r.
      * simpl. f_equal. apply bool_decide_ext. set_solver.
Qed.
End Flags.

(** Distinct flags added to an empty [flag_checker] are set, and no others. *)
Theorem addFlags_sets_exactly flags f :
  NoDup flags → Forall (λ f, 0 ≤ f < 64) flags → 0 ≤ f < 64 →
  ∃ c, flag_checker.addFlags flags flag_checker.new = Done c tt
    ∧ flag_checker.isUsingFlag f c = Done c (bool_decide (f ∈ flags)).
Proof.
  intros Hnd Hall Hf. destruct (addFlags_run flags 0) as (c & E & _ & Hbits); [done|done|..].
  { eapply Forall_impl; [exact Hall|]. intros g Hg. split; [done|]. apply Z.bits_0. }
  exists c. split; [done|]. rewrite isUsingFlag_run by done. by rewrite Hbits, Z.bits_0 by lia.
Qed.

Lemma addFlags_sets_exactly_witness :
  ∃ c, flag_checker.addFlags [1; 2] flag_checker.new = Done c tt
    ∧ flag_checker.isUsingFlag 0 c = Done c false.
Proof.
  apply (addFlags_sets_exactly [1; 2] 0).
  - repeat constructor; set_solver.
  - repeat constructor; lia.
  - lia.
Defined.

(** A flag added twice is not set any more: the container is a sum, and the second
    addition carries into the next flag. *)
Theorem addFlag_twice_carries f :
  0 ≤ f < 63 →
  ∃ c, flag_checker.addFlags [f; f] flag_checker.new = Done c tt
    ∧ flag_checker.isUsingFlag f c = Done c false
    ∧ flag_checker.isUsingFlag (f + 1) c = Done c true.
Proof.
  intros Hf. exists (2 ^ (f + 1)).
  assert (H1 : 0 < 2 ^ f) by (apply Z.pow_pos_nonneg; lia).
  assert (H2 : 2 ^ (f + 1) < 2 ^ 64) by (apply Z.pow_lt_mono_r; lia).
  assert (E : 2 ^ (f + 1) = 2 ^ f + 2 ^ f) by (rewrite Z.pow_add_r by lia; lia).
  split.
  - cbn [flag_checker.addFlags]. unfold flag_checker.addFlag. run_step.
    rewrite getFlagValue_run by lia. run_step. rewrite getFlagValue_run by lia. run_step.
    f_equal. unfold flag_checker.new. rewrite (u64_small (0 + 2 ^ f)) by lia.
    rewrite u64_small by lia. lia.
  - rewrite !isUsingFlag_run by lia. split.
    + by rewrite Z.pow2_bits_false by lia.
    + by rewrite Z.pow2_bits_true by lia.
Qed.

Lemma addFlag_twice_carries_witness :
  ∃ c, flag_checker.addFlags [2; 2] flag_checker.new = Done c tt
    ∧ flag_checker.isUsingFlag 2 c = Done c false
    ∧ flag_checker.isUsingFlag (2 + 1) c = Done c true.
Proof. apply (addFlag_twice_carries 2). lia. Defined.

(** ** Singletons *)

(** What a client may do. *)
Inductive singleton_op : Type := OpInstance | OpRelease.
Definition singleton_run (o : singleton_op) : M SingletonState (option N) :=
  match o with
  | OpInstance => Singleton_instance
  | OpRelease => Singleton_Release;; mret None
  end.
Fixpoint singleton_runs (os : list singleton_op) : M SingletonState unit :=
  match os with
  | [] => mret tt
  | o :: os' => _ ← singleton_run o; singleton_runs os'
  end.

Lemma singleton_runs_released os : ∀ n,
  singleton_runs os (mkSingletonState None true n) = Done (mkSingletonState None true n) tt.
Proof. induction os as [|[] os IH]; intros n; [done|..]; cbn; apply IH. Qed.

(** Once [Release] has been called on a [Singleton] that had an instance, [instance] returns
    a null pointer for ever: the [once_flag] stays set. *)
Theorem Singleton_Release_final os s :
  sg_once_flag s = true →
  (_ ← Singleton_Release; _ ← singleton_runs os; Singleton_instance) s
  = Done (mkSingletonState None true (sg_next s)) None.
Proof.
  destruct s as [i b n]. simpl. intros ->. unfold Singleton_Release. run_step. cbn [sg_once_flag sg_next].
  by rewrite singleton_runs_released.
Qed.

Lemma Singleton_Release_final_witness :
  (_ ← Singleton_Release; _ ← singleton_runs [OpInstance; OpRelease]; Singleton_instance)
    (mkSingletonState (Some 0%N) true 1%N)
  = Done (mkSingletonState None true 1) None.
Proof. apply (Singleton_Release_final [OpInstance; OpRelease] (mkSingletonState (Some 0%N) true 1%N)). reflexivity. Defined.

Lemma SingletonLight_never_null s :
  ∃ p s', SingletonLight_instance s = Done s' (Some p) ∧ sg_instance s' = Some p
    ∧ (is_Some (sg_instance s) → s' = s).
Proof.
  destruct s as [[p|] b n]; cbn.
  - by exists p, (mkSingletonState (Some p) b n).
  - exists n, (mkSingletonState (Some n) b (N.succ n)). split_and!; [done..|]. by intros [].
Qed.

(** ** Addresses *)

(** What the documentation of [boost::tokenizer] says of the default
    separators: punctuation is kept as tokens of one character, so a dotted
    quad gives its numbers with dots between. *)
Definition dotted (a b c d : string) : string := a +:+ "." +:+ b +:+ "." +:+ c +:+ "." +:+ d.
Definition is_number (s : string) : bool :=
  negb (bool_decide (s = "")) && forallb (λ c, match digit_of c with Some _ => true | None => false end)
    (String.list_ascii_of_string s).
Definition tokenizes_quads `{Tokenizer} : Prop := ∀ a b c d,
  is_number a = true → is_number b = true → is_number c = true → is_number d = true →
  tokenize (dotted a b c d) = [a; "."; b; "."; c; "."; d].

(** What counts as private: 10/8, 172.16/12, 192.168/16 and all of 169/8. *)
Definition private_quad (a b : string) (second : Z) : bool :=
  bool_decide (a = "169") || bool_decide (a = "10")
  || bool_decide (a = "172") && ((16 <=? second) && (second <=? 31))
  || bool_decide (a = "192") && bool_decide (b = "168").

Lemma is_number_dot s : is_number s = true → s ≠ ".".
Proof. intros H ->. done. Qed.

Section Addresses.
Context `{Tokenizer} {S : Type} (Htok : tokenizes_quads).

Lemma nums_of_quad a b c d :
  is_number a = true → is_number b = true → is_number c = true → is_number d = true →
  filter (λ t, t ≠ ".") (tokenize (dotted a b c d)) = [a; b; c; d].
Proof.
  intros Ha Hb Hc Hd. rewrite Htok by done.
  assert (Hdot : ¬ ("." ≠ ".")) by (intros Hn; by apply Hn).
  apply is_number_dot in Ha, Hb, Hc, Hd.
  rewrite !filter_cons. repeat case_decide; done.
Qed.

(** On dotted quads of numbers, [isPrivateAddress] says whether the address is in one of
    the private ranges (and does not fail) as long as the second number is an [int]. *)
Theorem isPrivateAddress_quad a b c d (s : S) second :
  is_number a = true → is_number b = true → is_number c = true → is_number d = true →
  atoi b s = Done s second →
  isPrivateAddress (dotted a b c d) s = Done s (private_quad a b second).
Proof.
  intros Ha Hb Hc Hd Hat. unfold isPrivateAddress.
  rewrite bool_decide_false by (by destruct a). cbv zeta. rewrite nums_of_quad by done.
  change (length [a; b; c; d] <? 4)%nat with false. cbv iota.
  unfold vector_at, private_quad. cbn [lookup list_lookup]. rewrite bind_run, ret_run. cbn [bind_outcome].
  destruct (decide (a = "169")) as [->|H1]; [done|]. rewrite (bool_decide_false (a = "169")) by done.
  destruct (decide (a = "10")) as [->|H2]; [done|]. rewrite (bool_decide_false (a = "10")) by done.
  destruct (decide (a = "172")) as [->|H3].
  { rewrite (bool_decide_true ("172" = "172")) by done. run_step. rewrite Hat. run_step.
    by rewrite orb_false_r. }
  rewrite (bool_decide_false (a = "172")) by done.
  destruct (decide (a = "192")) as [->|H4]; [done|]. by rewrite (bool_decide_false (a = "192")).
Qed.

(** The address that is chosen: the first that is not private, else the last. *)
Definition chosen (private : string → bool) (ips : list string) : string :=
  match filter (λ ip, private ip = false) ips with
  | ip :: _ => ip
  | [] => default "" (last ips)
  end.
Lemma first_public_run private ips (s : S) :
  (∀ ip, ip ∈ ips → isPrivateAddress ip s = Done s (private ip)) →
  first_public ips s = Done s (head (filter (λ ip, private ip = false) ips)).
Proof.
  induction ips as [|ip ips IH]; intros Hp; [done|]. cbn [first_public]. rewrite bind_run, Hp by by left.
  cbn [bind_outcome]. rewrite filter_cons. destruct (private ip) eqn:E; cbn [negb]; [|by rewrite decide_True].
  rewrite decide_False by done. apply IH. intros ip' Hi. apply Hp. by right.
Qed.
Lemma choose_address_run private ips (s : S) :
  (∀ ip, ip ∈ ips → isPrivateAddress ip s = Done s (private ip)) →
  choose_address ips s = Done s (chosen private ips).
Proof.
  intros Hp. unfold choose_address, chosen. case_bool_decide as Hi; [by subst|].
  rewrite bind_run, (first_public_run private) by done. cbn [bind_outcome].
  destruct (filter _ ips) as [|ip rest]; cbn [head]; [|done]. unfold vector_at.
  destruct (exists_last Hi) as (l & ip & ->). rewrite length_app. cbn [length].
  replace (length l + 1 - 1)%nat with (length l) by lia. by rewrite list_lookup_middle, last_snoc.
Qed.
End Addresses.

(** What is printed of an address. *)
Definition address_line (a : bool * string) : string := (if fst a then "ipv6:" else "ipv4:") +:+ snd a.
Lemma address_loop_run it : ∀ ips out,
  address_loop it ips out = Done (out ++ (address_line <$> it)) (ips ++ it.*2).
Proof.
  induction it as [|[v6 a] it IH]; intros ips out; [by rewrite !app_nil_r|]. cbn [address_loop]. run_step.
  rewrite IH. cbn [fmap list_fmap address_line fst snd]. by rewrite <- !app_assoc.
Qed.

(** The address of the server is the first local one that is not private, or the last if all are, the
    empty text if there is none; every address is printed.  What the resolver throws leaves the function. *)
Theorem getAcceptorIP_chooses `{Tokenizer} `{HostResolver} private it out :
  resolve_host = Some it →
  (∀ ip, ip ∈ it.*2 → ∀ s : list string, isPrivateAddress ip s = Done s (private ip)) →
  getAcceptorIP_first out = Done (out ++ (address_line <$> it)) (chosen private it.*2).
Proof.
  intros Hr Hp. unfold getAcceptorIP_first, getLocalAddresses. rewrite Hr. run_step.
  rewrite address_loop_run. run_step. apply choose_address_run. intros ip Hi. by apply Hp.
Qed.
Theorem getAcceptorIP_throws `{Tokenizer} `{HostResolver} out :
  resolve_host = None → getAcceptorIP_first out = Threw out (system_error "resolve").
Proof. intros Hr. unfold getAcceptorIP_first, getLocalAddresses. by rewrite Hr. Qed.

(** A tokenizer that splits at dots. *)
Fixpoint split_dots (cur : string) (s : string) : list string :=
  match s with
  | EmptyString => [cur]
  | String c s' =>
      if bool_decide (c = "."%char) then cur :: "." :: split_dots "" s'
      else split_dots (cur +:+ String c "") s'
  end.
Definition dot_tokenizer : Tokenizer := {| tokenize := split_dots "" |}.

Lemma string_app_empty s : s +:+ "" = s.
Proof. induction s as [|c s IH]; [done|]. exact (f_equal (String c) IH). Qed.
Lemma string_app_char s c t : (s +:+ String c "") +:+ t = s +:+ String c t.
Proof. induction s as [|d s IH]; [done|]. exact (f_equal (String d) IH). Qed.

Lemma split_dots_number n rest : is_number n = true ∨ n = "" → ∀ cur,
  split_dots cur (n +:+ "." +:+ rest) = (cur +:+ n) :: "." :: split_dots "" rest.
Proof.
  intros Hn. assert (Hd : forallb (λ c, match digit_of c with Some _ => true | None => false end)
    (String.list_ascii_of_string n) = true).
  { destruct Hn as [Hn| ->]; [|done]. unfold is_number in Hn. by apply andb_true_iff in Hn as [_ ?]. }
  clear Hn. induction n as [|c n IH]; intros cur; simpl.
  { by rewrite string_app_empty. }
  simpl in Hd. apply andb_true_iff in Hd as [Hc Hd].
  rewrite bool_decide_false by (intros ->; vm_compute in Hc; discriminate). rewrite IH by done.
  by rewrite string_app_char.
Qed.

Lemma split_dots_last n : is_number n = true → ∀ cur, split_dots cur n = [cur +:+ n].
Proof.
  unfold is_number. intros Hd%andb_true_iff. destruct Hd as [_ Hd].
  induction n as [|c n IH]; intros cur; simpl.
  { by rewrite string_app_empty. }
  simpl in Hd. apply andb_true_iff in Hd as [Hc Hd].
  rewrite bool_decide_false by (intros ->; vm_compute in Hc; discriminate). rewrite IH by done.
  by rewrite string_app_char.
Qed.

Lemma dot_tokenizer_quads : @tokenizes_quads dot_tokenizer.
Proof.
  intros a b c d Ha Hb Hc Hd. unfold dotted, tokenize, dot_tokenizer.
  rewrite !split_dots_number by auto. by rewrite split_dots_last.
Qed.

Lemma isPrivateAddress_quad_witness :
  @isPrivateAddress dot_tokenizer unit "172.20.0.1" tt = Done tt true.
Proof.
  exact (@isPrivateAddress_quad dot_tokenizer unit dot_tokenizer_quads "172" "20" "0" "1" tt 20
           eq_refl eq_refl eq_refl eq_refl eq_refl).
Defined.
