(* ===== verification/TestInterface.v ===== *)
(** * The test interface

    Models net/test_interface.{h,cpp} ([TestIntarface]),
    lobbysvr/watchDogHandler.cpp and lobbysvr/keyEventHandler.cpp: a console
    over TCP that echoes lines, and a key that stops the io_service.  The
    callbacks are known by name.  [waitKeyboardEvent] is empty outside
    Windows, and the thread that accepts console connections is reduced to the
    fact that it was started.  [watchDogSession] is the loop of one console,
    on the reads it makes. *)
From stdpp Require Import strings list.
From coqutil Require Import Byte.
From Stdlib Require Import Ascii.
From S2P Require Import Prelude.
From S2P Require Import MlnUtils.
#[local] Open Scope Z_scope.

(** ** The interface object *)
Module FUNC.
Definition wait_keyboardEvent : Z := 1.
Definition watchdog : Z := 2.
End FUNC.

Inductive key_callback : Type := keyEventHandler_processKey.
Inductive console_callback : Type := watchDogHandler_inputLine.

Record TestIntarface : Type := mkTestIntarface {
  m_ios : option N;
  m_usingFunctions : Z;
  m_keybaoardEventCallback : option key_callback;
  m_watchDogEventCallback : option console_callback;
  m_watchDogPort : Z;
  watchdog_threads : nat
}.
Definition TestIntarface_new : TestIntarface := mkTestIntarface None 0 None None 0 0.

Definition getFuncValue (funcValue : Z) : Z := u64 (Z.shiftl 1 funcValue).
Definition isUsingFunc (funcValue : Z) (t : TestIntarface) : bool :=
  negb (0 =? Z.land (m_usingFunctions t) (getFuncValue funcValue)).

Definition addUsingFunc (funcValue : Z) : M TestIntarface unit :=
  modify (λ '(mkTestIntarface i u k c p n), mkTestIntarface i (u64 (u + getFuncValue funcValue)) k c p n).
Fixpoint addUsingFuncs (funcs : list Z) : M TestIntarface unit :=
  match funcs with
  | [] => mret tt
  | f :: funcs' => addUsingFunc f;; addUsingFuncs funcs'
  end.

Definition setMyKeyEventCallback (cb : key_callback) : M TestIntarface unit :=
  modify (λ '(mkTestIntarface i u _ c p n), mkTestIntarface i u (Some cb) c p n).
Definition setWatchDogEventCallback (cb : console_callback) (port : Z) : M TestIntarface unit :=
  modify (λ '(mkTestIntarface i u k _ _ n), mkTestIntarface i u k (Some cb) port n).

Definition waitKeyboardEvent : M TestIntarface unit := mret tt.
Definition startWatchdogService : M TestIntarface unit :=
  modify (λ '(mkTestIntarface i u k c p n), mkTestIntarface i u k c p (S n)).

Definition TestIntarface_start (ios : option N) (funcs : list Z) : M TestIntarface unit :=
  modify (λ '(mkTestIntarface _ u k c p n), mkTestIntarface ios u k c p n);;
  addUsingFuncs funcs;;
  t ← get_state;
  (if isUsingFunc FUNC.wait_keyboardEvent t then waitKeyboardEvent else mret tt);;
  t ← get_state;
  (if isUsingFunc FUNC.watchdog t then startWatchdogService else mret tt).

(** ** Keys: the state is whether the io_service is stopped *)
Definition ESC : Z := 0x1B.
Definition stop_if_running : M bool unit :=
  stopped ← get_state; if (stopped : bool) then mret tt else put_state true.
Definition defaultKeyboardEventHandler (vKey : Z) : M bool unit :=
  if vKey =? ESC then stop_if_running else mret tt.
Definition keyboardEventHandler (vKey : Z) : M bool unit := defaultKeyboardEventHandler vKey.
(** [m_ios] is weak: [alive] is what [lock] gives. *)
Definition processKey (alive : bool) (vKey : Z) : M bool unit :=
  if vKey =? ESC then (if alive then stop_if_running else mret tt) else mret tt.

Definition keyEventHandler_registCallback : M TestIntarface unit :=
  setMyKeyEventCallback keyEventHandler_processKey.
Definition watchDogHandler_registCallback (port : Z) : M TestIntarface unit :=
  setWatchDogEventCallback watchDogHandler_inputLine port.

(** ** Lines *)
Definition CR : ascii := ascii_of_nat 13.
Definition LF : ascii := ascii_of_nat 10.
Definition endline : string := String CR (String LF EmptyString).

Definition inputLine (inputMsg : string) : string :=
  if bool_decide (inputMsg = "help") || bool_decide (inputMsg = "h") then
    endline +:+ "<< Command List >>" +:+ endline +:+ "status" +:+ endline +:+ "init DB"
    +:+ endline +:+ endline +:+ "u can close socket by typeing 'Ctrl + C' or 'Ctrl + Z'"
    +:+ endline +:+ endline
  else inputMsg.

Definition run_console_callback (cb : console_callback) : string → string :=
  match cb with watchDogHandler_inputLine => inputLine end.

(** ** A console session *)

(** [read_some] gives an error, the end of the stream, or bytes. *)
Inductive read_result : Type := ReadEof | ReadError | ReadData (data : list byte).

Definition max_length : Z := 4096.
Definition is_newline (c : ascii) : bool := bool_decide (c = CR) || bool_decide (c = LF).

(** [find_first_of] the two characters. *)
Fixpoint find_first_newline (s : string) : option nat :=
  match s with
  | EmptyString => None
  | String c s' => if is_newline c then Some 0%nat else S <$> find_first_newline s'
  end.
(** [erase(0, n)] *)
Fixpoint string_erase (n : nat) (s : string) : string :=
  match n, s with
  | S n', String _ s' => string_erase n' s'
  | _, _ => s
  end.
Fixpoint string_take (n : nat) (s : string) : string :=
  match n, s with
  | S n', String c s' => String c (string_take n' s')
  | _, _ => EmptyString
  end.

(** The state is what was written to the socket. *)
Definition sock_write (s : string) : M (list string) unit := modify (λ out, out ++ [s]).

(** What an iteration does with [recv_cmd] once the bytes are there. *)
Definition console_line (callback : string → string) (recv_cmd : string)
    : M (list string) string :=
  match find_first_newline recv_cmd with
  | None => mret recv_cmd
  | Some O => mret EmptyString
  | Some pos =>
      let cmd := string_take pos recv_cmd in
      sock_write (callback cmd +:+ endline);;
      mret (string_erase (pos + 2) recv_cmd)
  end.

(** The local array [data], zeroed before each read. *)
Definition console_bytes (data : list byte) : M (list string) string :=
  string_of_array (data ++ replicate (Z.to_nat max_length - length data) Byte.x00).

Definition is_control (data : list byte) : bool :=
  bool_decide (data = [Byte.x03]) || bool_decide (data = [Byte.x1a]).

(** The loop on the reads still to come; without one the session waits. *)
Fixpoint console_loop (callback : string → string) (reads : list read_result) (recv_cmd : string)
    : M (list string) string :=
  match reads with
  | [] => mret recv_cmd
  | ReadEof :: _ => mret recv_cmd
  | ReadError :: _ => mret recv_cmd          (* thrown, caught, logged *)
  | ReadData data :: reads' =>
      if is_control data then sock_write "good-bye~";; mret recv_cmd
      else
        s ← console_bytes data;
        recv_cmd' ← console_line callback (recv_cmd +:+ s);
        console_loop callback reads' recv_cmd'
  end.

Definition hiMsg : string :=
  "Hi~ this is watchDog Interface. Type 'help' or 'h' and check functions" +:+ endline.
Definition watchDogSession (cb : console_callback) (reads : list read_result)
    : M (list string) string :=
  sock_write hiMsg;; console_loop (run_console_callback cb) reads "".

(** ** Lemmas *)
Fixpoint no_newline (s : string) : bool :=
  match s with
  | EmptyString => true
  | String c s' => negb (is_newline c) && no_newline s'
  end.

Lemma find_first_newline_line s t :
  no_newline s = true → find_first_newline (s +:+ String CR t) = Some (String.length s).
Proof.
  induction s as [|c s IH]; [done|]. intros [Hc Hs]%andb_true_iff.
  change (find_first_newline (String c s +:+ String CR t))
    with (if is_newline c then Some 0%nat else S <$> find_first_newline (s +:+ String CR t)).
  apply negb_true_iff in Hc. rewrite Hc, IH by done. done.
Qed.

Lemma string_take_app s t : string_take (String.length s) (s +:+ t) = s.
Proof. induction s as [|c s IH]; [by destruct t|]. exact (f_equal (String c) IH). Qed.

Lemma string_erase_app s t n :
  string_erase (String.length s + n) (s +:+ t) = string_erase n t.
Proof. induction s as [|c s IH]; [done|]. exact IH. Qed.

(** The bytes of a line the console sends in one piece. *)
Definition line_bytes (s : string) : list byte := string_bytes (s +:+ endline).

(** A line that fits a read, is not empty and has no NUL. *)
Definition line_ok (s : string) : bool :=
  no_newline s && negb (bool_decide (s = "")) && negb (has_nul (line_bytes s))
  && (zlen (line_bytes s) <? max_length).

Lemma console_bytes_line s out :
  line_ok s = true → console_bytes (line_bytes s) out = Done out (s +:+ endline).
Proof.
  unfold line_ok. intros [[[_ _]%andb_true_iff Hn]%andb_true_iff Hl]%andb_true_iff.
  apply negb_true_iff in Hn. apply Z.ltb_lt in Hl. unfold console_bytes.
  rewrite string_of_array_padded; [|unfold zlen in Hl; lia|done].
  rewrite ret_run. f_equal. apply bytes_string_bytes.
Qed.

Lemma console_line_line callback s out :
  line_ok s = true →
  console_line callback (s +:+ endline) out = Done (out ++ [callback s +:+ endline]) "".
Proof.
  unfold line_ok. intros [[[Hn He]%andb_true_iff _]%andb_true_iff _]%andb_true_iff.
  unfold console_line, endline at 1. rewrite find_first_newline_line by done.
  destruct (String.length s) as [|n] eqn:E.
  { destruct s; [done|discriminate]. }
  rewrite <- E. unfold sock_write. run_step.
  by rewrite string_take_app, string_erase_app.
Qed.

Lemma is_control_line s : line_ok s = true → is_control (line_bytes s) = false.
Proof.
  intros _. unfold is_control, line_bytes.
  assert (Hl : (2 ≤ length (string_bytes (s +:+ endline)))%nat).
  { induction s as [|c s IH]; [done|]. change (length (string_bytes (String c s +:+ endline)))
      with (S (length (string_bytes (s +:+ endline)))). lia. }
  apply orb_false_iff; split; apply bool_decide_eq_false; intros E; rewrite E in Hl; simpl in Hl; lia.
Qed.

Lemma console_loop_lines callback lines : ∀ reads out,
  forallb line_ok lines = true →
  console_loop callback ((λ s, ReadData (line_bytes s)) <$> lines ++ reads) "" out
  = console_loop callback ((λ s, ReadData (line_bytes s)) <$> reads) ""
      (out ++ ((λ s, callback s +:+ endline) <$> lines)).
Proof.
  induction lines as [|s lines IH]; intros reads out Hl; simpl in *; [by rewrite app_nil_r|].
  apply andb_true_iff in Hl as [Hs Hl]. rewrite is_control_line by done.
  run_step. rewrite console_bytes_line by done. run_step.
  change ("" +:+ (s +:+ endline)) with (s +:+ endline).
  rewrite console_line_line by done. run_step. rewrite IH by done. by rewrite <- app_assoc.
Qed.

(** A console that sends one line at a time, ended by CR LF, gets the greeting and then
    one answer per line, in order; nothing is kept back. *)
Theorem watchDogSession_answers cb lines :
  forallb line_ok lines = true →
  watchDogSession cb ((λ s, ReadData (line_bytes s)) <$> lines) []
  = Done (hiMsg :: ((λ s, run_console_callback cb s +:+ endline) <$> lines)) "".
Proof.
  intros Hl. unfold watchDogSession, sock_write. run_step.
  rewrite <- (app_nil_r lines) at 1. by rewrite console_loop_lines.
Qed.

Lemma watchDogSession_answers_witness :
  watchDogSession watchDogHandler_inputLine
    ((λ s, ReadData (line_bytes s)) <$> ["status"; "x"]) []
  = Done [hiMsg; "status" +:+ endline; "x" +:+ endline] "".
Proof.
  exact (watchDogSession_answers watchDogHandler_inputLine ["status"; "x"] eq_refl).
Defined.

(** Two lines in one piece: only the first is answered, the second waits for
    more bytes. *)
Example two_lines_one_answer :
  watchDogSession watchDogHandler_inputLine [ReadData (line_bytes "a" ++ line_bytes "b")] []
  = Done [hiMsg; "a" +:+ endline] ("b" +:+ endline).
Proof. vm_compute. reflexivity. Qed.

(** [start] called again with the functions already in use turns them off: their bits are
    added, not set. *)
Theorem start_twice_toggles ios t f :
  f = FUNC.wait_keyboardEvent ∨ f = FUNC.watchdog → m_usingFunctions t = 0 →
  ∃ t1 t2, TestIntarface_start ios [f] t = Done t1 tt ∧ isUsingFunc f t1 = true
    ∧ TestIntarface_start ios [f] t1 = Done t2 tt ∧ isUsingFunc f t2 = false.
Proof.
  intros Hf Hu. destruct t as [i u k c p n]. simpl in Hu. subst u.
  by destruct Hf as [-> | ->]; eexists _, _; split_and!; try reflexivity.
Qed.

Lemma start_twice_toggles_witness :
  ∃ t1 t2, TestIntarface_start (Some 0%N) [FUNC.watchdog] TestIntarface_new = Done t1 tt
    ∧ isUsingFunc FUNC.watchdog t1 = true
    ∧ TestIntarface_start (Some 0%N) [FUNC.watchdog] t1 = Done t2 tt
    ∧ isUsingFunc FUNC.watchdog t2 = false.
Proof. apply (start_twice_toggles (Some 0%N) TestIntarface_new FUNC.watchdog); [right|]; reflexivity. Defined.
