(* ===== verification/Server.v ===== *)
(** * The lobby server

    Models lobbysvr/main.cpp: the application state, the two services with
    their receivers and parsers, and the start of the program up to
    [NetService::runService].  From there on the io_service runs: the steps of
    NetServiceSafety.v with the tables [receiver_at] and [msgProc_at] of this
    file.  The build does not define [USE_CONNECTOR_FOR_BROKER]: its start is
    [main]; [main_broker] is the start of a build that does, which also connects
    to the broker. *)
From stdpp Require Import gmap strings list.
From S2P Require Import Prelude.
From S2P Require Import MessageBuffer.
From S2P Require Import PacketHeader.
From S2P Require Import Connection.
From S2P Require Import MessageProcedure.
From S2P Require Import EventReceiver.
From S2P Require Import IoService.
From S2P Require Import ConnectionImpl.
From S2P Require Import NetService.
From S2P Require Import Json.
From S2P Require Import LobbyState.
From S2P Require Import LobbyHandlers.
From S2P Require Import BrokerConnector.
From S2P Require Import LobbyAcceptorReceiver.
From S2P Require Import PacketParserJson.
From S2P Require Import Environment.
From S2P Require Import TestInterface.
#[local] Open Scope Z_scope.

(** ** The application *)
Record App : Type := mkApp {
  app_services : NetServices;
  app_lobby : LobbyState;
  app_env : Environment;
  app_test : TestIntarface
}.
Definition App_init : App :=
  mkApp NetServices_init (LobbyState_init 0) Environment_new TestIntarface_new.

Definition set_app_services (s : NetServices) (a : App) : App :=
  mkApp s (app_lobby a) (app_env a) (app_test a).
Definition set_app_lobby (l : LobbyState) (a : App) : App :=
  mkApp (app_services a) l (app_env a) (app_test a).
Definition set_app_env (e : Environment) (a : App) : App :=
  mkApp (app_services a) (app_lobby a) e (app_test a).
Definition set_app_test (t : TestIntarface) (a : App) : App :=
  mkApp (app_services a) (app_lobby a) (app_env a) t.

#[export] Instance App_services : HasServices App := {|
  services_of := app_services;
  with_services := set_app_services
|}.
#[export] Instance App_lobby : HasLobby (NetWorld App) := {|
  lobby_of w := app_lobby (nw_app w);
  with_lobby l w := set_app (set_app_lobby l (nw_app w)) w
|}.

Section Server.
Context `{FreshMemory} `{Jsoncpp} `{!Sockets} `{PropertyTree}.
Local Abbreviation W := (NetWorld App).

(** A connection object is not freed in the model, so a weak pointer to one
    that was created can be locked. *)
#[export] Instance App_weak : WeakConnection W := {|
  weak_lock c := w ← get_state; mret (match nw_conns w !! c with Some _ => Some c | None => None end)
|}.
#[export] Instance App_time : LocalTime W := {| getLocalTimeSec := clock_now |}.
#[export] Instance App_api : NetServiceApi W := {|
  api_getConnector := getConnector;
  api_connectWait p sessionCnt workerThreadsCount := connectWait p sessionCnt workerThreadsCount 0
|}.

(** ** The tables of receivers and message procedures *)
Definition LOBBY_RECEIVER : RecvPtr := 0%N.
Definition BROKER_RECEIVER : RecvPtr := 1%N.
Definition LOBBY_MSGPROC : MsgProcPtr := 0%N.
Definition BROKER_MSGPROC : MsgProcPtr := 1%N.

Definition receiver_at (r : RecvPtr) : EventReceiver W :=
  if bool_decide (r = LOBBY_RECEIVER) then
    service_receiver (EventReceiverAcceptorRegister LobbyAcceptorReceiver_functions)
  else if bool_decide (r = BROKER_RECEIVER) then
    service_receiver (EventReceiverConnectorRegister BrokerConnector_functions)
  else EventReceiverDummy.

#[export] Instance App_receiver : ConnectionReceiver W := {|
  conn_getReceiver := ConnectionImpl_getReceiver receiver_at
|}.

Definition msgProc_at (p : MsgProcPtr) : MessageProcedure W :=
  if bool_decide (p = LOBBY_MSGPROC) then
    MessageProcedure_new (Some packetParser_notUseEncTest) (Some json_getMsgManipulatorTest)
  else if bool_decide (p = BROKER_MSGPROC) then
    MessageProcedure_new (Some packetParser_brokerTest) (Some json_getMsgManipulatorTest)
  else MessageProcedure_new None None.

(** ** Starting *)
Definition shared_ios : IosPtr := 0%N.
(** [ACCPETOR_IDX] and [boost::thread::hardware_concurrency()] *)
Definition ACCPETOR_IDX_LOBBY : Z := 1.
Context (hardware_concurrency : Z).

Definition on_test {A} (m : M TestIntarface A) : M W A :=
  zoom (λ w, app_test (nw_app w)) (λ t w, set_app (set_app_test t (nw_app w)) w) m.

Definition initTestInterface : M W unit :=
  w ← get_state;
  port ← deref "m_testInterfacePort is not initialised" (m_testInterfacePort (app_env (nw_app w)));
  on_test
    (watchDogHandler_registCallback port;;
     keyEventHandler_registCallback;;
     TestIntarface_start (Some shared_ios) [FUNC.watchdog]).

Definition registAcceptorReceiver (acceptorIDX : Z) (setting : MLN_SvrSetting)
    : M W (option ServicePtr) :=
  active ← deref "activate is not initialised" (activate setting);
  if negb active then mret None
  else
    let serviceInitParams := mkServiceParams shared_ios LOBBY_RECEIVER LOBBY_MSGPROC
      (Some json_getMsgManipulatorTest) (tick_time_ms setting) (keep_alive_ms setting) in
    let acceptorParams := mkAcceptorUserParams "" (listenPort setting)
      (if negb (0 =? workers setting) then workers setting
       else u32 (hardware_concurrency * 2)) true in
    acceptor ← createAcceptor receiver_at hardware_concurrency acceptorIDX serviceInitParams
                 acceptorParams;
    upd_lobby (set_encType EncType.GREETING);;
    mret acceptor.

Definition registConnectorReceiver (connectorIDX : Z) (setting : MLN_SvrSetting)
    : M W (option ServicePtr) :=
  active ← deref "activate is not initialised" (activate setting);
  if negb active then mret None
  else
    let connectorSvcParams := mkServiceParams shared_ios BROKER_RECEIVER BROKER_MSGPROC
      (Some json_getMsgManipulatorTest) 1000 0 in
    let connectorParams := mkConnectorUserParams (addr setting) (listenPort setting) in
    connector ← createConnector receiver_at connectorIDX connectorSvcParams connectorParams;
    BrokerConnector_tryConnect 1 0;;
    mret connector.

(** Up to the call of [ios.run()]; the value is what the function returns
    when the io_service has stopped. *)
Definition ioServiceThread : M W bool :=
  w ← get_state;
  lobbyAcceptor ← registAcceptorReceiver ACCPETOR_IDX_LOBBY (m_svrLobby (app_env (nw_app w)));
  runService;;
  mret true.

(** The same in a build with [USE_CONNECTOR_FOR_BROKER]. *)
Definition ioServiceThread_broker : M W bool :=
  w ← get_state;
  lobbyAcceptor ← registAcceptorReceiver ACCPETOR_IDX_LOBBY (m_svrLobby (app_env (nw_app w)));
  match lobbyAcceptor with
  | Some _ =>
      _ ← registConnectorReceiver BROKER_CONNECTOR (m_svrBroker (app_env (nw_app w)));
      mret tt
  | None => mret tt
  end;;
  runService;;
  mret true.

(** The handlers read the client version from the environment; it does not
    change after [Initialize]. *)
Definition publish_clientVersion : M W unit :=
  w ← get_state;
  match env_clientVersion (app_env (nw_app w)) with
  | Some v => upd_lobby (λ l, mkLobbyState (l_heap l) (m_users l) (m_nodeToUserMap l) (m_user l)
                (g_idx4Broker l) (lobby_URLs l) (broker_URLs l) (m_encType l) v)
  | None => mret tt
  end.

(** [initLogService]: the logger is commented out. *)
Definition initLogService (path : string) : M W bool := mret true.

(** [main]: the exit code; [thread] is [ioServiceThread] of the build. *)
Definition main_with (thread : M W bool) (confPath : string) : M W Z :=
  logs ← initLogService confPath;
  if negb logs then mret 0
  else
    ok ← zoom (λ w, app_env (nw_app w)) (λ e w, set_app (set_app_env e (nw_app w)) w)
           (Environment_Initialize confPath);
    if negb ok then mret 0
    else
      publish_clientVersion;;
      initTestInterface;;
      r ← thread;
      mret (if (r : bool) then 1 else 0).
Definition main : string → M W Z := main_with ioServiceThread.
Definition main_broker : string → M W Z := main_with ioServiceThread_broker.
End Server.
