(* ===== verification/ServerProperties.v ===== *)
(** * The lobby server as a whole

    The receivers and the packet parsers that main.cpp installs keep the
    frame condition of ConnectionSafety.v, so that what NetProperties.v proves
    for any application holds for the lobby server. *)
From stdpp Require Import gmap strings list.
From coqutil Require Import Byte.
From S2P Require Import Prelude.
From S2P Require Import MessageBuffer.
From S2P Require Import PacketHeader.
From S2P Require Import Connection.
From S2P Require Import MessageProcedure.
From S2P Require Import EventReceiver.
From S2P Require Import IoService.
From S2P Require Import ConnectionImpl.
From S2P Require Import ConnectionSafety.
From S2P Require Import NetService.
From S2P Require Import NetKeeps.
From S2P Require Import NetServiceSafety.
From S2P Require Import Json.
From S2P Require Import LobbyState.
From S2P Require Import LobbyHandlers.
From S2P Require Import BrokerConnector.
From S2P Require Import LobbyAcceptorReceiver.
From S2P Require Import PacketParserSimple.
From S2P Require Import PacketParserJson.
From S2P Require Import LobbySafety.
From S2P Require Import Environment.
From S2P Require Import Server.
#[local] Open Scope Z_scope.

Section Server.
Context `{FreshMemory} `{Jsoncpp} `{!Sockets}.
Local Abbreviation W := (NetWorld App).

Section Tables.
Context (R : W → W → Prop) `{!AppKeeps W R}.
#[local] Instance tables_preorder : PreOrder R := ck_preorder.

Ltac callback := intros g a Hg; simpl in Hg; simplify_eq.

Lemma lobby_receiver_keeps : receiver_keeps R (receiver_at LOBBY_RECEIVER).
Proof.
  unfold receiver_at. rewrite bool_decide_true by done. rewrite service_receiver_eq.
  split; callback.
  - apply (keeps_lobby_onAccept R).
  - keeps_auto.
  - apply (keeps_lobby_onClose R).
  - keeps_auto.
  - apply (keeps_lobby_onExpiredSession R).
  - keeps_auto.
  - apply (keeps_lobby_noHandler R).
  - apply (keeps_lobby_initHandler R).
Qed.

Lemma broker_receiver_keeps : receiver_keeps R (receiver_at BROKER_RECEIVER).
Proof.
  unfold receiver_at. rewrite bool_decide_false, bool_decide_true by done.
  rewrite service_receiver_eq. split; callback.
  - apply (keeps_broker_onConnect R).
  - apply (keeps_broker_onConnectFailed R).
  - apply (keeps_broker_onClose R).
  - keeps_auto.
  - apply (keeps_broker_onExpiredSession R).
  - keeps_auto.
  - apply (keeps_broker_noHandler R).
  - apply (keeps_broker_initHandler R).
Qed.

Lemma receivers_keep r : receiver_keeps R (receiver_at r).
Proof.
  destruct (decide (r = LOBBY_RECEIVER)) as [->|Hr1]; [apply lobby_receiver_keeps|].
  destruct (decide (r = BROKER_RECEIVER)) as [->|Hr2]; [apply broker_receiver_keeps|].
  unfold receiver_at. rewrite !bool_decide_false by done. split; callback.
Qed.

Lemma keeps_call_noHandler c : keeps (rel_snd R) (call_noHandler (W := W) c).
Proof.
  unfold call_noHandler. simpl. unfold ConnectionImpl_getReceiver.
  (* the receiver that is found is one of the table *)
  intros [msg w]. rewrite bind_run, on_snd_run, bind_run. unfold this_conn. rewrite bind_run.
  unfold get_state. cbn [bind_outcome]. destruct (nw_conns w !! c) as [cn|]; simpl; [|done].
  rewrite bind_run. destruct (ci_eventReceiver cn) as [r|]; simpl; [|done].
  destruct (er_noHandler (receiver_at r)) as [g|] eqn:Eg; simpl; [|done].
  apply (rf_noHandler _ _ (receivers_keep r) g c Eg (msg, w)).
Qed.

Lemma msgProcs_keep p : parser_keeps R (msgProc_at p).
Proof.
  intros parse Hp c t m s. unfold msgProc_at in Hp.
  destruct (decide (p = LOBBY_MSGPROC)) as [->|Hr1].
  { rewrite bool_decide_true in Hp by done. simpl in Hp. simplify_eq.
    apply keeps_notUseEncTest; [typeclasses eauto|apply keeps_call_noHandler]. }
  rewrite (bool_decide_false (p = LOBBY_MSGPROC)) in Hp by done.
  destruct (decide (p = BROKER_MSGPROC)) as [->|Hr2].
  { rewrite bool_decide_true in Hp by done. simpl in Hp. simplify_eq.
    apply keeps_brokerTest; [typeclasses eauto|apply keeps_call_noHandler]. }
  by rewrite bool_decide_false in Hp.
Qed.
End Tables.

(** What the library keeps, the connections the lobby sees keep. *)
Lemma net_conn_keeps (R : W → W → Prop) : NetCalm R → ConnKeeps W R.
Proof.
  intros HR. split; intros; simpl; [typeclasses eauto|..].
  - keeps_auto.
  - unfold ConnectionImpl_getTag. keeps_auto.
  - unfold ConnectionImpl_getIdentity. keeps_auto.
  - unfold ConnectionImpl_closeReserve. keeps_auto.
  - keeps_auto.
  - unfold weak_lock. keeps_auto.
  - keeps_auto.
Qed.

#[export] Instance App_conn_keeps : ConnKeeps W frames.
Proof.
  split; intros; simpl; [typeclasses eauto|apply same_views_frames..].
  - apply keeps_sendPacket.
  - apply keeps_getTag.
  - apply keeps_getIdentity.
  - apply keeps_closeReserve.
  - apply keeps_remote_endpoint.
  - unfold weak_lock. keeps_auto.
  - apply keeps_clock_now.
Qed.

#[export] Instance App_lobby_keeps : LobbyKeeps W frames.
Proof.
  split; intros; simpl; [typeclasses eauto|intros c; by left|apply same_views_frames, keeps_setTag].
Qed.

#[export] Instance App_keeps : AppKeeps W frames.
Proof.
  split; intros; simpl; [typeclasses eauto| |apply keeps_connectWait].
  apply same_views_frames, keeps_getConnector.
Qed.

(** The tables of main.cpp stay within the frame condition. *)
Lemma server_receivers r : receiver_frames (receiver_at r).
Proof. apply (receivers_keep frames). Qed.
Lemma server_msgProcs p : parser_frames (msgProc_at p).
Proof. apply (msgProcs_keep frames). Qed.
End Server.
