(* ===== verification/ServerDemo.v ===== *)
(** * A server to try the theorems on

    Concrete values for everything that is a parameter of the model, and small
    worlds; the witnesses of the theorems are stated on them. *)
From stdpp Require Import gmap strings list.
From coqutil Require Import Byte.
From S2P Require Import Prelude.
From S2P Require Import MessageBuffer.
From S2P Require Import PacketHeader.
From S2P Require Import Connection.
From S2P Require Import IoService.
From S2P Require Import ConnectionImpl.
From S2P Require Import ConnectionSafety.
From S2P Require Import NetService.
From S2P Require Import NetServiceSafety.
From S2P Require Import NetProperties.
From S2P Require Import Json.
From S2P Require Import LobbyState.
From S2P Require Import Environment.
From S2P Require Import Server.
From S2P Require Import ServerProperties.
#[local] Open Scope Z_scope.

Module ServerDemo.
#[export] Existing Instance zero_memory.
(** Every socket call succeeds. *)
#[export] Instance sockets : Sockets := Demo.demo_sockets 0.

Definition demo_ptree : PropertyTree := {|
  ptree := unit;
  read_xml f := if decide (f = "chase_lobby.xml") then Some tt else None;
  get_string _ _ := Some "7000";
  get_bool _ _ := Some true;
  get_uint8 _ _ := Some 0;
  get_uint16 _ _ := Some 9000;
  get_uint32 _ _ := Some 1000;
  get_size_t _ _ := Some 2;
  get_int32 _ _ := Some 7
|}.
#[export] Existing Instance demo_ptree.

(** The JSON texts the demonstrations read. *)
Definition texts : list (string * DemoJson.jvalue) := [
  ("{}", DemoJson.JObj []);
  ("login", DemoJson.JObj [("clientVersion", DemoJson.JInt 6)])
].
#[export] Instance json : Jsoncpp := DemoJson.demo_jsoncpp texts.

(** One open connection of the lobby, with or without a user. *)
Definition lobby_conn (tag : option TagPtr) : ConnectionImpl :=
  mkConnectionImpl status_open None tag 5 (Some 1) 0 (replicate 255 false) 0 1 0
    LOBBY_MSGPROC (Some LOBBY_RECEIVER) (Some json_getMsgManipulatorTest).
Definition one_user_lobby : LobbyState :=
  set_users {[ 5 := 0%N ]} (set_heap {[ 3%N := OUser (User_new 0%N) ]} (LobbyState_init 7)).
Definition empty_world : NetWorld App :=
  mkNetWorld {[ 0%N := lobby_conn None ]} 6 [] [] App_init.
Definition user_world : NetWorld App :=
  mkNetWorld {[ 0%N := lobby_conn (Some 3%N) ]} 6 [] []
    (set_app_lobby one_user_lobby App_init).

(** The server started by [main], and after the first client is accepted. *)
Definition started : option (NetWorld App) :=
  match main 4 "chase_lobby.xml" (net_init App_init) with Done w _ => Some w | _ => None end.
Definition accepted : option (NetWorld App) :=
  w ← started; exec_completions receiver_at msgProc_at [(1%nat, Demo.ok)] w.
End ServerDemo.

(** The started server listens, and greets its first client with a packet. *)
Section Runs.
Import ServerDemo.

Example started_listens :
  nw_pending <$> started = Some [WaitKeep 0%N false; AcceptConn 0%N 0%N; WaitUpdate 0%N false].
Proof. vm_compute. reflexivity. Qed.

Definition written_to (w : NetWorld App) : list (ConnPtr * Z) :=
  omap (λ o, match o with WriteAll c d _ => Some (c, zlen d) | _ => None end) (nw_pending w).

Example accepted_greets : written_to <$> accepted = Some [(0%N, 105)].
Proof. vm_compute. reflexivity. Qed.
End Runs.
