(* ===== verification/ServerStart.v ===== *)
(** * The server from its start on

    [main] creates the service of the lobby within the frame condition of
    ConnectionSafety.v, so that everything proved of reachable network states
    holds of the server that [main] started. *)
From stdpp Require Import gmap strings list.
From S2P Require Import Prelude.
From S2P Require Import MessageBuffer.
From S2P Require Import Connection.
From S2P Require Import EventReceiver.
From S2P Require Import IoService.
From S2P Require Import ConnectionImpl.
From S2P Require Import ConnectionSafety.
From S2P Require Import NetService.
From S2P Require Import NetServiceSafety.
From S2P Require Import NetProperties.
From S2P Require Import Json.
From S2P Require Import LobbyState.
From S2P Require Import LobbySafety.
From S2P Require Import Environment.
From S2P Require Import TestInterface.
From S2P Require Import Server.
From S2P Require Import ServerProperties.
From S2P Require Import ServerDemo.
#[local] Open Scope Z_scope.

Section Start.
Context `{FreshMemory} `{Jsoncpp} `{!Sockets} `{PropertyTree}.
Local Abbreviation W := (NetWorld App).
Implicit Types (w : W) (c : ConnPtr).

(** The state of the application is not part of a connection's view. *)
Lemma keeps_app_state {T A} (get : App → T) (set : T → App → App) (m : M T A) :
  keeps same_views (zoom (λ w : W, get (nw_app w)) (λ t w, set_app (set t (nw_app w)) w) m).
Proof. intros w. unfold zoom. by destruct (m _) as [t a|t e| |]; simpl. Qed.

Lemma keeps_services_upd f : keeps frames (upd_services (U := App) f).
Proof. apply same_views_frames, keeps_upd_services. Qed.
Lemma keeps_services_get : keeps frames (get_services (U := App)).
Proof. apply same_views_frames, keeps_get_services. Qed.
Lemma keeps_listen_throwing : keeps same_views (listen_call_throwing (U := App)).
Proof. unfold listen_call_throwing. keeps_auto. Qed.
#[local] Hint Resolve keeps_services_upd keeps_services_get keeps_listen_throwing : keeps.

Lemma keeps_setIndex p i : keeps same_views (setIndex (U := App) p i).
Proof. apply keeps_upd_service. Qed.
Lemma keeps_getAcceptor i : keeps same_views (getAcceptor (U := App) i).
Proof. unfold getAcceptor. keeps_auto. Qed.
#[local] Hint Resolve keeps_setIndex keeps_getAcceptor : keeps.

Lemma keeps_acceptWait hc p a s n : keeps frames (acceptWait (U := App) hc p a s n).
Proof.
  unfold acceptWait. cbv zeta.
  do 8 (apply keeps_bind; [typeclasses eauto|apply same_views_frames; keeps_auto|intros ?]).
  intros w. pose proof (keeps_create_start id (create_conn (U := App) p 0) (λ _, mret tt)
    (λ conn _, AcceptConn p conn)
    (λ _ _, o ← this_service p; _ ← addWorkerThreads_ios (if 0 =? n then hc else n) (ns_ios o);
            expireTimerReady p)) as Hk.
  assert (Hk' : keeps frames (a ← create_conn (U := App) p 0; _ ← mret tt;
    start_op (AcceptConn p a);; o ← this_service p;
    _ ← addWorkerThreads_ios (if 0 =? n then hc else n) (ns_ios o); expireTimerReady p)).
  { apply Hk; [apply create_conn_creates|intros; keeps_auto| |intros; keeps_auto].
    intros c _. simpl. rewrite bool_decide_true by done. split; [done|apply op_of_accept]. }
  specialize (Hk' w). revert Hk'. rewrite !bind_run. by destruct (create_conn p 0 w).
Qed.

Lemma keeps_createAcceptor hc i params userParams :
  keeps frames (createAcceptor (U := App) receiver_at hc i params userParams).
Proof.
  unfold createAcceptor, NetServiceAcceptor_new, NetServiceImpl_new. keeps_auto.
  all: try (apply same_views_frames; keeps_auto; fail).
  all: try apply keeps_acceptWait.
  rewrite service_receiver_eq. apply call_kept, server_receivers.
Qed.

Lemma keeps_on_test {A} (m : M TestIntarface A) : keeps frames (on_test m).
Proof. apply same_views_frames, keeps_app_state. Qed.
Lemma keeps_upd_lobby_frames f : keeps frames (upd_lobby (W := W) f).
Proof. apply (keeps_upd_lobby frames). Qed.
#[local] Hint Resolve keeps_on_test keeps_upd_lobby_frames keeps_createAcceptor : keeps.

Lemma keeps_registAcceptorReceiver hc i setting : keeps frames (registAcceptorReceiver hc i setting).
Proof. unfold registAcceptorReceiver. keeps_auto. Qed.
Lemma keeps_runService : keeps frames (runService (U := App)).
Proof.
  unfold runService, setWork, run_enter. keeps_auto; apply same_views_frames, keeps_this_service.
Qed.
#[local] Hint Resolve keeps_registAcceptorReceiver keeps_runService : keeps.

Lemma keeps_main_with thread conf : keeps frames thread → keeps frames (main_with thread conf).
Proof.
  intros Ht. unfold main_with, initLogService, publish_clientVersion, initTestInterface.
  keeps_auto. apply same_views_frames, keeps_app_state.
Qed.
Lemma keeps_main hc conf : keeps frames (main hc conf).
Proof. apply keeps_main_with. unfold ioServiceThread. keeps_auto. Qed.

(** With a connector to the broker. *)
Lemma keeps_createConnector i params userParams :
  keeps frames (createConnector (U := App) receiver_at i params userParams).
Proof.
  unfold createConnector, NetServiceConnector_new, NetServiceImpl_new, setTargetServer. keeps_auto.
  all: try (apply same_views_frames; keeps_auto; fail).
  rewrite service_receiver_eq. apply call_kept, server_receivers.
Qed.
Lemma keeps_registConnectorReceiver i setting : keeps frames (registConnectorReceiver i setting).
Proof.
  unfold registConnectorReceiver. keeps_auto; [apply keeps_createConnector|apply (keeps_tryConnect frames)].
Qed.
Lemma keeps_main_broker hc conf : keeps frames (main_broker hc conf).
Proof.
  apply keeps_main_with. unfold ioServiceThread_broker. keeps_auto; apply keeps_registConnectorReceiver.
Qed.

(** C8. However the server started by [main] goes on, and whatever its clients send: [onClose] is
    called at most once for every connection, and then its status is [close]; a connection has at
    most one read in flight, which fills the whole of an empty well-formed buffer of that
    connection. *)
Theorem server_keeps_network_sound hc conf w0 code w c :
  main hc conf (net_init App_init) = Done w0 code →
  rtc (net_step receiver_at msgProc_at) w0 w →
  (count (is_onClose_of c) (nw_trace w) ≤ 1)%nat
  ∧ (count (is_onClose_of c) (nw_trace w) = 1%nat →
     ∃ cn, nw_conns w !! c = Some cn ∧ ci_status cn = status_close)
  ∧ (length (v_reads (view c w)) ≤ 1)%nat
  ∧ ∀ off size, ReadSome c off size ∈ nw_pending w →
      ∃ cn msg, nw_conns w !! c = Some cn ∧ ci_msg cn = Some msg ∧ mb_wf msg
        ∧ mb_content msg = [] ∧ off = mb_write msg ∧ off + size = MAX_BUFFER_SIZE.
Proof.
  intros Hm Hr. assert (Hreach : rtc (net_step receiver_at msgProc_at) (net_init App_init) w).
  { eapply rtc_l; [|exact Hr]. apply step_application.
    pose proof (keeps_main hc conf (net_init App_init)) as Hk. by rewrite Hm in Hk. }
  pose proof (reachable_onClose receiver_at msgProc_at server_receivers server_msgProcs _ _ c Hreach)
    as [? ?].
  pose proof (reachable_reads receiver_at msgProc_at server_receivers server_msgProcs _ _ c Hreach)
    as [? ?]. done.
Qed.
End Start.

(** ** Witness: the demonstration server accepts its first client *)
Section Witness.
Import ServerDemo.

Lemma server_keeps_network_sound_witness :
  ∃ w0 w, main 4 "chase_lobby.xml" (net_init App_init) = Done w0 1
    ∧ rtc (net_step receiver_at msgProc_at) w0 w
    ∧ (length (v_reads (view 0%N w)) = 1)%nat
    ∧ (count (is_onClose_of 0%N) (nw_trace w) ≤ 1)%nat.
Proof.
  assert (Hs : match main 4 "chase_lobby.xml" (net_init App_init) with
               | Done w0 code =>
                   (code =? 1) &&
                   match exec_completions receiver_at msgProc_at [(1%nat, Demo.ok)] w0 with
                   | Some w => bool_decide (length (v_reads (view 0%N w)) = 1%nat)
                   | None => false
                   end
               | _ => false
               end = true) by (vm_compute; reflexivity).
  destruct (main 4 "chase_lobby.xml" (net_init App_init)) as [w0 code| | |] eqn:Em; try discriminate.
  apply andb_true_iff in Hs as [Hcode Hs]. apply Z.eqb_eq in Hcode. subst code.
  destruct (exec_completions receiver_at msgProc_at [(1%nat, Demo.ok)] w0) as [w|] eqn:Ew; [|discriminate].
  exists w0, w. apply exec_completions_steps in Ew.
  split; [done|]. split; [done|]. split; [by apply bool_decide_eq_true in Hs|].
  exact (proj1 (server_keeps_network_sound 4 "chase_lobby.xml" w0 1 w 0%N Em Ew)).
Defined.
End Witness.
