(* ===== verification/LobbySpec.v ===== *)
(** * What the lobby promises

    The lobby code is specified on a [LobbyView]: its own state, the connections
    with their tags and identities, what was handed to the network, and the
    closes that are reserved.  [ConnectionSpec] is what the lobby relies on of
    the connections, stated on that view; LobbyRefinement.v discharges it for
    the connections of the server.  The rest of the file refines the senders
    and the user manager to functions on views. *)
From stdpp Require Import gmap strings list sorting.
From coqutil Require Import Byte.
From S2P Require Import Prelude.
From S2P Require Import MessageBuffer.
From S2P Require Import PacketHeader.
From S2P Require Import Connection.
From S2P Require Import MlnUtils.
From S2P Require Import Protocol.
From S2P Require Import Json.
From S2P Require Import LobbyState.
From S2P Require Import LobbyUser.
From S2P Require Import LobbyUserManager.
#[local] Open Scope Z_scope.

(** ** Views *)
Record ConnEntry : Type := mkEntry {
  e_tag : option TagPtr;
  e_identity : Z;
  e_manip : option MsgUserManip
}.
Definition e_set_tag (t : option TagPtr) (e : ConnEntry) : ConnEntry :=
  mkEntry t (e_identity e) (e_manip e).
(** The connection frames its packets as the service of the lobby does. *)
Definition framed (e : ConnEntry) : Prop := e_manip e = Some json_getMsgManipulatorTest.
Definition wire (body : list byte) : list byte :=
  frame (rules := test_rules) (manip := json_getMsgManipulatorTest) body.

Record LobbyView : Type := mkLobbyView {
  v_lobby : LobbyState;
  v_conns : gmap ConnPtr ConnEntry;
  v_sent : list (ConnPtr * list byte);
  v_closing : list ConnPtr
}.
Definition v_set_lobby (l : LobbyState) (v : LobbyView) : LobbyView :=
  mkLobbyView l (v_conns v) (v_sent v) (v_closing v).
Definition v_upd_lobby (f : LobbyState → LobbyState) (v : LobbyView) : LobbyView :=
  v_set_lobby (f (v_lobby v)) v.
Definition v_set_tag (c : ConnPtr) (t : option TagPtr) (v : LobbyView) : LobbyView :=
  mkLobbyView (v_lobby v) (alter (e_set_tag t) c (v_conns v)) (v_sent v) (v_closing v).
Definition v_add_sent (l : list (ConnPtr * list byte)) (v : LobbyView) : LobbyView :=
  mkLobbyView (v_lobby v) (v_conns v) (v_sent v ++ l) (v_closing v).
Definition v_close (c : ConnPtr) (v : LobbyView) : LobbyView :=
  mkLobbyView (v_lobby v) (v_conns v) (v_sent v) (v_closing v ++ [c]).

Class ConnectionSpec (W : Type) `{!Connection W} `{!HasLobby W} `{!WeakConnection W} : Type := {
  observe : W → LobbyView;
  cs_lobby w : lobby_of w = v_lobby (observe w);
  cs_with_lobby l w : observe (with_lobby l w) = v_set_lobby l (observe w);
  cs_getTag c w e : v_conns (observe w) !! c = Some e → conn_getTag c w = Done w (e_tag e);
  cs_getIdentity c w e :
    v_conns (observe w) !! c = Some e → conn_getIdentity c w = Done w (e_identity e);
  cs_setTag c t w : is_Some (v_conns (observe w) !! c) →
    ∃ w', conn_setTag c t w = Done w' tt ∧ observe w' = v_set_tag c t (observe w);
  cs_sendPacket c d w e : v_conns (observe w) !! c = Some e → framed e →
    zlen d + sizeof_HEADER ≤ MAX_BUFFER_SIZE →
    ∃ w', conn_sendPacket c d w = Done w' tt ∧ observe w' = v_add_sent [(c, wire d)] (observe w);
  cs_closeReserve c t w : is_Some (v_conns (observe w) !! c) →
    ∃ w', conn_closeReserve c t w = Done w' tt ∧ observe w' = v_close c (observe w);
  cs_weak_lock c w : is_Some (v_conns (observe w) !! c) → weak_lock c w = Done w (Some c);
  cs_getTag_no_throw c : no_throw (conn_getTag c);
  cs_getIdentity_no_throw c : no_throw (conn_getIdentity c);
  cs_closeReserve_no_throw c t : no_throw (conn_closeReserve c t)
}.

(** ** A calculus of refinement

    [yields m w a v]: [m] returns [a] from [w], in a world with the view [v];
    [yields_local] is the same for code with a local JSON value. *)
(** The world after a statement: its view stands for the one the statement is
    known to yield. *)
Ltac y_next w := let E := fresh "E" in intros w E; try (rewrite <- E in *; clear E).

Section Calculus.
Context {W : Type} `{CS : ConnectionSpec W}.

Definition yields {A} (m : M W A) (w : W) (a : A) (v : LobbyView) : Prop :=
  ∃ w', m w = Done w' a ∧ observe w' = v.
Definition yields_local {L A} (m : M (L * W) A) (l : L) (w : W) (l' : L) (a : A)
    (v : LobbyView) : Prop :=
  ∃ w', m (l, w) = Done (l', w') a ∧ observe w' = v.

Lemma yields_done {A} (m : M W A) w a : m w = Done w a → yields m w a (observe w).
Proof. intros E. by exists w. Qed.
Lemma yields_ret {A} (a : A) w : yields (mret a) w a (observe w).
Proof. by exists w. Qed.
Lemma yields_bind {A B} (m : M W A) (k : A → M W B) w a b v1 v2 :
  yields m w a v1 → (∀ w', observe w' = v1 → yields (k a) w' b v2) → yields (m ≫= k) w b v2.
Proof.
  intros (w1 & E1 & O1) Hk. destruct (Hk w1 O1) as (w2 & E2 & O2).
  exists w2. by rewrite bind_run, E1.
Qed.
Lemma yields_local_bind {L A B} (m : M (L * W) A) (k : A → M (L * W) B) l w l1 a l2 b v1 v2 :
  yields_local m l w l1 a v1 →
  (∀ w', observe w' = v1 → yields_local (k a) l1 w' l2 b v2) →
  yields_local (m ≫= k) l w l2 b v2.
Proof.
  intros (w1 & E1 & O1) Hk. destruct (Hk w1 O1) as (w2 & E2 & O2).
  exists w2. by rewrite bind_run, E1.
Qed.
Lemma yields_local_done {L A} (m : M (L * W) A) l w l' a :
  m (l, w) = Done (l', w) a → yields_local m l w l' a (observe w).
Proof. intros E. by exists w. Qed.
Lemma yields_local_get {L} (l : L) w : yields_local (on_fst get_state) l w l l (observe w).
Proof. by apply yields_local_done. Qed.
Lemma yields_local_ret {L A} (a : A) (l : L) w : yields_local (mret a) l w l a (observe w).
Proof. by exists w. Qed.
Lemma yields_on_snd {L A} (m : M W A) (l : L) w a v :
  yields m w a v → yields_local (on_snd m) l w l a v.
Proof. intros (w' & E & O). exists w'. by rewrite on_snd_run, E. Qed.
Lemma yields_with_json `{Jsoncpp} {A} (m : M (Value * W) A) jv w jv' a v :
  yields_local m jv w jv' a v → yields (with_json jv m) w a v.
Proof.
  intros (w' & E & O). exists w'. split; [|done]. unfold with_json, with_local. run_step. by rewrite E.
Qed.

(** ** The state of the lobby *)
Lemma yields_get_lobby w : yields get_lobby w (v_lobby (observe w)) (observe w).
Proof. apply yields_done. unfold get_lobby. run_step. by rewrite cs_lobby. Qed.
Lemma yields_upd_lobby f w : yields (upd_lobby f) w tt (v_upd_lobby f (observe w)).
Proof.
  eexists. split; [unfold upd_lobby; by run_step|]. by rewrite cs_with_lobby, cs_lobby.
Qed.
Lemma yields_deref {A} what (o : option A) a w : o = Some a → yields (deref what o) w a (observe w).
Proof. intros ->. apply yields_ret. Qed.
Lemma yields_this_user p u w :
  l_heap (v_lobby (observe w)) !! p = Some (OUser u) → yields (this_user p) w u (observe w).
Proof.
  intros Hp. eapply yields_bind; [apply yields_get_lobby|]. y_next w'.
  apply yields_deref. by rewrite Hp.
Qed.
Lemma yields_new_object o w :
  let p := fresh (dom (l_heap (v_lobby (observe w)))) in
  yields (new_object o) w p (v_upd_lobby (λ s, set_heap (<[p := o]> (l_heap s)) s) (observe w)).
Proof.
  eexists. split.
  - unfold new_object, get_lobby, upd_lobby. run_step. by rewrite cs_lobby.
  - by rewrite cs_with_lobby.
Qed.
Lemma yields_delete_object p w :
  is_Some (l_heap (v_lobby (observe w)) !! p) →
  yields (delete_object p) w tt (v_upd_lobby (λ s, set_heap (delete p (l_heap s)) s) (observe w)).
Proof.
  intros [o Hp]. eapply yields_bind; [apply yields_get_lobby|]. y_next w1.
  rewrite Hp. eapply yields_bind; [apply yields_ret|]. y_next w2. apply yields_upd_lobby.
Qed.

(** ** The methods *)
Lemma yields_getTag c e w :
  v_conns (observe w) !! c = Some e → yields (conn_getTag c) w (e_tag e) (observe w).
Proof. intros Hc. apply yields_done. by eapply cs_getTag. Qed.
Lemma yields_getIdentity c e w :
  v_conns (observe w) !! c = Some e → yields (conn_getIdentity c) w (e_identity e) (observe w).
Proof. intros Hc. apply yields_done. by eapply cs_getIdentity. Qed.
Lemma yields_weak_lock c w :
  is_Some (v_conns (observe w) !! c) → yields (weak_lock c) w (Some c) (observe w).
Proof. intros Hc. apply yields_done. by apply cs_weak_lock. Qed.
End Calculus.

(** ** Sending *)
Section Senders.
Context `{FreshMemory} `{J : Jsoncpp} {W : Type} `{CS : ConnectionSpec W}.

(** The bytes of a JSON value on the wire. *)
Definition text (jv : Value) : list byte := string_bytes (FastWriter_write jv).

(** A member read through a value that is not const. *)
Definition member_at (key : string) (jv : Value) : option (Value * Value) :=
  v ← json_get key jv; jv' ← json_set key v jv; Some (v, jv').

(** The value [User::SendJsonPacket] sends for [jv], and the sequence number:
    the message is converted, members that were missing are there as null. *)
Definition sent_message (jv : Value) : option Value :=
  '(rm, jv) ← member_at RSP_RM jv;
  if json_isNull rm then Some jv
  else '(rm, jv) ← member_at RSP_RM jv;
       s ← json_asCString rm;
       json_set RSP_RM (json_string (MB2UTF8 s)) jv.
Definition sent_sequence (jv : Value) : option (Z * Value) :=
  '(seq, jv) ← member_at RSP_SEQ jv;
  if json_isNull seq then Some (0, jv)
  else '(seq, jv) ← member_at RSP_SEQ jv; n ← json_asUInt seq; Some (n, jv).
Definition sent_value (jv : Value) : option (Z * Value) :=
  jv ← sent_message jv; sent_sequence jv.

Definition bad_json {A} (o : outcome (Value * W) A) (w : W) : Prop :=
  ∃ jv, o = Threw (jv, w) bad_value.

Lemma json_at_member key jv (w : W) :
  match member_at key jv with
  | Some (v, jv') => json_at key (jv, w) = Done (jv', w) v
  | None => bad_json (json_at key (jv, w)) w
  end.
Proof.
  unfold member_at, json_at, bad_json. rewrite on_fst_run. run_step.
  destruct (json_get key jv) as [v|]; [|by exists jv]. simpl.
  destruct (json_set key v jv) as [jv'|]; [done|by exists jv].
Qed.

Ltac read w :=
  match goal with
  | |- context [member_at ?k ?j] =>
      let Hm := fresh in pose proof (json_at_member k j w) as Hm; run_step;
      destruct (member_at k j) as [[? ?]|]; cbn [mbind option_bind];
      [rewrite Hm; clear Hm; run_step
      |let E := fresh in destruct Hm as [? E]; rewrite E; by eexists]
  end.

Lemma send_sequence_run jv (w : W) :
  match sent_sequence jv with
  | Some (n, jv') => (seq ← json_at RSP_SEQ;
      if negb (json_isNull seq)
      then seq ← json_at RSP_SEQ; json_conv json_asUInt seq
      else mret 0) (jv, w) = Done (jv', w) n
  | None => bad_json ((seq ← json_at RSP_SEQ;
      if negb (json_isNull seq)
      then seq ← json_at RSP_SEQ; json_conv json_asUInt seq
      else mret 0) (jv, w)) w
  end.
Proof.
  unfold sent_sequence, bad_json, json_conv. read w.
  destruct (json_isNull v); cbn [negb]; run_step; [done|]. read w.
  destruct (json_asUInt v1); cbn [mbind option_bind]; run_step; [done|by eexists].
Qed.

Lemma send_prologue_run jv (w : W) :
  match sent_value jv with
  | Some (n, jv') => send_prologue (jv, w) = Done (jv', w) n
  | None => bad_json (send_prologue (jv, w)) w
  end.
Proof.
  unfold sent_value, send_prologue, sent_message. unfold bad_json at 1. read w.
  destruct (json_isNull v); cbn [negb mbind option_bind]; run_step; [apply send_sequence_run|].
  read w. unfold json_conv at 1 3.
  destruct (json_asCString v1) as [s|]; cbn [mbind option_bind]; run_step; [|by eexists].
  unfold json_assign. rewrite on_fst_run. run_step.
  destruct (json_set RSP_RM _ v2); cbn [mbind option_bind]; [|by eexists].
  apply send_sequence_run.
Qed.

Lemma lobby_packet_take seq url body rest :
  zlen url ≤ 32 →
  take (Z.to_nat (LOBBY_PROTOCOL.HEAD_SIZE + (zlen body + 1))) (lobby_packet seq url body ++ rest)
  = lobby_packet seq url body.
Proof. intros Hu. apply take_app_zlen. by rewrite zlen_lobby_packet. Qed.

(** A user of the lobby with the connection it was made for. *)
Definition user_at (p : TagPtr) (u : User) (v : LobbyView) : Prop :=
  l_heap (v_lobby v) !! p = Some (OUser u) ∧ (∃ e, v_conns v !! u_conn u = Some e ∧ framed e)
  ∧ m_encType (v_lobby v) = EncType.GREETING.

Lemma yields_Send p u data w :
  user_at p u (observe w) → zlen data + sizeof_HEADER ≤ MAX_BUFFER_SIZE →
  yields (UserBasis_Send p data) w (zlen data) (v_add_sent [(u_conn u, wire data)] (observe w)).
Proof.
  intros (Hp & (e & Hc & Hf) & He) Hd. pose proof (zlen_nonneg data).
  unfold MAX_BUFFER_SIZE, sizeof_HEADER in *.
  eapply yields_bind; [by apply yields_this_user|]. y_next w1.
  eapply yields_bind; [apply yields_get_lobby|]. y_next w2. rewrite He.
  rewrite Z.eqb_refl, u32_small, s32_small by lia.
  eapply yields_bind; [by eapply cs_sendPacket|]. y_next w3. apply yields_ret.
Qed.

Lemma yields_SendJsonPacket p u url jv n jv' w :
  user_at p u (observe w) → zlen (string_bytes url) ≤ 32 →
  sent_value jv = Some (n, jv') → zlen (text jv') < 30000 →
  yields_local (User_SendJsonPacket p url) jv w jv' (zlen (text jv') + 41)
    (v_add_sent [(u_conn u, wire (lobby_packet n (string_bytes url) (text jv')))] (observe w)).
Proof.
  intros Hu Hurl Hs Ht. pose proof (send_prologue_run jv w) as Hpro. rewrite Hs in Hpro.
  unfold User_SendJsonPacket. eapply yields_local_bind; [by apply yields_local_done|].
  y_next w1. eapply yields_local_bind; [apply yields_local_get|]. y_next w2.
  fold (text jv').
  destruct (lobby_fill_run n (string_bytes url) (text jv') Hurl Ht) as [rest Hfill].
  eapply yields_local_bind; [apply yields_local_done; unfold local_only; by rewrite Hfill|].
  y_next w3. cbn [fst]. rewrite lobby_packet_bodySize by done.
  rewrite (proj2 (Z.ltb_ge _ _)) by (unfold LOBBY_PROTOCOL.MAX_BODY_SIZE; lia).
  rewrite lobby_packet_take by done. apply yields_on_snd.
  pose proof (zlen_lobby_packet n (string_bytes url) (text jv') Hurl) as Hl.
  replace (zlen (text jv') + 41) with (zlen (lobby_packet n (string_bytes url) (text jv')))
    by (rewrite Hl; unfold LOBBY_PROTOCOL.HEAD_SIZE; lia).
  apply yields_Send; [done|].
  rewrite Hl. unfold MAX_BUFFER_SIZE, sizeof_HEADER, LOBBY_PROTOCOL.HEAD_SIZE. lia.
Qed.
End Senders.
