(* ===== verification/LobbyUsersSpec.v ===== *)
(** * The user manager, specified

    [v_addUser], [v_deleteUser] and [v_broadcast] say what
    [LobbyUserManager::addUser], [deleteUser] and [sendPacketFromBroker_All] do
    to a view; [users_ok] is the invariant that ties the tags of the
    connections, the objects on the heap and the map of users together.  The
    refinement lemmas show that the code does what they say, the lemmas on
    views that the invariant is kept. *)
From stdpp Require Import gmap strings list sorting.
From coqutil Require Import Byte.
From S2P Require Import Prelude.
From S2P Require Import MessageBuffer.
From S2P Require Import PacketHeader.
From S2P Require Import Connection.
From S2P Require Import MlnUtils.
From S2P Require Import Protocol.
From S2P Require Import Json.
From S2P Require Import LobbyState.
From S2P Require Import LobbyUser.
From S2P Require Import LobbyUserManager.
From S2P Require Import LobbySpec.
#[local] Open Scope Z_scope.

(** ** Operations on views *)
Definition new_user_ptr (v : LobbyView) : TagPtr := fresh (dom (l_heap (v_lobby v))).

(** A user object for a connection; [g] is the packet the client is greeted
    with. *)
Definition v_addUser (c : ConnPtr) (g : list byte) (v : LobbyView) : LobbyView :=
  match v_conns v !! c with
  | Some (mkEntry None i _) =>
      let v1 := v_set_tag c (Some (new_user_ptr v))
                  (v_upd_lobby (λ s, set_heap (<[new_user_ptr v := OUser (User_new c)]> (l_heap s)) s) v) in
      match m_users (v_lobby v) !! i with
      | Some _ => v1
      | None => v_add_sent [(c, g)] (v_upd_lobby (λ s, set_users (<[i := c]> (m_users s)) s) v1)
      end
  | _ => v
  end.

(** The user object of a connection goes, with its entries in the maps. *)
Definition v_deleteUser (c : ConnPtr) (v : LobbyView) : LobbyView :=
  match v_conns v !! c with
  | Some (mkEntry (Some p) i _) =>
      match l_heap (v_lobby v) !! p with
      | Some (OUser u) =>
          v_set_tag c None
            (v_upd_lobby (λ s,
               set_heap (delete p (l_heap s))
                 (set_users (delete i (m_users s))
                    (set_nodeToUserMap (delete (u_userIDX u) (m_nodeToUserMap s)) s))) v)
      | _ => v
      end
  | _ => v
  end.

Definition v_broadcast (d : list byte) (v : LobbyView) : LobbyView :=
  v_add_sent ((λ c, (c, d)) <$> (snd <$> users_in_order (m_users (v_lobby v)))) v.

(** ** The invariant

    Connections have distinct identities; every tag points to a user object
    made for that connection; the map of users has exactly the connections
    with a tag, under their identities.  The broker is not connected, as in
    the build. *)
Record users_ok (v : LobbyView) : Prop := {
  uo_identity c c' e e' :
    v_conns v !! c = Some e → v_conns v !! c' = Some e' → e_identity e = e_identity e' → c = c';
  uo_framed c e : v_conns v !! c = Some e → framed e;
  uo_tag c p i m :
    v_conns v !! c = Some (mkEntry (Some p) i m) →
    (∃ u, l_heap (v_lobby v) !! p = Some (OUser u) ∧ u_conn u = c) ∧ m_users (v_lobby v) !! i = Some c;
  uo_users i c :
    m_users (v_lobby v) !! i = Some c → ∃ p m, v_conns v !! c = Some (mkEntry (Some p) i m);
  uo_encType : m_encType (v_lobby v) = EncType.GREETING;
  uo_broker : m_user (v_lobby v) = None
}.

Section Invariant.
Implicit Types (v : LobbyView) (c : ConnPtr).

(** Two connections do not share a user object. *)
Lemma users_ok_tag_inj v c c' p i i' m m' :
  users_ok v → v_conns v !! c = Some (mkEntry (Some p) i m) →
  v_conns v !! c' = Some (mkEntry (Some p) i' m') → c = c'.
Proof.
  intros Hv H1 H2. destruct (uo_tag v Hv _ _ _ _ H1) as [(u & Hu & <-) _].
  destruct (uo_tag v Hv _ _ _ _ H2) as [(u' & Hu' & <-) _]. congruence.
Qed.

(** A new tag leaves the identities and the framing alone. *)
Lemma set_tag_identity v c t c1 c2 e1 e2 :
  users_ok v → v_conns (v_set_tag c t v) !! c1 = Some e1 → v_conns (v_set_tag c t v) !! c2 = Some e2 →
  e_identity e1 = e_identity e2 → c1 = c2.
Proof.
  intros Hv H1 H2 Hi. simpl in H1, H2. rewrite lookup_alter_Some in H1. rewrite lookup_alter_Some in H2.
  destruct H1 as [(<- & e1' & H1 & ->)|[? H1]], H2 as [(<- & e2' & H2 & ->)|[? H2]];
    simpl in Hi; try done; eapply (uo_identity v Hv); eauto.
Qed.
Lemma set_tag_framed v c t c1 e :
  users_ok v → v_conns (v_set_tag c t v) !! c1 = Some e → framed e.
Proof.
  intros Hv H1. simpl in H1. rewrite lookup_alter_Some in H1.
  destruct H1 as [(<- & e' & H1 & ->)|[? H1]]; by apply (uo_framed v Hv) in H1.
Qed.

Lemma v_addUser_ok c g v : users_ok v → users_ok (v_addUser c g v).
Proof.
  intros Hv. unfold v_addUser. destruct (v_conns v !! c) as [[[p|] i m]|] eqn:Ec; [done| |done].
  destruct (m_users (v_lobby v) !! i) as [c'|] eqn:Ei.
  { destruct (uo_users v Hv _ _ Ei) as (p & m' & Hp).
    by pose proof (uo_identity v Hv _ _ _ _ Ec Hp eq_refl); simplify_eq. }
  assert (Hfresh : l_heap (v_lobby v) !! new_user_ptr v = None)
    by (apply (not_elem_of_dom (D := gset TagPtr)); unfold new_user_ptr; apply is_fresh).
  split; [exact (λ c1 c2 e1 e2, set_tag_identity v c _ c1 c2 e1 e2 Hv)
        |exact (λ c1 e1, set_tag_framed v c _ c1 e1 Hv)|..]; simpl.
  - intros c1 p j m1 H1. rewrite lookup_alter_Some in H1. destruct H1 as [(<- & [] & H1 & ?)|[Hne H1]].
    + unfold e_set_tag in *. simplify_eq/=. rewrite !lookup_insert_eq. eauto.
    + destruct (uo_tag v Hv _ _ _ _ H1) as [(u & Hu & <-) Hj].
      rewrite !lookup_insert_ne by congruence. eauto.
  - intros j c1 Hj. rewrite lookup_insert_Some in Hj. destruct Hj as [[<- <-]|[Hne Hj]].
    + exists (new_user_ptr v), m. by rewrite lookup_alter_eq, Ec.
    + destruct (uo_users v Hv _ _ Hj) as (p & m' & Hp). exists p, m'. rewrite lookup_alter_ne; [done|].
      intros ->. congruence.
  - apply (uo_encType v Hv).
  - apply (uo_broker v Hv).
Qed.

Lemma v_deleteUser_ok c v : users_ok v → users_ok (v_deleteUser c v).
Proof.
  intros Hv. unfold v_deleteUser. destruct (v_conns v !! c) as [[[p|] i m]|] eqn:Ec; [|done..].
  destruct (uo_tag v Hv _ _ _ _ Ec) as [(u & Hu & Huc) Hi]. rewrite Hu.
  split; [exact (λ c1 c2 e1 e2, set_tag_identity v c _ c1 c2 e1 e2 Hv)
        |exact (λ c1 e1, set_tag_framed v c _ c1 e1 Hv)|..]; simpl.
  - intros c1 p1 j m1 H1. rewrite lookup_alter_Some in H1.
    destruct H1 as [(<- & [] & H1 & ?)|[Hne H1]]; [done|].
    destruct (uo_tag v Hv _ _ _ _ H1) as [(u1 & Hu1 & <-) Hj]. split.
    + rewrite lookup_delete_ne; [by exists u1|]. intros ->. by simplify_eq.
    + rewrite lookup_delete_ne; [done|]. intros ->. by simplify_eq.
  - intros j c1 Hj. rewrite lookup_delete_Some in Hj. destruct Hj as [Hne Hj].
    destruct (uo_users v Hv _ _ Hj) as (p1 & m1 & Hp). exists p1, m1. rewrite lookup_alter_ne; [done|].
    intros ->. congruence.
  - apply (uo_encType v Hv).
  - apply (uo_broker v Hv).
Qed.
End Invariant.

(** ** The code does what the views say *)
Section Refinement.
Context `{FreshMemory} `{J : Jsoncpp} {W : Type} `{CS : ConnectionSpec W}.

(** The value a client is greeted with. *)
Definition greeting_value : option Value :=
  jv ← json_set RSP_SEQ (json_int 0) json_null;
  jv ← json_set RSP_RC (json_int 0) jv;
  json_set RSP_RM (json_string RSP_OK) jv.
Definition greeting : option (Z * Value) := greeting_value ≫= sent_value.
Definition greeting_packet (n : Z) (jv : Value) : list byte :=
  wire (lobby_packet n (string_bytes "/account/connected") (text jv)).

Lemma yields_json_assign k v jv jv' w :
  json_set k v jv = Some jv' → yields_local (json_assign k v) jv w jv' tt (observe w).
Proof. intros E. apply yields_local_done. by apply json_assign_run. Qed.

(** The greeting of a new user. *)
Lemma yields_greeting p u n jv w :
  user_at p u (observe w) → greeting = Some (n, jv) → zlen (text jv) < 30000 →
  yields (with_json json_null
            (json_assign RSP_SEQ (json_int 0);;
             json_assign RSP_RC (json_int 0);;
             json_assign RSP_RM (json_string RSP_OK);;
             _ ← User_SendJsonPacket p "/account/connected";
             mret tt)) w tt (v_add_sent [(u_conn u, greeting_packet n jv)] (observe w)).
Proof.
  intros Hu Hg Ht. unfold greeting, greeting_value in Hg.
  destruct (json_set RSP_SEQ _ _) as [j1|] eqn:E1; [|done]. simpl in Hg.
  destruct (json_set RSP_RC _ _) as [j2|] eqn:E2; [|done]. simpl in Hg.
  destruct (json_set RSP_RM _ _) as [j3|] eqn:E3; [|done]. simpl in Hg.
  apply (yields_with_json _ _ _ jv).
  eapply yields_local_bind; [by apply yields_json_assign|]. y_next w1.
  eapply yields_local_bind; [by apply yields_json_assign|]. y_next w2.
  eapply yields_local_bind; [by apply yields_json_assign|]. y_next w3.
  eapply yields_local_bind; [by apply yields_SendJsonPacket|]. unfold greeting_packet. y_next w4.
  apply yields_local_ret.
Qed.

Lemma yields_addUser c w n jv e :
  v_conns (observe w) !! c = Some e → framed e → m_encType (v_lobby (observe w)) = EncType.GREETING →
  greeting = Some (n, jv) → zlen (text jv) < 30000 →
  yields (addUser c) w tt (v_addUser c (greeting_packet n jv) (observe w)).
Proof.
  intros Hc Hf He Hg Ht. destruct e as [t i m]. unfold addUser, v_addUser. rewrite Hc.
  eapply yields_bind; [by eapply yields_getTag|]. y_next w0.
  cbn [e_tag]. destruct t as [p|].
  { eapply yields_bind; [by eapply yields_getIdentity|]. y_next w1. apply yields_ret. }
  eapply yields_bind; [apply yields_new_object|]. fold (new_user_ptr (observe w0)). intros w1 E1.
  eapply yields_bind; [apply cs_setTag; by rewrite E1|]. intros w2 E2.
  assert (Hc2 : v_conns (observe w2) !! c
                 = Some (mkEntry (Some (new_user_ptr (observe w0))) i m)).
  { rewrite E2, E1. simpl. by rewrite lookup_alter_eq, Hc. }
  eapply yields_bind; [by eapply yields_getIdentity|]. cbn [e_identity]. y_next w3.
  eapply yields_bind; [apply yields_get_lobby|]. y_next w4.
  rewrite E2, E1. simpl. destruct (m_users _ !! i).
  { rewrite <- E1, <- E2. apply yields_ret. }
  eapply yields_bind; [apply yields_upd_lobby|]. intros w5 E5. rewrite E2, E1 in E5.
  rewrite <- E5. apply (yields_greeting _ (User_new c)); [|done..].
  rewrite E5. split_and!; simpl; [by rewrite lookup_insert_eq| |done].
  rewrite lookup_alter_eq, Hc. by eexists.
Qed.

Lemma yields_logout p u w :
  l_heap (v_lobby (observe w)) !! p = Some (OUser u) → m_user (v_lobby (observe w)) = None →
  is_Some (json_set "userIDX" (json_uint (u_userIDX u)) json_null) →
  (∀ jv, is_Some (json_set "nick" (json_string (u_userID u)) jv) ∨
         json_set "userIDX" (json_uint (u_userIDX u)) json_null ≠ Some jv) →
  yields (with_json json_null
            (json_assign "userIDX" (json_uint (u_userIDX u));;
             json_assign "nick" (json_string (u_userID u));;
             _ ← BrokerConnector_sendJsonPacket "/userLogout";
             mret tt)) w tt (observe w).
Proof.
  intros Hp Hb [j1 E1] H2. destruct (H2 j1) as [[j2 E2]|]; [|done].
  apply (yields_with_json _ _ _ j2).
  eapply yields_local_bind; [by apply yields_json_assign|]. y_next w1.
  eapply yields_local_bind; [by apply yields_json_assign|]. y_next w2.
  eapply yields_local_bind; [|intros w3 E3; rewrite <- E3; apply yields_local_ret].
  unfold BrokerConnector_sendJsonPacket.
  eapply yields_local_bind; [apply yields_on_snd, yields_get_lobby|]. y_next w3.
  rewrite Hb. apply yields_local_ret.
Qed.

Context `{!JsonLaws J}.

Lemma set_set_null k v k' v' jv :
  json_set k v json_null = Some jv → k ≠ k' → is_Some (json_set k' v' jv).
Proof. intros E Hne. eapply set_of_get. by rewrite (get_set_other _ _ _ _ _ Hne E), get_null. Qed.

Lemma yields_deleteUser_erase c p u i m w :
  v_conns (observe w) !! c = Some (mkEntry (Some p) i m) →
  l_heap (v_lobby (observe w)) !! p = Some (OUser u) → u_conn u = c →
  m_users (v_lobby (observe w)) !! i = Some c →
  yields (deleteUser_erase c p) w tt (v_deleteUser c (observe w)).
Proof.
  intros Hc Hp Hu Hi. unfold deleteUser_erase, v_deleteUser. rewrite Hc, Hp.
  eapply yields_bind; [by apply yields_this_user|]. y_next w4.
  eapply yields_bind; [apply yields_upd_lobby|]. intros w5 E5.
  eapply yields_bind; [apply (yields_getIdentity (u_conn u) (mkEntry (Some p) i m)); by rewrite E5, Hu|].
  y_next w6. eapply yields_bind; [apply yields_get_lobby|]. y_next w7.
  rewrite E5. simpl. rewrite Hi.
  eapply yields_bind; [apply yields_upd_lobby|]. intros w8 E8. rewrite E5 in E8.
  eapply yields_bind; [apply yields_delete_object; rewrite E8; by eexists|]. intros w9 E9.
  rewrite E8 in E9. destruct (cs_setTag c None w9) as (w10 & E10 & O10);
    [rewrite E9; simpl; by rewrite Hc|].
  exists w10. split; [done|]. by rewrite O10, E9.
Qed.

Lemma yields_deleteUser c w :
  is_Some (v_conns (observe w) !! c) → users_ok (observe w) →
  yields (deleteUser c) w tt (v_deleteUser c (observe w)).
Proof.
  intros [[t i m] Hc] Hv. unfold deleteUser.
  eapply yields_bind; [by eapply yields_getTag|]. y_next w0.
  cbn [e_tag]. destruct t as [p|]; [|unfold v_deleteUser; rewrite Hc; apply yields_ret].
  destruct (uo_tag _ Hv _ _ _ _ Hc) as [(u & Hp & Hu) Hi]. unfold User_logoutProcess.
  eapply yields_bind; [apply yields_ret|]. y_next w1.
  eapply yields_bind; [by apply yields_this_user|]. y_next w2.
  eapply yields_bind.
  { apply (yields_logout p); [done|by apply uo_broker|by apply set_null|]. intros jv.
    destruct (json_set "userIDX" _ _) as [j1|] eqn:E1; [|by right].
    destruct (decide (is_Some (json_set "nick" (json_string (u_userID u)) jv))) as [|Hn]; [by left|].
    right. intros [= ->]. apply Hn. by eapply set_set_null. }
  y_next w3. by eapply yields_deleteUser_erase.
Qed.

(** ** Sending to users from the broker *)
Lemma yields_send_to c p u i m url jv n jv' w :
  v_conns (observe w) !! c = Some (mkEntry (Some p) i m) → user_at p u (observe w) → u_conn u = c →
  zlen (string_bytes url) ≤ 32 → sent_value jv = Some (n, jv') → zlen (text jv') < 30000 →
  yields_local (send_to c (λ _, mret tt) url) jv w jv' tt
    (v_add_sent [(c, wire (lobby_packet n (string_bytes url) (text jv')))] (observe w)).
Proof.
  intros Hc Hu <- Hurl Hs Ht. unfold send_to.
  eapply yields_local_bind; [apply yields_on_snd, yields_weak_lock; by rewrite Hc|]. y_next w1.
  eapply yields_local_bind; [by eapply yields_on_snd, yields_getTag|]. y_next w2.
  eapply yields_local_bind; [apply yields_on_snd, yields_ret|]. y_next w3.
  eapply yields_local_bind; [by apply yields_SendJsonPacket|]. intros w4 <-.
  apply yields_local_ret.
Qed.

Lemma v_add_sent_cons x l v : v_add_sent (x :: l) v = v_add_sent l (v_add_sent [x] v).
Proof. unfold v_add_sent. simpl. by rewrite <- (assoc_L (++)). Qed.
Lemma v_add_sent_nil v : v_add_sent [] v = v.
Proof. destruct v. unfold v_add_sent. simpl. by rewrite app_nil_r. Qed.
Lemma users_ok_add_sent l v : users_ok v → users_ok (v_add_sent l v).
Proof. by intros []. Qed.

(** Every entry of the map of users is a connection with its user.  This holds
    also while a broker is connected, whose connection [users_ok] has no place
    for. *)
Definition registered (v : LobbyView) : Prop :=
  ∀ i c, m_users (v_lobby v) !! i = Some c →
  ∃ p m u, v_conns v !! c = Some (mkEntry (Some p) i m) ∧ user_at p u v ∧ u_conn u = c.

Lemma users_ok_registered v : users_ok v → registered v.
Proof.
  intros Hv i c Hi. destruct (uo_users v Hv _ _ Hi) as (p & m & Hc).
  destruct (uo_tag v Hv _ _ _ _ Hc) as [(u & Hp & Hu) _]. exists p, m, u.
  split_and!; [done|split_and!; [done| |by apply uo_encType]|done].
  rewrite Hu. eexists. split; [done|]. by eapply uo_framed.
Qed.
Lemma registered_add_sent l v : registered v → registered (v_add_sent l v).
Proof. done. Qed.

Lemma yields_send_to_each conns url jv n w :
  registered (observe w) → (∀ c, c ∈ conns → ∃ i, m_users (v_lobby (observe w)) !! i = Some c) →
  zlen (string_bytes url) ≤ 32 → sent_value jv = Some (n, jv) → zlen (text jv) < 30000 →
  yields_local (send_to_each conns url) jv w jv tt
    (v_add_sent ((λ c, (c, wire (lobby_packet n (string_bytes url) (text jv)))) <$> conns) (observe w)).
Proof.
  intros Hv Hin Hurl Hs Ht. revert w Hv Hin. induction conns as [|c conns IH]; intros w Hv Hin.
  { simpl. rewrite v_add_sent_nil. apply yields_local_ret. }
  destruct (Hin c) as [i Hi]; [by left|].
  destruct (Hv _ _ Hi) as (p & m & u & Hc & Hu & Hcu).
  simpl. eapply yields_local_bind; [by eapply yields_send_to|]. intros w1 E1.
  rewrite v_add_sent_cons, <- E1. apply IH; rewrite E1; [by apply registered_add_sent|].
  intros c' Hc'. apply Hin. by right.
Qed.

Lemma users_in_order_elem (m : gmap Z ConnPtr) c :
  c ∈ snd <$> users_in_order m → ∃ i, m !! i = Some c.
Proof.
  intros ([i c'] & -> & Hin)%list_elem_of_fmap. exists i. simpl.
  apply elem_of_map_to_list. unfold users_in_order in Hin.
  by rewrite merge_sort_Permutation in Hin.
Qed.

Lemma yields_broadcast url jv n w :
  registered (observe w) →
  zlen (string_bytes url) ≤ 32 → sent_value jv = Some (n, jv) → zlen (text jv) < 30000 →
  yields_local (sendPacketFromBroker_All url) jv w jv tt
    (v_broadcast (wire (lobby_packet n (string_bytes url) (text jv))) (observe w)).
Proof.
  intros Hv Hurl Hs Ht. unfold sendPacketFromBroker_All.
  eapply yields_local_bind; [apply yields_on_snd, yields_get_lobby|]. y_next w1.
  apply yields_send_to_each; [done| |done..]. intros c. apply users_in_order_elem.
Qed.
End Refinement.
