(* ===== verification/LobbyRefinement.v ===== *)
(** * The connections of the server keep the lobby's contract

    [ConnectionSpec] of LobbySpec.v for the world of the server: the view of a
    world has the connections that frame their packets as the service of the
    lobby does, the writes and the reserved closes that are in flight. *)
From stdpp Require Import gmap strings list.
From coqutil Require Import Byte.
From S2P Require Import Prelude.
From S2P Require Import MessageBuffer.
From S2P Require Import PacketHeader.
From S2P Require Import Connection.
From S2P Require Import IoService.
From S2P Require Import ConnectionImpl.
From S2P Require Import ConnectionSafety.
From S2P Require Import ConnectionSend.
From S2P Require Import Json.
From S2P Require Import LobbyState.
From S2P Require Import Environment.
From S2P Require Import Server.
From S2P Require Import LobbySpec.
#[local] Open Scope Z_scope.

Section Instance.
Context `{FreshMemory} `{!Jsoncpp} `{!Sockets} `{!PropertyTree}.
Local Abbreviation W := (NetWorld App).
Implicit Types (w : W) (c : ConnPtr) (cn : ConnectionImpl).

Definition entry_of (cn : ConnectionImpl) : ConnEntry :=
  mkEntry (ci_tag cn) (ci_identity cn) (ci_msgManipulator cn).
Definition writes (l : list async_op) : list (ConnPtr * list byte) :=
  omap (λ o, match o with WriteAll c d _ => Some (c, d) | _ => None end) l.
Definition reserves (l : list async_op) : list ConnPtr :=
  omap (λ o, match o with WaitCloseReserve c _ => Some c | _ => None end) l.
Definition observe_world (w : W) : LobbyView :=
  mkLobbyView (app_lobby (nw_app w)) (entry_of <$> nw_conns w) (writes (nw_pending w))
    (reserves (nw_pending w)).

Lemma observed_conn c w e :
  v_conns (observe_world w) !! c = Some e → ∃ cn, nw_conns w !! c = Some cn ∧ e = entry_of cn.
Proof. simpl. rewrite lookup_fmap_Some. intros (cn & <- & ?). by exists cn. Qed.
Lemma observed_some c w :
  is_Some (v_conns (observe_world w) !! c) → ∃ cn, nw_conns w !! c = Some cn.
Proof. intros [e He]. apply observed_conn in He as (cn & ? & _). by exists cn. Qed.

(** A cancelled wait is still a reserved close. *)
Lemma reserves_cancel c l : reserves (cancel_closeReserve c <$> l) = reserves l.
Proof. unfold reserves. induction l as [|[] l IH]; csimpl; congruence. Qed.
Lemma writes_cancel c l : writes (cancel_closeReserve c <$> l) = writes l.
Proof. unfold writes. induction l as [|[] l IH]; csimpl; congruence. Qed.
Lemma writes_app l1 l2 : writes (l1 ++ l2) = writes l1 ++ writes l2.
Proof. apply omap_app. Qed.
Lemma reserves_app l1 l2 : reserves (l1 ++ l2) = reserves l1 ++ reserves l2.
Proof. apply omap_app. Qed.

Lemma this_conn_no_throw {A} c (f : ConnectionImpl → A) :
  no_throw (cn ← this_conn (U := App) c; mret (f cn)).
Proof.
  intros w w' e. rewrite bind_run. unfold this_conn. run_step.
  by destruct (nw_conns w !! c).
Qed.

#[export] Instance server_connections : ConnectionSpec W.
Proof.
  refine {| observe := observe_world |}.
  - done.
  - done.
  - intros c w e (cn & Hc & ->)%observed_conn. simpl. unfold ConnectionImpl_getTag.
    by run_with (this_conn_run _ _ _ Hc).
  - intros c w e (cn & Hc & ->)%observed_conn. simpl. unfold ConnectionImpl_getIdentity.
    by run_with (this_conn_run _ _ _ Hc).
  - intros c t w (cn & Hc)%observed_some. eexists. split; [by apply upd_conn_run|].
    unfold observe_world, v_set_tag. simpl. f_equal. apply map_eq. intros c'.
    destruct (decide (c = c')) as [<-|Hne].
    + by rewrite lookup_fmap, lookup_insert_eq, lookup_alter_eq, lookup_fmap, Hc.
    + by rewrite lookup_fmap, lookup_insert_ne, lookup_alter_ne, lookup_fmap by done.
  - intros c d w e (cn & Hc & ->)%observed_conn Hf Hd. eexists. split.
    + by apply (sendPacket_run (rules := test_rules) (manip := json_getMsgManipulatorTest) c w cn).
    + unfold observe_world, v_add_sent. simpl. rewrite writes_app, reserves_app.
      by rewrite app_nil_r.
  - intros c t w (cn & Hc)%observed_some. eexists. split; [done|].
    unfold observe_world, v_close. simpl. rewrite writes_app, reserves_app.
    by rewrite writes_cancel, reserves_cancel, app_nil_r.
  - intros c w (cn & Hc)%observed_some. simpl. run_step. by rewrite Hc.
  - intros c. apply this_conn_no_throw.
  - intros c. apply this_conn_no_throw.
  - by intros c t w w' e.
Defined.
End Instance.
