(* ===== verification/LobbyInvariant.v ===== *)
(** * The invariant of the users

    [lobby_inv] ties the users of the lobby to the connections and the services
    of a world.  [quiet] relates worlds that differ in nothing the invariant
    looks at: all of the network layer but the creation of connections is
    quiet.  [holds] is the relation of the code that keeps the invariant and
    creates no connection: the user manager does, by LobbyUsersSpec.v.
    ServerInvariant.v carries the invariant through the whole server. *)
From stdpp Require Import gmap strings list.
From coqutil Require Import Byte.
From S2P Require Import Prelude.
From S2P Require Import MessageBuffer.
From S2P Require Import PacketHeader.
From S2P Require Import Connection.
From S2P Require Import MessageProcedure.
From S2P Require Import EventReceiver.
From S2P Require Import IoService.
From S2P Require Import ConnectionImpl.
From S2P Require Import NetService.
From S2P Require Import NetKeeps.
From S2P Require Import NetServiceSafety.
From S2P Require Import NetProperties.
From S2P Require Import Json.
From S2P Require Import LobbyState.
From S2P Require Import LobbyUser.
From S2P Require Import LobbyUserManager.
From S2P Require Import LobbyHandlers.
From S2P Require Import BrokerConnector.
From S2P Require Import LobbyAcceptorReceiver.
From S2P Require Import PacketParserSimple.
From S2P Require Import PacketParserJson.
From S2P Require Import LobbySafety.
From S2P Require Import Environment.
From S2P Require Import TestInterface.
From S2P Require Import Server.
From S2P Require Import ServerProperties.
From S2P Require Import ServerDemo.
From S2P Require Import LobbySpec.
From S2P Require Import LobbyUsersSpec.
From S2P Require Import LobbyRefinement.
#[local] Open Scope Z_scope.

(** ** What the invariant looks at *)
Definition conn_id (cn : ConnectionImpl) : ConnEntry * option RecvPtr * MsgProcPtr :=
  (entry_of cn, ci_eventReceiver cn, ci_msgProc cn).

Record LobbyAbs : Type := mkLobbyAbs {
  ab_conns : gmap ConnPtr (ConnEntry * option RecvPtr * MsgProcPtr);
  ab_seed : Z;
  ab_lobby : LobbyState;
  ab_services : gmap ServicePtr (RecvPtr * MsgProcPtr * option MsgUserManip)
}.
Definition abs (w : NetWorld App) : LobbyAbs :=
  mkLobbyAbs (conn_id <$> nw_conns w) (nw_identitySeed w) (app_lobby (nw_app w))
    (service_fixed <$> s_objects (app_services (nw_app w))).

Definition quiet (w w' : NetWorld App) : Prop := abs w' = abs w.
#[export] Instance quiet_preorder : PreOrder quiet.
Proof. split; [done|]. intros w1 w2 w3 H1 H2. unfold quiet in *. congruence. Qed.

(** The parts of the view that the users are about. *)
Lemma users_ok_ext v v' :
  v_lobby v' = v_lobby v → v_conns v' = v_conns v → users_ok v → users_ok v'.
Proof. destruct v, v'. simpl. intros -> -> []. by split. Qed.

Section Quiet.
Context `{FreshMemory} `{!Jsoncpp} `{!Sockets} `{!PropertyTree}.
Local Abbreviation W := (NetWorld App).
Implicit Types (w : W) (c : ConnPtr) (p : ServicePtr).

Lemma conn_fixed_id cn cn' : conn_fixed cn' = conn_fixed cn → conn_id cn' = conn_id cn.
Proof. unfold conn_fixed, conn_id, entry_of. congruence. Qed.

(** The network library is quiet but for new connections. *)
#[export] Instance quiet_net_keeps : NetKeeps quiet.
Proof.
  apply net_keeps_intro; [typeclasses eauto|..].
  - intros c f Hf w. unfold upd_conn, this_conn. run_step.
    destruct (nw_conns w !! c) as [cn|] eqn:E; simpl; [|done].
    unfold quiet, abs. simpl. f_equal. rewrite fmap_insert, (conn_fixed_id cn) by apply Hf.
    apply insert_id. by rewrite lookup_fmap, E.
  - by intros o _ w.
  - by intros f _ w.
  - by intros n w.
  - by intros e w.
  - intros f Hf w. unfold upd_services. run_step. unfold quiet, abs. simpl. by rewrite (proj1 (Hf _)).
  - intros p f Hf w. unfold upd_service, this_service, get_services. run_step.
    destruct (s_objects (services_of (nw_app w)) !! p) as [o|] eqn:E; simpl; [|done].
    unfold quiet, abs. simpl. f_equal. rewrite fmap_insert, (proj1 (Hf o)).
    apply insert_id. simpl in E. by rewrite lookup_fmap, E.
Qed.

Lemma quiet_start_op o : keeps quiet (start_op (U := App) o).
Proof. by intros w. Qed.
End Quiet.

(** ** The invariant *)
Record lobby_inv (w : NetWorld App) : Prop := {
  li_users : users_ok (observe_world w);
  li_seed : 0 ≤ nw_identitySeed w < 2 ^ 64;
  li_identity c cn : nw_conns w !! c = Some cn → ci_identity cn < nw_identitySeed w;
  li_conns c cn :
    nw_conns w !! c = Some cn →
    ci_eventReceiver cn = Some LOBBY_RECEIVER ∧ ci_msgProc cn = LOBBY_MSGPROC;
  li_services p o :
    s_objects (app_services (nw_app w)) !! p = Some o →
    ns_eventReceiver o = LOBBY_RECEIVER ∧ ns_msgProc o = LOBBY_MSGPROC
    ∧ ns_manip o = Some json_getMsgManipulatorTest
}.

(** The part of it that the user manager does not change. *)
Definition conn_role (cn : ConnectionImpl) : Z * option RecvPtr * MsgProcPtr :=
  (ci_identity cn, ci_eventReceiver cn, ci_msgProc cn).
Definition frozen (w w' : NetWorld App) : Prop :=
  nw_identitySeed w' = nw_identitySeed w
  ∧ service_fixed <$> s_objects (app_services (nw_app w'))
    = service_fixed <$> s_objects (app_services (nw_app w))
  ∧ conn_role <$> nw_conns w' = conn_role <$> nw_conns w.
#[export] Instance frozen_preorder : PreOrder frozen.
Proof.
  split; [done|]. intros w1 w2 w3 (H1 & H2 & H3) (H4 & H5 & H6). split_and!; congruence.
Qed.

(** Maps with equal images have the same keys. *)
Lemma fmap_eq_lookup `{Countable K} {A B} (f : A → B) (m m' : gmap K A) k a' :
  f <$> m' = f <$> m → m' !! k = Some a' → ∃ a, m !! k = Some a ∧ f a = f a'.
Proof.
  intros E Ea. apply (f_equal (lookup k)) in E. rewrite !lookup_fmap, Ea in E. simpl in E.
  symmetry in E. apply fmap_Some in E as (a & ? & ?). eauto.
Qed.

Lemma lobby_inv_frozen w w' :
  frozen w w' → users_ok (observe_world w') → lobby_inv w → lobby_inv w'.
Proof.
  intros (Hs & Ho & Hc) Hu [_ Hseed Hid Hconns Hsrv]. split; rewrite ?Hs; try done.
  - intros c cn' Ec. destruct (fmap_eq_lookup _ _ _ _ _ Hc Ec) as (cn & E & [=<- _ _]).
    by eapply Hid.
  - intros c cn' Ec. destruct (fmap_eq_lookup _ _ _ _ _ Hc Ec) as (cn & E & [=_ <- <-]).
    by eapply Hconns.
  - intros p o' Eo. destruct (fmap_eq_lookup _ _ _ _ _ Ho Eo) as (o & E & [=<- <- <-]).
    by eapply Hsrv.
Qed.

Lemma abs_compose {A B C} (f : A → B) (g : B → C) (m m' : gmap ConnPtr A) :
  f <$> m' = f <$> m → (g ∘ f) <$> m' = (g ∘ f) <$> m.
Proof. intros E. by rewrite !map_fmap_compose, E. Qed.

Lemma quiet_frozen w w' : quiet w w' → frozen w w'.
Proof.
  intros E. split; [apply (f_equal ab_seed E)|]. split; [apply (f_equal ab_services E)|].
  apply (abs_compose conn_id (λ x, (e_identity x.1.1, x.1.2, x.2)) _ _ (f_equal ab_conns E)).
Qed.
Lemma quiet_entries w w' : quiet w w' → entry_of <$> nw_conns w' = entry_of <$> nw_conns w.
Proof. intros E. apply (abs_compose conn_id (λ x, x.1.1) _ _ (f_equal ab_conns E)). Qed.

Lemma lobby_inv_quiet w w' : quiet w w' → lobby_inv w → lobby_inv w'.
Proof.
  intros E Hi. apply (lobby_inv_frozen w); [by apply quiet_frozen| |done].
  apply (users_ok_ext (observe_world w)); [|by apply quiet_entries|by apply li_users].
  apply (f_equal ab_lobby E).
Qed.

(** ** The relation of the code that creates no connection *)
Definition holds (w w' : NetWorld App) : Prop :=
  lobby_inv w → lobby_inv w' ∧ nw_identitySeed w' = nw_identitySeed w.
#[export] Instance holds_preorder : PreOrder holds.
Proof.
  split; [done|]. intros w1 w2 w3 H12 H23 Hi. destruct (H12 Hi) as [Hi2 <-]. by apply H23.
Qed.
Lemma quiet_holds w w' : quiet w w' → holds w w'.
Proof. intros E Hi. split; [by eapply lobby_inv_quiet|by apply (f_equal ab_seed E)]. Qed.

Section Holds.
Context `{FreshMemory} `{J : !Jsoncpp} `{!Sockets} `{!PropertyTree}.
Local Abbreviation W := (NetWorld App).
Implicit Types (w : W) (c : ConnPtr) (p : ServicePtr).

#[export] Instance holds_net_keeps : NetKeeps holds.
Proof. eapply net_keeps_weaken; [typeclasses eauto|exact quiet_holds|typeclasses eauto]. Qed.
Lemma holds_start_op o : keeps holds (start_op (U := App) o).
Proof. apply (keeps_weaken quiet); [exact quiet_holds|apply quiet_start_op]. Qed.
#[local] Instance frozen_net_keeps : NetKeeps frozen.
Proof. eapply net_keeps_weaken; [typeclasses eauto|exact quiet_frozen|typeclasses eauto]. Qed.

#[export] Instance frozen_lobby_keeps : LobbyKeeps W frozen.
Proof.
  split.
  - apply net_conn_keeps. typeclasses eauto.
  - by intros l w.
  - intros c t w. simpl. unfold ConnectionImpl_setTag, upd_conn, this_conn. run_step.
    destruct (nw_conns w !! c) as [cn|] eqn:E; simpl; [|done].
    split_and!; [done..|]. simpl. rewrite fmap_insert. apply insert_id.
    by rewrite lookup_fmap, E.
Qed.

Context `{!JsonLaws J} (n : Z) (jv : Value).
Context (Hgreeting : greeting = Some (n, jv)) (Hsize : zlen (text jv) < 30000).

(** A call of the user manager that does what a view says. *)
Lemma user_call_holds (m : M W unit) c (f : LobbyView → LobbyView) :
  (∀ w, nw_conns w !! c = None → ∃ what, m w = Undef what) →
  (∀ w e, v_conns (observe_world w) !! c = Some e → users_ok (observe_world w) →
     yields m w tt (f (observe_world w))) →
  (∀ v, users_ok v → users_ok (f v)) →
  keeps frozen m → keeps holds m.
Proof.
  intros Hno Hyes Hok Hfr w. destruct (nw_conns w !! c) as [cn|] eqn:Ec.
  2:{ by destruct (Hno w Ec) as [what ->]. }
  specialize (Hyes w (entry_of cn)). specialize (Hfr w). simpl in Hyes. rewrite lookup_fmap, Ec in Hyes.
  assert (Hrel : ∀ w', users_ok (observe_world w) → m w = Done w' tt → frozen w w' → holds w w').
  { intros w' Hu E Hf Hi. destruct (Hyes eq_refl Hu) as (w1 & E1 & Eo).
    rewrite E in E1. injection E1 as <-. split; [|by destruct Hf]. apply (lobby_inv_frozen w); [done| |done].
    change (users_ok (observe w')). rewrite Eo. by apply Hok. }
  destruct (m w) as [w' []|w' e| |] eqn:E; try done.
  - intros Hi. by apply (Hrel w' (li_users w Hi) eq_refl Hfr).
  - intros Hi. destruct (Hyes eq_refl (li_users w Hi)) as (? & ? & _). congruence.
Qed.

Lemma getTag_unknown {A} c (k : option TagPtr → M W A) w :
  nw_conns w !! c = None → ∃ what, (conn_getTag c ≫= k) w = Undef what.
Proof.
  intros E. eexists. simpl. unfold ConnectionImpl_getTag, this_conn. run_step. by rewrite E.
Qed.

Lemma holds_addUser c : keeps holds (addUser (W := W) c).
Proof.
  apply (user_call_holds _ c (v_addUser c (greeting_packet n jv))).
  - intros w. apply getTag_unknown.
  - intros w e Ee Hu. apply (yields_addUser (CS := server_connections) c w n jv e Ee); [by eapply uo_framed|by apply uo_encType|done..].
  - apply v_addUser_ok.
  - apply (keeps_addUser frozen).
Qed.
Lemma holds_deleteUser c : keeps holds (deleteUser (W := W) c).
Proof.
  apply (user_call_holds _ c (v_deleteUser c)).
  - intros w. apply getTag_unknown.
  - intros w e Ee Hu. apply (yields_deleteUser (CS := server_connections) c w); [by exists e|done].
  - apply v_deleteUser_ok.
  - apply (keeps_deleteUser frozen).
Qed.

(** The index, the identity and the time of the login are not looked at. *)
Lemma holds_login_reset q : keeps holds (upd_user (W := W) q login_reset).
Proof.
  intros w. unfold upd_user, this_user, upd_lobby, get_lobby. run_step. simpl.
  destruct (l_heap (app_lobby (nw_app w)) !! q) as [[u|u]|] eqn:E; simpl; try done.
  intros Hi. split; [|done]. apply (lobby_inv_frozen w); [by split_and!| |done].
  destruct (li_users w Hi) as [? ? Htag ? ? ?]. split; try done. simpl in *.
  intros c p i m Hc. destruct (Htag _ _ _ _ Hc) as [(u' & Hu' & Huc) Hm]. split; [|done].
  destruct (decide (q = p)) as [<-|Hne].
  - rewrite lookup_insert_eq. exists (login_reset u). split; [done|]. rewrite E in Hu'. by injection Hu' as <-.
  - rewrite lookup_insert_ne by done. by exists u'.
Qed.

(** Changes of the lobby that the users do not see. *)
Lemma holds_upd_lobby f :
  (∀ s, l_heap (f s) = l_heap s ∧ m_users (f s) = m_users s ∧ m_user (f s) = m_user s
        ∧ (m_encType s = EncType.GREETING → m_encType (f s) = EncType.GREETING)) →
  keeps holds (upd_lobby (W := W) f).
Proof.
  intros Hf w. unfold upd_lobby. run_step. intros Hi. split; [|done].
  apply (lobby_inv_frozen w); [by split_and!| |done].
  destruct (Hf (app_lobby (nw_app w))) as (Hh & Hu & Hb & He), (li_users w Hi) as [? ? ? ? Henc ?].
  split; simpl in *; rewrite ?Hh, ?Hu, ?Hb; auto.
Qed.

#[local] Instance holds_request_keeps : RequestKeeps W holds.
Proof.
  split; [apply net_conn_keeps; typeclasses eauto|apply holds_login_reset|].
  intros i. by apply holds_upd_lobby.
Qed.
#[local] Instance holds_user_keeps : UserKeeps W holds.
Proof. split; [typeclasses eauto|apply holds_addUser|apply holds_deleteUser]. Qed.
End Holds.
