(* ===== verification/ServerInvariant.v ===== *)
(** * The users of the running server

    The invariant of LobbyInvariant.v through the event receivers, the
    completion handlers, the creation of connections and the start of the
    server: [server_users_ok] says what holds of the users in every state the
    server reaches. *)
From stdpp Require Import gmap strings list.
From coqutil Require Import Byte.
From S2P Require Import Prelude.
From S2P Require Import MessageBuffer.
From S2P Require Import PacketHeader.
From S2P Require Import Connection.
From S2P Require Import MessageProcedure.
From S2P Require Import EventReceiver.
From S2P Require Import IoService.
From S2P Require Import ConnectionImpl.
From S2P Require Import ConnectionSafety.
From S2P Require Import NetService.
From S2P Require Import NetKeeps.
From S2P Require Import NetServiceSafety.
From S2P Require Import NetProperties.
From S2P Require Import Json.
From S2P Require Import LobbyState.
From S2P Require Import LobbyUser.
From S2P Require Import LobbyUserManager.
From S2P Require Import LobbyHandlers.
From S2P Require Import BrokerConnector.
From S2P Require Import LobbyAcceptorReceiver.
From S2P Require Import PacketParserSimple.
From S2P Require Import PacketParserJson.
From S2P Require Import LobbySafety.
From S2P Require Import Environment.
From S2P Require Import TestInterface.
From S2P Require Import Server.
From S2P Require Import ServerDemo.
From S2P Require Import LobbySpec.
From S2P Require Import LobbyUsersSpec.
From S2P Require Import LobbyRefinement.
From S2P Require Import LobbyInvariant.
#[local] Open Scope Z_scope.

(** [grows]: what may also create a connection, while identities last. *)
Definition grows (w w' : NetWorld App) : Prop :=
  lobby_inv w → nw_identitySeed w < 2 ^ 64 - 1 → lobby_inv w'.

Section Callbacks.
Context `{FreshMemory} `{J : !Jsoncpp} `{!Sockets} `{!PropertyTree} `{!JsonLaws J}.
Local Abbreviation W := (NetWorld App).
Implicit Types (w : W) (c : ConnPtr) (p : ServicePtr).
Context (n : Z) (jv : Value) (Hgreeting : greeting = Some (n, jv)) (Hsize : zlen (text jv) < 30000).
#[local] Instance user_keeps : UserKeeps W holds := holds_user_keeps n jv Hgreeting Hsize.

(** ** The receiver and the message procedure are those of the lobby *)
Local Abbreviation lobby_receiver := (receiver_at LOBBY_RECEIVER).

Lemma holds_intro {A} (m : M W A) :
  (∀ w, lobby_inv w → match m w with
                      | Done w' _ | Threw w' _ => lobby_inv w' ∧ nw_identitySeed w' = nw_identitySeed w
                      | Undef _ | NoFuel => True end) →
  keeps holds m.
Proof. intros Hm w. specialize (Hm w). destruct (m w); try done; intros Hi; by apply Hm. Qed.
Lemma holds_elim {A} (m : M W A) w :
  keeps holds m → lobby_inv w →
  match m w with
  | Done w' _ | Threw w' _ => lobby_inv w' ∧ nw_identitySeed w' = nw_identitySeed w
  | Undef _ | NoFuel => True end.
Proof. intros Hm Hi. specialize (Hm w). destruct (m w); try done; by apply Hm. Qed.

(** Code that starts by looking at a connection or a service. *)
Lemma holds_conn {A} c (k : ConnectionImpl → M W A) :
  (∀ cn, ci_eventReceiver cn = Some LOBBY_RECEIVER → ci_msgProc cn = LOBBY_MSGPROC →
     keeps holds (k cn)) →
  keeps holds (cn ← this_conn c; k cn).
Proof.
  intros Hk. apply holds_intro. intros w Hi. unfold this_conn. run_step.
  destruct (nw_conns w !! c) as [cn|] eqn:E; simpl; [|done].
  destruct (li_conns w Hi c cn E) as [Hr Hp]. exact (holds_elim _ w (Hk cn Hr Hp) Hi).
Qed.
Lemma holds_service {A} p (k : NetServiceImpl → M W A) :
  (∀ o, ns_eventReceiver o = LOBBY_RECEIVER → ns_msgProc o = LOBBY_MSGPROC →
     ns_manip o = Some json_getMsgManipulatorTest → keeps holds (k o)) →
  keeps holds (o ← this_service p; k o).
Proof.
  intros Hk. apply holds_intro. intros w Hi. unfold this_service, get_services. run_step.
  destruct (s_objects (services_of (nw_app w)) !! p) as [o|] eqn:E; simpl; [|done].
  destruct (li_services w Hi p o E) as (Hr & Hp & Hm). exact (holds_elim _ w (Hk o Hr Hp Hm) Hi).
Qed.

Ltac callback := unfold receiver_at; rewrite bool_decide_true, service_receiver_eq by done; simpl.
Lemma holds_onAccept c : keeps holds (call (er_onAccept lobby_receiver) c).
Proof. callback. apply (keeps_lobby_onAccept holds). Qed.
Lemma holds_onConnect c : keeps holds (call (er_onConnect lobby_receiver) c).
Proof. callback. keeps_auto. Qed.
Lemma holds_onConnectFailed c : keeps holds (call (er_onConnectFailed lobby_receiver) c).
Proof. callback. keeps_auto. Qed.
Lemma holds_onClose c : keeps holds (call (er_onClose lobby_receiver) c).
Proof. callback. apply (keeps_lobby_onClose holds). Qed.
Lemma holds_onExpiredSession c : keeps holds (call (er_onExpiredSession lobby_receiver) c).
Proof. callback. apply (keeps_lobby_onExpiredSession holds). Qed.
Lemma holds_onUpdate t : keeps holds (call (er_onUpdate lobby_receiver) t).
Proof. callback. keeps_auto. Qed.
#[local] Hint Resolve holds_onAccept holds_onConnect holds_onConnectFailed holds_onClose
  holds_onExpiredSession holds_onUpdate : keeps.

(** [getReceiver], in an object or below a local one. *)
Lemma getReceiver_cases c w :
  (∃ what, ConnectionImpl_getReceiver receiver_at c w = Undef what)
  ∨ ∃ r, ConnectionImpl_getReceiver receiver_at c w = Done w (receiver_at r)
      ∧ (lobby_inv w → r = LOBBY_RECEIVER).
Proof.
  unfold ConnectionImpl_getReceiver, this_conn. run_step.
  destruct (nw_conns w !! c) as [cn|] eqn:E; simpl; [|by left; eexists]. run_step.
  destruct (ci_eventReceiver cn) as [r|] eqn:Er; simpl; [|by left; eexists].
  right. exists r. split; [done|]. intros Hi. destruct (li_conns w Hi c cn E). congruence.
Qed.
Lemma holds_getReceiver {A} c (k : EventReceiver W → M W A) :
  keeps holds (k lobby_receiver) →
  keeps holds (er ← ConnectionImpl_getReceiver receiver_at c; k er).
Proof.
  intros Hk. apply holds_intro. intros w Hi. rewrite bind_run.
  destruct (getReceiver_cases c w) as [[what ->]|(r & -> & Hr)]; simpl; [done|].
  rewrite (Hr Hi). exact (holds_elim _ w Hk Hi).
Qed.

Lemma holds_noHandler c : keeps (rel_snd holds) (call_noHandler (W := W) c).
Proof.
  intros [msg w]. unfold call_noHandler. simpl. rewrite bind_run, on_snd_run.
  destruct (getReceiver_cases c w) as [[what ->]|(r & -> & Hr)]; simpl; [done|].
  assert (Hk : lobby_inv w →
    match call (er_noHandler (receiver_at r)) c (msg, w) with
    | Done s' _ | Threw s' _ => rel_snd holds (msg, w) s'
    | Undef _ | NoFuel => True
    end).
  { intros Hi. rewrite (Hr Hi). unfold receiver_at.
    rewrite bool_decide_true, service_receiver_eq by done.
    apply (keeps_lobby_noHandler holds c (msg, w)). }
  destruct (call _ _ _) as [[msg' w'] []|[msg' w'] e| |]; try done; intros Hi; exact (Hk Hi Hi).
Qed.

(** ** Connections *)
Lemma holds_close c : keeps holds (ConnectionImpl_close receiver_at c).
Proof.
  unfold ConnectionImpl_close.
  keeps_step; [keeps_auto|]. destruct (_ =? 0); [|keeps_auto].
  do 3 (keeps_step; [keeps_auto|]). apply holds_getReceiver. auto with keeps.
Qed.
#[local] Hint Resolve holds_close : keeps.
Lemma holds_onExpireTime c ec : keeps holds (ConnectionImpl_onExpireTime receiver_at c ec).
Proof.
  unfold ConnectionImpl_onExpireTime. destruct (ec =? 0); [|keeps_auto].
  apply holds_conn. intros cn -> _. keeps_auto.
Qed.
Lemma holds_onCloseReserveTime c ec : keeps holds (ConnectionImpl_onCloseReserveTime receiver_at c ec).
Proof. unfold ConnectionImpl_onCloseReserveTime. keeps_auto. Qed.
Lemma holds_dispatch c msg : keeps holds (MessageProcedure_dispatch (msgProc_at LOBBY_MSGPROC) c msg).
Proof.
  unfold MessageProcedure_dispatch, msgProc_at. rewrite bool_decide_true by done. simpl.
  unfold ConnectionImpl_get_status. keeps_auto.
  apply keeps_notUseEncTest; [typeclasses eauto|apply holds_noHandler].
Qed.
#[local] Hint Resolve holds_onExpireTime holds_onCloseReserveTime holds_dispatch : keeps.

Lemma holds_complete_conn_op o cp : keeps holds (complete_conn_op receiver_at msgProc_at o cp).
Proof.
  destruct o; simpl; try (keeps_auto; fail).
  apply holds_conn. intros cn _ ->. keeps_auto.
Qed.

Lemma holds_update_handler p ec : keeps holds (update_handler receiver_at p ec).
Proof.
  unfold update_handler. destruct (ec =? 0); [|keeps_auto].
  apply holds_service. intros o -> _ _. keeps_auto.
Qed.
End Callbacks.

(** ** Creation of connections *)
Section Creation.
Context `{FreshMemory} `{J : !Jsoncpp} `{!Sockets} `{!PropertyTree} `{!JsonLaws J}.
Local Abbreviation W := (NetWorld App).
Implicit Types (w : W) (c : ConnPtr) (p : ServicePtr).
Context (n : Z) (jv : Value) (Hgreeting : greeting = Some (n, jv)) (Hsize : zlen (text jv) < 30000).

Lemma holds_grows w w' : holds w w' → grows w w'.
Proof. intros Hh Hi _. by apply Hh. Qed.
Lemma keeps_holds_grows {A} (m : M W A) : keeps holds m → keeps grows m.
Proof. apply keeps_weaken, holds_grows. Qed.
Lemma grows_before {A B} (m : M W A) (k : A → M W B) :
  keeps holds m → (∀ a, keeps grows (k a)) → keeps grows (m ≫= k).
Proof.
  intros Hm Hk w. rewrite bind_run. specialize (Hm w).
  destruct (m w) as [w1 a|w1 e| |]; simpl; try done; [|by apply holds_grows].
  specialize (Hk a w1). destruct (k a w1); try done; intros Hi Hs;
    destruct (Hm Hi) as [Hi1 Hs1]; apply Hk; [done|by rewrite Hs1|done|by rewrite Hs1].
Qed.
Lemma grows_after {A B} (m : M W A) (k : A → M W B) :
  keeps grows m → (∀ a, keeps holds (k a)) → keeps grows (m ≫= k).
Proof.
  intros Hm Hk w. rewrite bind_run. specialize (Hm w).
  destruct (m w) as [w1 a|w1 e| |]; simpl; try done.
  specialize (Hk a w1). destruct (k a w1); try done; intros Hi Hs; by apply Hk, Hm.
Qed.
Lemma grows_try_catch {A} (m : M W A) h :
  keeps grows m → (∀ e, keeps holds (h e)) → keeps grows (try_catch m h).
Proof.
  intros Hm Hh w. unfold try_catch. specialize (Hm w).
  destruct (m w) as [w1 a|w1 e| |]; simpl; try done.
  specialize (Hh e w1). destruct (h e w1); try done; intros Hi Hs; by apply Hh, Hm.
Qed.

(** A new connection has no user, and an identity no connection had before. *)
Lemma users_ok_new_conn c i m v :
  users_ok v → v_conns v !! c = None → (∀ c' e, v_conns v !! c' = Some e → e_identity e < i) →
  m = Some json_getMsgManipulatorTest →
  users_ok (mkLobbyView (v_lobby v) (<[c := mkEntry None i m]> (v_conns v)) (v_sent v) (v_closing v)).
Proof.
  intros Hv Hc Hi Hm. split; simpl; [..|apply (uo_encType v Hv)|apply (uo_broker v Hv)].
  - intros c1 c2 e1 e2 Hc1 Hc2 He. rewrite lookup_insert_Some in Hc1. rewrite lookup_insert_Some in Hc2.
    destruct Hc1 as [[<- <-]|[? Hc1]], Hc2 as [[<- <-]|[? Hc2]]; simpl in He; try done.
    + pose proof (Hi _ _ Hc2). lia.
    + pose proof (Hi _ _ Hc1). lia.
    + by eapply (uo_identity v Hv).
  - intros c1 e. rewrite lookup_insert_Some. intros [[<- <-]|[? Hc1]]; [done|by eapply uo_framed].
  - intros c1 p j m1. rewrite lookup_insert_Some. intros [[_ [=]]|[? Hc1]]. by eapply (uo_tag v Hv).
  - intros j c1 Hj. destruct (uo_users v Hv j c1 Hj) as (p & m1 & Hp). exists p, m1.
    rewrite lookup_insert_ne; [done|]. intros ->. congruence.
Qed.

Lemma lobby_inv_new_conn c cn w :
  lobby_inv w → nw_identitySeed w < 2 ^ 64 - 1 → nw_conns w !! c = None →
  conn_id cn = (mkEntry None (nw_identitySeed w) (Some json_getMsgManipulatorTest),
                Some LOBBY_RECEIVER, LOBBY_MSGPROC) →
  lobby_inv (set_identitySeed (u64 (nw_identitySeed w + 1)) (set_conns (<[c := cn]> (nw_conns w)) w)).
Proof.
  intros [Hu [Hs0 Hs] Hid Hconns Hsrv] Hmax Hc [= Ht Hi Hm Hr Hp].
  assert (Es : u64 (nw_identitySeed w + 1) = nw_identitySeed w + 1) by (unfold u64; apply Z.mod_small; lia).
  rewrite Es. split; simpl; [|lia| | |done].
  - pose proof (users_ok_new_conn c (nw_identitySeed w) (Some json_getMsgManipulatorTest) _ Hu) as Hnew.
    unfold observe_world in *. simpl in *. rewrite fmap_insert. unfold entry_of at 1.
    rewrite Ht, Hi, Hm. apply Hnew; [by rewrite lookup_fmap, Hc| |done].
    intros c' e. rewrite lookup_fmap_Some. intros (cn' & <- & E'). by eapply Hid.
  - intros c' cn'. rewrite lookup_insert_Some. intros [[<- <-]|[_ E]]; [lia|].
    pose proof (Hid _ _ E). lia.
  - intros c' cn'. rewrite lookup_insert_Some. intros [[<- <-]|[_ E]]; [done|by eapply Hconns].
Qed.

Lemma grows_create ka i :
  keeps grows (ConnectionImpl_create (U := App) LOBBY_MSGPROC (Some json_getMsgManipulatorTest)
                 (Some LOBBY_RECEIVER) ka i).
Proof.
  intros w. unfold ConnectionImpl_create. run_step.
  set (c := fresh _). set (cn := mkConnectionImpl _ _ _ _ _ _ _ _ _ _ _ _ _).
  set (w1 := set_identitySeed _ _). pose proof (net_renewExpireTime quiet c w1) as Hq.
  assert (Hnew : lobby_inv w → nw_identitySeed w < 2 ^ 64 - 1 → lobby_inv w1).
  { intros Hi Hs. apply lobby_inv_new_conn; try done. apply not_elem_of_dom, is_fresh. }
  destruct (ConnectionImpl_renewExpireTime c w1) as [w2 []|w2 e| |]; simpl; try done;
    intros Hi Hs; eapply lobby_inv_quiet; eauto.
Qed.

Lemma grows_service {A} p (k : NetServiceImpl → M W A) :
  (∀ o, ns_eventReceiver o = LOBBY_RECEIVER → ns_msgProc o = LOBBY_MSGPROC →
     ns_manip o = Some json_getMsgManipulatorTest → keeps grows (k o)) →
  keeps grows (o ← this_service p; k o).
Proof.
  intros Hk w. unfold this_service, get_services. run_step.
  destruct (s_objects (services_of (nw_app w)) !! p) as [o|] eqn:E; simpl; [|done].
  assert (Hr : lobby_inv w → keeps grows (k o))
    by (intros Hi; destruct (li_services w Hi p o E) as (? & ? & ?); by apply Hk).
  destruct (k o w) as [w' a|w' e| |] eqn:Ek; try done; intros Hi; pose proof (Hr Hi w) as Hg;
    rewrite Ek in Hg; by apply Hg.
Qed.

Lemma grows_create_conn p i : keeps grows (create_conn (U := App) p i).
Proof.
  unfold create_conn. apply grows_service. intros o -> -> ->.
  apply grows_after; [apply grows_create|]. intros c. 
  unfold ConnectionImpl_setServiceID. keeps_auto.
Qed.
End Creation.

(** ** The steps of the server *)
Section Steps.
Context `{FreshMemory} `{J : !Jsoncpp} `{!Sockets} `{!PropertyTree} `{!JsonLaws J}.
Local Abbreviation W := (NetWorld App).
Implicit Types (w : W) (c : ConnPtr) (p : ServicePtr).
Context (n : Z) (jv : Value) (Hgreeting : greeting = Some (n, jv)) (Hsize : zlen (text jv) < 30000).

#[local] Hint Resolve holds_start_op : keeps.
Local Ltac held :=
  first [ solve [keeps_auto]
        | solve [eapply holds_onAccept; eassumption | apply holds_onConnect
                | apply holds_onConnectFailed]
        | solve [keeps_auto] ].
Local Ltac before := apply grows_before; [held|intros ?].

Lemma grows_accept_handler p ec c : keeps grows (accept_handler receiver_at p ec c).
Proof.
  unfold accept_handler. destruct (ec =? 0); [|apply keeps_holds_grows; keeps_auto].
  apply grows_service. intros o -> _ _. before. before.
  apply grows_after; [apply grows_create_conn|intros c'; held].
Qed.

Lemma holds_current_endpoint p : keeps holds (current_endpoint (U := App) p).
Proof.  unfold current_endpoint, this_connector. keeps_auto. Qed.
Lemma grows_createConnectSession p i : keeps grows (createConnectSession (U := App) p i).
Proof.
  unfold createConnectSession. apply grows_after; [apply grows_create_conn|]. intros c.
   unfold current_endpoint, this_connector, socket_open. keeps_auto.
Qed.

Lemma grows_connect_handler p ec ep c k : keeps grows (connect_handler receiver_at p ec ep c k).
Proof.
  unfold connect_handler. apply grows_service. intros o -> _ _. cbv zeta.
  before. destruct (negb _); [apply keeps_holds_grows; keeps_auto; held|].
  destruct (negb _); [apply keeps_holds_grows; keeps_auto; held|].
  change (ConnectionImpl_start_connect c) with (ConnectionImpl_start_accept (U := App) c).
  before. before. destruct (0 <? k); [|apply keeps_holds_grows; keeps_auto].
  apply grows_try_catch; [|intros e; keeps_auto].
  apply grows_after; [apply grows_createConnectSession|]. intros c'. unfold start_connect_attempt. held.
Qed.

Lemma grows_complete_op o cp : keeps grows (complete_op receiver_at msgProc_at o cp).
Proof.
  pose proof (keeps_holds_grows _ (holds_complete_conn_op n jv Hgreeting Hsize o cp)) as Hconn.
  destruct o; try exact Hconn; clear Hconn; cbn [complete_op].
  - apply grows_accept_handler.
  - apply grows_after; [apply grows_connect_handler|intros b; keeps_auto].
  - apply keeps_holds_grows, holds_update_handler.
Qed.

(** An operation completes and its handler runs to the end; the server has
    not yet given out all of its 2^64 - 1 identities. *)
Inductive server_step (w w' : W) : Prop :=
| server_completes l1 o l2 cp :
    nw_pending w = l1 ++ o :: l2 → strand_ready l1 o = true → completion_ok o cp = true →
    nw_identitySeed w < 2 ^ 64 - 1 →
    complete_op receiver_at msgProc_at o cp (without (l1 ++ l2) w) = Done w' tt → server_step w w'.

Lemma server_step_inv w w' : server_step w w' → lobby_inv w → lobby_inv w'.
Proof.
  intros [l1 o l2 cp _ _ _ Hs Hrun] Hi. pose proof (grows_complete_op o cp (without (l1 ++ l2) w)) as Hg.
  rewrite Hrun in Hg. apply Hg; [|done]. by apply (lobby_inv_quiet w).
Qed.
Lemma server_steps_inv w w' : rtc server_step w w' → lobby_inv w → lobby_inv w'.
Proof. induction 1; [done|]. intros Hi. eauto using server_step_inv. Qed.

(** ** The start of the server *)
Lemma holds_app_state {T A} (get : App → T) (set : T → App → App) (m : M T A) :
  (∀ t a, app_services (set t a) = app_services a ∧ app_lobby (set t a) = app_lobby a) →
  keeps holds (zoom (λ w : W, get (nw_app w)) (λ t w, set_app (set t (nw_app w)) w) m).
Proof.
  intros Hset. apply (keeps_weaken quiet); [exact quiet_holds|]. intros w. unfold zoom. destruct (m _) as [t a|t e| |]; simpl; try done;
    unfold quiet, abs; simpl; by destruct (Hset t (nw_app w)) as [-> ->].
Qed.

Definition lobby_params (params : ServiceParams) : Prop :=
  sp_receiver params = LOBBY_RECEIVER ∧ sp_msgProc params = LOBBY_MSGPROC
  ∧ sp_manip params = Some json_getMsgManipulatorTest.

Lemma holds_service_new params :
  lobby_params params → keeps holds (NetServiceAcceptor_new (U := App) receiver_at params).
Proof.
  intros (Er & Ep & Em). unfold NetServiceAcceptor_new, NetServiceImpl_new.
  apply keeps_bind; [typeclasses eauto|held|]. intros s. cbv zeta.
  apply keeps_bind; [typeclasses eauto| |].
  - intros w. unfold upd_services. run_step. intros [? ? ? ? Hsrv]. split; [|done]. split; try done.
    simpl. intros p o. rewrite lookup_insert_Some. intros [[_ <-]|[_ Ho]]; [|by eapply Hsrv].
    simpl. by rewrite Er, Ep, Em.
  - intros _. apply keeps_bind; [typeclasses eauto| |intros; keeps_auto].
    rewrite Er, service_receiver_eq. unfold receiver_at. rewrite bool_decide_true, service_receiver_eq by done.
    simpl. unfold LobbyAcceptorReceiver_initHandler.
    apply keeps_bind; [typeclasses eauto|by apply holds_upd_lobby|]. intros _. by apply holds_upd_lobby.
Qed.

Lemma grows_acceptWait hc p a s k : keeps grows (acceptWait (U := App) hc p a s k).
Proof.
  unfold acceptWait. cbv zeta. do 8 before.
  apply grows_after; [apply grows_create_conn|]. intros c. held.
Qed.

Lemma grows_createAcceptor hc i params userParams :
  lobby_params params →
  keeps grows (createAcceptor (U := App) receiver_at hc i params userParams).
Proof.
  intros Hp. unfold createAcceptor. before. before. case_match; [apply keeps_holds_grows; keeps_auto|].
  apply grows_before; [by apply holds_service_new|]. intros p. before. before.
  apply grows_after; [apply grows_acceptWait|]. intros _. held.
Qed.

Lemma grows_main hc conf : keeps grows (main hc conf).
Proof.
  unfold main, main_with, initLogService, publish_clientVersion, initTestInterface, ioServiceThread,
    registAcceptorReceiver, on_test. before. case_match; [apply keeps_holds_grows; keeps_auto|].
  apply grows_before; [by apply holds_app_state|]. intros ok.
  case_match; [apply keeps_holds_grows; keeps_auto|].
  apply grows_before.
  { apply keeps_bind; [typeclasses eauto|keeps_auto|]. intros w. case_match; [|keeps_auto].
    by apply holds_upd_lobby. }
  intros _. apply grows_before.
  { do 2 (apply keeps_bind; [typeclasses eauto|keeps_auto|intros ?]).
    by apply holds_app_state. }
  intros _. apply grows_after; [|intros b; held]. before.
  apply grows_after; [|intros b; apply keeps_bind; [typeclasses eauto|held|intros; keeps_auto]].
  before. case_match; [apply keeps_holds_grows; keeps_auto|].
  apply grows_after; [by apply grows_createAcceptor|]. intros o.
  apply keeps_bind; [typeclasses eauto|by apply holds_upd_lobby|intros; keeps_auto].
Qed.
End Steps.

(** ** Theorem *)
Section Users.
Context `{FreshMemory} `{J : !Jsoncpp} `{!Sockets} `{!PropertyTree} `{!JsonLaws J}.
Implicit Types (w : NetWorld App) (c : ConnPtr).

(** The user of a connection: an object made for it, registered under its
    identity. *)
Definition has_user w c (i : Z) : Prop :=
  ∃ cn p u, nw_conns w !! c = Some cn ∧ ci_identity cn = i ∧ ci_tag cn = Some p
    ∧ l_heap (app_lobby (nw_app w)) !! p = Some (OUser u) ∧ u_conn u = c.

Lemma lobby_inv_users w :
  lobby_inv w →
  (∀ i c, m_users (app_lobby (nw_app w)) !! i = Some c ↔ has_user w c i)
  ∧ (∀ c cn p, nw_conns w !! c = Some cn → ci_tag cn = Some p → has_user w c (ci_identity cn))
  ∧ (∀ c c' cn cn', nw_conns w !! c = Some cn → nw_conns w !! c' = Some cn' →
       ci_identity cn = ci_identity cn' → c = c').
Proof.
  intros Hi. pose proof (li_users w Hi) as Hu.
  assert (Hlook : ∀ c cn, nw_conns w !! c = Some cn →
            v_conns (observe_world w) !! c = Some (entry_of cn))
    by (intros c cn E; simpl; by rewrite lookup_fmap, E).
  assert (Htag : ∀ c cn p, nw_conns w !! c = Some cn → ci_tag cn = Some p →
            v_conns (observe_world w) !! c
            = Some (mkEntry (Some p) (ci_identity cn) (ci_msgManipulator cn)))
    by (intros c cn p E Et; rewrite (Hlook c cn E); unfold entry_of; by rewrite Et).
  split_and!.
  - intros i c. split.
    + intros Hm. destruct (uo_users _ Hu i c Hm) as (p & m & Hc).
      destruct (observed_conn c w _ Hc) as (cn & Ec & [= Et Eid _]).
      destruct (uo_tag _ Hu _ _ _ _ Hc) as [(u & Hp & Huc) _].
      exists cn, p, u. by split_and!.
    + intros (cn & p & u & Ec & <- & Et & Hp & Huc).
      by destruct (uo_tag _ Hu _ _ _ _ (Htag c cn p Ec Et)) as [_ ?].
  - intros c cn p Ec Et. destruct (uo_tag _ Hu _ _ _ _ (Htag c cn p Ec Et)) as [(u & Hp & Huc) _].
    exists cn, p, u. by split_and!.
  - intros c c' cn cn' Ec Ec' E. apply (uo_identity _ Hu c c' _ _ (Hlook _ _ Ec) (Hlook _ _ Ec') E).
Qed.

Lemma lobby_inv_init : lobby_inv (net_init App_init).
Proof.
  split; [split|..]; simpl; rewrite ?fmap_empty; try done; intros *; by rewrite lookup_empty.
Qed.

(** C3. In every state the started server reaches, whatever its clients send and in whatever order
    operations complete: the map of users has exactly the connections that carry a user, each
    under its identity and with a user object made for that connection; a tag never dangles; and
    no two connections have the same identity. *)
Theorem server_users_sound hc conf w0 code w n jv :
  greeting = Some (n, jv) → zlen (text jv) < 30000 →
  main hc conf (net_init App_init) = Done w0 code → rtc server_step w0 w →
  (∀ i c, m_users (app_lobby (nw_app w)) !! i = Some c ↔ has_user w c i)
  ∧ (∀ c cn p, nw_conns w !! c = Some cn → ci_tag cn = Some p → has_user w c (ci_identity cn))
  ∧ (∀ c c' cn cn', nw_conns w !! c = Some cn → nw_conns w !! c' = Some cn' →
       ci_identity cn = ci_identity cn' → c = c').
Proof.
  intros Hg Hs Hm Hr. apply lobby_inv_users. apply (server_steps_inv n jv Hg Hs w0 w Hr).
  pose proof (grows_main hc conf (net_init App_init)) as Hk. rewrite Hm in Hk.
  apply Hk; [apply lobby_inv_init|done].
Qed.
End Users.

(** ** Witness: the first client of the demonstration server is its user *)
Section Witness.
Import ServerDemo.
#[local] Instance json_laws : JsonLaws json := DemoJson.demo_laws texts.

Lemma exec_completion_step i cp (w w' : NetWorld App) :
  exec_completion receiver_at msgProc_at i cp w = Some (Done w' tt) →
  nw_identitySeed w < 2 ^ 64 - 1 → server_step w w'.
Proof.
  unfold exec_completion. destruct (nw_pending w !! i) as [o|] eqn:Eo; simpl; [|done].
  destruct (strand_ready _ o && completion_ok o cp) eqn:Eg; simpl; [|done].
  apply andb_true_iff in Eg as [Es Ec]. intros [= Hrun] Hs.
  by apply (server_completes _ _ (take i (nw_pending w)) o (drop (S i) (nw_pending w)) cp);
    [rewrite take_drop_middle|..].
Qed.

Definition short_greeting : bool :=
  match greeting with Some (_, jv) => zlen (text jv) <? 30000 | None => false end.
Definition one_client (w0 : NetWorld App) : bool :=
  match exec_completion receiver_at msgProc_at 1 Demo.ok w0 with
  | Some (Done w _) => bool_decide (m_users (app_lobby (nw_app w)) !! 1 = Some 0%N)
  | _ => false
  end.

Lemma server_users_sound_witness :
  ∃ w0 w, main 4 "chase_lobby.xml" (net_init App_init) = Done w0 1
    ∧ rtc server_step w0 w ∧ has_user w 0%N 1.
Proof.
  assert (Hg : short_greeting = true) by (vm_compute; reflexivity).
  unfold short_greeting in Hg.
  destruct greeting as [[n jv]|] eqn:Eg; [apply Z.ltb_lt in Hg|discriminate].
  assert (Hs : match main 4 "chase_lobby.xml" (net_init App_init) with
               | Done w0 code => (code =? 1) && (nw_identitySeed w0 <? 2 ^ 64 - 1) && one_client w0
               | _ => false
               end = true) by (vm_compute; reflexivity).
  destruct (main 4 "chase_lobby.xml" (net_init App_init)) as [w0 code| | |] eqn:Em; try discriminate.
  apply andb_true_iff in Hs as [[Hcode Hseed]%andb_true_iff Hone].
  apply Z.eqb_eq in Hcode. apply Z.ltb_lt in Hseed. subst code. unfold one_client in Hone.
  destruct (exec_completion receiver_at msgProc_at 1 Demo.ok w0) as [[w []| | |]|] eqn:Ew;
    try discriminate.
  apply bool_decide_eq_true in Hone.
  pose proof (rtc_once _ _ (exec_completion_step 1 Demo.ok w0 w Ew Hseed)) as Hr.
  exists w0, w. split; [exact eq_refl|]. split; [exact Hr|].
  exact (proj1 (proj1 (server_users_sound 4 "chase_lobby.xml" w0 1 w n jv Eg Hg Em Hr) 1 0%N) Hone).
Defined.
End Witness.
