(* ===== verification/ServerListening.v ===== *)
(** * The server keeps accepting

    From its start on, while accepts complete without an error, the server has
    an accept in flight whose completion makes a client a user and starts the
    next accept.  [listens] is what all code but that of [main] keeps;
    [remembers] is what the library keeps of the connections a user has. *)
From stdpp Require Import gmap strings list.
From coqutil Require Import Byte.
From S2P Require Import Prelude.
From S2P Require Import MessageBuffer.
From S2P Require Import Connection.
From S2P Require Import MessageProcedure.
From S2P Require Import EventReceiver.
From S2P Require Import IoService.
From S2P Require Import ConnectionImpl.
From S2P Require Import ConnectionSafety.
From S2P Require Import NetService.
From S2P Require Import NetServiceSafety.
From S2P Require Import NetKeeps.
From S2P Require Import NetProperties.
From S2P Require Import Json.
From S2P Require Import LobbyState.
From S2P Require Import LobbyUser.
From S2P Require Import LobbyUserManager.
From S2P Require Import LobbyAcceptorReceiver.
From S2P Require Import PacketParserJson.
From S2P Require Import LobbySafety.
From S2P Require Import Environment.
From S2P Require Import TestInterface.
From S2P Require Import Server.
From S2P Require Import ServerProperties.
From S2P Require Import ServerDemo.
From S2P Require Import LobbySpec.
From S2P Require Import LobbyUsersSpec.
From S2P Require Import LobbyRefinement.
From S2P Require Import LobbyInvariant.
From S2P Require Import ServerInvariant.
#[local] Open Scope Z_scope.

Section Listening.
Context `{FreshMemory} `{J : !Jsoncpp} `{!Sockets} `{!PropertyTree}.
Local Abbreviation W := (NetWorld App).
Implicit Types (w : W) (c : ConnPtr) (p : ServicePtr).

(** ** What is kept *)
Definition indexed p w : Prop :=
  ∃ o, s_objects (app_services (nw_app w)) !! p = Some o ∧ is_Some (ns_index o).
Record listens w w' : Prop := {
  ls_accepts p c : AcceptConn p c ∈ nw_pending w → AcceptConn p c ∈ nw_pending w';
  ls_conns c : is_Some (nw_conns w !! c) → is_Some (nw_conns w' !! c);
  ls_services p : indexed p w → indexed p w'
}.
#[export] Instance listens_preorder : PreOrder listens.
Proof. split; [by split|]. intros w1 w2 w3 [] []. split; auto. Qed.

Lemma listens_same w w' :
  nw_pending w' = nw_pending w → nw_conns w' = nw_conns w →
  app_services (nw_app w') = app_services (nw_app w) → listens w w'.
Proof. intros Hp Hc Hs. split; unfold indexed; by rewrite ?Hp, ?Hc, ?Hs. Qed.

Lemma insert_is_Some `{Countable K} {A} (m : gmap K A) i j x :
  is_Some (m !! j) → is_Some (<[i := x]> m !! j).
Proof. intros Hj. destruct (decide (i = j)) as [->|?]; [rewrite lookup_insert_eq|rewrite lookup_insert_ne]; eauto. Qed.

Lemma listens_upd_conn c f : keeps listens (upd_conn c f).
Proof.
  intros w. unfold upd_conn, this_conn. run_step. destruct (nw_conns w !! c); simpl; [|done].
  split; [done| |done]. intros c'. apply insert_is_Some.
Qed.

Lemma listens_start_op o : keeps listens (start_op (U := App) o).
Proof. intros w. split; [|done..]. intros p c Hp. simpl. apply elem_of_app. by left. Qed.

#[export] Instance listens_net_keeps : NetKeeps listens.
Proof.
  apply net_keeps_intro; [typeclasses eauto|..].
  - intros c f _. apply listens_upd_conn.
  - intros o _. apply listens_start_op.
  - intros f Hf w. split; [|done..]. intros p c Hp. simpl.
    rewrite <- (proj2 (proj2 (Hf (AcceptConn p c))) eq_refl). by apply list_elem_of_fmap_2.
  - intros n w. split; [|done..]. intros p c Hp. simpl. by apply buffers_gone_elem.
  - by intros e w.
  - intros f Hf w. split; [done..|]. intros p. unfold indexed. simpl. by rewrite (proj1 (Hf _)).
  - intros p f Hf w. unfold upd_service, this_service, get_services. run_step. simpl.
    destruct (s_objects (app_services (nw_app w)) !! p) as [o|] eqn:E; simpl; [|done].
    split; [done..|]. intros q (o' & Hq & Hi). unfold indexed. simpl.
    destruct (decide (p = q)) as [<-|Hne]; [|rewrite lookup_insert_ne; eauto].
    rewrite lookup_insert_eq. exists (f o). split; [done|]. apply (proj2 (Hf o)). congruence.
Qed.

Lemma listens_create mp manip er k i :
  keeps listens (ConnectionImpl_create (U := App) mp manip er k i).
Proof.
  intros w. unfold ConnectionImpl_create. run_step. set (w1 := set_identitySeed _ _).
  assert (Hw1 : listens w w1).
  { split; [done| |done]. intros c. apply insert_is_Some. }
  pose proof (net_renewExpireTime listens (fresh (dom (nw_conns w))) w1) as Hk.
  destruct (ConnectionImpl_renewExpireTime _ w1); simpl; try done; by etrans.
Qed.
#[export] Instance listens_net_keeps_new : NetKeepsNew listens.
Proof. split; [typeclasses eauto|apply listens_start_op|apply listens_create]. Qed.

#[export] Instance listens_app_keeps : AppKeeps W listens.
Proof.
  split; [split|..].
  - apply net_conn_keeps. typeclasses eauto.
  - intros l w. by apply listens_same.
  - intros c t. apply listens_upd_conn.
  - intros i. simpl. keeps_auto.
  - intros p n t. simpl. keeps_auto.
Qed.

Lemma listens_complete_op o cp : keeps listens (complete_op receiver_at msgProc_at o cp).
Proof.
  apply net_complete_op; [typeclasses eauto| |]; intros;
    [apply (receivers_keep listens)|apply (msgProcs_keep listens)].
Qed.

(** The library leaves alone what makes a connection that of its user. *)
Definition remembers w w' : Prop :=
  ∀ c cn, nw_conns w !! c = Some cn → ∃ cn', nw_conns w' !! c = Some cn' ∧ entry_of cn' = entry_of cn.
#[export] Instance remembers_preorder : PreOrder remembers.
Proof.
  split; [by intros w c cn; exists cn|]. intros w1 w2 w3 H12 H23 c cn E.
  destruct (H12 c cn E) as (cn2 & E2 & Hcn2). destruct (H23 c cn2 E2) as (cn3 & E3 & Hcn3).
  exists cn3. split; [done|congruence].
Qed.
Lemma remembers_same w w' : nw_conns w' = nw_conns w → remembers w w'.
Proof. intros E c cn. rewrite E. by exists cn. Qed.

#[export] Instance remembers_net_keeps : NetKeeps remembers.
Proof.
  apply net_keeps_intro; [typeclasses eauto|..]; try by (intros; intros w; by apply remembers_same).
  - intros c f Hf w. unfold upd_conn, this_conn. run_step.
    destruct (nw_conns w !! c) as [cn|] eqn:E; simpl; [|done]. intros c' cn' E'. simpl.
    destruct (decide (c = c')) as [<-|Hne]; [|rewrite lookup_insert_ne; eauto].
    rewrite lookup_insert_eq. exists (f cn). split; [done|].
    injection (eq_trans (eq_sym E) E') as <-. exact (f_equal (λ x, x.1.1) (conn_fixed_id _ _ (Hf cn))).
  - intros p f _ w. unfold upd_service, this_service, get_services. run_step.
    destruct (s_objects _ !! p); simpl; [|done]. by apply remembers_same.
Qed.

#[export] Instance remembers_net_keeps_new : NetKeepsNew remembers.
Proof.
  split; [typeclasses eauto|by intros o w; apply remembers_same|].
  intros mp manip er k i w. unfold ConnectionImpl_create. run_step.
  set (c := fresh (dom (nw_conns w))). set (w1 := set_identitySeed _ _).
  assert (Hc : nw_conns w !! c = None) by (apply not_elem_of_dom, is_fresh).
  assert (Hw1 : remembers w w1).
  { intros c' cn E. exists cn. split; [|done]. simpl. rewrite lookup_insert_ne; [done|congruence]. }
  pose proof (net_renewExpireTime remembers c w1) as Hk.
  destruct (ConnectionImpl_renewExpireTime _ w1); simpl; try done; by etrans.
Qed.

(** Nothing but [main] and its callees changes the registry. *)
Definition same_services w w' : Prop := app_services (nw_app w') = app_services (nw_app w).

#[export] Instance same_services_preorder : PreOrder same_services.
Proof. split; [done|]. unfold same_services. intros w1 w2 w3 E12 E23. congruence. Qed.
Lemma same_upd_lobby f : keeps same_services (upd_lobby (W := W) f).
Proof. by intros w. Qed.
#[local] Hint Resolve same_upd_lobby : keeps.

(** ** The start *)
Definition accept_ready w : Prop :=
  ∃ p c, AcceptConn p c ∈ nw_pending w ∧ is_Some (nw_conns w !! c) ∧ indexed p w.

Lemma accept_ready_listens w w' : listens w w' → accept_ready w → accept_ready w'.
Proof. intros [Ha Hc Hs] (p & c & Hp & Hcn & Hi). exists p, c. auto. Qed.
Lemma listens_then {A} (m : M W A) w : keeps listens m → accept_ready w → ensures m w (λ w' _, accept_ready w').
Proof.
  intros Hm Hw. eapply ensures_mono; [by apply (ensures_keeps listens)|].
  intros w' a Hl. exact (accept_ready_listens _ _ Hl Hw).
Qed.

Lemma this_service_returns p w :
  indexed p w → returns (this_service (U := App) p) w (λ w' o, w' = w ∧ is_Some (ns_index o)
    ∧ s_objects (app_services (nw_app w)) !! p = Some o).
Proof.
  intros (o & E & Hi). exists w, o. split; [|done]. unfold this_service, get_services. run_step.
  simpl. by rewrite E.
Qed.
Lemma setServiceID_returns c i w :
  is_Some (nw_conns w !! c) →
  returns (ConnectionImpl_setServiceID (U := App) c i) w (λ w' _, is_Some (nw_conns w' !! c)).
Proof.
  intros [cn E]. eexists _, tt. split; [by apply upd_conn_run|]. simpl. rewrite lookup_insert_eq. eauto.
Qed.

Lemma getIndex_returns p w : indexed p w → returns (getIndex (U := App) p) w (λ w' _, w' = w).
Proof.
  intros Hp. unfold getIndex. eapply returns_bind, returns_mono; [by apply this_service_returns|].
  intros ? o (-> & [i Hi] & _). exists w, i. by rewrite Hi.
Qed.
Lemma create_returns mp manip er k i w :
  returns (ConnectionImpl_create (U := App) mp manip er k i) w (λ w' c, is_Some (nw_conns w' !! c)).
Proof.
  destruct (create_run mp manip er k i w) as (w' & c & E & _ & _ & Hv). exists w', c.
  split; [exact E|]. apply (f_equal v_core) in Hv. unfold view in Hv. simpl in Hv.
  destruct (nw_conns w' !! c); [by eexists|done].
Qed.
Lemma create_conn_returns p i w :
  indexed p w → returns (create_conn (U := App) p i) w (λ w' c, is_Some (nw_conns w' !! c)).
Proof.
  intros Hp. unfold create_conn. eapply returns_bind, returns_mono; [by apply this_service_returns|].
  intros ? o (-> & Hi & _).
  set (create := ConnectionImpl_create _ _ _ _ _). eapply returns_bind, returns_mono;
    [apply (returns_keeps listens create); [apply nkn_create|apply create_returns]|].
  intros w1 c [Hl Hc].
  assert (Hp1 : indexed p w1) by by apply Hl.
  eapply returns_bind, returns_mono; [by apply (getIndex_returns p w1)|]. intros ? idx ->.
  eapply returns_bind, returns_mono; [by apply setServiceID_returns|]. intros w2 u Hc2.
  by exists w2, c.
Qed.

(** [listens] first, then what needs the service to have its index. *)
Lemma indexed_then {A B} (m : M W A) (k : A → M W B) p w P :
  keeps listens m → indexed p w → (∀ a w', indexed p w' → ensures (k a) w' P) →
  ensures (m ≫= k) w P.
Proof.
  intros Hm Hp Hk. eapply ensures_bind, ensures_mono; [by apply (ensures_keeps listens)|].
  intros w' a Hl. apply Hk. by apply Hl.
Qed.

Lemma create_conn_ensures p i w :
  indexed p w →
  ensures (create_conn (U := App) p i) w (λ w' c, is_Some (nw_conns w' !! c) ∧ indexed p w').
Proof.
  intros Hp. destruct (returns_keeps listens _ w _ (net_create_conn listens p i)
    (create_conn_returns p i w Hp)) as (w1 & c & E & Hl & Hc).
  unfold ensures. rewrite E. split; [done|by apply Hl].
Qed.

Lemma acceptWait_ready hc p a s n w :
  indexed p w → ensures (acceptWait (U := App) hc p a s n) w (λ w' _, accept_ready w').
Proof.
  intros Hp. unfold acceptWait. cbv zeta.
  do 8 (eapply indexed_then; [keeps_auto|eassumption|]; clear dependent w; intros ? w Hp).
  eapply ensures_bind, ensures_mono; [by apply create_conn_ensures|]. intros w1 c [Hc Hp1].
  eapply ensures_bind. unfold ensures at 1, start_op. run_step.
  apply listens_then; [keeps_auto|]. exists p, c. split_and!; [|done..].
  simpl. apply elem_of_app. right. by apply list_elem_of_singleton.
Qed.

Lemma service_new_at params k w :
  sp_receiver params = LOBBY_RECEIVER →
  ensures (NetServiceImpl_new (U := App) receiver_at params k) w
    (λ w' p, is_Some (s_objects (app_services (nw_app w')) !! p)).
Proof.
  intros Hlobby. unfold NetServiceImpl_new, get_services. apply ensures_bind. unfold ensures at 1. run_step. simpl.
  set (p := fresh _). apply ensures_bind. unfold ensures at 1, upd_services. run_step.
  set (w1 := set_app _ _).
  eapply ensures_bind, ensures_mono.
  { apply (ensures_keeps same_services). rewrite Hlobby. unfold receiver_at.
    rewrite bool_decide_true, service_receiver_eq by done. simpl.
    unfold LobbyAcceptorReceiver_initHandler. keeps_auto. }
  intros w2 [] Hs. unfold ensures. run_step. rewrite Hs. simpl. rewrite lookup_insert_eq. eauto.
Qed.

Lemma createAcceptor_ready hc i params userParams w :
  s_acceptors (app_services (nw_app w)) = [] → sp_receiver params = LOBBY_RECEIVER →
  ensures (createAcceptor (U := App) receiver_at hc i params userParams) w (λ w' _, accept_ready w').
Proof.
  intros Ha Hlobby. unfold createAcceptor. apply ensures_bind. unfold ensures at 1, upd_services. run_step.
  apply ensures_bind. unfold ensures at 1, getAcceptor, get_services. run_step. simpl. rewrite Ha.
  assert (Hnone : mjoin (vector_resize (S (Z.to_nat i)) [] !! Z.to_nat i) = None).
  { unfold vector_resize. rewrite app_nil_l, lookup_replicate_2; [done|simpl; lia]. }
  rewrite Hnone. eapply ensures_bind, ensures_mono; [by apply service_new_at|]. intros w1 p [o Ho].
  apply ensures_bind. unfold ensures at 1, upd_services. run_step.
  apply ensures_bind. unfold ensures at 1, setIndex, upd_service, this_service, get_services, upd_services.
  run_step. simpl. rewrite Ho. run_step.
  eapply ensures_bind, ensures_mono.
  { apply acceptWait_ready. eexists. split; [simpl; apply lookup_insert_eq|simpl; eauto]. }
  intros w2 [] Hw2. apply listens_then; [keeps_auto|done].
Qed.

Lemma same_then {A B} (m : M W A) (k : A → M W B) w P :
  keeps same_services m → app_services (nw_app w) = NetServices_init →
  (∀ a w', app_services (nw_app w') = NetServices_init → ensures (k a) w' P) →
  ensures (m ≫= k) w P.
Proof.
  intros Hm Hw Hk. eapply ensures_bind, ensures_mono; [by apply (ensures_keeps same_services)|].
  intros w' a Hs. apply Hk. by rewrite Hs.
Qed.
Lemma same_app_state {T A} (get : App → T) (set : T → App → App) (m : M T A) :
  (∀ t a, app_services (set t a) = app_services a) →
  keeps same_services (zoom (λ w : W, get (nw_app w)) (λ t w, set_app (set t (nw_app w)) w) m).
Proof.
  intros Hset w. unfold zoom. destruct (m _) as [t a|t e| |]; simpl; try done; apply Hset.
Qed.

(** Without an acceptor [runService] has no io_service to run. *)
Lemma runService_needs_service w P :
  app_services (nw_app w) = NetServices_init → ensures (runService (U := App)) w P.
Proof. destruct w as [cs seed l tr []]. simpl. intros ->. exact I. Qed.

Lemma ioServiceThread_ready hc w :
  app_services (nw_app w) = NetServices_init →
  ensures (ioServiceThread hc) w (λ w' _, accept_ready w').
Proof.
  intros Hw. unfold ioServiceThread, registAcceptorReceiver.
  apply ensures_bind. unfold ensures at 1, get_state.
  eapply ensures_bind, (ensures_mono _ _ (λ w' _, accept_ready w' ∨ app_services (nw_app w') = NetServices_init)).
  - apply ensures_bind. unfold ensures at 1. destruct (activate _) as [[]|]; simpl; [|by right|done].
    eapply ensures_bind, ensures_mono; [apply createAcceptor_ready; by rewrite ?Hw|].
    intros w1 a Hw1. eapply ensures_mono; [apply (listens_then _ w1); [|done]|by left].
    apply keeps_bind; [typeclasses eauto|apply (keeps_upd_lobby listens)|intros; keeps_auto].
  - intros w1 a [Hw1|Hw1].
    + apply listens_then; [keeps_auto|done].
    + apply ensures_bind. by apply runService_needs_service.
Qed.

Lemma main_ready hc conf :
  ensures (main hc conf) (net_init App_init) (λ w code, code = 1 → accept_ready w).
Proof.
  unfold main, main_with, initLogService. apply ensures_bind. unfold ensures at 1. run_step. simpl.
  apply same_then; [by apply same_app_state|done|]. intros ok w Hw. destruct ok; simpl; [|done].
  apply same_then; [unfold publish_clientVersion; keeps_auto|done|]. clear w Hw. intros _ w Hw.
  apply same_then; [|done|].
  { unfold initTestInterface, on_test.
    do 2 (apply keeps_bind; [typeclasses eauto|keeps_auto|intros ?]). by apply same_app_state. }
  clear w Hw. intros _ w Hw. eapply ensures_bind, ensures_mono; [by apply ioServiceThread_ready|].
  by intros w' r Hr _.
Qed.

(** ** Steps in which no accept fails *)
Lemma accept_handler_ready p c w :
  indexed p w → ensures (accept_handler (U := App) receiver_at p 0 c) w (λ w' _, accept_ready w').
Proof.
  intros Hp. unfold accept_handler. simpl.
  do 3 (eapply indexed_then;
    [first [apply call_kept, (receivers_keep listens)|solve [keeps_auto]]|eassumption|];
    clear dependent w; intros ? w Hp).
  eapply ensures_bind, ensures_mono; [by apply create_conn_ensures|]. intros w1 c' [Hc Hp1].
  unfold ensures, start_op. run_step. exists p, c'. split_and!; [|done..].
  simpl. apply elem_of_app. right. by apply list_elem_of_singleton.
Qed.

Definition is_accept (o : async_op) : bool := match o with AcceptConn _ _ => true | _ => false end.

(** A step of the server in which an accept, if it is what completes, does so
    without an error. *)
Inductive accepting_step w w' : Prop :=
| server_accepts l1 o l2 cp :
    nw_pending w = l1 ++ o :: l2 → strand_ready l1 o = true → completion_ok o cp = true →
    (is_accept o = true → cp_ec cp = 0) → nw_identitySeed w < 2 ^ 64 - 1 →
    complete_op receiver_at msgProc_at o cp (without (l1 ++ l2) w) = Done w' tt → accepting_step w w'.

Lemma accepting_server_step w w' : accepting_step w w' → server_step w w'.
Proof. intros [l1 o l2 cp]. by eapply server_completes. Qed.

Lemma accepting_step_ready w w' : accepting_step w w' → accept_ready w → accept_ready w'.
Proof.
  intros [l1 o l2 cp E _ _ Hec _ Hrun] (p & c & Hin & Hc & Hp).
  pose proof (listens_complete_op o cp (without (l1 ++ l2) w)) as Hl. rewrite Hrun in Hl.
  assert (Hcase : AcceptConn p c ∈ l1 ++ l2 ∨ o = AcceptConn p c).
  { rewrite E in Hin. apply elem_of_app in Hin as [?|[Ho|?]%elem_of_cons];
      [left; apply elem_of_app; by left|by right|left; apply elem_of_app; by right]. }
  destruct Hcase as [Hrest| ->].
  - apply (accept_ready_listens _ _ Hl). by exists p, c.
  - pose proof (accept_handler_ready p c (without (l1 ++ l2) w) Hp) as Hr.
    cbn [complete_op] in Hrun. rewrite Hec in Hrun by done. unfold ensures in Hr. by rewrite Hrun in Hr.
Qed.
Lemma accepting_steps_ready w w' : rtc accepting_step w w' → accept_ready w → accept_ready w'.
Proof. induction 1; eauto using accepting_step_ready. Qed.

(** ** An accept that completes *)
Context (Hoptions : ∀ tr c, os_set_option tr c = 0).
Context (Hremote : ∀ tr c, os_remote_endpoint tr c ≠ None).

Lemma socket_set_option_done c w :
  socket_set_option (U := App) c w = Done (set_trace (nw_trace w ++ [EvSetOption c]) w) tt.
Proof. unfold socket_set_option, record_event. run_step. by rewrite Hoptions. Qed.

Lemma start_accept_returns c w :
  is_Some (nw_conns w !! c) →
  returns (ConnectionImpl_start_accept (U := App) c) w (λ _ _, True).
Proof.
  intros [cn E]. destruct (start_run c w cn E) as [(w' & Hr & _)|(w' & e & Hr & _)]; [by exists w', tt|].
  exfalso. revert Hr. unfold ConnectionImpl_start_accept, start_read, start_opened. run_step.
  rewrite (renew_msg_run _ _ _ E). run_step. do 2 (rewrite socket_set_option_done; run_step).
  set (cn1 := set_ci_msg (Some (fresh_msg cn)) cn).
  lazymatch goal with |- context [async_read_some c ?x] => set (w1 := x) end.
  assert (E1 : nw_conns w1 !! c = Some cn1) by apply lookup_insert_eq.
  rewrite (async_read_run c w1 cn1) by done. run_step.
  unfold ConnectionImpl_set_status. rewrite (upd_conn_run _ _ _ cn1) by done. run_step.
  set (w2 := set_conns _ _).
  by destruct (renewExpireTime_run c w2 (set_ci_status status_open cn1)) as (w3 & -> & _);
    [apply lookup_insert_eq|].
Qed.

Lemma log_endpoint_returns c w : log_endpoint (W := W) c w = Done w tt.
Proof.
  unfold log_endpoint. simpl. unfold socket_remote_endpoint. run_step.
  by destruct (os_remote_endpoint (nw_trace w) c) eqn:E; [run_step; rewrite E|destruct (Hremote _ _ E)].
Qed.

Context `{!JsonLaws J} (n : Z) (jv : Value).
Context (Hgreeting : greeting = Some (n, jv)) (Hsize : zlen (text jv) < 30000).

Lemma addUser_returns c w :
  lobby_inv w → is_Some (nw_conns w !! c) →
  returns (addUser (W := W) c) w (λ w' _, lobby_inv w' ∧ listens w w'
    ∧ ∃ cn t, nw_conns w' !! c = Some cn ∧ ci_tag cn = Some t).
Proof.
  intros Hi [cn E]. pose proof (li_users w Hi) as Hu.
  assert (He : v_conns (observe_world w) !! c = Some (entry_of cn)) by (simpl; by rewrite lookup_fmap, E).
  destruct (yields_addUser (CS := server_connections) c w n jv (entry_of cn) He) as (w' & Hrun & Ho);
    [by eapply uo_framed|by apply uo_encType|done..|].
  exists w', tt. split; [done|].
  pose proof (holds_addUser n jv Hgreeting Hsize c w) as Hk. rewrite Hrun in Hk.
  pose proof (keeps_addUser listens c w) as Hl. rewrite Hrun in Hl.
  split; [by apply Hk|]. split; [done|].
  assert (Ht : ∃ e t, v_conns (observe_world w') !! c = Some e ∧ e_tag e = Some t).
  { change (observe_world w') with (observe w'). rewrite Ho. change (observe w) with (observe_world w).
    unfold v_addUser. rewrite He. destruct cn as [? ? [t|] ? ? ? ? ? ? ? ? ? ?]; simpl.
    - simpl in He. eauto.
    - destruct (m_users _ !! _); simpl; rewrite lookup_alter_eq; simpl in He; rewrite He; simpl; eauto. }
  destruct Ht as (e & t & (cn' & Ec & ->)%observed_conn & Et). by exists cn', t.
Qed.

Lemma accept_returns p c w :
  lobby_inv w → indexed p w → is_Some (nw_conns w !! c) →
  returns (accept_handler receiver_at p 0 c) w
    (λ w' _, ∃ cn t, nw_conns w' !! c = Some cn ∧ ci_tag cn = Some t).
Proof.
  intros Hi Hp Hc. unfold accept_handler. simpl.
  eapply returns_bind, returns_mono; [by apply this_service_returns|]. intros ? o (-> & _ & Ho).
  destruct (li_services w Hi p o Ho) as (-> & _).
  eapply returns_bind, (returns_mono _ _ (λ w' _, lobby_inv w' ∧ listens w w'
    ∧ ∃ cn t, nw_conns w' !! c = Some cn ∧ ci_tag cn = Some t)).
  { unfold receiver_at. rewrite bool_decide_true, service_receiver_eq by done. simpl.
    unfold LobbyAcceptorReceiver_onAccept. apply returns_bind. exists w, tt.
    split; [apply log_endpoint_returns|by apply addUser_returns]. }
  intros w1 [] (Hi1 & Hl1 & cn1 & t & Ec1 & Et).
  eapply returns_bind, returns_mono.
  { eapply (returns_keeps listens), (returns_keeps remembers), start_accept_returns; [keeps_auto..|eauto]. }
  intros w2 [] (Hl2 & Hr2 & _).
  eapply returns_bind, returns_mono.
  { eapply (returns_keeps remembers), create_conn_returns; [keeps_auto|]. by apply Hl2, Hl1. }
  intros w3 c' (Hr3 & _). eexists _, tt. split; [done|]. simpl.
  destruct (transitivity Hr2 Hr3 c cn1 Ec1) as (cn3 & Ec3 & He). exists cn3, t. split; [done|].
  apply (f_equal e_tag) in He. simpl in He. congruence.
Qed.
End Listening.

(** ** Theorem *)
Section Accepting.
Context `{FreshMemory} `{J : !Jsoncpp} `{!Sockets} `{!PropertyTree} `{!JsonLaws J}.
Implicit Types (w : NetWorld App) (c : ConnPtr) (p : ServicePtr).

(** C5. A server that [main] started, and in which no accept failed so far, always has an accept in
    flight.  If the socket calls of its handler succeed, the completion of that accept runs to its
    end and makes the new connection a registered user; the state after it is again one of these,
    so that the next client can come. *)
Theorem server_keeps_accepting hc conf w0 w n jv :
  greeting = Some (n, jv) → zlen (text jv) < 30000 →
  main hc conf (net_init App_init) = Done w0 1 → rtc accepting_step w0 w →
  ∃ l1 p c l2, nw_pending w = l1 ++ AcceptConn p c :: l2 ∧
    (nw_identitySeed w < 2 ^ 64 - 1 →
     (∀ tr c, os_set_option tr c = 0) → (∀ tr c, os_remote_endpoint tr c ≠ None) →
     ∀ k, ∃ w' i,
       complete_op receiver_at msgProc_at (AcceptConn p c) (mkCompletion 0 [] k) (without (l1 ++ l2) w)
         = Done w' tt
       ∧ rtc accepting_step w0 w'
       ∧ has_user w' c i ∧ m_users (app_lobby (nw_app w')) !! i = Some c).
Proof.
  intros Hg Hs Hm Hr.
  assert (Hi : lobby_inv w).
  { apply (server_steps_inv n jv Hg Hs w0 w); [by apply (rtc_subrel accepting_step), Hr; apply accepting_server_step|].
    pose proof (grows_main hc conf (net_init App_init)) as Hk. rewrite Hm in Hk.
    apply Hk; [apply lobby_inv_init|done]. }
  assert (Hready : accept_ready w).
  { apply (accepting_steps_ready w0 w Hr). pose proof (main_ready hc conf) as Hk.
    unfold ensures in Hk. rewrite Hm in Hk. by apply Hk. }
  destruct Hready as (p & c & Hin & Hc & Hp). apply list_elem_of_split in Hin as (l1 & l2 & E).
  exists l1, p, c, l2. split; [done|]. intros Hseed Hopt Hrem k.
  destruct (accept_returns Hopt Hrem n jv Hg Hs p c (without (l1 ++ l2) w))
    as (w' & [] & Hrun & cn & t & Ec & Et); [by apply (lobby_inv_quiet w)|done..|].
  exists w', (ci_identity cn).
  assert (Hstep : accepting_step w w') by (by eapply (server_accepts w w' l1 _ l2 (mkCompletion 0 [] k))).
  split; [done|]. split; [by eapply rtc_r|].
  pose proof (server_step_inv n jv Hg Hs w w' (accepting_server_step w w' Hstep) Hi) as Hi'.
  destruct (lobby_inv_users w' Hi') as (Hmap & Htag & _).
  pose proof (Htag c cn t Ec Et) as Hu. split; [done|by apply Hmap].
Qed.
End Accepting.

(** ** Witness: the demonstration server and its first client *)
Section Witness.
Import ServerDemo.
#[local] Instance listening_json_laws : JsonLaws json := DemoJson.demo_laws texts.

Lemma server_keeps_accepting_witness :
  ∃ w0 w c i, main 4 "chase_lobby.xml" (net_init App_init) = Done w0 1
    ∧ rtc accepting_step w0 w ∧ has_user w c i.
Proof.
  assert (Hg : short_greeting = true) by (vm_compute; reflexivity).
  unfold short_greeting in Hg.
  destruct greeting as [[n jv]|] eqn:Eg; [apply Z.ltb_lt in Hg|discriminate].
  assert (Hs : match main 4 "chase_lobby.xml" (net_init App_init) with
               | Done w0 code => (code =? 1) && (nw_identitySeed w0 <? 2 ^ 64 - 1)
               | _ => false
               end = true) by (vm_compute; reflexivity).
  destruct (main 4 "chase_lobby.xml" (net_init App_init)) as [w0 code| | |] eqn:Em; try discriminate.
  apply andb_true_iff in Hs as [Hcode Hseed]. apply Z.eqb_eq in Hcode. apply Z.ltb_lt in Hseed.
  subst code.
  destruct (server_keeps_accepting 4 "chase_lobby.xml" w0 w0 n jv Eg Hg Em (rtc_refl _ _))
    as (l1 & p & c & l2 & _ & Hnext).
  destruct (Hnext Hseed (λ _ _, eq_refl) (λ _ _ E, ltac:(discriminate E)) 0)
    as (w & i & _ & Hr & Hu & _).
  exists w0, w, c, i. split; [exact eq_refl|]. split; [exact Hr|exact Hu].
Defined.
End Witness.
