(* ===== verification/BrokerLink.v ===== *)
(** * The link to the broker

    In a build with [USE_CONNECTOR_FOR_BROKER] the server also holds a
    connection to the broker, with the static [BrokerConnector::m_user] as its
    user.  [link_inv] says how the users of the clients, the broker's user, the
    connections and the operations in flight fit together in such a server; the
    rest of the file shows which changes keep it: [calm] ones (all of the
    library but opening, closing and creating connections), those of the user
    manager, and the primitive steps of the life of the link.  BrokerServer.v
    carries it through the server. *)
From stdpp Require Import gmap strings list.
From coqutil Require Import Byte.
From S2P Require Import Prelude.
From S2P Require Import MessageBuffer.
From S2P Require Import PacketHeader.
From S2P Require Import Connection.
From S2P Require Import EventReceiver.
From S2P Require Import IoService.
From S2P Require Import ConnectionImpl.
From S2P Require Import ConnectionSafety.
From S2P Require Import NetService.
From S2P Require Import NetKeeps.
From S2P Require Import NetServiceSafety.
From S2P Require Import NetProperties.
From S2P Require Import Json.
From S2P Require Import LobbyState.
From S2P Require Import LobbyUser.
From S2P Require Import LobbyUserManager.
From S2P Require Import LobbyHandlers.
From S2P Require Import LobbySafety.
From S2P Require Import Environment.
From S2P Require Import Server.
From S2P Require Import ServerProperties.
From S2P Require Import LobbySpec.
From S2P Require Import LobbyUsersSpec.
From S2P Require Import LobbyRefinement.
From S2P Require Import LobbyInvariant.
#[local] Open Scope Z_scope.

(** ** Roles *)
Definition lobby_conn (cn : ConnectionImpl) : Prop :=
  ci_eventReceiver cn = Some LOBBY_RECEIVER ∧ ci_msgProc cn = LOBBY_MSGPROC.
Definition broker_conn (cn : ConnectionImpl) : Prop :=
  ci_eventReceiver cn = Some BROKER_RECEIVER ∧ ci_msgProc cn = BROKER_MSGPROC.
Definition lobby_service (o : NetServiceImpl) : Prop :=
  ns_eventReceiver o = LOBBY_RECEIVER ∧ ns_msgProc o = LOBBY_MSGPROC.
Definition broker_service (o : NetServiceImpl) : Prop :=
  ns_eventReceiver o = BROKER_RECEIVER ∧ ns_msgProc o = BROKER_MSGPROC.

Lemma lobby_not_broker cn : lobby_conn cn → ¬ broker_conn cn.
Proof. unfold lobby_conn, broker_conn. intros [-> _] [? _]. done. Qed.

(** ** Restricted views *)
Section Restrict.
Implicit Types (v : LobbyView) (P : ConnPtr → bool).

(** The part of a view that the clients see: the connections of [P], no broker. *)
Definition restrict P v : LobbyView :=
  mkLobbyView (set_m_user None (v_lobby v))
    (map_imap (λ c e, if P c then Some e else None) (v_conns v)) [] [].

Lemma restrict_lookup P v c :
  v_conns (restrict P v) !! c = if P c then v_conns v !! c else None.
Proof. simpl. rewrite map_lookup_imap. destruct (v_conns v !! c), (P c); done. Qed.
Lemma restrict_ext P Q v :
  (∀ c, P c = Q c) → v_conns (restrict P v) = v_conns (restrict Q v).
Proof. intros E. apply map_eq. intros c. by rewrite !restrict_lookup, E. Qed.

Lemma restrict_set_tag P c t v :
  v_conns (restrict P (v_set_tag c t v)) = alter (e_set_tag t) c (v_conns (restrict P v)).
Proof.
  apply map_eq. intros c'. rewrite restrict_lookup. simpl. destruct (decide (c = c')) as [<-|Hne].
  - rewrite !lookup_alter_eq, map_lookup_imap. destruct (v_conns v !! c), (P c); done.
  - rewrite !lookup_alter_ne, map_lookup_imap by done. destruct (v_conns v !! c'), (P c'); done.
Qed.

(** The operations of the user manager work on the restricted view. *)
Lemma restrict_addUser P c g v :
  P c = true → users_ok (restrict P v) → users_ok (restrict P (v_addUser c g v)).
Proof.
  intros Hc Hv. pose proof (v_addUser_ok c g _ Hv) as Hv'.
  unfold v_addUser in Hv' at 1. rewrite restrict_lookup, Hc in Hv'. unfold v_addUser.
  destruct (v_conns v !! c) as [[[p|] i m]|]; [done| |done]. simpl in Hv'.
  change (new_user_ptr (restrict P v)) with (new_user_ptr v) in Hv'.
  destruct (m_users (v_lobby v) !! i) as [c'|].
  - eapply users_ok_ext; [| |exact Hv']; [done|]. apply restrict_set_tag.
  - eapply users_ok_ext; [| |exact Hv']; [done|]. apply (restrict_set_tag P c _ v).
Qed.
Lemma restrict_deleteUser P c v :
  P c = true → users_ok (restrict P v) → users_ok (restrict P (v_deleteUser c v)).
Proof.
  intros Hc Hv. pose proof (v_deleteUser_ok c _ Hv) as Hv'.
  unfold v_deleteUser in Hv' at 1. rewrite restrict_lookup, Hc in Hv'. unfold v_deleteUser.
  destruct (v_conns v !! c) as [[[p|] i m]|]; [|done..]. simpl in Hv'.
  destruct (l_heap (v_lobby v) !! p) as [[u|u]|]; [|done..].
  eapply users_ok_ext; [| |exact Hv']; [done|]. apply (restrict_set_tag P c _ v).
Qed.
End Restrict.

(** ** The invariant *)
Implicit Types (w : NetWorld App) (c : ConnPtr) (p : ServicePtr).

Definition lobby_at w c : bool :=
  match nw_conns w !! c with
  | Some cn => bool_decide (ci_eventReceiver cn = Some LOBBY_RECEIVER)
  | None => false
  end.
Definition services w : gmap ServicePtr NetServiceImpl := s_objects (app_services (nw_app w)).
Definition lobby w : LobbyState := app_lobby (nw_app w).

Section Invariant.
Context `{FreshMemory} `{!Jsoncpp} `{!Sockets} `{!PropertyTree}.

Definition lobby_view w : LobbyView := restrict (lobby_at w) (observe_world w).

(** An accept or a connect that will start the connection is in flight. *)
Definition starting w c : Prop := ∃ o, o ∈ nw_pending w ∧ is_start_of c o = true.
(** A connection to the broker that is wanted or made. *)
Definition busy w c : Prop :=
  ∃ cn, nw_conns w !! c = Some cn ∧ broker_conn cn ∧ (ci_tag cn ≠ None ∨ starting w c).

Definition start_ok w (o : async_op) : Prop :=
  match o with
  | AcceptConn p c =>
      (∃ so, services w !! p = Some so ∧ lobby_service so)
      ∧ ∃ cn, nw_conns w !! c = Some cn ∧ lobby_conn cn
  | ConnectConn p _ c n =>
      (∃ so, services w !! p = Some so ∧ broker_service so)
      ∧ (∃ cn, nw_conns w !! c = Some cn ∧ broker_conn cn) ∧ n = 0
  | _ => True
  end.

(** The connection [x] may have been opened without a user yet. *)
Record link_inv (x : option ConnPtr) w : Prop := {
  k_users : users_ok (lobby_view w);
  k_seed : 0 ≤ nw_identitySeed w < 2 ^ 64;
  k_identity c cn : nw_conns w !! c = Some cn → ci_identity cn < nw_identitySeed w;
  k_role c cn :
    nw_conns w !! c = Some cn →
    (lobby_conn cn ∨ broker_conn cn) ∧ ci_msgManipulator cn = Some json_getMsgManipulatorTest;
  k_services p so :
    services w !! p = Some so →
    (lobby_service so ∨ broker_service so) ∧ ns_manip so = Some json_getMsgManipulatorTest;
  k_connectors p :
    Some p ∈ s_connectors (app_services (nw_app w)) →
    ∃ so, services w !! p = Some so ∧ broker_service so;
  k_linked c cn t :
    nw_conns w !! c = Some cn → broker_conn cn → ci_tag cn = Some t →
    m_user (lobby w) = Some t
    ∧ ∃ u, l_heap (lobby w) !! t = Some (OConnectorUser u) ∧ cu_conn u = c;
  k_open c cn :
    nw_conns w !! c = Some cn → broker_conn cn → x ≠ Some c → ci_status cn ≠ status_close →
    ci_tag cn ≠ None;
  k_posted c :
    PostClose c ∈ nw_pending w → ∃ cn, nw_conns w !! c = Some cn ∧ ci_status cn ≠ status_close;
  k_single c c' : busy w c → busy w c' → c = c';
  k_waiting c cn : nw_conns w !! c = Some cn → broker_conn cn → starting w c → ci_tag cn = None;
  k_starts o : o ∈ nw_pending w → start_ok w o
}.

(** ** Relations on worlds *)
Definition role_of (cn : ConnectionImpl) : Z * option RecvPtr * MsgProcPtr * option MsgUserManip :=
  (ci_identity cn, ci_eventReceiver cn, ci_msgProc cn, ci_msgManipulator cn).

(** What only the creation and the start of connections change. *)
Record base w w' : Prop := {
  b_conns : role_of <$> nw_conns w' = role_of <$> nw_conns w;
  b_seed : nw_identitySeed w' = nw_identitySeed w;
  b_services : service_fixed <$> services w' = service_fixed <$> services w;
  b_connectors : s_connectors (app_services (nw_app w')) = s_connectors (app_services (nw_app w));
  b_starts o : is_start o = true → o ∈ nw_pending w' ↔ o ∈ nw_pending w
}.
#[export] Instance base_preorder : PreOrder base.
Proof.
  split; [by split|]. intros w1 w2 w3 [? ? ? ? H12] [? ? ? ? H23]. split; try congruence.
  intros o Ho. rewrite (H23 o Ho). by apply H12.
Qed.

(** What becomes of the states of connections and the posted closes: a
    connection may begin to close, and [x] may be opened. *)
Definition status_at w c : option status := ci_status <$> nw_conns w !! c.
Definition moves (x : option ConnPtr) w w' : Prop :=
  ∀ c, (status_at w' c = status_at w c ∧ (PostClose c ∈ nw_pending w' → PostClose c ∈ nw_pending w))
       ∨ (status_at w c = Some status_open ∧ status_at w' c = Some status_closing)
       ∨ (x = Some c ∧ ∃ s, status_at w' c = Some s ∧ s ≠ status_close).
#[export] Instance moves_preorder x : PreOrder (moves x).
Proof.
  split; [by left|]. intros w1 w2 w3 H12 H23 c.
  destruct (H12 c) as [[E12 P12]|[[E1 E2]|[Hx (s & E2 & Hs)]]],
    (H23 c) as [[E23 P23]|[[E1' E3]|[Hx' (s' & E3 & Hs')]]]; try (by right; right; eauto).
  - left. split; [congruence|auto].
  - right. left. split; congruence.
  - right. left. split; congruence.
  - congruence.
  - right. right. split; [done|]. exists s. split; [congruence|done].
Qed.

Record same_users w w' : Prop := {
  su_tags : ci_tag <$> nw_conns w' = ci_tag <$> nw_conns w;
  su_lobby : lobby w' = lobby w
}.
#[export] Instance same_users_preorder : PreOrder same_users.
Proof. split; [by split|]. intros w1 w2 w3 [] []. split; congruence. Qed.

Definition calm w w' : Prop := base w w' ∧ moves None w w' ∧ same_users w w'.
#[export] Instance calm_preorder : PreOrder calm.
Proof.
  split; [intros w; by split_and!|]. intros w1 w2 w3 (? & ? & ?) (? & ? & ?).
  unfold calm. split_and!; by etrans.
Qed.

(** The library keeps [base] and [same_users], and but for opening and closing
    also [moves]. *)
#[export] Instance base_net_keeps : NetKeeps base.
Proof.
  apply net_keeps_intro; [typeclasses eauto|..].
  - intros c f Hf w. unfold upd_conn, this_conn. run_step.
    destruct (nw_conns w !! c) as [cn|] eqn:E; simpl; [|done]. split; [|done..]. simpl.
    rewrite fmap_insert. apply insert_id. rewrite lookup_fmap, E. simpl. f_equal.
    specialize (Hf cn). unfold conn_fixed in Hf. unfold role_of. congruence.
  - intros o Ho w. split; [done..|]. intros o' Ho'. simpl. rewrite elem_of_app, list_elem_of_singleton.
    split; [|by left]. intros [?| ->]; [done|congruence].
  - intros f Hf w. split; [done..|]. intros o Ho. simpl. rewrite list_elem_of_fmap. split.
    + intros (o' & -> & Hin). destruct (Hf o') as (Hs & _ & He). by rewrite He by (by rewrite <- Hs, Ho).
    + intros Hin. exists o. split; [|done]. destruct (Hf o) as (_ & _ & He). by rewrite He by (by rewrite Ho).
  - intros n w. split; [done..|]. intros o Ho. apply buffers_gone_elem. by rewrite Ho.
  - by intros e w.
  - intros f Hf w. destruct (Hf (app_services (nw_app w))) as [Ho Hk].
    split; unfold services; simpl; by rewrite ?Ho, ?Hk.
  - intros p f Hf w. unfold upd_service, this_service, get_services. run_step. simpl.
    destruct (s_objects (app_services (nw_app w)) !! p) as [o|] eqn:E; simpl; [|done].
    split; [done|done| |done|done]. unfold services. simpl. rewrite fmap_insert, (proj1 (Hf o)).
    apply insert_id. by rewrite lookup_fmap, E.
Qed.

#[export] Instance same_users_net_keeps : NetKeeps same_users.
Proof.
  apply net_keeps_intro; try (by intros; intros w); [typeclasses eauto|..].
  - intros c f Hf w. unfold upd_conn, this_conn. run_step.
    destruct (nw_conns w !! c) as [cn|] eqn:E; simpl; [|done]. split; [|done]. simpl.
    rewrite fmap_insert. apply insert_id. rewrite lookup_fmap, E. simpl. f_equal.
    specialize (Hf cn). unfold conn_fixed in Hf. congruence.
  - intros p f _ w. unfold upd_service, this_service, get_services. run_step.
    by destruct (s_objects _ !! p).
Qed.

Lemma moves_same x w w' :
  (∀ c, status_at w' c = status_at w c) → (∀ c, PostClose c ∈ nw_pending w' → PostClose c ∈ nw_pending w) →
  moves x w w'.
Proof. intros Hs Hp c. left. auto. Qed.

#[export] Instance moves_net_calm x : NetCalm (moves x).
Proof.
  split; [typeclasses eauto|..].
  - intros c f Hf w. unfold upd_conn, this_conn. run_step.
    destruct (nw_conns w !! c) as [cn|] eqn:E; simpl; [|done]. apply moves_same; [|done].
    intros c'. unfold status_at. simpl. destruct (decide (c = c')) as [<-|Hne].
    + rewrite lookup_insert_eq, E. simpl. f_equal. apply Hf.
    + by rewrite lookup_insert_ne.
  - intros o _ Ho w. apply moves_same; [done|]. intros c. simpl.
    rewrite elem_of_app, list_elem_of_singleton. intros [?|<-]; done.
  - intros f Hf w. apply moves_same; [done|]. intros c. simpl.
    intros (o & E & Hin)%list_elem_of_fmap. destruct (Hf o) as (_ & Hs & He).
    assert (Ho : f o = o) by (apply He; rewrite <- Hs, <- E; apply orb_true_r). congruence.
  - intros n w. apply moves_same; [done|]. intros c. by apply buffers_gone_elem.
  - by intros e w; apply moves_same.
  - by intros f _ w; apply moves_same.
  - intros p f _ w. unfold upd_service, this_service, get_services. run_step.
    destruct (s_objects _ !! p); simpl; [|done]. by apply moves_same.
  - intros c what w. unfold ConnectionImpl_closing, socket_shutdown, record_event. run_step.
    unfold this_conn. run_step. simpl. destruct (nw_conns w !! c) as [cn|] eqn:E; simpl; [|done].
    destruct (_ && _) eqn:Hb; [|by apply moves_same].
    apply andb_true_iff in Hb as [_ Ho%bool_decide_eq_true].
    unfold ConnectionImpl_set_status. rewrite bind_run, (upd_conn_run _ _ _ cn) by done.
    unfold cancel_timers, map_pending, start_op. run_step. simpl.
    intros c'. destruct (decide (c = c')) as [<-|Hne].
    + right. left. unfold status_at. simpl. by rewrite lookup_insert_eq, E, <- Ho.
    + left. unfold status_at. simpl. rewrite lookup_insert_ne by done. split; [done|].
      rewrite elem_of_app, list_elem_of_singleton. intros [Hin|[=]]; [|done].
      apply list_elem_of_fmap in Hin as ([] & E2 & Hin); try done.
      apply list_elem_of_fmap in Hin as ([] & E3 & Hin); try done. simpl in *. congruence.
Qed.

Lemma net_calm_and (R1 R2 : NetWorld App → NetWorld App → Prop) :
  PreOrder (λ w w', R1 w w' ∧ R2 w w') → NetCalm R1 → NetCalm R2 →
  NetCalm (λ w w', R1 w w' ∧ R2 w w').
Proof. intros HR [] []. split; intros; [done|..]; apply keeps_and; auto. Qed.
Lemma and_preorder {S} (R1 R2 : S → S → Prop) :
  PreOrder R1 → PreOrder R2 → PreOrder (λ s s', R1 s s' ∧ R2 s s').
Proof. intros ??. split; [by split|]. intros s1 s2 s3 [] []. split; by etrans. Qed.
#[export] Instance calm_net_calm : NetCalm calm.
Proof.
  apply net_calm_and; [apply calm_preorder|typeclasses eauto|].
  apply net_calm_and; [apply and_preorder; typeclasses eauto|typeclasses eauto..].
Qed.

(** ** What keeps the invariant *)
Lemma role_lobby cn cn' : role_of cn = role_of cn' → lobby_conn cn → lobby_conn cn'.
Proof. unfold lobby_conn. intros [= _ -> -> _]. done. Qed.
Lemma role_broker cn cn' : role_of cn = role_of cn' → broker_conn cn → broker_conn cn'.
Proof. unfold broker_conn. intros [= _ -> -> _]. done. Qed.

Lemma fixed_lobby so so' : service_fixed so = service_fixed so' → lobby_service so → lobby_service so'.
Proof. unfold lobby_service. intros [= -> -> _]. done. Qed.
Lemma fixed_broker so so' :
  service_fixed so = service_fixed so' → broker_service so → broker_service so'.
Proof. unfold broker_service. intros [= -> -> _]. done. Qed.

Section Base.
Context w w' (Hb : base w w').

Lemma base_conn c cn' :
  nw_conns w' !! c = Some cn' → ∃ cn, nw_conns w !! c = Some cn ∧ role_of cn = role_of cn'.
Proof. intros E. by apply (fmap_eq_lookup _ _ _ _ _ (b_conns _ _ Hb)). Qed.
Lemma base_conn' c cn :
  nw_conns w !! c = Some cn → ∃ cn', nw_conns w' !! c = Some cn' ∧ role_of cn' = role_of cn.
Proof. intros E. by apply (fmap_eq_lookup _ _ _ _ _ (eq_sym (b_conns _ _ Hb))). Qed.
Lemma base_service p so' :
  services w' !! p = Some so' → ∃ so, services w !! p = Some so ∧ service_fixed so = service_fixed so'.
Proof. intros E. by apply (fmap_eq_lookup _ _ _ _ _ (b_services _ _ Hb)). Qed.
Lemma base_service' p so :
  services w !! p = Some so → ∃ so', services w' !! p = Some so' ∧ service_fixed so' = service_fixed so.
Proof. intros E. by apply (fmap_eq_lookup _ _ _ _ _ (eq_sym (b_services _ _ Hb))). Qed.
Lemma base_lobby_at c : lobby_at w' c = lobby_at w c.
Proof.
  unfold lobby_at. destruct (nw_conns w' !! c) as [cn'|] eqn:E'.
  - destruct (base_conn c cn' E') as (cn & -> & [=_ -> _ _]). done.
  - destruct (nw_conns w !! c) as [cn|] eqn:E; [|done].
    destruct (base_conn' c cn E) as (? & ? & _). congruence.
Qed.
Lemma base_starting c : starting w' c ↔ starting w c.
Proof.
  unfold starting. split; intros (o & Hin & Hs); exists o; (split; [|done]);
    by apply (b_starts _ _ Hb o); destruct o.
Qed.
Lemma base_start_ok o : start_ok w o → start_ok w' o.
Proof.
  destruct o; simpl; try done.
  - intros [(so & Es & Hs) (cn & E & Hr)]. split.
    + destruct (base_service' _ so Es) as (so' & E' & Ef). exists so'. split; [done|].
      by apply (fixed_lobby so).
    + destruct (base_conn' c cn E) as (cn' & E' & Er). exists cn'. split; [done|].
      by apply (role_lobby cn).
  - intros [(so & Es & Hs) [(cn & E & Hr) Hn]]. split_and!; [|..|done].
    + destruct (base_service' _ so Es) as (so' & E' & Ef). exists so'. split; [done|].
      by apply (fixed_broker so).
    + destruct (base_conn' c cn E) as (cn' & E' & Er). exists cn'. split; [done|].
      by apply (role_broker cn).
Qed.
End Base.

(** What the invariant says of states and posted closes. *)
Definition states_ok (x : option ConnPtr) w w' : Prop :=
  (∀ c cn cn', nw_conns w !! c = Some cn → nw_conns w' !! c = Some cn' → x ≠ Some c →
     ci_status cn' ≠ status_close → ci_status cn ≠ status_close)
  ∧ ∀ c, PostClose c ∈ nw_pending w' → ∃ cn, nw_conns w' !! c = Some cn ∧ ci_status cn ≠ status_close.

Lemma moves_states x y w w' : moves x w w' → link_inv y w → states_ok x w w'.
Proof.
  intros Hm Hi. split.
  - intros c cn cn' E E' Hx Hs. destruct (Hm c) as [[Es _]|[[Es _]|[? _]]]; [..|done];
      unfold status_at in Es; rewrite E in Es; [rewrite E' in Es|]; simpl in Es; congruence.
  - intros c Hin. destruct (Hm c) as [[Es Hp]|[[_ Es]|[_ (s & Es & Hs)]]].
    + destruct (k_posted y w Hi c (Hp Hin)) as (cn & E & Hs).
      unfold status_at in Es. rewrite E in Es. apply fmap_Some in Es as (cn' & E' & Es).
      exists cn'. split; [done|congruence].
    + unfold status_at in Es. apply fmap_Some in Es as (cn' & E' & Es). exists cn'. split; congruence.
    + unfold status_at in Es. apply fmap_Some in Es as (cn' & E' & Es). exists cn'. split; congruence.
Qed.

(** The users of the clients are in order in [w'], and the broker's are as
    they were. *)
Lemma link_inv_base x y w w' :
  base w w' → states_ok x w w' → (y = None ∨ y = x) → users_ok (lobby_view w') →
  (∀ c cn cn', nw_conns w !! c = Some cn → nw_conns w' !! c = Some cn' → broker_conn cn →
     ci_tag cn' = ci_tag cn) →
  (∀ c cn t, nw_conns w !! c = Some cn → broker_conn cn → ci_tag cn = Some t →
     m_user (lobby w') = m_user (lobby w) ∧ l_heap (lobby w') !! t = l_heap (lobby w) !! t) →
  link_inv y w → link_inv x w'.
Proof.
  intros Hb Hm Hxy Hu Htag Hlobby Hi.
  assert (Hold : ∀ c cn', nw_conns w' !! c = Some cn' → broker_conn cn' →
            ∃ cn, nw_conns w !! c = Some cn ∧ broker_conn cn ∧ ci_tag cn' = ci_tag cn).
  { intros c cn' E' Hr. destruct (base_conn w w' Hb c cn' E') as (cn & E & Er).
    assert (Hbr : broker_conn cn) by by apply (role_broker cn'). eauto. }
  assert (Hbusy : ∀ c, busy w' c → busy w c).
  { intros c (cn' & E' & Hr & Hc). destruct (Hold c cn' E' Hr) as (cn & E & Hbr & Et).
    exists cn. split_and!; [done|done|]. rewrite <- Et, <- (base_starting w w' Hb). done. }
  split.
  - done.
  - rewrite (b_seed _ _ Hb). apply (k_seed y w Hi).
  - intros c cn' E'. destruct (base_conn w w' Hb c cn' E') as (cn & E & [= <- _ _ _]).
    rewrite (b_seed _ _ Hb). by apply (k_identity y w Hi c).
  - intros c cn' E'. destruct (base_conn w w' Hb c cn' E') as (cn & E & Er).
    destruct (k_role y w Hi c cn E) as [Hr Hman].
    split; [|injection Er as _ _ _ Em; by rewrite <- Em].
    destruct Hr; [left; by apply (role_lobby cn)|right; by apply (role_broker cn)].
  - intros p so' E'. destruct (base_service w w' Hb p so' E') as (so & E & Ef).
    destruct (k_services y w Hi p so E) as [Hr Hman].
    split; [|injection Ef as _ _ Em; by rewrite <- Em].
    destruct Hr; [left; by apply (fixed_lobby so)|right; by apply (fixed_broker so)].
  - intros p Hin. rewrite (b_connectors _ _ Hb) in Hin.
    destruct (k_connectors y w Hi p Hin) as (so & E & Hs).
    destruct (base_service' w w' Hb p so E) as (so' & E' & Ef). exists so'. split; [done|].
    by apply (fixed_broker so).
  - intros c cn' t E' Hr Et'. destruct (Hold c cn' E' Hr) as (cn & E & Hbr & Et).
    rewrite Et' in Et. destruct (Hlobby c cn t E Hbr (eq_sym Et)) as [-> ->].
    by apply (k_linked y w Hi c cn t).
  - intros c cn' E' Hr Hx Hs. destruct (Hold c cn' E' Hr) as (cn & E & Hbr & ->).
    apply (k_open y w Hi c cn E Hbr); [destruct Hxy; congruence|]. by apply (proj1 Hm c cn cn').
  - apply (proj2 Hm).
  - intros c c' Hc%Hbusy Hc'%Hbusy. by apply (k_single y w Hi).
  - intros c cn' E' Hr Hst%(base_starting w w' Hb). destruct (Hold c cn' E' Hr) as (cn & E & Hbr & ->).
    by apply (k_waiting y w Hi c).
  - intros o Hin. destruct (is_start o) eqn:Eo; [|by destruct o].
    apply (base_start_ok w w' Hb). apply (k_starts y w Hi). by apply (b_starts _ _ Hb).
Qed.

Lemma lobby_view_same w w' : base w w' → same_users w w' → users_ok (lobby_view w) → users_ok (lobby_view w').
Proof.
  intros Hb Hu. apply users_ok_ext; simpl.
  - by rewrite (su_lobby _ _ Hu : app_lobby (nw_app w') = app_lobby (nw_app w)).
  - apply map_eq. intros c. rewrite !map_lookup_imap, !lookup_fmap, (base_lobby_at w w' Hb).
    pose proof (f_equal (lookup c) (su_tags _ _ Hu)) as Et. pose proof (f_equal (lookup c) (b_conns _ _ Hb)) as Er.
    rewrite !lookup_fmap in Et. rewrite !lookup_fmap in Er. destruct (nw_conns w' !! c) as [cn'|], (nw_conns w !! c) as [cn|];
      try done. simpl in *. injection Et as Et. injection Er as Ei _ _ Em. unfold entry_of. by rewrite Et, Ei, Em.
Qed.

Lemma link_inv_moves x y w w' :
  base w w' → moves x w w' → same_users w w' → (y = None ∨ y = x) → link_inv y w → link_inv x w'.
Proof.
  intros Hb Hm Hu Hxy Hi. apply (link_inv_base x y w); try done.
  - by eapply moves_states.
  - apply (lobby_view_same w); [done..|]. by apply (k_users y).
  - intros c cn cn' E E' _. pose proof (f_equal (lookup c) (su_tags _ _ Hu)) as Et.
    rewrite !lookup_fmap, E, E' in Et. by injection Et.
  - intros c cn t _ _ _. by rewrite (su_lobby _ _ Hu).
Qed.
Lemma moves_any x w w' : moves None w w' → moves x w w'.
Proof. intros Hm c. destruct (Hm c) as [?|[?|[? _]]]; [by left|by right; left|done]. Qed.
Lemma link_inv_calm x w w' : calm w w' → link_inv x w → link_inv x w'.
Proof. intros (Hb & Hm & Hu) Hi. apply (link_inv_moves x x w); auto. by apply moves_any. Qed.

(** ** The code of the application *)
Definition linked w w' : Prop :=
  nw_identitySeed w' = nw_identitySeed w ∧ ∀ x, link_inv x w → link_inv x w'.
#[export] Instance linked_preorder : PreOrder linked.
Proof. split; [by split|]. intros w1 w2 w3 [E12 H12] [E23 H23]. split; [congruence|auto]. Qed.
Lemma calm_linked w w' : calm w w' → linked w w'.
Proof. intros Hc. split; [apply (b_seed _ _ (proj1 Hc))|]. intros x. by apply link_inv_calm. Qed.
#[export] Instance linked_net_calm : NetCalm linked.
Proof. eapply net_calm_weaken; [typeclasses eauto|exact calm_linked|typeclasses eauto]. Qed.

(** A change of the state of the lobby. *)
Lemma with_lobby_base l w : base w (with_lobby l w) ∧ moves None w (with_lobby l w).
Proof. split; [by split|by apply moves_same]. Qed.
Lemma linked_upd_lobby f :
  (∀ s, l_heap (f s) = l_heap s ∧ m_users (f s) = m_users s ∧ m_user (f s) = m_user s
        ∧ (m_encType s = EncType.GREETING → m_encType (f s) = EncType.GREETING)) →
  keeps linked (upd_lobby (W := NetWorld App) f).
Proof.
  intros Hf w. unfold upd_lobby. run_step. destruct (with_lobby_base (f (lobby w)) w) as [Hb Hm].
  split; [done|]. intros x Hi. destruct (Hf (lobby w)) as (Hh & Hu & Hmu & He).
  apply (link_inv_base x x w); eauto using moves_any, moves_states.
  - destruct (k_users x w Hi) as [? ? Htag Hus Henc ?]. unfold lobby in *.
    split; simpl in *; rewrite ?Hh, ?Hu; auto.
  - intros c cn cn' E E' _. simpl in E'. congruence.
  - intros c cn t _ _ _. unfold lobby in *. simpl. by rewrite Hmu, Hh.
Qed.

Lemma linked_login_reset q : keeps linked (upd_user (W := NetWorld App) q login_reset).
Proof.
  intros w. unfold upd_user, this_user, upd_lobby, get_lobby. run_step. simpl.
  destruct (l_heap (app_lobby (nw_app w)) !! q) as [[u|u]|] eqn:Eq; simpl; try done.
  set (l := set_heap _ _). destruct (with_lobby_base l w) as [Hb Hm]. split; [done|]. intros x Hi.
  apply (link_inv_base x x w); eauto using moves_any, moves_states.
  - destruct (k_users x w Hi) as [? ? Htag ? ? ?]. split; try done. simpl in *.
    intros c p i m Hc. destruct (Htag _ _ _ _ Hc) as [(u' & Hu' & Huc) Hus]. split; [|done].
    destruct (decide (q = p)) as [<-|Hne].
    + rewrite lookup_insert_eq. exists (login_reset u). split; [done|]. rewrite Eq in Hu'. by injection Hu' as <-.
    + rewrite lookup_insert_ne by done. by exists u'.
  - intros c cn cn' E E' _. simpl in E'. congruence.
  - intros c cn t E Hr Et. split; [done|]. destruct (k_linked x w Hi c cn t E Hr Et) as (_ & u' & Hu' & _).
    unfold lobby in *. simpl. rewrite lookup_insert_ne; [done|]. intros ->. congruence.
Qed.

#[export] Instance calm_conn_keeps : ConnKeeps (NetWorld App) calm.
Proof. apply net_conn_keeps. typeclasses eauto. Qed.
#[export] Instance linked_request_keeps : RequestKeeps (NetWorld App) linked.
Proof.
  split; [apply net_conn_keeps; typeclasses eauto|apply linked_login_reset|].
  intros i. by apply linked_upd_lobby.
Qed.

(** ** The users of the clients *)
#[export] Instance base_lobby_keeps : LobbyKeeps (NetWorld App) base.
Proof.
  split; [apply net_conn_keeps; typeclasses eauto|by intros l w|]. intros c t w. simpl.
  unfold ConnectionImpl_setTag, upd_conn, this_conn. run_step.
  destruct (nw_conns w !! c) as [cn|] eqn:E; simpl; [|done]. split; [|done..]. simpl.
  rewrite fmap_insert. apply insert_id. by rewrite lookup_fmap, E.
Qed.
#[export] Instance moves_lobby_keeps x : LobbyKeeps (NetWorld App) (moves x).
Proof.
  split; [apply net_conn_keeps; typeclasses eauto|by intros l w; apply moves_same|]. intros c t w. simpl.
  unfold ConnectionImpl_setTag, upd_conn, this_conn. run_step.
  destruct (nw_conns w !! c) as [cn|] eqn:E; simpl; [|done]. apply moves_same; [|done].
  intros c'. unfold status_at. simpl. destruct (decide (c = c')) as [<-|Hne].
  - by rewrite lookup_insert_eq, E.
  - by rewrite lookup_insert_ne.
Qed.

(** A view of [w'] that leaves the broker alone. *)
Definition clients_only c (v v' : LobbyView) : Prop :=
  (∀ c', c' ≠ c → v_conns v' !! c' = v_conns v !! c')
  ∧ m_user (v_lobby v') = m_user (v_lobby v)
  ∧ ∀ t u, l_heap (v_lobby v) !! t = Some (OConnectorUser u) →
           l_heap (v_lobby v') !! t = Some (OConnectorUser u).

Lemma clients_only_addUser c g v : clients_only c v (v_addUser c g v).
Proof.
  unfold v_addUser. destruct (v_conns v !! c) as [[[p|] i m]|]; [by split_and!| |by split_and!].
  assert (Hheap : ∀ t u, l_heap (v_lobby v) !! t = Some (OConnectorUser u) →
     <[new_user_ptr v := OUser (User_new c)]> (l_heap (v_lobby v)) !! t = Some (OConnectorUser u)).
  { intros t u Et. rewrite lookup_insert_ne; [done|]. intros <-.
    assert (Hn : l_heap (v_lobby v) !! new_user_ptr v = None)
      by (apply (not_elem_of_dom (D := gset TagPtr)); unfold new_user_ptr; apply is_fresh).
    congruence. }
  destruct (m_users (v_lobby v) !! i); split_and!; simpl; try done;
    intros c' Hc'; by rewrite lookup_alter_ne.
Qed.
Lemma clients_only_deleteUser c v : clients_only c v (v_deleteUser c v).
Proof.
  unfold v_deleteUser. destruct (v_conns v !! c) as [[[p|] i m]|]; [|by split_and!..].
  destruct (l_heap (v_lobby v) !! p) as [[u|u]|] eqn:Ep; [|by split_and!..].
  split_and!; simpl; [|done|].
  - intros c' Hc'. by rewrite lookup_alter_ne.
  - intros t u' Et. rewrite lookup_delete_ne; [done|]. congruence.
Qed.

Lemma link_inv_clients x c w w' :
  base w w' → moves None w w' → clients_only c (observe_world w) (observe_world w') →
  lobby_at w c = true → users_ok (restrict (lobby_at w) (observe_world w')) →
  link_inv x w → link_inv x w'.
Proof.
  intros Hb Hm (Hconns & Hmu & Hheap) Hc Hu Hi.
  apply (link_inv_base x x w); eauto using moves_any, moves_states.
  - eapply users_ok_ext; [| |exact Hu]; [done|]. apply restrict_ext. intros c'. by apply base_lobby_at.
  - intros c' cn cn' E E' Hr. specialize (Hconns c'). simpl in Hconns. rewrite !lookup_fmap, E, E' in Hconns.
    assert (Hne : c' ≠ c).
    { intros ->. unfold lobby_at in Hc. rewrite E in Hc. apply bool_decide_eq_true in Hc.
      destruct Hr as [Hr _]. by rewrite Hc in Hr. }
    specialize (Hconns Hne). by injection Hconns.
  - intros c' cn t E Hr Et. split; [done|]. destruct (k_linked x w Hi c' cn t E Hr Et) as (_ & u & Hu' & _).
    unfold lobby in *. rewrite Hu'. by apply Hheap.
Qed.
End Invariant.
