(* ===== verification/LobbyRequests.v ===== *)
(** * JSON requests: reading and dispatch

    What [LobbyAcceptorReceiver::readJsonPacket] does with the packets of
    LobbyUser.v and with packets that are too short, that hold no JSON or whose
    URL has no end; that only the exception of the JSON reader for a text nested
    too deeply leaves it; and what the handler of "login" does. *)
From stdpp Require Import gmap strings list.
From coqutil Require Import Byte Word.LittleEndianList.
From S2P Require Import Prelude.
From S2P Require Import MessageBuffer.
From S2P Require Import Connection.
From S2P Require Import MlnUtils.
From S2P Require Import Protocol.
From S2P Require Import Json.
From S2P Require Import LobbyState.
From S2P Require Import LobbyUser.
From S2P Require Import LobbyUserManager.
From S2P Require Import LobbyHandlers.
From S2P Require Import BrokerConnector.
From S2P Require Import LobbyAcceptorReceiver.
From S2P Require Import LobbySpec.
#[local] Open Scope Z_scope.

(** ** The structures on the stack *)
Section Structures.
Context `{FreshMemory}.

(** The 40 bytes in front of a body: any code, sequence number and flag. *)
Definition lobby_head (code seq flag url : list byte) (n : Z) : list byte :=
  code ++ seq ++ flag ++ url ++ le16 n.

Lemma lobby_packet_head seq url body :
  lobby_packet seq url body
  = lobby_head (byte_of 1) (le32 seq) (byte_of 0) (pad 32 url) (zlen body + 1) ++ body ++ [Byte.x00].
Proof. unfold lobby_packet, lobby_head. by rewrite <- !app_assoc. Qed.

Record head_ok (code seq flag url : list byte) (n : Z) : Prop := {
  ho_code : zlen code = 1;
  ho_seq : zlen seq = 4;
  ho_flag : zlen flag = 1;
  ho_url : zlen url = 32;
  ho_n : 0 ≤ n < 2 ^ 16
}.

Lemma zlen_lobby_head code seq flag url n :
  head_ok code seq flag url n → zlen (lobby_head code seq flag url n) = 40.
Proof. intros []. unfold lobby_head. rewrite !zlen_app, zlen_le16. lia. Qed.

Lemma PT_JSON_init_run :
  ∃ o, LOBBY_PROTOCOL.PT_JSON_init LOBBY_PROTOCOL.PT_JSON_raw = Done o tt ∧ zlen o = 30040.
Proof.
  assert (Hraw : zlen LOBBY_PROTOCOL.PT_JSON_raw = 30040)
    by (unfold LOBBY_PROTOCOL.PT_JSON_raw, zlen; by rewrite fresh_bytes_length).
  revert Hraw. generalize LOBBY_PROTOCOL.PT_JSON_raw. intros raw Hraw.
  assert (Hz : zlen (replicate (Z.to_nat LOBBY_PROTOCOL.MAX_URL_STRING) Byte.x00) = 32) by done.
  unfold LOBBY_PROTOCOL.PT_JSON_init.
  repeat (rewrite store_member_run by (simpl; rewrite ?zlen_byte_of, ?zlen_le16, ?Hz; lia); run_step).
  eexists. split; [done|].
  repeat rewrite zlen_zsplice; rewrite ?zlen_byte_of, ?zlen_le16, ?Hz, ?Hraw; simpl; lia.
Qed.

(** The structure after the head and the body are copied into it. *)
Lemma head_copied o head :
  zlen o = 30040 → zlen head = 40 →
  ∃ room, memcpy_object LOBBY_PROTOCOL.sizeof_PT_JSON head o = Done (head ++ room) tt
    ∧ zlen room = 30000.
Proof.
  intros Ho Hh. exists (drop 40 o). unfold memcpy_object. rewrite Hh. simpl. run_step.
  rewrite (zsplice_front _ _ 40) by (unfold zlen in Hh; lia). split; [done|].
  rewrite (zlen_drop 40); lia.
Qed.
Lemma body_copied head room body :
  zlen head = 40 → zlen body ≤ 30000 →
  memcpy_member LOBBY_PROTOCOL.jsonBody 0 body (head ++ room) = Done (head ++ zsplice 0 body room) tt.
Proof.
  intros Hh Hb. rewrite memcpy_member_run by (simpl; lia). by rewrite zsplice_app_r.
Qed.

Lemma load_head_bodySize code seq flag url n room :
  head_ok code seq flag url n →
  load_uint LOBBY_PROTOCOL.bodySize (lobby_head code seq flag url n ++ room) = n.
Proof.
  intros []. unfold load_uint, load_member.
  change (m_off LOBBY_PROTOCOL.bodySize) with 38. change (m_len LOBBY_PROTOCOL.bodySize) with 2.
  assert (E : lobby_head code seq flag url n ++ room = (code ++ seq ++ flag ++ url) ++ le16 n ++ room)
    by (unfold lobby_head; by rewrite <- !app_assoc).
  rewrite E, zslice_app_at by (rewrite ?zlen_app, ?zlen_le16; lia).
  by rewrite le_combine_le16, u16_small.
Qed.
Lemma load_head_url code seq flag url n room :
  head_ok code seq flag url n →
  load_member LOBBY_PROTOCOL.url LOBBY_PROTOCOL.MAX_URL_STRING (lobby_head code seq flag url n ++ room) = url.
Proof.
  intros []. unfold load_member.
  assert (E : lobby_head code seq flag url n ++ room = (code ++ seq ++ flag) ++ url ++ le16 n ++ room)
    by (unfold lobby_head; by rewrite <- !app_assoc).
  rewrite E. apply zslice_app_at; unfold LOBBY_PROTOCOL.MAX_URL_STRING; simpl; rewrite ?zlen_app; lia.
Qed.
Lemma load_body head room body :
  zlen head = 40 → zlen body ≤ zlen room →
  load_member LOBBY_PROTOCOL.jsonBody (zlen body) (head ++ zsplice 0 body room) = body.
Proof.
  intros Hh Hb. unfold load_member. change (m_off LOBBY_PROTOCOL.jsonBody) with 40.
  rewrite (zsplice_front _ _ (length body)) by done. by apply zslice_app_at.
Qed.
End Structures.

(** ** Reading a request *)
Section Requests.
Context `{FreshMemory} `{J : Jsoncpp} {W : Type} `{!Connection W} `{!HasLobby W} `{!WeakConnection W}
  `{CS : !ConnectionSpec W} `{!LocalTime W}.

Lemma read_body_run n b (w : W) :
  mb_wf b → 0 ≤ n ≤ zlen (mb_content b) →
  ∃ b', read_body n (b, w) = Done (b', w) (Some (take (Z.to_nat n) (mb_content b)))
    ∧ mb_wf b' ∧ mb_content b' = drop (Z.to_nat n) (mb_content b).
Proof.
  intros Hwf Hn. destruct (read_to_spec b n Hwf Hn) as (b' & E & Hwf' & Hc' & _).
  exists b'. unfold read_body, try_catch. run_step. by rewrite on_fst_run, E.
Qed.

(** The rest of the function once the request is read. *)
Definition answer_request (c : ConnPtr) (url body : list byte) (b : MessageBuffer) (w : W)
    : outcome (MessageBuffer * W) unit :=
  match Reader_parse (bytes_string body) with
  | NotJson => Done (b, w) tt
  | TooDeep => Threw (b, w) too_deep
  | Parsed value =>
      if has_nul url
      then map_state (λ w', (b, w'))
             (with_json value (LobbyAcceptorReceiver_dispatch c (bytes_string (c_str url))) w)
      else Undef "a char array without a terminating NUL read as a string"
  end.

Lemma readJsonPacket_run c e p size b w code seq flag url body rest :
  v_conns (observe w) !! c = Some e → e_tag e = Some p →
  mb_wf b → head_ok code seq flag url (zlen body) → LOBBY_PROTOCOL.HEAD_SIZE ≤ size →
  1 ≤ zlen body ≤ LOBBY_PROTOCOL.MAX_BODY_SIZE →
  mb_content b = lobby_head code seq flag url (zlen body) ++ body ++ rest →
  ∃ b', LobbyAcceptorReceiver_readJsonPacket c size (b, w) = answer_request c url body b' w
    ∧ mb_wf b' ∧ mb_content b' = rest.
Proof.
  intros Hc Ht Hwf Hh Hsize Hn Hb. unfold LOBBY_PROTOCOL.MAX_BODY_SIZE, LOBBY_PROTOCOL.HEAD_SIZE in *.
  pose proof (zlen_lobby_head _ _ _ _ _ Hh) as Hl.
  destruct (read_to_spec b 40 Hwf) as (b1 & E1 & Hwf1 & Hc1 & _); [rewrite Hb; len|].
  rewrite Hb in E1, Hc1. rewrite (take_app_zlen _ _ 40) in E1 by done.
  rewrite (drop_app_zlen _ _ 40) in Hc1 by done.
  destruct (read_body_run (zlen body) b1 w Hwf1) as (b2 & E2 & Hwf2 & Hc2); [rewrite Hc1; len|].
  rewrite Hc1, take_app_zlen in E2 by done. rewrite Hc1, drop_app_zlen in Hc2 by done.
  exists b2. split; [|done].
  destruct PT_JSON_init_run as (o & Eo & Ho).
  destruct (head_copied o _ Ho Hl) as (room & Er & Hr).
  unfold LobbyAcceptorReceiver_readJsonPacket, GET_USER_LOBBY. run_step.
  rewrite on_snd_run, (cs_getTag _ _ _ Hc), Ht. run_step.
  unfold LOBBY_PROTOCOL.HEAD_SIZE, LOBBY_PROTOCOL.MAX_BODY_SIZE.
  rewrite (proj2 (Z.ltb_ge _ _)) by lia. run_step. unfold local_only at 1. rewrite Eo. run_step.
  rewrite on_fst_run, E1. run_step. unfold local_only at 1. rewrite Er. run_step.
  rewrite load_head_bodySize by done.
  rewrite (proj2 (Z.ltb_ge _ _)), (proj2 (Z.leb_gt _ _)) by lia. cbn [orb].
  run_step. rewrite E2. run_step. unfold local_only.
  rewrite body_copied by lia. run_step.
  rewrite load_body, load_head_url by (done || lia).
  unfold answer_request, parse_request. destruct (Reader_parse _) as [value| |]; run_step; [|done..].
  unfold string_of_array. run_step. destruct (has_nul url); [|done]. run_step. by rewrite on_snd_run.
Qed.

(** ** No exception leaves the reader *)
Lemma no_throw_with_json {A} jv (m : M (Value * W) A) : no_throw m → no_throw (with_json jv m).
Proof.
  intros Hm. unfold with_json. apply no_throw_bind; [|by intros a s s' e].
  intros s s' e. unfold with_local. destruct (m (jv, s)) as [[]|[]| |] eqn:E; try done.
  intros _. by eapply Hm.
Qed.
Lemma no_throw_this_user p : no_throw (this_user (W := W) p).
Proof. apply no_throw_bind; [done|]. intros s. apply no_throw_deref. Qed.
Lemma no_throw_memcpy m i src : no_throw (memcpy_member m i src).
Proof. intros s s' e. unfold memcpy_member. by case_match. Qed.

Lemma dispatch_no_throw c url : no_throw (LobbyAcceptorReceiver_dispatch (W := W) c url).
Proof.
  unfold LobbyAcceptorReceiver_dispatch. apply no_throw_bind; [by apply no_throw_on_snd|]. intros s.
  destruct (lobby_URLs s !! url); [|done]. apply no_throw_try_catch. intros e.
  unfold dispatch_exceptionHandler. apply no_throw_bind.
  { apply no_throw_on_snd, cs_getTag_no_throw. }
  intros [user|]; [|done]. apply no_throw_bind; [|done]. apply no_throw_on_snd, no_throw_this_user.
Qed.

Lemma read_body_no_throw n : no_throw (read_body (W := W) n).
Proof. by apply no_throw_try_catch. Qed.

Lemma read_body_short n b (w : W) :
  mb_wf b → zlen (mb_content b) < n → read_body n (b, w) = Done (b, w) None.
Proof.
  intros Hwf Hn. unfold read_body, try_catch. run_step. by rewrite on_fst_run, read_to_short.
Qed.

(** After the head is read: only a body whose text is nested too deeply throws. *)
Lemma read_rest_throws c (user : TagPtr) (head : list byte) (o : object) b w s e :
  mb_wf b → zlen head = 40 → zlen o = 30040 →
  (req ← local_only (S := MessageBuffer * W) o (memcpy_object LOBBY_PROTOCOL.sizeof_PT_JSON head);
   let bodySize := load_uint LOBBY_PROTOCOL.bodySize (fst req) in
   if (LOBBY_PROTOCOL.MAX_BODY_SIZE <? bodySize) || (bodySize <=? 0)
   then _ ← on_snd (this_user user); mret tt
   else
     body ← read_body bodySize;
     match body with
     | None => _ ← on_snd (this_user user); mret tt
     | Some body =>
         req ← local_only (fst req) (memcpy_member LOBBY_PROTOCOL.jsonBody 0 body);
         value ← parse_request (load_member LOBBY_PROTOCOL.jsonBody bodySize (fst req));
         match value with
         | None => mret tt
         | Some value =>
             url ← string_of_array
                     (load_member LOBBY_PROTOCOL.url LOBBY_PROTOCOL.MAX_URL_STRING (fst req));
             on_snd (with_json value (LobbyAcceptorReceiver_dispatch c url))
         end
     end) (b, w) = Threw s e →
  e = too_deep ∧ snd s = w
    ∧ ∃ body rest, mb_content b = body ++ rest ∧ Reader_parse (bytes_string body) = TooDeep.
Proof.
  intros Hwf Hh Ho. destruct (head_copied o head Ho Hh) as (room & Er & Hr).
  assert (Hlog : no_throw (_ ← on_snd (S := MessageBuffer) (this_user (W := W) user); mret tt)).
  { apply no_throw_bind; [|done]. apply no_throw_on_snd, no_throw_this_user. }
  rewrite bind_run. unfold local_only at 1. rewrite Er. cbn [bind_outcome fst].
  generalize (load_uint LOBBY_PROTOCOL.bodySize (head ++ room)). intros n. cbv zeta.
  unfold LOBBY_PROTOCOL.MAX_BODY_SIZE.
  destruct (Z.ltb_spec 30000 n) as [|Hmax]; [by intros ?%Hlog|].
  destruct (Z.leb_spec n 0) as [|Hpos]; [by intros ?%Hlog|]. cbn [orb].
  destruct (Z.lt_ge_cases (zlen (mb_content b)) n) as [Hshort|Hfull].
  { rewrite bind_run, (read_body_short _ _ _ Hwf Hshort). by intros ?%Hlog. }
  destruct (read_body_run n b w Hwf) as (b' & E & _); [lia|].
  rewrite bind_run, E. cbn [bind_outcome].
  assert (Hl : zlen (take (Z.to_nat n) (mb_content b)) = n) by (apply zlen_take; lia).
  rewrite bind_run. unfold local_only. rewrite body_copied by lia. cbn [bind_outcome fst].
  pose proof (load_body head room (take (Z.to_nat n) (mb_content b)) Hh ltac:(lia)) as Hld.
  rewrite Hl in Hld. rewrite Hld. unfold parse_request.
  destruct (Reader_parse _) as [value| |] eqn:Ep; [| |].
  - intros Et. exfalso. revert Et. apply no_throw_bind; [done|]. intros [v|]; [|done].
    apply no_throw_bind; [intros s1 s1' e1; unfold string_of_array; by case_match|].
    intros url. apply no_throw_on_snd, no_throw_with_json, dispatch_no_throw.
  - done.
  - run_step. intros [= <- <-]. split_and!; [done..|].
    exists (take (Z.to_nat n) (mb_content b)), (drop (Z.to_nat n) (mb_content b)).
    by rewrite take_drop.
Qed.

Lemma readJsonPacket_throws c size b (w : W) s e :
  mb_wf b → size ≤ zlen (mb_content b) →
  LobbyAcceptorReceiver_readJsonPacket c size (b, w) = Threw s e →
  e = too_deep ∧ (is_Some (v_conns (observe w) !! c) → snd s = w)
    ∧ ∃ head body rest, mb_content b = head ++ body ++ rest ∧ zlen head = LOBBY_PROTOCOL.HEAD_SIZE
        ∧ Reader_parse (bytes_string body) = TooDeep.
Proof.
  intros Hwf Hsize. unfold LobbyAcceptorReceiver_readJsonPacket, GET_USER_LOBBY.
  rewrite bind_run, on_snd_run.
  assert (Hsame : ∀ w1 t, conn_getTag c w = Done w1 t → is_Some (v_conns (observe w) !! c) → w1 = w).
  { intros w1 t Et [e0 He]. rewrite (cs_getTag _ _ _ He) in Et. by simplify_eq. }
  destruct (conn_getTag c w) as [w1 t|w1 e1| |] eqn:Et; simpl; try done.
  2:{ by apply cs_getTag_no_throw in Et. }
  destruct t as [user|].
  2:{ intros Ht. exfalso. revert Ht. apply no_throw_bind; [|done].
      apply no_throw_on_snd, cs_getIdentity_no_throw. }
  destruct (Z.ltb_spec size LOBBY_PROTOCOL.HEAD_SIZE) as [|H40].
  { intros Ht. exfalso. revert Ht. apply no_throw_on_snd, cs_closeReserve_no_throw. }
  destruct PT_JSON_init_run as (o & Eo & Ho).
  rewrite bind_run. unfold local_only at 1. rewrite Eo. cbn [bind_outcome].
  unfold LOBBY_PROTOCOL.HEAD_SIZE in *.
  destruct (read_to_spec b 40 Hwf) as (b1 & E1 & Hwf1 & Hc1 & _); [lia|].
  rewrite bind_run, on_fst_run, E1. cbn [map_state bind_outcome].
  assert (Hh : zlen (take (Z.to_nat 40) (mb_content b)) = 40) by (apply zlen_take; lia).
  intros (-> & Hw & body & rest & Hb & Hp)%read_rest_throws; [|done..].
  split_and!; [done|by intros; rewrite Hw; eapply Hsame|].
  exists (take (Z.to_nat 40) (mb_content b)), body, rest. split_and!; [|done..].
  rewrite Hc1 in Hb. rewrite <- Hb. by rewrite take_drop.
Qed.
End Requests.

(** ** The handler of "login" *)
Section Login.
Context `{FreshMemory} `{J : Jsoncpp} `{!JsonLaws J} {W : Type} `{!Connection W} `{!HasLobby W}
  `{!WeakConnection W} `{CS : !ConnectionSpec W} `{!LocalTime W}.

Definition same_members (jv jv' : Value) : Prop := ∀ k, json_get k jv' = json_get k jv.

Lemma json_at_same k jv v :
  json_get k jv = Some v →
  ∃ jv', (∀ w : W, json_at k (jv, w) = Done (jv', w) v) ∧ same_members jv jv'.
Proof.
  intros Hg. destruct (set_of_get _ _ v _ Hg) as [jv' Hs]. exists jv'. split.
  - intros w. by apply json_at_run.
  - intros k'. destruct (decide (k = k')) as [<-|Hne].
    + by rewrite Hg, (get_set_same _ _ _ _ Hs).
    + by apply (get_set_other _ _ _ _ _ Hne Hs).
Qed.

(** The members of a login request, and the version it names. *)
Record login_request (jv seq : Value) (version : Z) : Prop := {
  lr_seq : json_get RSP_SEQ jv = Some seq;
  lr_userID : ∃ v s, json_get "userID" jv = Some v ∧ json_asString v = Some s;
  lr_userPW : ∃ v s, json_get "userPW" jv = Some v ∧ json_asString v = Some s;
  lr_version : ∃ v, json_get "clientVersion" jv = Some v ∧ json_asInt v = Some version
}.
Lemma login_request_same jv jv' seq version :
  same_members jv jv' → login_request jv seq version → login_request jv' seq version.
Proof. intros Hs []. split; by rewrite Hs. Qed.

(** The answer to a client of another version. *)
Definition refusal (seq : Value) : option (Z * Value) :=
  rsp ← json_set RSP_SEQ seq json_null;
  rsp ← json_set RSP_RC (json_int (-1)) rsp;
  rsp ← json_set RSP_RM (json_string "client version") rsp;
  sent_value rsp.

Definition v_login (p : TagPtr) (u : User) (v : LobbyView) : LobbyView :=
  v_upd_lobby (λ s, set_heap (<[p := OUser (login_reset u)]> (l_heap s)) s) v.

Lemma yields_upd_user p u f w :
  l_heap (v_lobby (observe w)) !! p = Some (OUser u) →
  yields (upd_user p f) w tt
    (v_upd_lobby (λ s, set_heap (<[p := OUser (f u)]> (l_heap s)) s) (observe w)).
Proof.
  intros Hp. unfold upd_user. eapply yields_bind; [by apply yields_this_user|]. y_next w1.
  apply yields_upd_lobby.
Qed.

Lemma yields_refusal c p u seq rsp n g w :
  user_at p u (observe w) → json_set RSP_SEQ seq json_null = Some rsp →
  refusal seq = Some (n, g) → zlen (text g) < 30000 → c = u_conn u →
  yields (with_json rsp (sendDBFailed c p "login" (-1) "client version")) w tt
    (v_close c (v_add_sent [(c, wire (lobby_packet n (string_bytes "login") (text g)))] (observe w))).
Proof.
  intros Hu E1 Hr Ht ->. unfold refusal in Hr. rewrite E1 in Hr. simpl in Hr.
  destruct (json_set RSP_RC _ _) as [j2|] eqn:E2; [|done]. simpl in Hr.
  destruct (json_set RSP_RM _ _) as [j3|] eqn:E3; [|done]. simpl in Hr.
  apply (yields_with_json _ _ _ g). unfold sendDBFailed.
  eapply yields_local_bind; [by apply yields_local_done, json_assign_run|]. y_next w1.
  eapply yields_local_bind; [by apply yields_local_done, json_assign_run|]. y_next w2.
  eapply yields_local_bind; [by apply yields_SendJsonPacket; first [done|vm_compute; discriminate]|].
  intros w3 E. rewrite <- E. apply yields_on_snd, cs_closeReserve. rewrite E.
  destruct Hu as (_ & (e & He & _) & _). by exists e.
Qed.

Lemma json_at_login k jv v seq version :
  json_get k jv = Some v → login_request jv seq version →
  ∃ jv', (∀ w : W, json_at k (jv, w) = Done (jv', w) v) ∧ login_request jv' seq version.
Proof.
  intros Hg Hlr. destruct (json_at_same _ _ _ Hg) as (jv' & E & Hj). exists jv'.
  split; [done|]. by eapply login_request_same.
Qed.
Lemma json_conv_run {S A} (f : Value → option A) v x (s : S) :
  f v = Some x → json_conv f v s = Done s x.
Proof. intros E. unfold json_conv. by rewrite E. Qed.

Definition v_login_answer (c : ConnPtr) (p : TagPtr) (u : User) (seq : Value) (version : Z)
    (v : LobbyView) : LobbyView :=
  if version =? m_clientVersion (v_lobby v) then v_login p u v
  else match refusal seq with
       | Some (n, g) =>
           v_close c (v_add_sent [(c, wire (lobby_packet n (string_bytes "login") (text g)))]
                        (v_login p u v))
       | None => v
       end.
Definition refusal_fits (seq : Value) : Prop :=
  ∃ n g, refusal seq = Some (n, g) ∧ zlen (text g) < 30000.

(** After the members are read. *)
Lemma yields_login_check c p u (jv : Value) seq rsp version w :
  user_at p u (observe w) → u_conn u = c → json_set RSP_SEQ seq json_null = Some rsp →
  (version ≠ m_clientVersion (v_lobby (observe w)) → refusal_fits seq) →
  yields_local
    (on_snd (upd_user p login_reset);;
     s ← on_snd get_lobby;
     if negb (version =? m_clientVersion s)
     then on_snd (with_json rsp (sendDBFailed c p "login" (-1) "client version"))
     else mret tt) jv w jv tt (v_login_answer c p u seq version (observe w)).
Proof.
  intros Hu Huc Hrsp Href. unfold v_login_answer.
  eapply yields_local_bind; [by apply yields_on_snd, yields_upd_user, (proj1 Hu)|].
  intros w1 E1. eapply yields_local_bind; [apply yields_on_snd, yields_get_lobby|].
  intros w2 E2. rewrite E1. cbn [v_lobby v_upd_lobby v_set_lobby m_clientVersion set_heap].
  destruct (Z.eqb_spec version (m_clientVersion (v_lobby (observe w)))) as [|Hne]; cbn [negb].
  { exists w2. split; [done|]. by rewrite E2, E1. }
  destruct (Href Hne) as (n & g & Hr & Ht). rewrite Hr. fold (v_login p u (observe w)) in E1.
  rewrite <- E1, <- E2. apply yields_on_snd.
  apply (yields_refusal c p (login_reset u) seq rsp); try done. rewrite E2, E1.
  destruct Hu as (Hp & Hc & He). split_and!; [|done|done]. simpl. by rewrite lookup_insert_eq.
Qed.

Lemma yields_login c e p u jv seq rsp version ep w :
  v_conns (observe w) !! c = Some e → e_tag e = Some p → user_at p u (observe w) → u_conn u = c →
  login_request jv seq version → json_set RSP_SEQ seq json_null = Some rsp →
  conn_remote_endpoint c w = Done w ep →
  (version ≠ m_clientVersion (v_lobby (observe w)) → refusal_fits seq) →
  ∃ jv', yields_local (login c "login") jv w jv' tt (v_login_answer c p u seq version (observe w)).
Proof.
  intros Hc Ht Hu Huc Hlr Hrsp Hep Href.
  destruct (json_at_login _ _ _ _ _ (lr_seq _ _ _ Hlr) Hlr) as (j1 & E1 & Hlr1).
  destruct (lr_userID _ _ _ Hlr1) as (v2 & x2 & Hg2 & Hx2).
  destruct (json_at_login _ _ _ _ _ Hg2 Hlr1) as (j2 & E2 & Hlr2).
  destruct (lr_userPW _ _ _ Hlr2) as (v3 & x3 & Hg3 & Hx3).
  destruct (json_at_login _ _ _ _ _ Hg3 Hlr2) as (j3 & E3 & Hlr3).
  destruct (lr_version _ _ _ Hlr3) as (v4 & Hg4 & Hx4).
  destruct (json_at_login _ _ _ _ _ Hg4 Hlr3) as (j4 & E4 & Hlr4).
  exists j4. unfold yields_local, login, GET_USER_LOBBY. run_step.
  rewrite on_snd_run, (cs_getTag _ _ _ Hc), Ht. run_step. rewrite E1. run_step.
  rewrite on_snd_run. unfold with_local at 1. run_step.
  rewrite (json_assign_run _ _ _ rsp) by done. run_step.
  rewrite E2. run_step. rewrite (json_conv_run _ _ _ _ Hx2). run_step.
  rewrite E3. run_step. rewrite (json_conv_run _ _ _ _ Hx3). run_step.
  rewrite E4. run_step. rewrite (json_conv_run _ _ _ _ Hx4). run_step.
  rewrite on_snd_run, Hep. run_step. by apply yields_login_check.
Qed.

(** Through the dispatch by URL. *)
Lemma yields_dispatch_login c e p u jv seq rsp version ep w :
  lobby_URLs (v_lobby (observe w)) !! "login" = Some nh_lobby_login →
  v_conns (observe w) !! c = Some e → e_tag e = Some p → user_at p u (observe w) → u_conn u = c →
  login_request jv seq version → json_set RSP_SEQ seq json_null = Some rsp →
  conn_remote_endpoint c w = Done w ep →
  (version ≠ m_clientVersion (v_lobby (observe w)) → refusal_fits seq) →
  ∃ w', with_json jv (LobbyAcceptorReceiver_dispatch c "login") w = Done w' tt
    ∧ observe w' = v_login_answer c p u seq version (observe w).
Proof.
  intros Hurl Hc Ht Hu Huc Hlr Hrsp Hep Href.
  destruct (yields_login c e p u jv seq rsp version ep w) as (jv' & w' & E & O); [done..|].
  exists w'. split; [|done]. unfold with_json, with_local, LobbyAcceptorReceiver_dispatch. run_step.
  rewrite on_snd_run. unfold get_lobby. run_step. rewrite cs_lobby, Hurl. unfold try_catch. simpl.
  by rewrite E.
Qed.
End Login.
