(* ===== verification/LobbyProperties.v ===== *)
(** * Properties of the lobby

    The theorems on users, requests and the packets they become, for any
    connections that keep the contract of LobbySpec.v, and the theorem that the
    server started by [main] keeps the invariants of the network.  The
    witnesses are on the worlds of ServerDemo.v. *)
From stdpp Require Import gmap strings list sorting.
From coqutil Require Import Byte Word.LittleEndianList.
From S2P Require Import Prelude.
From S2P Require Import MessageBuffer.
From S2P Require Import PacketHeader.
From S2P Require Import Connection.
From S2P Require Import IoService.
From S2P Require Import ConnectionImpl.
From S2P Require Import ConnectionSafety.
From S2P Require Import MlnUtils.
From S2P Require Import Protocol.
From S2P Require Import Json.
From S2P Require Import LobbyState.
From S2P Require Import LobbyUser.
From S2P Require Import LobbyUserManager.
From S2P Require Import LobbyHandlers.
From S2P Require Import BrokerConnector.
From S2P Require Import LobbyAcceptorReceiver.
From S2P Require Import Environment.
From S2P Require Import Server.
From S2P Require Import ServerProperties.
From S2P Require Import ServerDemo.
From S2P Require Import LobbySpec.
From S2P Require Import LobbyUsersSpec.
From S2P Require Import LobbyRefinement.
From S2P Require Import LobbyRequests.
From S2P Require Import PacketParser.
#[local] Open Scope Z_scope.

(** ** Users come and go *)
Inductive user_call : Type := CallAddUser (c : ConnPtr) | CallDeleteUser (c : ConnPtr).
Definition call_conn (u : user_call) : ConnPtr :=
  match u with CallAddUser c | CallDeleteUser c => c end.

Section Users.
Context `{FreshMemory} `{J : Jsoncpp} `{!JsonLaws J} {W : Type} `{CS : ConnectionSpec W}.
Implicit Types (w : W) (c : ConnPtr) (v : LobbyView).

Fixpoint run_user_calls (l : list user_call) : M W unit :=
  match l with
  | [] => mret tt
  | CallAddUser c :: l => addUser c;; run_user_calls l
  | CallDeleteUser c :: l => deleteUser c;; run_user_calls l
  end.
Definition v_user_call (g : list byte) (v : LobbyView) (u : user_call) : LobbyView :=
  match u with
  | CallAddUser c => v_addUser c g v
  | CallDeleteUser c => v_deleteUser c v
  end.

Lemma v_user_call_ok g v u : users_ok v → users_ok (v_user_call g v u).
Proof. destruct u; [apply v_addUser_ok|apply v_deleteUser_ok]. Qed.

Lemma set_tag_known c c' t v :
  is_Some (v_conns v !! c') → is_Some (v_conns (v_set_tag c t v) !! c').
Proof. simpl. by rewrite lookup_alter_is_Some. Qed.
Lemma v_user_call_known g v u c :
  is_Some (v_conns v !! c) → is_Some (v_conns (v_user_call g v u) !! c).
Proof.
  intros Hc. destruct u as [c'|c']; simpl; [unfold v_addUser|unfold v_deleteUser];
    repeat case_match; simpl; try done; by apply (set_tag_known c').
Qed.

Lemma yields_user_calls n jv l : ∀ w,
  users_ok (observe w) → (∀ u, u ∈ l → is_Some (v_conns (observe w) !! call_conn u)) →
  greeting = Some (n, jv) → zlen (text jv) < 30000 →
  yields (run_user_calls l) w tt (foldl (v_user_call (greeting_packet n jv)) (observe w) l).
Proof.
  induction l as [|u l IH]; intros w Hv Hl Hg Ht; [apply yields_ret|].
  assert (Hu : is_Some (v_conns (observe w) !! call_conn u)) by (apply Hl; by left).
  assert (Hrest : ∀ w1, observe w1 = v_user_call (greeting_packet n jv) (observe w) u →
    yields (run_user_calls l) w1 tt
      (foldl (v_user_call (greeting_packet n jv)) (v_user_call (greeting_packet n jv) (observe w) u) l)).
  { intros w1 E1. rewrite <- E1. apply IH; [|intros u' Hu'|done..]; rewrite E1.
    - by apply v_user_call_ok.
    - apply v_user_call_known, Hl. by right. }
  destruct u as [c|c]; simpl; (eapply yields_bind; [|exact Hrest]).
  - destruct Hu as [e He]. eapply yields_addUser; [exact He| | |done..].
    + by eapply uo_framed.
    + by apply uo_encType.
  - by apply yields_deleteUser.
Qed.

(** C6. Whatever connections are accepted and closed, in whatever order and however often, the
    user manager does to its maps, to the tags of the connections and to the heap exactly what the
    specification says, fails nowhere, and keeps the tie between connections and user objects. *)
Theorem user_calls_refine n jv l w :
  users_ok (observe w) → (∀ u, u ∈ l → is_Some (v_conns (observe w) !! call_conn u)) →
  greeting = Some (n, jv) → zlen (text jv) < 30000 →
  ∃ w', run_user_calls l w = Done w' tt
    ∧ observe w' = foldl (v_user_call (greeting_packet n jv)) (observe w) l
    ∧ users_ok (observe w').
Proof.
  intros Hv Hl Hg Ht. destruct (yields_user_calls n jv l w Hv Hl Hg Ht) as (w' & E & O).
  exists w'. split_and!; [done..|]. rewrite O. clear -Hv. revert Hv. generalize (observe w) as v.
  induction l as [|u l IH]; intros v Hv; [done|]. by apply IH, v_user_call_ok.
Qed.

(** C27. A user that is added and deleted again leaves no trace but its greeting: the heap, the map
    of users and the tags are as before; only the entry of the user index 0, which every user has
    until it logs in, is missing from the map of logged-in users. *)
Theorem add_delete_restores c e n jv w :
  users_ok (observe w) → v_conns (observe w) !! c = Some e → e_tag e = None →
  greeting = Some (n, jv) → zlen (text jv) < 30000 →
  ∃ w', (addUser c;; deleteUser c) w = Done w' tt
    ∧ l_heap (v_lobby (observe w')) = l_heap (v_lobby (observe w))
    ∧ m_users (v_lobby (observe w')) = m_users (v_lobby (observe w))
    ∧ v_conns (observe w') = v_conns (observe w)
    ∧ v_sent (observe w') = v_sent (observe w) ++ [(c, greeting_packet n jv)]
    ∧ m_nodeToUserMap (v_lobby (observe w')) = delete 0 (m_nodeToUserMap (v_lobby (observe w))).
Proof.
  intros Hv Hc Ht Hg Hlen. destruct e as [t i m]. simpl in Ht. subst t.
  assert (Hi : m_users (v_lobby (observe w)) !! i = None).
  { destruct (m_users _ !! i) as [c'|] eqn:Ei; [|done].
    destruct (uo_users _ Hv _ _ Ei) as (p & m' & Hp).
    pose proof (uo_identity _ Hv _ _ _ _ Hc Hp eq_refl). by simplify_eq. }
  assert (Hfresh : l_heap (v_lobby (observe w)) !! new_user_ptr (observe w) = None)
    by (apply (not_elem_of_dom (D := gset TagPtr)); unfold new_user_ptr; apply is_fresh).
  destruct (yields_user_calls n jv [CallAddUser c; CallDeleteUser c] w Hv) as (w' & E & O); [|done..|].
  { intros u Hu. rewrite !elem_of_cons in Hu. destruct Hu as [-> | [-> | Hu]]; simpl;
      [rewrite Hc; by eexists..|by apply not_elem_of_nil in Hu]. }
  exists w'. rewrite O. split.
  { rewrite <- E. simpl. rewrite !bind_run. destruct (addUser c w); try done. simpl.
    rewrite bind_run. by destruct (deleteUser c s) as [? []| | |]. }
  clear E O. simpl. unfold v_addUser. rewrite Hc, Hi. unfold v_deleteUser. simpl.
  rewrite lookup_alter_eq, Hc. simpl. rewrite lookup_insert_eq. simpl.
  split_and!; [by rewrite delete_insert_id|by rewrite delete_insert_id| |done..].
  apply map_eq. intros c'. destruct (decide (c = c')) as [<-|Hne].
  - by rewrite lookup_alter_eq, lookup_alter_eq, Hc.
  - by rewrite !lookup_alter_ne.
Qed.
End Users.

(** ** Packets *)
Section Packets.
Context `{FreshMemory} `{J : Jsoncpp} {W : Type} `{CS : ConnectionSpec W}.
Implicit Types (w : W) (c : ConnPtr).

(** C15. A JSON value is sent as one packet, with the URL padded, the text and its NUL, and the
    sequence number of the value (0 without one), to the connection of the user, and the size of
    the packet is returned; a value whose message or sequence number does not convert is not sent
    and the exception leaves the function; a text of 30000 bytes or more is copied past the end of
    the packet structure, because its size is only checked after the copy. *)
Theorem SendJsonPacket_sends p u url jv w :
  user_at p u (observe w) → zlen (string_bytes url) ≤ 32 →
  match sent_value jv with
  | None => bad_json (User_SendJsonPacket p url (jv, w)) w
  | Some (n, jv') =>
      if zlen (text jv') <? 30000
      then ∃ w', User_SendJsonPacket p url (jv, w) = Done (jv', w') (zlen (text jv') + 41)
             ∧ observe w' = v_add_sent
                 [(u_conn u, wire (lobby_packet n (string_bytes url) (text jv')))] (observe w)
      else ∃ why, User_SendJsonPacket p url (jv, w) = Undef why
  end.
Proof.
  intros Hu Hurl. pose proof (send_prologue_run jv w) as Hpro.
  destruct (sent_value jv) as [[n jv']|] eqn:Es.
  - destruct (Z.ltb_spec (zlen (text jv')) 30000) as [Hlt|Hge].
    + by apply yields_SendJsonPacket.
    + destruct (lobby_fill_overrun n (string_bytes url) (text jv') Hurl Hge) as [why Hfill].
      exists why. unfold User_SendJsonPacket. run_step. rewrite Hpro. run_step. rewrite on_fst_run.
      run_step. unfold local_only. fold (text jv'). by rewrite Hfill.
  - destruct Hpro as [jv' Hpro]. exists jv'. unfold User_SendJsonPacket. run_step. by rewrite Hpro.
Qed.

Lemma yields_broker_packet p u e url jv w :
  l_heap (v_lobby (observe w)) !! p = Some (OConnectorUser u) →
  v_conns (observe w) !! cu_conn u = Some e → framed e → zlen (string_bytes url) ≤ 32 →
  zlen (text jv) ≤ 4000 →
  yields_local (ConnectorUser_SendJsonPacket p url) jv w jv (zlen (text jv) + 38)
    (v_add_sent [(cu_conn u, wire (broker_packet (string_bytes url) (text jv)))] (observe w)).
Proof.
  intros Hp Hc Hf Hurl Hle. unfold yields_local, ConnectorUser_SendJsonPacket.
  run_step. rewrite on_fst_run. run_step. fold (text jv).
  destruct (broker_fill_run (string_bytes url) (text jv) Hurl Hle) as [rest Hfill].
  unfold local_only. rewrite Hfill. run_step. rewrite broker_packet_bodySize by done.
  pose proof (zlen_broker_packet (string_bytes url) (text jv) Hurl) as Hl.
  pose proof (zlen_nonneg (text jv)). unfold BROKER_PROTOCOL.HEAD_SIZE in *.
  rewrite take_app_zlen by (by rewrite Hl). rewrite on_snd_run.
  destruct (cs_sendPacket (cu_conn u) (broker_packet (string_bytes url) (text jv)) w e Hc Hf)
    as (w' & E & O); [unfold MAX_BUFFER_SIZE, sizeof_HEADER; lia|].
  exists w'. split; [|done]. unfold ConnectorUser_Send, this_connectorUser, get_lobby. run_step.
  rewrite cs_lobby, Hp. cbn [deref]. run_step. rewrite E. run_step.
  rewrite u32_small, s32_small by lia. do 2 f_equal. lia.
Qed.

(** The text does not fit, or the object of the broker is gone. *)
Lemma broker_packet_overrun p url jv w :
  zlen (string_bytes url) ≤ 32 → 4000 < zlen (text jv) →
  ConnectorUser_SendJsonPacket p url (jv, w) = Undef "memcpy past the end of an array member".
Proof.
  intros Hurl Ht. unfold ConnectorUser_SendJsonPacket. run_step. rewrite on_fst_run. run_step.
  fold (text jv). unfold local_only. by rewrite broker_fill_overrun.
Qed.
Lemma broker_packet_dangling p url jv w :
  (∀ u, l_heap (v_lobby (observe w)) !! p ≠ Some (OConnectorUser u)) →
  zlen (string_bytes url) ≤ 32 →
  ∃ why, ConnectorUser_SendJsonPacket p url (jv, w) = Undef why.
Proof.
  intros Hp Hurl. destruct (Z.le_gt_cases (zlen (text jv)) 4000) as [Ht|Ht].
  2:{ eexists. by apply broker_packet_overrun. }
  unfold ConnectorUser_SendJsonPacket. run_step. rewrite on_fst_run. run_step. fold (text jv).
  destruct (broker_fill_run (string_bytes url) (text jv) Hurl Ht) as [rest Hfill].
  unfold local_only. rewrite Hfill. run_step. rewrite on_snd_run.
  unfold ConnectorUser_Send, this_connectorUser, get_lobby. run_step. rewrite cs_lobby.
  destruct (l_heap _ !! p) as [[]|] eqn:E; [by eexists|by destruct (Hp u)|by eexists].
Qed.

(** C28. To the broker a JSON value goes as one packet if its text has at most 4000 bytes; a longer
    text, which a chat message of a client can have, is copied past the end of the packet
    structure: there is no check at all. *)
Theorem broker_packet_sends p u e url jv w :
  l_heap (v_lobby (observe w)) !! p = Some (OConnectorUser u) →
  v_conns (observe w) !! cu_conn u = Some e → framed e → zlen (string_bytes url) ≤ 32 →
  if zlen (text jv) <=? 4000
  then ∃ w', ConnectorUser_SendJsonPacket p url (jv, w) = Done (jv, w') (zlen (text jv) + 38)
         ∧ observe w' = v_add_sent
             [(cu_conn u, wire (broker_packet (string_bytes url) (text jv)))] (observe w)
  else ConnectorUser_SendJsonPacket p url (jv, w) = Undef "memcpy past the end of an array member".
Proof.
  intros Hp Hc Hf Hurl. destruct (Z.leb_spec (zlen (text jv)) 4000) as [Hle|Hgt].
  - by eapply yields_broker_packet.
  - by apply broker_packet_overrun.
Qed.

End Packets.

(** ** Requests *)
Section Requests.
Context `{FreshMemory} `{J : Jsoncpp} {W : Type} `{!Connection W} `{!HasLobby W} `{!WeakConnection W}
  `{CS : !ConnectionSpec W} `{!LocalTime W}.
Implicit Types (w : W) (c : ConnPtr).

(** C14. A packet made by the sender for a URL and a JSON text is read back as that request: the
    text is parsed with the NUL the sender put behind it, and the request dispatched under the URL;
    nothing stays in the message.  A text that is no JSON is dropped, and one that is nested too
    deeply throws. *)
Theorem request_roundtrip c e p seq url body size b w :
  v_conns (observe w) !! c = Some e → e_tag e = Some p →
  zlen url < 32 → has_nul url = false → zlen body < 30000 → LOBBY_PROTOCOL.HEAD_SIZE ≤ size →
  mb_wf b → mb_content b = lobby_packet seq url body →
  ∃ b', mb_wf b' ∧ mb_content b' = [] ∧
    LobbyAcceptorReceiver_readJsonPacket c size (b, w)
    = match Reader_parse (bytes_string (body ++ [Byte.x00])) with
      | NotJson => Done (b', w) tt
      | TooDeep => Threw (b', w) too_deep
      | Parsed jv =>
          map_state (λ w', (b', w'))
            (with_json jv (LobbyAcceptorReceiver_dispatch c (bytes_string url)) w)
      end.
Proof.
  intros Hc Ht Hu Hn Hb Hsize Hwf Hcont. pose proof (zlen_nonneg body). pose proof (zlen_nonneg url).
  assert (Hl : zlen (body ++ [Byte.x00]) = zlen body + 1) by len.
  destruct (readJsonPacket_run c e p size b w (byte_of 1) (le32 seq) (byte_of 0) (pad 32 url)
              (body ++ [Byte.x00]) [] Hc Ht Hwf) as (b' & E & Hwf' & Hc').
  - split; rewrite ?zlen_byte_of, ?zlen_le32, ?zlen_pad by lia; lia.
  - done.
  - unfold LOBBY_PROTOCOL.MAX_BODY_SIZE. lia.
  - by rewrite Hcont, lobby_packet_head, Hl, app_nil_r.
  - exists b'. split_and!; [done..|]. rewrite E. unfold answer_request, pad.
    destruct (Z.to_nat 32 - length url)%nat as [|k] eqn:Ek; [unfold zlen in *; lia|].
    rewrite has_nul_app. cbn [replicate]. rewrite c_str_app_nul by done.
    assert (has_nul (Byte.x00 :: replicate k Byte.x00) = true) as -> by done.
    by rewrite orb_true_r.
Qed.

(** C18. From a message that holds as many bytes as the packet parser announces, the only exception
    that leaves the reader of JSON requests, whatever a client sent, is the one of jsoncpp for a
    text that is nested too deeply: then the message holds such a text behind the 40 bytes of a
    request's head, and nothing but the message has changed. *)
Theorem request_contained c size b w s e :
  mb_wf b → size ≤ zlen (mb_content b) →
  LobbyAcceptorReceiver_readJsonPacket c size (b, w) = Threw s e →
  e = too_deep ∧ (is_Some (v_conns (observe w) !! c) → snd s = w)
    ∧ ∃ head body rest, mb_content b = head ++ body ++ rest ∧ zlen head = LOBBY_PROTOCOL.HEAD_SIZE
        ∧ Reader_parse (bytes_string body) = TooDeep.
Proof. apply readJsonPacket_throws. Qed.

(** A request whose URL fills all its 32 bytes without a NUL makes the server read past the end
    of the array it copied the URL to, if its body is JSON. *)
Theorem unterminated_url_overruns c e p size b w code seq flag url body rest jv :
  v_conns (observe w) !! c = Some e → e_tag e = Some p →
  mb_wf b → head_ok code seq flag url (zlen body) → LOBBY_PROTOCOL.HEAD_SIZE ≤ size →
  1 ≤ zlen body ≤ LOBBY_PROTOCOL.MAX_BODY_SIZE →
  mb_content b = lobby_head code seq flag url (zlen body) ++ body ++ rest →
  Reader_parse (bytes_string body) = Parsed jv → has_nul url = false →
  ∃ why, LobbyAcceptorReceiver_readJsonPacket c size (b, w) = Undef why.
Proof.
  intros Hc Ht Hwf Hh Hsize Hn Hb Hj Hu.
  destruct (readJsonPacket_run c e p size b w _ _ _ _ _ _ Hc Ht Hwf Hh Hsize Hn Hb)
    as (b' & -> & _). unfold answer_request. rewrite Hj, Hu. by eexists.
Qed.
End Requests.


(** ** Witnesses *)
Section Witnesses.
Import ServerDemo.
#[local] Instance json_laws : JsonLaws json := DemoJson.demo_laws texts.

(** A world with one connection, its user under the address 3, and a heap and
    URLs as given. *)
Definition world_of (o : heap_object) (t : option TagPtr) : NetWorld App :=
  mkNetWorld {[ 0%N := lobby_conn t ]} 6 [] []
    (set_app_lobby
       (set_users (match t with Some _ => {[ 5 := 0%N ]} | None => ∅ end)
          (set_heap (match t with Some p => {[ p := o ]} | None => ∅ end)
             (set_lobby_URLs {[ "login" := nh_lobby_login ]} (LobbyState_init 7)))) App_init).
Definition with_user : NetWorld App := world_of (OUser (User_new 0%N)) (Some 3%N).
Definition without_user : NetWorld App := world_of (OUser (User_new 0%N)) None.
Definition with_broker : NetWorld App := world_of (OConnectorUser (ConnectorUser_new 0%N)) (Some 3%N).

Lemma world_conns o t c e :
  v_conns (observe (world_of o t)) !! c = Some e → c = 0%N ∧ e = entry_of (lobby_conn t).
Proof.
  change (v_conns (observe (world_of o t)))
    with (entry_of <$> ({[ 0%N := lobby_conn t ]} : gmap ConnPtr ConnectionImpl)).
  rewrite map_fmap_singleton. intros [-> <-]%lookup_singleton_Some. done.
Qed.

Lemma with_user_ok : users_ok (observe with_user).
Proof.
  split; try done.
  - by intros c c' e e' [-> _]%world_conns [-> _]%world_conns.
  - by intros c e [_ ->]%world_conns.
  - intros c p i m [-> He]%world_conns. unfold entry_of in He. simpl in He. simplify_eq.
    split; [|done]. by exists (User_new 0%N).
  - intros i c Hi. change (({[ 5 := 0%N ]} : gmap Z ConnPtr) !! i = Some c) in Hi.
    apply lookup_singleton_Some in Hi as [<- <-]. by do 2 eexists.
Qed.
Lemma without_user_ok : users_ok (observe without_user).
Proof.
  split; try done.
  - by intros c c' e e' [-> _]%world_conns [-> _]%world_conns.
  - by intros c e [_ ->]%world_conns.
  - intros c p i m [-> He]%world_conns. done.
Qed.
Lemma user_3 : user_at 3%N (User_new 0%N) (observe with_user).
Proof. split_and!; [done| |done]. by exists (entry_of (lobby_conn (Some 3%N))). Qed.

(** What the demonstration library writes is short. *)
Definition short (x : option (Z * Value)) : bool :=
  match x with Some (_, jv) => zlen (text jv) <? 30000 | None => false end.
Lemma short_run x : short x = true → ∃ n jv, x = Some (n, jv) ∧ zlen (text jv) < 30000.
Proof. destruct x as [[n jv]|]; [|done]. intros H%Z.ltb_lt. by exists n, jv. Qed.

Lemma user_calls_refine_witness :
  ∃ w', run_user_calls [CallDeleteUser 0%N; CallAddUser 0%N; CallAddUser 0%N] with_user = Done w' tt
    ∧ users_ok (observe w').
Proof.
  destruct (short_run greeting) as (n & jv & Hg & Hs); [vm_compute; reflexivity|].
  destruct (user_calls_refine n jv [CallDeleteUser 0%N; CallAddUser 0%N; CallAddUser 0%N] with_user)
    as (w' & E & _ & Hok); [exact with_user_ok| |exact Hg|exact Hs|].
  - intros u Hu. rewrite !elem_of_cons in Hu.
    destruct Hu as [-> | [-> | [-> | Hu]]]; [by eexists..|by apply not_elem_of_nil in Hu].
  - exists w'. split; [exact E|exact Hok].
Defined.

Lemma add_delete_restores_witness :
  ∃ w', (addUser 0%N;; deleteUser 0%N) without_user = Done w' tt
    ∧ l_heap (v_lobby (observe w')) = ∅ ∧ m_users (v_lobby (observe w')) = ∅.
Proof.
  destruct (short_run greeting) as (n & jv & Hg & Hs); [vm_compute; reflexivity|].
  destruct (add_delete_restores 0%N (entry_of (lobby_conn None)) n jv without_user)
    as (w' & E & Hh & Hu & _);
    [exact without_user_ok|reflexivity|reflexivity|exact Hg|exact Hs|].
  exists w'. split; [exact E|]. split; [exact Hh|exact Hu].
Defined.

Lemma SendJsonPacket_sends_witness :
  ∃ jv' w', User_SendJsonPacket 3%N "/account/connected" (json_null, with_user)
            = Done (jv', w') (zlen (text jv') + 41).
Proof.
  pose proof (SendJsonPacket_sends 3%N (User_new 0%N) "/account/connected" json_null with_user user_3) as Hp.
  destruct (short_run (sent_value json_null)) as (n & jv & Hv & Hs); [vm_compute; reflexivity|].
  rewrite Hv, (proj2 (Z.ltb_lt _ _) Hs) in Hp.
  destruct Hp as (w' & E & _); [vm_compute; discriminate|]. exists jv, w'. exact E.
Defined.

Lemma broker_packet_sends_witness :
  ∃ w', ConnectorUser_SendJsonPacket 3%N "/auth" (json_null, with_broker)
        = Done (json_null, w') (zlen (text json_null) + 38).
Proof.
  pose proof (broker_packet_sends 3%N (ConnectorUser_new 0%N) (entry_of (lobby_conn (Some 3%N))) "/auth"
                json_null with_broker) as Hp.
  assert (Hs : (zlen (text json_null) <=? 4000) = true) by (vm_compute; reflexivity).
  rewrite Hs in Hp.
  destruct Hp as (w' & E & _); [reflexivity..|vm_compute; discriminate|]. exists w'. exact E.
Defined.

Lemma request_roundtrip_witness :
  ∃ b', mb_wf b' ∧ mb_content b' = [] ∧
    LobbyAcceptorReceiver_readJsonPacket 0%N 43
      (procMsg_of (lobby_packet 1 (string_bytes "login") (string_bytes "{}")), with_user)
    = match Reader_parse (bytes_string (string_bytes "{}" ++ [Byte.x00])) with
      | NotJson => Done (b', with_user) tt
      | TooDeep => Threw (b', with_user) too_deep
      | Parsed jv =>
          map_state (λ w', (b', w'))
            (with_json jv (LobbyAcceptorReceiver_dispatch 0%N (bytes_string (string_bytes "login"))) with_user)
      end.
Proof.
  destruct (procMsg_of_wf (lobby_packet 1 (string_bytes "login") (string_bytes "{}"))) as [Hwf Hc];
    [vm_compute; discriminate|].
  exact (request_roundtrip 0%N (entry_of (lobby_conn (Some 3%N))) 3%N 1 (string_bytes "login")
    (string_bytes "{}") 43 _ with_user eq_refl eq_refl eq_refl eq_refl eq_refl
    ltac:(vm_compute; discriminate) Hwf Hc).
Defined.

(** A request whose text opens four arrays, the depth at which the parser of the
    demonstration gives up. *)
Definition deep_request : list byte := lobby_packet 1 (string_bytes "login") (string_bytes "[[[[").

Lemma request_contained_witness :
  ∃ s e, LobbyAcceptorReceiver_readJsonPacket 0%N 45 (procMsg_of deep_request, with_user) = Threw s e
    ∧ e = too_deep ∧ snd s = with_user.
Proof.
  destruct (procMsg_of_wf deep_request) as [Hwf Hc]; [vm_compute; discriminate|].
  destruct (readJsonPacket_run 0%N (entry_of (lobby_conn (Some 3%N))) 3%N 45 (procMsg_of deep_request)
              with_user (byte_of 1) (le32 1) (byte_of 0) (pad 32 (string_bytes "login"))
              (string_bytes "[[[[" ++ [Byte.x00]) []) as (b' & E & _);
    [reflexivity|reflexivity|exact Hwf|by split|vm_compute; discriminate|by split
    |rewrite Hc; reflexivity|].
  unfold answer_request in E.
  assert (Hp : Reader_parse (bytes_string (string_bytes "[[[[" ++ [Byte.x00])) = TooDeep)
    by (vm_compute; reflexivity).
  rewrite Hp in E. eexists _, _. split; [exact E|].
  destruct (request_contained 0%N 45 (procMsg_of deep_request) with_user (b', with_user) too_deep Hwf)
    as (He & Hw & _); [rewrite Hc; vm_compute; discriminate|exact E|].
  split; [exact He|]. apply Hw. eexists. reflexivity.
Defined.

Lemma unterminated_url_overruns_witness :
  ∃ why, LobbyAcceptorReceiver_readJsonPacket 0%N 42
    (procMsg_of (lobby_head [Byte.x01] (le32 0) [Byte.x00] (replicate 32 Byte.x61) 2
                 ++ string_bytes "{}"), with_user) = Undef why.
Proof.
  destruct (procMsg_of_wf (lobby_head [Byte.x01] (le32 0) [Byte.x00] (replicate 32 Byte.x61) 2
                 ++ string_bytes "{}")) as [Hwf Hc]; [vm_compute; discriminate|].
  apply (unterminated_url_overruns (J := json) 0%N (entry_of (lobby_conn (Some 3%N))) 3%N 42 _ with_user
           [Byte.x01] (le32 0) [Byte.x00] (replicate 32 Byte.x61) (string_bytes "{}") []
           (DemoJson.JObj [])).
  - reflexivity.
  - reflexivity.
  - exact Hwf.
  - by split.
  - vm_compute. discriminate.
  - by split.
  - rewrite Hc, app_nil_r. reflexivity.
  - vm_compute. reflexivity.
  - reflexivity.
Defined.

Definition old_client : Value := DemoJson.JObj [("clientVersion", DemoJson.JInt 6)].

End Witnesses.
