(* ===== verification/BrokerServer.v ===== *)
(** * The server with a broker

    [link_inv] of BrokerLink.v through the callbacks, the completion handlers
    and the start of a server built with [USE_CONNECTOR_FOR_BROKER].
    [broker_server_typed] says what holds of the tags, the users and the link
    in every state such a server reaches. *)
From stdpp Require Import gmap strings list.
From coqutil Require Import Byte.
From S2P Require Import Prelude.
From S2P Require Import MessageBuffer.
From S2P Require Import PacketHeader.
From S2P Require Import Connection.
From S2P Require Import MessageProcedure.
From S2P Require Import EventReceiver.
From S2P Require Import IoService.
From S2P Require Import ConnectionImpl.
From S2P Require Import ConnectionSafety.
From S2P Require Import NetService.
From S2P Require Import NetKeeps.
From S2P Require Import NetServiceSafety.
From S2P Require Import NetProperties.
From S2P Require Import Json.
From S2P Require Import LobbyState.
From S2P Require Import LobbyUser.
From S2P Require Import LobbyUserManager.
From S2P Require Import LobbyHandlers.
From S2P Require Import BrokerConnector.
From S2P Require Import LobbyAcceptorReceiver.
From S2P Require Import PacketParserSimple.
From S2P Require Import PacketParserJson.
From S2P Require Import LobbySafety.
From S2P Require Import Environment.
From S2P Require Import TestInterface.
From S2P Require Import Server.
From S2P Require Import ServerProperties.
From S2P Require Import ServerDemo.
From S2P Require Import ServerStart.
From S2P Require Import LobbySpec.
From S2P Require Import LobbyUsersSpec.
From S2P Require Import LobbyRefinement.
From S2P Require Import LobbyInvariant.
From S2P Require Import ServerInvariant.
From S2P Require Import BrokerLink.
#[local] Open Scope Z_scope.

Implicit Types (w : NetWorld App) (c : ConnPtr) (p : ServicePtr).

(** ** Users *)
Section Users.
Context `{FreshMemory} `{J : !Jsoncpp} `{!Sockets} `{!PropertyTree} `{!JsonLaws J}.
Local Abbreviation W := (NetWorld App).
Context (n : Z) (jv : Value) (Hgreeting : greeting = Some (n, jv)) (Hsize : zlen (text jv) < 30000).

(** Calm code, then code that is known from then on. *)
Lemma linked_then {A B} (m : M W A) (k : A → M W B) x w P :
  keeps linked m → link_inv x w →
  (∀ a w', link_inv x w' → nw_identitySeed w' = nw_identitySeed w → ensures (k a) w' P) →
  ensures (m ≫= k) w P.
Proof.
  intros Hm Hi Hk. eapply ensures_bind, ensures_mono; [by apply (ensures_keeps linked)|].
  intros w' a [Hs Hl]. apply Hk; auto.
Qed.
Lemma linked_ends {A} (m : M W A) x w :
  keeps linked m → link_inv x w →
  ensures m w (λ w' _, link_inv x w' ∧ nw_identitySeed w' = nw_identitySeed w).
Proof.
  intros Hm Hi. eapply ensures_mono; [by apply (ensures_keeps linked)|].
  intros w' a [Hs Hl]. auto.
Qed.

Lemma lobby_at_conn w c : lobby_at w c = true ↔ ∃ cn, nw_conns w !! c = Some cn ∧ ci_eventReceiver cn = Some LOBBY_RECEIVER.
Proof.
  unfold lobby_at. destruct (nw_conns w !! c) as [cn|].
  - rewrite bool_decide_eq_true. split; [eauto|]. by intros (? & [= <-] & ?).
  - split; [done|]. by intros (? & ? & _).
Qed.
Lemma lobby_at_linked c : ∀ w w', base w w' → lobby_at w c = true → lobby_at w' c = true.
Proof. intros w w' Hb. by rewrite (base_lobby_at w w' Hb). Qed.

(** The entry of a client's connection. *)
Lemma lobby_entry x w c :
  lobby_at w c = true → link_inv x w →
  ∃ e, v_conns (observe w) !! c = Some e ∧ framed e ∧ v_conns (lobby_view w) !! c = Some e.
Proof.
  intros Hc Hi. pose proof (proj1 (lobby_at_conn w c) Hc) as (cn & E & _).
  destruct (k_role x w Hi c cn E) as [_ Hm]. exists (entry_of cn).
  assert (He : v_conns (observe_world w) !! c = Some (entry_of cn)) by (simpl; by rewrite lookup_fmap, E).
  split_and!; [done|done|]. unfold lobby_view. by rewrite restrict_lookup, Hc.
Qed.

Lemma link_addUser x c w :
  lobby_at w c = true → link_inv x w →
  ensures (addUser (W := W) c) w (λ w' _, link_inv x w' ∧ nw_identitySeed w' = nw_identitySeed w).
Proof.
  intros Hc Hi. destruct (lobby_entry x w c Hc Hi) as (e & He & Hf & _).
  destruct (yields_addUser (CS := server_connections) c w n jv e He Hf) as (w' & Hrun & Ho);
    [by apply (uo_encType _ (k_users x w Hi))|done..|].
  pose proof (keeps_addUser base c w) as Hb. pose proof (keeps_addUser (moves None) c w) as Hm.
  unfold ensures. rewrite Hrun in *. split; [|apply (b_seed _ _ Hb)].
  change (observe w') with (observe_world w') in Ho.
  apply (link_inv_clients x c w w' Hb Hm); rewrite ?Ho; [apply clients_only_addUser|done| |done].
  apply restrict_addUser; [done|apply (k_users x w Hi)].
Qed.

Lemma link_deleteUser_erase x c t w :
  lobby_at w c = true → link_inv x w →
  (∃ cn, nw_conns w !! c = Some cn ∧ ci_tag cn = Some t) →
  ensures (deleteUser_erase (W := W) c t) w
    (λ w' _, link_inv x w' ∧ nw_identitySeed w' = nw_identitySeed w).
Proof.
  intros Hc Hi (cn & E & Et). destruct (lobby_entry x w c Hc Hi) as (e & He & _ & Hv).
  pose proof He as (cn' & E' & ->)%observed_conn. rewrite E in E'. injection E' as <-.
  unfold entry_of in He, Hv. rewrite Et in He, Hv.
  destruct (uo_tag _ (k_users x w Hi) _ _ _ _ Hv) as [(u & Hu & Huc) Hm].
  destruct (yields_deleteUser_erase (CS := server_connections) c t u _ _ w He Hu Huc Hm) as (w' & Hrun & Ho).
  assert (Hkb : ∀ R, LobbyKeeps W R → keeps R (deleteUser_erase c t)).
  { intros R HR. unfold deleteUser_erase. keeps_auto. }
  pose proof (Hkb base _ w) as Hb. pose proof (Hkb (moves None) _ w) as Hmv.
  unfold ensures. rewrite Hrun in *. split; [|apply (b_seed _ _ Hb)].
  change (observe w') with (observe_world w') in Ho.
  apply (link_inv_clients x c w w' Hb Hmv); rewrite ?Ho; [apply clients_only_deleteUser|done| |done].
  apply restrict_deleteUser; [done|apply (k_users x w Hi)].
Qed.

(** The broker is told, whatever comes of that; then the user goes. *)
Lemma link_deleteUser x c w :
  lobby_at w c = true → link_inv x w →
  ensures (deleteUser (W := W) c) w (λ w' _, link_inv x w' ∧ nw_identitySeed w' = nw_identitySeed w).
Proof.
  intros Hc Hi. pose proof (proj1 (lobby_at_conn w c) Hc) as (cn & E & Hr).
  unfold deleteUser. apply ensures_bind. unfold ensures at 1. simpl. unfold ConnectionImpl_getTag.
  run_with (this_conn_run _ _ _ E). destruct (ci_tag cn) as [t|] eqn:Et; [|by apply linked_ends; [keeps_auto|]].
  unfold User_logoutProcess.
  assert (Hcalm : ∀ {A} (m : M W A) (k : A → M W unit) w1, keeps calm m →
            calm w w1 → (∀ a w2, calm w w2 → ensures (k a) w2 (λ w' _, link_inv x w' ∧ nw_identitySeed w' = nw_identitySeed w)) →
            ensures (m ≫= k) w1 (λ w' _, link_inv x w' ∧ nw_identitySeed w' = nw_identitySeed w)).
  { intros A m k w1 Hm Hw1 Hk. eapply ensures_bind, ensures_mono; [by apply (ensures_keeps calm)|].
    intros w2 a Hw2. apply Hk. by etrans. }
  apply Hcalm; [keeps_auto|done|]. intros _ w1 Cw1.
  apply Hcalm; [apply (keeps_this_user calm)|done|]. intros u w2 Cw2.
  apply Hcalm; [keeps_lobby|done|]. intros _ w3 Cw3.
  destruct (base_conn' w w3 (proj1 Cw3) c cn E) as (cn3 & E3 & _).
  pose proof (f_equal (lookup c) (su_tags _ _ (proj2 (proj2 Cw3)))) as Et3.
  rewrite !lookup_fmap, E, E3 in Et3. simpl in Et3. injection Et3 as Et3.
  eapply ensures_mono; [apply (link_deleteUser_erase x)|].
  - by apply (lobby_at_linked c w), Hc; apply Cw3.
  - by apply (link_inv_calm x w).
  - exists cn3. split; [done|congruence].
  - intros w4 [] [Hi4 Hs4]. split; [done|]. rewrite Hs4. apply (b_seed _ _ (proj1 Cw3)).
Qed.
End Users.

(** ** The primitive steps of connections *)
Section Life.
Context `{FreshMemory} `{J : !Jsoncpp} `{!Sockets} `{!PropertyTree}.
Local Abbreviation W := (NetWorld App).

(** No connection to the broker is wanted or made. *)
Definition no_link w : Prop := ∀ c, ¬ busy w c.

(** Operations in flight that are no longer there. *)
Lemma link_inv_fewer x w l :
  (∀ o, o ∈ l → o ∈ nw_pending w) → link_inv x w → link_inv x (set_pending l w).
Proof.
  intros Hl Hi.
  assert (Hst : ∀ c, starting (set_pending l w) c → starting w c)
    by (intros c (o & Hin & Ho); exists o; auto).
  assert (Hbusy : ∀ c, busy (set_pending l w) c → busy w c)
    by (intros c (cn & E & Hr & [Ht|Hs]); exists cn; auto).
  destruct Hi as [? ? ? ? ? ? ? ? Hp Hsg Hw Hso]. split; try done.
  - intros c Hin. by apply Hp, Hl.
  - intros c c' Hc%Hbusy Hc'%Hbusy. by apply Hsg.
  - intros c cn E Hr Hs%Hst. by apply (Hw c).
  - intros o Hin. by apply Hso, Hl.
Qed.

Lemma upd_base c (f : ConnectionImpl → ConnectionImpl) w cn :
  nw_conns w !! c = Some cn → role_of (f cn) = role_of cn →
  base w (set_conns (<[c := f cn]> (nw_conns w)) w).
Proof.
  intros E Er. split; [|done..]. simpl. rewrite fmap_insert, Er. apply insert_id.
  by rewrite lookup_fmap, E.
Qed.

Lemma link_set_close c w cn :
  nw_conns w !! c = Some cn → PostClose c ∉ nw_pending w → link_inv None w →
  link_inv None (set_conns (<[c := set_ci_status status_close cn]> (nw_conns w)) w).
Proof.
  intros E Hp Hi. set (w' := set_conns _ w).
  assert (Hb : base w w') by by apply (upd_base c (set_ci_status status_close)).
  assert (Hu : same_users w w').
  { split; [|done]. simpl. rewrite fmap_insert. apply insert_id. by rewrite lookup_fmap, E. }
  assert (Hlook : ∀ c' cn', nw_conns w' !! c' = Some cn' →
            c' = c ∧ ci_status cn' = status_close ∨ c' ≠ c ∧ nw_conns w !! c' = Some cn').
  { intros c' cn'. simpl. rewrite lookup_insert_Some. intros [[<- <-]|[? ?]]; eauto. }
  apply (link_inv_base None None w); eauto.
  - split.
    + intros c' cn0 cn' E0 [[-> ?]|[_ E']]%Hlook _ Hs; [done|].
      rewrite E0 in E'. by injection E' as <-.
    + intros c' Hin. assert (Hne : c ≠ c') by by intros ->.
      destruct (k_posted None w Hi c' Hin) as (cn0 & E0 & Hs). exists cn0. simpl.
      by rewrite lookup_insert_ne by done.
  - apply (lobby_view_same w); [done..|]. apply (k_users None w Hi).
  - intros c' cn0 cn' E0 E' _. pose proof (f_equal (lookup c') (su_tags _ _ Hu)) as Et.
    rewrite !lookup_fmap, E0, E' in Et. by injection Et.
Qed.

(** The start of a connection. *)
Lemma link_start x o w :
  is_start o = true → start_ok w o →
  (∀ c cn, is_start_of c o = true → nw_conns w !! c = Some cn → broker_conn cn → no_link w) →
  link_inv x w → link_inv x (set_pending (nw_pending w ++ [o]) w).
Proof.
  intros Ho Hok Hnew Hi. set (w' := set_pending _ w).
  assert (Hst : ∀ c, starting w' c → starting w c ∨ is_start_of c o = true).
  { intros c (o' & Hin & Hs). simpl in Hin. rewrite elem_of_app, list_elem_of_singleton in Hin.
    destruct Hin as [Hin| ->]; [left; by exists o'|by right]. }
  assert (Hbusy : ∀ c, busy w' c → busy w c ∨ is_start_of c o = true ∧ no_link w).
  { intros c (cn & E & Hr & [Ht|Hs%Hst]); [left; exists cn; auto|].
    destruct Hs as [Hs|Hs]; [left; exists cn; auto|right; eauto]. }
  assert (Hsame : ∀ c c', is_start_of c o = true → is_start_of c' o = true → c = c').
  { intros c c'. destruct o; simpl; try done; rewrite !bool_decide_eq_true; congruence. }
  destruct Hi as [? ? ? ? ? ? ? ? Hp Hsg Hw Hso]. split; try done.
  - intros c Hin. simpl in Hin. rewrite elem_of_app, list_elem_of_singleton in Hin.
    destruct Hin as [Hin|<-]; [by apply Hp|done].
  - intros c c' [Hc|[Hc Hn]]%Hbusy [Hc'|[Hc' Hn']]%Hbusy; [by apply Hsg|by destruct (Hn' c)|by destruct (Hn c')|].
    by apply Hsame.
  - intros c cn E Hr [Hs|Hs]%Hst; [by apply (Hw c)|]. destruct (ci_tag cn) as [t|] eqn:Et; [|done].
    destruct (Hnew c cn Hs E Hr c). exists cn. split_and!; [done|done|left; congruence].
  - intros o' Hin. simpl in Hin. rewrite elem_of_app, list_elem_of_singleton in Hin.
    destruct Hin as [Hin| ->]; [by apply Hso|done].
Qed.

(** A new connection. *)
Lemma lobby_view_new_conn x c cn i w :
  link_inv x w → nw_conns w !! c = None → ci_tag cn = None → ci_identity cn = nw_identitySeed w →
  ci_msgManipulator cn = Some json_getMsgManipulatorTest →
  users_ok (lobby_view (set_identitySeed i (set_conns (<[c := cn]> (nw_conns w)) w))).
Proof.
  intros Hi Hc Ht Hid Hman. pose proof (k_users x w Hi) as Hu.
  set (w' := set_identitySeed _ _).
  assert (Hlook : ∀ c', v_conns (lobby_view w') !! c' =
            if decide (c' = c) then (if lobby_at w' c then Some (entry_of cn) else None)
            else v_conns (lobby_view w) !! c').
  { intros c'. unfold lobby_view. rewrite !restrict_lookup. simpl. rewrite !lookup_fmap.
    destruct (decide (c' = c)) as [->|Hne]; [by rewrite lookup_insert_eq|].
    unfold lobby_at. simpl. by rewrite lookup_insert_ne by done. }
  assert (Hn : v_conns (lobby_view w) !! c = None).
  { unfold lobby_view. rewrite restrict_lookup. simpl. rewrite lookup_fmap, Hc. by destruct (lobby_at w c). }
  destruct (lobby_at w' c).
  - eapply users_ok_ext; [| |apply (users_ok_new_conn c (nw_identitySeed w) (Some json_getMsgManipulatorTest) _ Hu)];
      [done| |done| |done].
    + apply map_eq. intros c'. rewrite Hlook. cbn [v_conns]. destruct (decide (c' = c)) as [->|Hne].
      * rewrite lookup_insert_eq. unfold entry_of. by rewrite Ht, Hid, Hman.
      * by rewrite lookup_insert_ne by done.
    + intros c' e. unfold lobby_view. rewrite restrict_lookup. simpl. rewrite lookup_fmap.
      destruct (lobby_at w c'), (nw_conns w !! c') as [cn'|] eqn:E'; try done. intros [= <-].
      by apply (k_identity x w Hi c').
  - eapply users_ok_ext; [| |exact Hu]; [done|]. apply map_eq. intros c'. rewrite Hlook.
    by destruct (decide (c' = c)) as [->|Hne].
Qed.

Lemma link_new_conn x c cn w :
  link_inv x w → nw_identitySeed w < 2 ^ 64 - 1 → nw_conns w !! c = None →
  ci_tag cn = None → ci_identity cn = nw_identitySeed w → ci_status cn = status_close →
  ci_msgManipulator cn = Some json_getMsgManipulatorTest → lobby_conn cn ∨ broker_conn cn →
  let w' := set_identitySeed (u64 (nw_identitySeed w + 1)) (set_conns (<[c := cn]> (nw_conns w)) w) in
  link_inv x w' ∧ (no_link w → no_link w').
Proof.
  intros Hi Hmax Hc Ht Hid Hst Hman Hrole w'.
  assert (Es : u64 (nw_identitySeed w + 1) = nw_identitySeed w + 1).
  { pose proof (k_seed x w Hi). unfold u64. apply Z.mod_small. lia. }
  assert (Hold : ∀ c' cn', nw_conns w !! c' = Some cn' → nw_conns w' !! c' = Some cn').
  { intros c' cn' E. simpl. rewrite lookup_insert_ne; [done|congruence]. }
  assert (Hnew : ∀ c' cn', nw_conns w' !! c' = Some cn' → c' = c ∧ cn' = cn ∨ nw_conns w !! c' = Some cn').
  { intros c' cn'. simpl. rewrite lookup_insert_Some. intros [[<- <-]|[? ?]]; eauto. }
  assert (Hns : ¬ starting w c).
  { intros (o & Hin & Hs). pose proof (k_starts x w Hi o Hin) as Hok.
    assert (Hcn : ∃ cn', nw_conns w !! c = Some cn').
    { destruct o; simpl in Hs; try done; apply bool_decide_eq_true in Hs; subst.
      - destruct Hok as (_ & cn' & E & _). by exists cn'.
      - destruct Hok as (_ & (cn' & E & _) & _). by exists cn'. }
    destruct Hcn. congruence. }
  assert (Hbusy : ∀ c', busy w' c' → busy w c').
  { intros c' (cn' & [[-> ->]|E]%Hnew & Hr & Hb); [|by exists cn'].
    destruct Hb as [Hb|Hb]; [congruence|by destruct Hns]. }
  split; [|intros Hn c' Hb%Hbusy; by apply (Hn c')].
  assert (Hok : ∀ o, start_ok w o → start_ok w' o).
  { intros []; simpl; try done.
    - intros (? & cn' & E & ?). eauto.
    - intros (? & (cn' & E & ?) & ?). eauto 6. }
  split; try (by apply (k_services x w Hi)); try (by apply (k_connectors x w Hi)).
  - by apply (lobby_view_new_conn x).
  - simpl. rewrite Es. pose proof (k_seed x w Hi). lia.
  - intros c' cn' [[-> ->]|E]%Hnew; simpl; rewrite Es; [lia|]. pose proof (k_identity x w Hi _ _ E). lia.
  - intros c' cn' [[-> ->]|E]%Hnew; [done|by apply (k_role x w Hi c')].
  - intros c' cn' t [[-> ->]|E]%Hnew Hr Et; [congruence|by apply (k_linked x w Hi c' cn')].
  - intros c' cn' [[-> ->]|E]%Hnew Hr Hx Hs; [done|by apply (k_open x w Hi c')].
  - intros c' Hin. destruct (k_posted x w Hi c' Hin) as (cn' & E & Hs). eauto.
  - intros c1 c2 Hb1%Hbusy Hb2%Hbusy. by apply (k_single x w Hi).
  - intros c' cn' [[-> ->]|E]%Hnew Hr Hs; [done|by apply (k_waiting x w Hi c')].
  - intros o Hin. by apply Hok, (k_starts x w Hi).
Qed.

(** The connections of a world in which one has another tag. *)
Lemma tag_lookup c cn t l w c' cn' :
  nw_conns (set_conns (<[c := set_ci_tag t cn]> (nw_conns w)) (with_lobby l w)) !! c' = Some cn' →
  c' = c ∧ cn' = set_ci_tag t cn ∨ c' ≠ c ∧ nw_conns w !! c' = Some cn'.
Proof. simpl. rewrite lookup_insert_Some. intros [[<- <-]|[? ?]]; eauto. Qed.
Lemma tag_base c cn t l w :
  nw_conns w !! c = Some cn →
  base w (set_conns (<[c := set_ci_tag t cn]> (nw_conns w)) (with_lobby l w)).
Proof. intros E. split; [|done..]. simpl. rewrite fmap_insert. apply insert_id. by rewrite lookup_fmap, E. Qed.

(** A change of the broker's user and its tag is not seen by the clients. *)
Lemma lobby_view_broker c cn t l w :
  nw_conns w !! c = Some cn → broker_conn cn →
  m_users l = m_users (lobby w) → m_encType l = m_encType (lobby w) →
  (∀ (q : TagPtr) u, l_heap (lobby w) !! q = Some (OUser u) → l_heap l !! q = Some (OUser u)) →
  users_ok (lobby_view w) →
  users_ok (lobby_view (set_conns (<[c := set_ci_tag t cn]> (nw_conns w)) (with_lobby l w))).
Proof.
  intros E Hr Hus Henc Hheap Hu. set (w' := set_conns _ _).
  pose proof (tag_base c cn t l w E : base w w') as Hb.
  assert (Hc : lobby_at w c = false).
  { unfold lobby_at. rewrite E. apply bool_decide_eq_false. destruct Hr as [-> _]. done. }
  assert (Hconns : v_conns (lobby_view w') = v_conns (lobby_view w)).
  { apply map_eq. intros c'. unfold lobby_view. rewrite !restrict_lookup, (base_lobby_at w w' Hb).
    simpl. rewrite !lookup_fmap. destruct (decide (c' = c)) as [->|Hne]; [by rewrite Hc|].
    by rewrite lookup_insert_ne by done. }
  destruct Hu as [? ? Htag Husers Hg ?]. split; rewrite ?Hconns; simpl; try done.
  - intros c' p i m Hc'. destruct (Htag c' p i m Hc') as [(u & Hp & Huc) Hm]. split; [|by rewrite Hus].
    exists u. split; [|done]. by apply Hheap.
  - intros i c'. rewrite Hus. apply Husers.
  - by rewrite Henc.
Qed.

(** The link goes: the broker's user is deleted and its connection forgets it. *)
Lemma link_drop c cn t w :
  nw_conns w !! c = Some cn → broker_conn cn → ci_tag cn = Some t → ci_status cn = status_close →
  link_inv None w →
  let w' := set_conns (<[c := set_ci_tag None cn]> (nw_conns w))
              (with_lobby (set_heap (delete t (l_heap (lobby w))) (lobby w)) w) in
  link_inv None w' ∧ no_link w'.
Proof.
  intros E Hr Et Hst Hi w'. pose proof (tag_base c cn None _ w E : base w w') as Hb.
  pose proof (tag_lookup c cn None (set_heap (delete t (l_heap (lobby w))) (lobby w)) w) as Hlook.
  fold w' in Hlook.
  destruct (k_linked None w Hi c cn t E Hr Et) as [Hmu (u & Hu & _)].
  assert (Hn : no_link w').
  { intros c' (cn' & [[-> ->]|[Hne E']]%Hlook & Hr' & Hc'%or_comm).
    - rewrite (base_starting w w' Hb) in Hc'. destruct Hc' as [Hs|Hs]; [|done].
      pose proof (k_waiting None w Hi c cn E Hr Hs). congruence.
    - rewrite (base_starting w w' Hb) in Hc'. apply Hne, (k_single None w Hi).
      + exists cn'. split_and!; [done..|tauto].
      + exists cn. split_and!; [done..|]. left. congruence. }
  split; [|done]. split; try done.
  - apply lobby_view_broker; try done; [|apply (k_users None w Hi)].
    intros p u' Hp. apply lookup_delete_Some. split; [intros <-; by rewrite Hu in Hp|done].
  - apply (k_seed None w Hi).
  - intros c' cn' [[-> ->]|[_ E']]%Hlook; [by apply (k_identity None w Hi c cn)|by apply (k_identity None w Hi c')].
  - intros c' cn' [[-> ->]|[_ E']]%Hlook; [by apply (k_role None w Hi c cn)|by apply (k_role None w Hi c')].
  - apply (k_services None w Hi).
  - apply (k_connectors None w Hi).
  - intros c' cn' t' E' Hr' Et'. destruct (Hn c'). exists cn'. split_and!; [done..|]. left. congruence.
  - intros c' cn' [[-> ->]|[_ E']]%Hlook ? ? ?; [done|by apply (k_open None w Hi c')].
  - intros c' Hin. destruct (k_posted None w Hi c' Hin) as (cn0 & E0 & Hs). simpl.
    destruct (decide (c = c')) as [<-|Hne]; [congruence|].
    exists cn0. by rewrite lookup_insert_ne by done.
  - intros c1 c2 Hc1. by destruct (Hn c1).
  - intros c' cn' E' Hr' Hs. destruct (Hn c'). exists cn'. split_and!; [done..|by right].
  - intros o Hin. by apply (base_start_ok w w' Hb), (k_starts None w Hi).
Qed.

(** The link is made: its connection gets the broker's user. *)
Lemma link_attach c cn (q : TagPtr) w :
  nw_conns w !! c = Some cn → broker_conn cn → no_link w → l_heap (lobby w) !! q = None →
  link_inv (Some c) w →
  let l := set_m_user (Some q)
             (set_heap (<[q := OConnectorUser (ConnectorUser_new c)]> (l_heap (lobby w))) (lobby w)) in
  link_inv None (set_conns (<[c := set_ci_tag (Some q) cn]> (nw_conns w)) (with_lobby l w)).
Proof.
  intros E Hr Hn Hq Hi l. set (w' := set_conns _ _).
  pose proof (tag_base c cn (Some q) l w E : base w w') as Hb.
  pose proof (tag_lookup c cn (Some q) l w) as Hlook. fold w' in Hlook.
  assert (Hold : ∀ c' cn', c' ≠ c → nw_conns w !! c' = Some cn' → broker_conn cn' →
            ci_tag cn' = None ∧ ¬ starting w' c').
  { intros c' cn' Hne E' Hr'. rewrite (base_starting w w' Hb). split.
    - destruct (ci_tag cn') as [t|] eqn:Et; [|done]. destruct (Hn c'). exists cn'.
      split_and!; [done..|]. left. congruence.
    - intros Hs. destruct (Hn c'). exists cn'. split_and!; [done..|]. by right. }
  assert (Hsingle : ∀ c', busy w' c' → c' = c).
  { intros c' (cn' & [[-> ->]|[Hne E']]%Hlook & Hr' & Hc'); [done|].
    destruct (Hold c' cn' Hne E' Hr'). by destruct Hc'. }
  split; try done.
  - apply lobby_view_broker; try done; [|apply (k_users _ w Hi)].
    intros q' u' Hq'. apply lookup_insert_Some. right. split; [intros <-; by rewrite Hq in Hq'|done].
  - apply (k_seed _ w Hi).
  - intros c' cn' [[-> ->]|[_ E']]%Hlook; [by apply (k_identity _ w Hi c cn)|by apply (k_identity _ w Hi c')].
  - intros c' cn' [[-> ->]|[_ E']]%Hlook; [by apply (k_role _ w Hi c cn)|by apply (k_role _ w Hi c')].
  - apply (k_services _ w Hi).
  - apply (k_connectors _ w Hi).
  - intros c' cn' t [[-> ->]|[Hne E']]%Hlook Hr' Et.
    + simpl in Et. injection Et as <-. split; [done|]. exists (ConnectorUser_new c). simpl.
      by rewrite lookup_insert_eq.
    + destruct (Hold c' cn' Hne E' Hr'). congruence.
  - intros c' cn' [[-> ->]|[Hne E']]%Hlook Hr' _ Hs; [done|].
    apply (k_open _ w Hi c' cn' E' Hr'); [congruence|done].
  - intros c' Hin. destruct (k_posted _ w Hi c' Hin) as (cn0 & E0 & Hs). simpl.
    destruct (decide (c = c')) as [<-|Hne].
    + exists (set_ci_tag (Some q) cn). rewrite lookup_insert_eq. split; [done|]. simpl. congruence.
    + exists cn0. by rewrite lookup_insert_ne by done.
  - intros c1 c2 ->%Hsingle ->%Hsingle. done.
  - intros c' cn' [[-> ->]|[Hne E']]%Hlook Hr' Hs; [|by destruct (Hold c' cn' Hne E' Hr')].
    rewrite (base_starting w w' Hb) in Hs. destruct (Hn c). exists cn. split_and!; [done..|by right].
  - intros o Hin. by apply (base_start_ok w w' Hb), (k_starts _ w Hi).
Qed.
End Life.

(** ** New connections *)
Section Connect.
Context `{FreshMemory} `{J : !Jsoncpp} `{!Sockets} `{!PropertyTree}.
Local Abbreviation W := (NetWorld App).

(** At most one connection later. *)
Record after x w w' : Prop := {
  a_link : link_inv x w';
  a_services : service_fixed <$> services w' = service_fixed <$> services w;
  a_seed : nw_identitySeed w' ≤ nw_identitySeed w + 1
}.
(** A connection that the service [p] has made. *)
Definition made_by p c w : Prop :=
  ∃ cn so, nw_conns w !! c = Some cn ∧ services w !! p = Some so
    ∧ ci_eventReceiver cn = Some (ns_eventReceiver so) ∧ ci_msgProc cn = ns_msgProc so.

(** What calm code does not disturb. *)
Definition stable (Q : W → Prop) : Prop := ∀ w w', calm w w' → Q w → Q w'.
Lemma stable_and (P Q : W → Prop) : stable P → stable Q → stable (λ w, P w ∧ Q w).
Proof. intros HP HQ w w' Hc []. split; [by eapply HP|by eapply HQ]. Qed.
Lemma stable_after x w0 : stable (after x w0).
Proof.
  intros w w' Hc []. split; [by eapply link_inv_calm|..]; destruct Hc as [Hb _].
  - by rewrite (b_services _ _ Hb).
  - by rewrite (b_seed _ _ Hb).
Qed.
Lemma no_link_base w w' :
  base w w' → ci_tag <$> nw_conns w' = ci_tag <$> nw_conns w → no_link w → no_link w'.
Proof.
  intros Hb Hu Hn c (cn' & E' & Hr & Hc).
  destruct (base_conn w w' Hb c cn' E') as (cn & E & Er).
  pose proof (f_equal (lookup c) Hu) as Et. rewrite !lookup_fmap, E, E' in Et.
  injection Et as Et. apply (Hn c). exists cn. rewrite Et in Hc. rewrite (base_starting w w' Hb) in Hc.
  split_and!; [done|by apply (role_broker cn')|done].
Qed.
Lemma stable_no_link : stable no_link.
Proof. intros w w' (Hb & _ & []). by apply no_link_base. Qed.
Lemma stable_made_by p c : stable (made_by p c).
Proof.
  intros w w' (Hb & _ & _) (cn & so & E & Es & Hr & Hp).
  destruct (base_conn' w w' Hb c cn E) as (cn' & E' & [= _ Er Ep _]).
  destruct (base_service' w w' Hb p so Es) as (so' & Es' & [= Fr Fp _]).
  exists cn', so'. split_and!; [done|done|congruence|congruence].
Qed.
Lemma stable_service p (P : NetServiceImpl → Prop) :
  (∀ so so', service_fixed so = service_fixed so' → P so → P so') →
  stable (λ w, ∃ so, services w !! p = Some so ∧ P so).
Proof.
  intros HP w w' (Hb & _ & _) (so & Es & Hs).
  destruct (base_service' w w' Hb p so Es) as (so' & Es' & Ef). exists so'. split; [done|]. by eapply HP.
Qed.

Lemma runs_calm {A B} (m : M W A) (k : A → M W B) w P E Q :
  keeps calm m → stable Q → Q w → (∀ w', Q w' → E w') →
  (∀ a w', Q w' → runs (k a) w' P E) → runs (m ≫= k) w P E.
Proof.
  intros Hm HQ Hw HE Hk. eapply runs_bind, runs_mono; [by apply (runs_keeps calm)|simpl|simpl]; eauto.
Qed.
Lemma runs_calm_end {A} (m : M W A) w Q :
  keeps calm m → stable Q → Q w → runs m w (λ w' _, Q w') Q.
Proof. intros Hm HQ Hw. eapply runs_mono; [by apply (runs_keeps calm)|simpl; eauto..]. Qed.

Lemma after_refl x w : link_inv x w → after x w w.
Proof. split; [done|done|lia]. Qed.
Lemma this_service_run p so w : services w !! p = Some so → this_service (U := App) p w = Done w so.
Proof.
  intros E. unfold this_service, get_services. run_step. unfold services in E. simpl in *. by rewrite E.
Qed.

Lemma runs_create_conn x p i so w :
  link_inv x w → nw_identitySeed w < 2 ^ 64 - 1 → services w !! p = Some so →
  runs (create_conn (U := App) p i) w
    (λ w' c, after x w w' ∧ (no_link w → no_link w') ∧ made_by p c w')
    (λ w', after x w w' ∧ (no_link w → no_link w')).
Proof.
  intros Hi Hs Es. unfold create_conn. unfold runs. run_with (this_service_run p so w Es).
  set (c := fresh (dom (nw_conns w))).
  set (Q := λ w', after x w w' ∧ (no_link w → no_link w') ∧ made_by p c w').
  assert (HQ : stable Q).
  { apply stable_and; [apply stable_after|]. apply stable_and; [|apply stable_made_by].
    intros w1 w2 Hc Hn Hw. eapply stable_no_link; eauto. }
  assert (HQ' : ∀ w', Q w' → after x w w' ∧ (no_link w → no_link w')) by (unfold Q; tauto).
  apply runs_bind. eapply (runs_mono _ _ (λ w' c', Q w' ∧ c' = c) _ Q); [|..|exact HQ'].
  - unfold ConnectionImpl_create, runs. run_step. fold c. set (cn := mkConnectionImpl _ _ _ _ _ _ _ _ _ _ _ _ _).
    destruct (k_services x w Hi p so Es) as [Hrole Hman].
    destruct (link_new_conn x c cn w) as [Hi' Hn']; try done.
    { apply not_elem_of_dom, is_fresh. }
    { destruct Hrole as [[Er Ep]|[Er Ep]]; [left|right]; split; simpl; by rewrite ?Er, ?Ep. }
    assert (Hw : Q (set_identitySeed (u64 (nw_identitySeed w + 1)) (set_conns (<[c := cn]> (nw_conns w)) w))).
    { split_and!; [split; [done|done|]|done|].
      - simpl. pose proof (k_seed x w Hi). unfold u64. rewrite Z.mod_small by lia. lia.
      - exists cn, so. simpl. rewrite lookup_insert_eq. done. }
    change (runs (ConnectionImpl_renewExpireTime (U := App) c ≫= λ _, mret c)
              (set_identitySeed (u64 (nw_identitySeed w + 1)) (set_conns (<[c := cn]> (nw_conns w)) w))
              (λ w' c', Q w' ∧ c' = c) Q).
    by eapply runs_calm; [keeps_auto|exact HQ|done|auto|].
  - intros w' c' [Hw ->]. eapply runs_calm; [keeps_auto|exact HQ|done|auto|]. intros idx w2 Hw2.
    eapply runs_calm; [unfold ConnectionImpl_setServiceID; keeps_auto|exact HQ|done|auto|]. by intros [] w3 Hw3.
Qed.

Lemma made_lobby p c so w :
  made_by p c w → services w !! p = Some so → lobby_service so → ∃ cn, nw_conns w !! c = Some cn ∧ lobby_conn cn.
Proof.
  intros (cn & so' & E & Es & Er & Ep) Es' [Hr Hp]. exists cn. split; [done|].
  rewrite Es' in Es. injection Es as <-. split; congruence.
Qed.
Lemma made_broker p c so w :
  made_by p c w → services w !! p = Some so → broker_service so → ∃ cn, nw_conns w !! c = Some cn ∧ broker_conn cn.
Proof.
  intros (cn & so' & E & Es & Er & Ep) Es' [Hr Hp]. exists cn. split; [done|].
  rewrite Es' in Es. injection Es as <-. split; congruence.
Qed.
Lemma after_service x w w' p so :
  after x w w' → services w !! p = Some so →
  ∃ so', services w' !! p = Some so' ∧ service_fixed so' = service_fixed so.
Proof. intros Ha E. by apply (fmap_eq_lookup _ _ _ _ _ (eq_sym (a_services _ _ _ Ha))). Qed.
Lemma calm_after x w0 w w' : calm w0 w → after x w w' → after x w0 w'.
Proof.
  intros (Hb & _) [Hi Hs Hn]. split; [done|by rewrite Hs, (b_services _ _ Hb)|by rewrite <- (b_seed _ _ Hb)].
Qed.

(** The acceptor waits for its next client. *)
Lemma no_link_accept p c cn w :
  nw_conns w !! c = Some cn → lobby_conn cn → no_link w →
  no_link (set_pending (nw_pending w ++ [AcceptConn p c]) w).
Proof.
  intros E Hr Hn c' (cn' & E' & Hr' & [Ht|(o & Hin & Ho)]); [by apply (Hn c'); exists cn'; auto|].
  simpl in Hin. rewrite elem_of_app, list_elem_of_singleton in Hin. destruct Hin as [Hin| ->].
  - apply (Hn c'). exists cn'. split_and!; [done..|]. right. by exists o.
  - simpl in Ho. apply bool_decide_eq_true in Ho as ->. simpl in E'. rewrite E in E'. injection E' as <-.
    by destruct (lobby_not_broker cn).
Qed.
Lemma runs_next_accept x p so w :
  link_inv x w → nw_identitySeed w < 2 ^ 64 - 1 → services w !! p = Some so → lobby_service so →
  runs (newConn ← create_conn (U := App) p 0; start_op (AcceptConn p newConn)) w
    (λ w' _, after x w w' ∧ (no_link w → no_link w')) (after x w).
Proof.
  intros Hi Hs Es Hso. eapply runs_bind, runs_mono; [by eapply runs_create_conn|simpl|by simpl; intros w' []].
  intros w' c (Ha & Hn & Hm). unfold runs, start_op. run_step. simpl.
  destruct (after_service x w w' p so Ha Es) as (so' & Es' & Ef).
  assert (Hso' : lobby_service so') by by eapply fixed_lobby.
  destruct (made_lobby p c so' w' Hm Es' Hso') as (cn & E & Hr). destruct Ha as [Hi' Hsrv Hseed].
  split; [|intros Hw; by eapply no_link_accept, Hn].
  split; [|done|done]. apply link_start; [done|split; [by exists so'|by exists cn]| |done].
  intros c' cn'. simpl. intros ->%bool_decide_eq_true E' Hr'. rewrite E in E'. injection E' as <-.
  by destruct (lobby_not_broker cn).
Qed.

(** A new attempt to reach the broker, when there is none. *)
Lemma ensures_tryConnect w :
  link_inv None w → no_link w → nw_identitySeed w < 2 ^ 64 - 1 →
  ensures (BrokerConnector_tryConnect (W := W) 1 0) w (λ w' _, after None w w').
Proof.
  intros Hi Hn Hs. apply runs_ensures with (after None w).
  unfold BrokerConnector_tryConnect. cbn [api_getConnector api_connectWait App_api].
  unfold runs, getConnector, get_services. run_step.
  destruct (mjoin _) as [p|] eqn:Ep; simpl; [|done].
  assert (Hp : Some p ∈ s_connectors (app_services (nw_app w))).
  { destruct (s_connectors _ !! Z.to_nat _) as [[q|]|] eqn:Eq; simplify_eq/=.
    by eapply list_elem_of_lookup_2. }
  destruct (k_connectors None w Hi p Hp) as (so & Es & Hso).
  unfold connectWait. run_with (this_service_run p so w Es).
  set (Q0 := calm w).
  assert (HQ0 : stable Q0) by (intros w1 w2; unfold Q0; intros; by etrans).
  assert (HE0 : ∀ w', Q0 w' → after None w w').
  { intros w' Hc. eapply calm_after; [exact Hc|]. apply after_refl. by eapply link_inv_calm. }
  match goal with |- match ?m w with _ => _ end => change (runs m w (λ w' _, after None w w') (after None w)) end.
  eapply runs_calm; [keeps_auto|exact HQ0|unfold Q0; done|done|]. intros [] w0 Hw0.
  eapply runs_calm; [keeps_auto|exact HQ0|done|done|]. intros k w1 Hw1.
  unfold connectImplement. apply runs_bind.
  eapply (runs_mono _ _ (λ w' _, after None w w') _ (after None w)); [|intros w' a Ha; exact Ha|done].
  eapply runs_calm; [keeps_auto|exact HQ0|done|done|]. intros ok w2 Hw2.
  destruct ok; simpl; [|by apply HE0].
  apply runs_try_catch with (after None w); [|intros e w' Ha; exact Ha].
  assert (Hi2 : link_inv None w2) by by eapply link_inv_calm.
  destruct (base_service' w w2 (proj1 Hw2) p so Es) as (so2 & Es2 & Ef2).
  assert (Hso2 : broker_service so2) by by eapply fixed_broker.
  assert (Hs2 : nw_identitySeed w2 < 2 ^ 64 - 1) by by rewrite (b_seed _ _ (proj1 Hw2)).
  assert (Hn2 : no_link w2) by by eapply stable_no_link.
  set (Q1 := λ c w', after None w w' ∧ no_link w' ∧ made_by p c w' ∧ ∃ so, services w' !! p = Some so ∧ broker_service so).
  assert (HQ1 : ∀ c, stable (Q1 c)).
  { intros c. repeat apply stable_and; [apply stable_after|apply stable_no_link|apply stable_made_by|].
    apply stable_service. intros so0 so'. apply fixed_broker. }
  assert (HE1 : ∀ c w', Q1 c w' → after None w w') by by intros c w' [? _].
  apply runs_bind. eapply (runs_mono _ _ (λ w' c, Q1 c w')); [|simpl|by intros w' Ha; exact Ha].
  - unfold createConnectSession. eapply runs_bind, runs_mono; [by eapply runs_create_conn|simpl|simpl].
    + intros w3 c (Ha3 & Hn3 & Hm3). destruct (after_service _ w2 w3 p so2 Ha3 Es2) as (so3 & Es3 & Ef3).
      assert (Hw3 : Q1 c w3).
      { split_and!; [by eapply calm_after|by apply Hn3|done|]. exists so3. split; [done|]. by eapply fixed_broker. }
      unfold current_endpoint. repeat (eapply (runs_calm _ _ _ _ _ (Q1 c)); [keeps_auto|by apply HQ1|done|by apply HE1|];
        clear dependent w3; intros ? w3 Hw3). done.
    + intros w3 [Ha3 _]. by eapply calm_after.
  - intros w3 c Hw3. eapply (runs_calm _ _ _ _ _ (Q1 c)); [keeps_auto|by apply HQ1|done|by apply HE1|].
    clear dependent w3. intros ep w3 (Ha3 & Hn3 & Hm3 & so3 & Es3 & Hso3).
    destruct (made_broker p c so3 w3 Hm3 Es3 Hso3) as (cn & E & Hr).
    set (w4 := set_pending (nw_pending w3 ++ [ConnectConn p ep c (u16 (u16 (u16 1) - 1))]) w3).
    assert (Ha4 : after None w w4).
    { destruct Ha3. split; [|done|done]. by apply link_start;
        [|split_and!; [by exists so3|by exists cn|]|..]. }
    apply runs_bind. change (runs (mret tt) w4 (λ w' _, runs (expireTimerReady (U := App) p ≫= λ _, mret true) w'
      (λ w' _, after None w w') (after None w)) (after None w)).
    eapply runs_calm; [keeps_auto|apply (stable_after None w)|done|done|]. by intros [] w5 Ha5.
Qed.
End Connect.

(** ** Callbacks *)
Section Callbacks.
Context `{FreshMemory} `{J : !Jsoncpp} `{!Sockets} `{!PropertyTree} `{!JsonLaws J}.
Local Abbreviation W := (NetWorld App).
Context (n : Z) (jv : Value) (Hgreeting : greeting = Some (n, jv)) (Hsize : zlen (text jv) < 30000).

Lemma ensures_keeps_and {A} (R : W → W → Prop) (m : M W A) w P :
  keeps R m → ensures m w P → ensures m w (λ w' a, R w w' ∧ P w' a).
Proof. intros Hm. specialize (Hm w). unfold ensures. by destruct (m w). Qed.

(** The receivers of the table, one by one. *)
Lemma receiver_cases (P : EventReceiver W → Prop) :
  P (receiver_at LOBBY_RECEIVER) → P (receiver_at BROKER_RECEIVER) → P EventReceiverDummy →
  ∀ r, P (receiver_at r).
Proof.
  intros Hl Hb Hd r. destruct (decide (r = LOBBY_RECEIVER)) as [->|Hr1]; [done|].
  destruct (decide (r = BROKER_RECEIVER)) as [->|Hr2]; [done|].
  unfold receiver_at. by rewrite !bool_decide_false.
Qed.
Lemma receiver_lobby :
  receiver_at LOBBY_RECEIVER
  = service_receiver (EventReceiverAcceptorRegister (W := W) LobbyAcceptorReceiver_functions).
Proof. done. Qed.
Lemma receiver_broker :
  receiver_at BROKER_RECEIVER
  = service_receiver (EventReceiverConnectorRegister (W := W) BrokerConnector_functions).
Proof. done. Qed.
Local Ltac receivers :=
  rewrite ?receiver_lobby, ?receiver_broker, ?service_receiver_eq; simpl.

Lemma linked_onExpiredSession r c : keeps linked (call (er_onExpiredSession (receiver_at r)) c).
Proof.
  revert r. apply (receiver_cases (λ er, keeps linked (call (er_onExpiredSession er) c))); receivers.
  - exact (keeps_lobby_onExpiredSession linked c).
  - exact (keeps_broker_onExpiredSession linked c).
  - keeps_auto.
Qed.
Lemma linked_onUpdate r t : keeps linked (call (er_onUpdate (receiver_at r)) t).
Proof.
  revert r. apply (receiver_cases (λ er, keeps linked (call (er_onUpdate er) t))); receivers; keeps_auto.
Qed.
Lemma linked_er_noHandler r c : keeps (rel_snd linked) (call (er_noHandler (receiver_at r)) c).
Proof.
  revert r. apply (receiver_cases (λ er, keeps (rel_snd linked) (call (er_noHandler er) c))); receivers.
  - exact (keeps_lobby_noHandler linked c).
  - exact (keeps_broker_noHandler linked c).
  - keeps_auto.
Qed.
#[local] Hint Resolve linked_onExpiredSession linked_onUpdate linked_er_noHandler : keeps.

Lemma linked_noHandler c : keeps (rel_snd linked) (call_noHandler (W := W) c).
Proof.
  intros [msg w]. unfold call_noHandler. simpl. rewrite bind_run, on_snd_run.
  destruct (getReceiver_cases c w) as [[what ->]|(r & -> & _)]; simpl; [done|].
  apply (linked_er_noHandler r c (msg, w)).
Qed.

Lemma linked_parser (p : MsgProcPtr) : parser_keeps linked (msgProc_at p).
Proof.
  intros parse. unfold msgProc_at.
  destruct (bool_decide (p = LOBBY_MSGPROC)); [|destruct (bool_decide (p = BROKER_MSGPROC))]; simpl;
    intros Hp c t m s; simplify_eq.
  - apply keeps_notUseEncTest; [typeclasses eauto|apply linked_noHandler].
  - apply keeps_brokerTest; [typeclasses eauto|apply linked_noHandler].
Qed.
Lemma linked_dispatch p c msg : keeps linked (MessageProcedure_dispatch (msgProc_at p) c msg).
Proof. apply net_dispatch; [typeclasses eauto|apply linked_parser]. Qed.
#[local] Hint Resolve linked_dispatch : keeps.

(** The operations whose handler may close the connection. *)
Definition closes (o : async_op) : bool :=
  match o with PostClose _ | WaitCloseReserve _ _ => true | _ => false end.
Lemma linked_conn_op o cp :
  closes o = false → keeps linked (complete_conn_op receiver_at msgProc_at o cp).
Proof.
  destruct o; simpl; try done; intros _; try (keeps_auto; fail).
  unfold ConnectionImpl_onExpireTime. keeps_auto.
Qed.
Lemma linked_update_handler p ec : keeps linked (update_handler receiver_at p ec).
Proof. unfold update_handler. keeps_auto. Qed.

(** ** The end of a connection *)
Lemma ensures_broker_onClose c cn t w :
  nw_conns w !! c = Some cn → broker_conn cn → ci_tag cn = Some t → ci_status cn = status_close →
  link_inv None w → nw_identitySeed w < 2 ^ 64 - 1 →
  ensures (BrokerConnector_onClose (W := W) c) w (λ w' _, link_inv None w').
Proof.
  intros E Hr Et Hst Hi Hs. destruct (k_linked None w Hi c cn t E Hr Et) as [Hmu (u & Hu & _)].
  destruct (link_drop c cn t w E Hr Et Hst Hi) as [Hi' Hn'].
  unfold BrokerConnector_onClose, ensures, delete_object, get_lobby, upd_lobby. run_step.
  unfold lobby in *. simpl. rewrite Hmu. run_step. simpl. rewrite Hu. run_step. simpl.
  unfold ConnectionImpl_setTag. rewrite bind_run, (upd_conn_run c _ _ cn) by done. cbn [bind_outcome].
  eapply ensures_mono; [apply ensures_tryConnect; [exact Hi'|exact Hn'|done]|]. by intros w' a [].
Qed.

Lemma ensures_close c cn w :
  nw_conns w !! c = Some cn → ci_status cn ≠ status_close → PostClose c ∉ nw_pending w →
  link_inv None w → nw_identitySeed w < 2 ^ 64 - 1 →
  ensures (ConnectionImpl_close receiver_at c) w (λ w' _, link_inv None w').
Proof.
  intros E Hst Hp Hi Hs. unfold ConnectionImpl_close, socket_shutdown, record_event, ensures. run_step.
  set (w1 := set_trace _ w).
  assert (Hi1 : link_inv None w1) by (eapply link_inv_calm; [|exact Hi]; split_and!; [by split|by apply moves_same|by split]).
  destruct (_ =? 0); [|done]. unfold ConnectionImpl_set_status. run_step.
  rewrite (upd_conn_run c _ w1 cn) by done. run_step.
  pose proof (link_set_close c w1 cn E Hp Hi1) as Hi2. set (w2 := set_conns _ w1) in *.
  change (ensures (cancel_timers (U := App) c;; record_event (EvOnClose c);;
    er ← ConnectionImpl_getReceiver receiver_at c; call (er_onClose er) c) w2 (λ w' _, link_inv None w')).
  set (Q := λ w', link_inv None w' ∧ nw_identitySeed w' < 2 ^ 64 - 1
    ∧ ∃ cn', nw_conns w' !! c = Some cn' ∧ role_of cn' = role_of cn ∧ ci_tag cn' = ci_tag cn ∧ ci_status cn' = status_close).
  assert (HQ : stable Q).
  { intros w' w'' Hc (Hl & Hs' & cn' & E' & Er' & Et' & Es'). pose proof Hc as (Hb & Hm & Hu). split_and!.
    - by eapply link_inv_calm.
    - by rewrite (b_seed _ _ Hb).
    - destruct (base_conn' w' w'' Hb c cn' E') as (cn'' & E'' & Er''). exists cn''.
      pose proof (f_equal (lookup c) (su_tags _ _ Hu)) as Et''. rewrite !lookup_fmap, E', E'' in Et''.
      injection Et'' as Et''. split_and!; [done|congruence|congruence|].
      destruct (Hm c) as [[Es'' _]|[[Es'' _]|[? _]]]; [| |done]; unfold status_at in Es'';
        rewrite ?E', ?E'' in Es''; simpl in Es''; congruence. }
  assert (H2 : Q w2).
  { split_and!; [done|done|]. exists (set_ci_status status_close cn). simpl. by rewrite lookup_insert_eq. }
  clearbody w2. clear Hi2. apply (runs_ensures _ _ _ (λ _, True)).
  eapply runs_calm; [keeps_auto|exact HQ|done|done|]. clear w2 H2. intros _ w2 H2.
  eapply runs_calm; [keeps_auto|exact HQ|done|done|]. clear w2 H2. intros _ w2 H2.
  pose proof H2 as (Hi2 & Hs2 & cn2 & E2 & Er2 & Et2 & Es2).
  destruct (k_role None w Hi c cn E) as [Hrole _].
  unfold runs, ConnectionImpl_getReceiver. run_with (this_conn_run _ _ _ E2).
  injection Er2 as _ Er2 Ep2 _. rewrite Er2.
  assert (Hsplit : ∀ o : outcome W unit, match o with Done w' _ => link_inv None w' | _ => True end →
    match o with Done w' _ => link_inv None w' | Threw w' _ => True | _ => True end) by done.
  apply Hsplit. clear Hsplit. destruct Hrole as [[Er Ep]|[Er Ep]]; rewrite Er.
  - change (ensures (LobbyAcceptorReceiver_onClose (W := W) c) w2 (λ w' _, link_inv None w')).
    apply (runs_ensures _ _ _ (λ _, True)). unfold LobbyAcceptorReceiver_onClose, log_endpoint.
    eapply runs_calm; [keeps_auto|exact HQ|exact H2|done|].
    intros _ w3 (Hi3 & _ & cn3 & E3 & [= _ Er3 _ _] & _). apply ensures_runs.
    eapply ensures_mono; [eapply link_deleteUser; [eassumption..| |done]|by intros w' a []].
    apply lobby_at_conn. exists cn3. split; [done|congruence].
  - change (ensures (BrokerConnector_onClose (W := W) c) w2 (λ w' _, link_inv None w')).
    destruct (ci_tag cn) as [t|] eqn:Et.
    2:{ exfalso. by apply (k_open None w Hi c cn E). }
    apply (ensures_broker_onClose c cn2 t); try done.
    split; congruence.
Qed.

(** ** The start of a connection *)
Lemma moves_open c : keeps (moves (Some c)) (ConnectionImpl_set_status (U := App) c status_open).
Proof.
  intros w. unfold ConnectionImpl_set_status, upd_conn, this_conn. run_step.
  destruct (nw_conns w !! c) as [cn|] eqn:E; simpl; [|done]. intros c'.
  unfold status_at. simpl. destruct (decide (c = c')) as [<-|Hne].
  - right. right. split; [done|]. exists status_open. by rewrite lookup_insert_eq.
  - left. by rewrite lookup_insert_ne.
Qed.
Lemma ensures_start c w :
  link_inv None w →
  ensures (ConnectionImpl_start_accept (U := App) c) w
    (λ w' _, link_inv (Some c) w' ∧ base w w' ∧ same_users w w').
Proof.
  intros Hi. assert (Hm : keeps (moves (Some c)) (ConnectionImpl_start_accept (U := App) c)).
  { unfold ConnectionImpl_start_accept, start_read, start_opened. keeps_auto. apply moves_open. }
  eapply ensures_mono; [eapply ensures_keeps_and; [exact (net_start_accept base c)|];
    eapply ensures_keeps_and; [exact (net_start_accept same_users c)|by apply ensures_keeps]|].
  simpl. intros w' _ (Hb & Hu & Hmv). split_and!; [|done..].
  apply (link_inv_moves (Some c) None w); auto.
Qed.

(** Of a client's connection the invariant says nothing special. *)
Lemma link_inv_client c w :
  lobby_at w c = true → link_inv (Some c) w → link_inv None w.
Proof.
  intros Hc Hi. pose proof (k_open (Some c) w Hi) as Hopen. destruct Hi. split; try done.
  intros c' cn E Hr _. apply (Hopen c' cn E Hr). intros [= <-]. unfold lobby_at in Hc. rewrite E in Hc. apply bool_decide_eq_true in Hc.
  destruct Hr as [Hr _]. by rewrite Hc in Hr.
Qed.

Lemma ensures_onAccept c w :
  lobby_at w c = true → link_inv None w →
  ensures (LobbyAcceptorReceiver_onAccept (W := W) c) w
    (λ w' _, link_inv None w').
Proof.
  intros Hc Hi. apply (runs_ensures _ _ _ (λ _, True)). unfold LobbyAcceptorReceiver_onAccept, log_endpoint.
  set (Q := λ w', calm w w'). eapply (runs_calm _ _ _ _ _ Q); [keeps_auto| |unfold Q; done|done|].
  { intros w1 w2. unfold Q. intros. by etrans. }
  intros _ w1 Hw1. apply ensures_runs. eapply ensures_mono; [eapply link_addUser; [eassumption..| |]|].
  - by apply (lobby_at_linked c w), Hc; apply Hw1.
  - by apply (link_inv_calm _ w).
  - by intros w' a [].
Qed.

Lemma ensures_accept_handler p so ec c w :
  link_inv None w → services w !! p = Some so → lobby_service so → lobby_at w c = true →
  nw_identitySeed w < 2 ^ 64 - 1 →
  ensures (accept_handler receiver_at p ec c) w (λ w' _, link_inv None w').
Proof.
  intros Hi Es Hso Hc Hs. unfold accept_handler. destruct (ec =? 0); [|exact Hi].
  unfold ensures. run_with (this_service_run p so w Es). destruct (Hso) as [Er _]. rewrite Er.
  change (ensures (LobbyAcceptorReceiver_onAccept (W := W) c;; ConnectionImpl_start_accept c;;
    newConn ← create_conn p 0; start_op (AcceptConn p newConn)) w (λ w' _, link_inv None w')).
  eapply ensures_bind, ensures_mono; [eapply (ensures_keeps_and base); [|by apply ensures_onAccept]|].
  { apply (keeps_lobby_onAccept base). }
  simpl. intros w1 _ [Hb1 Hi1].
  eapply ensures_bind, ensures_mono; [by apply ensures_start|]. simpl. intros w2 _ (Hi2 & Hb2 & _).
  assert (Hb : base w w2) by by etrans.
  destruct (base_service' w w2 Hb p so Es) as (so2 & Es2 & Ef2).
  apply (link_inv_client c) in Hi2; [|by rewrite (base_lobby_at w w2 Hb)].
  eapply ensures_mono; [eapply runs_ensures, runs_next_accept; [done|by rewrite (b_seed _ _ Hb)|done|]|].
  - by apply (fixed_lobby so).
  - by intros w' a [[] _].
Qed.

(** ** The link to the broker is made, or not *)
Lemma ensures_onConnectFailed w :
  link_inv None w → no_link w → nw_identitySeed w < 2 ^ 64 - 1 →
  ensures (BrokerConnector_tryConnect (W := W) 1 0;; mret false) w (λ w' _, link_inv None w').
Proof.
  intros Hi Hn Hs. eapply ensures_bind, ensures_mono; [by apply ensures_tryConnect|]. by intros w' a [].
Qed.

Lemma ensures_onConnect c cn w :
  nw_conns w !! c = Some cn → broker_conn cn → no_link w → link_inv (Some c) w →
  ensures (BrokerConnector_onConnect (W := W) c) w (λ w' _, link_inv None w').
Proof.
  intros E Hr Hn Hi. unfold BrokerConnector_onConnect, ensures, new_object, get_lobby, upd_lobby. run_step.
  set (q := fresh _). assert (Hq : l_heap (lobby w) !! q = None) by (apply not_elem_of_dom, is_fresh).
  pose proof (link_attach c cn q w E Hr Hn Hq Hi) as Hi'.
  cbn [conn_setTag ConnectionImpl_Connection]. unfold ConnectionImpl_setTag.
  rewrite (upd_conn_run c _ _ cn) by done. cbn [bind_outcome].
  cbv zeta in Hi'.
  match type of Hi' with link_inv None ?w' =>
    change (ensures (with_json (W := W) json_null (json_assign "test" (json_string "test");;
      _ ← ConnectorUser_SendJsonPacket q "/auth"; mret tt)) w' (λ w'' _, link_inv None w'')) end.
  eapply ensures_mono; [apply (linked_ends _ None); [|exact Hi']|by intros w' a []].
  apply keeps_with_json; [typeclasses eauto|]. keeps_lobby.
Qed.

Lemma ensures_calm_then {A B} (m : M W A) (k : A → M W B) w P :
  keeps calm m → (∀ a w', calm w w' → ensures (k a) w' P) → ensures (m ≫= k) w P.
Proof.
  intros Hm Hk. eapply ensures_bind, ensures_mono; [by apply (ensures_keeps calm)|]. simpl. eauto.
Qed.

Lemma ensures_connect_handler p so ec ep c cn w :
  link_inv None w → services w !! p = Some so → broker_service so →
  nw_conns w !! c = Some cn → broker_conn cn → no_link w → nw_identitySeed w < 2 ^ 64 - 1 →
  ensures (connect_handler receiver_at p ec ep c 0) w (λ w' _, link_inv None w').
Proof.
  intros Hi Es Hso E Hr Hn Hs. unfold connect_handler, ensures. run_with (this_service_run p so w Es).
  destruct Hso as [Er _]. rewrite Er. cbv zeta.
  set (failed := (socket_close (U := App) c;; BrokerConnector_onConnectFailed (W := W) c;; mret false)).
  assert (Hfailed : ∀ w1, calm w w1 → ensures failed w1 (λ w' _, link_inv None w')).
  { intros w1 Hw1. unfold failed. apply ensures_calm_then; [keeps_auto|]. intros _ w2 Hw2.
    assert (Hw : calm w w2) by by etrans. apply ensures_onConnectFailed.
    - by eapply link_inv_calm.
    - by eapply stable_no_link.
    - by rewrite (b_seed _ _ (proj1 Hw)). }
  change (ensures (socket_is_open (U := App) c ≫= λ opened : bool,
    if negb opened then failed
    else if negb (ec =? 0) then failed
    else ConnectionImpl_start_connect c;; BrokerConnector_onConnect (W := W) c;; mret true) w
    (λ w' _, link_inv None w')).
  apply ensures_calm_then; [keeps_auto|]. intros opened w1 Hw1.
  destruct opened; cbn [negb]; [|by apply Hfailed]. destruct (ec =? 0); cbn [negb]; [|by apply Hfailed].
  change (ConnectionImpl_start_connect c) with (ConnectionImpl_start_accept (U := App) c).
  eapply ensures_bind, ensures_mono; [apply ensures_start; by eapply link_inv_calm|].
  simpl. intros w2 _ (Hi2 & Hb2 & Hu2). destruct Hw1 as (Hb1 & Hm1 & Hu1).
  assert (Hb : base w w2) by by etrans. destruct (base_conn' w w2 Hb c cn E) as (cn2 & E2 & Er2).
  eapply ensures_bind, ensures_mono; [eapply ensures_onConnect; [done| | |done]|].
  - by apply (role_broker cn).
  - apply (no_link_base w); [done|apply su_tags; by etrans|done].
  - by intros w3 [] Hi3.
Qed.
End Callbacks.

(** ** The steps of the server *)
Section Steps.
Context `{FreshMemory} `{J : !Jsoncpp} `{!Sockets} `{!PropertyTree} `{!JsonLaws J}.
Local Abbreviation W := (NetWorld App).
Context (n : Z) (jv : Value) (Hgreeting : greeting = Some (n, jv)) (Hsize : zlen (text jv) < 30000).

Lemma count_zero {A} (f : A → bool) l a : count f l = 0%nat → f a = true → a ∉ l.
Proof.
  intros Hc Ha (l1 & l2 & ->)%list_elem_of_split. rewrite count_app in Hc. unfold count in Hc. simpl in Hc.
  rewrite filter_cons_True in Hc by done. simpl in Hc. lia.
Qed.
Lemma elem_of_middle {A} (l1 l2 : list A) a : a ∈ l1 ++ a :: l2.
Proof. apply elem_of_app. right. by left. Qed.
Lemma elem_of_removed {A} (l1 l2 : list A) a b : b ∈ l1 ++ l2 → b ∈ l1 ++ a :: l2.
Proof. rewrite !elem_of_app. intros [?|?]; [by left|right; by right]. Qed.
Lemma no_posted_close c w : v_closes (view c w) = 0%nat → PostClose c ∉ nw_pending w.
Proof. intros Hc. eapply count_zero; [exact Hc|]. simpl. by rewrite bool_decide_true. Qed.

(** The connection of a start that has been taken out was the only link. *)
Lemma no_link_started w l1 o l2 c cn :
  nw_pending w = l1 ++ o :: l2 → net_inv w → link_inv None w → is_start_of c o = true →
  nw_conns w !! c = Some cn → broker_conn cn → no_link (without (l1 ++ l2) w).
Proof.
  intros Ep Hni Hi Ho E Hr c' (cn' & E' & Hr' & Hc').
  assert (Hin : o ∈ nw_pending w) by (rewrite Ep; apply elem_of_middle).
  assert (Hs : starting w c) by by exists o.
  assert (Hc : busy w c) by (exists cn; split_and!; [done..|by right]).
  assert (Hst' : starting (without (l1 ++ l2) w) c' → starting w c').
  { intros (o' & Hin' & Ho'). exists o'. split; [|done]. rewrite Ep. by apply elem_of_removed. }
  assert (c' = c) as ->.
  { apply (k_single None w Hi); [|done]. exists cn'. split_and!; [done..|]. destruct Hc'; auto. }
  destruct (in_flight_start c w l1 o l2 (core_of cn) Ep Hni Ho) as (_ & Hz & _);
    [by apply view_core_conn|].
  simpl in E'. rewrite E in E'. injection E' as <-.
  destruct Hc' as [Ht|(o' & Hin' & Ho')].
  - by rewrite (k_waiting None w Hi c cn E Hr Hs) in Ht.
  - by apply (count_zero _ _ o' Hz).
Qed.

Lemma link_inv_step w w' :
  server_step w w' → net_inv w → link_inv None w → link_inv None w'.
Proof.
  intros [l1 o l2 cp Ep _ _ Hs Hrun] Hni Hi.
  set (w0 := without (l1 ++ l2) w) in *.
  assert (Hin : o ∈ nw_pending w) by (rewrite Ep; apply elem_of_middle).
  assert (Hi0 : link_inv None w0).
  { apply link_inv_fewer; [|done]. intros o'. rewrite Ep. apply elem_of_removed. }
  pose proof (remove_inv w l1 o l2 Ep Hni) as Hni0. fold w0 in Hni0.
  enough (He : ensures (complete_op receiver_at msgProc_at o cp) w0 (λ w' _, link_inv None w'))
    by (unfold ensures in He; by rewrite Hrun in He).
  assert (Hclose : ∀ c cn, nw_conns w0 !! c = Some cn → ci_status cn ≠ status_close →
            v_closes (view c w0) = 0%nat →
            ensures (ConnectionImpl_close receiver_at c) w0 (λ w' _, link_inv None w')).
  { intros c cn E Hst Hv. apply (ensures_close c cn); try done. by apply no_posted_close. }
  assert (Hlinked : ∀ m : M W unit, keeps linked m → ensures m w0 (λ w' _, link_inv None w')).
  { intros m Hm. eapply ensures_mono; [by eapply linked_ends|]. by intros w1 a []. }
  destruct (closes o) eqn:Ho; [destruct o; try done|destruct (is_start o) eqn:Hso; [destruct o; try done|]].
  - cbn [complete_op complete_conn_op]. unfold ConnectionImpl_onCloseReserveTime.
    destruct (_ =? 0); [|exact Hi0]. unfold ensures, this_conn. run_step.
    destruct (nw_conns w0 !! c) as [cn|] eqn:E; simpl; [|done]. case_bool_decide as Hst; [|exact Hi0].
    apply (Hclose c cn E); [congruence|].
    by destruct (view_ok_open (view c w0) (core_of cn) (Hni0 c)) as (? & _); [by apply view_core_conn|..].
  - destruct (k_posted None w Hi c Hin) as (cn & E & Hst).
    apply (Hclose c cn E Hst). apply (in_flight_close c w l1 l2 Ep Hni).
  - destruct (k_starts None w Hi _ Hin) as [(so & Es & Hsrv) (cn & E & Hr)]. cbn [complete_op].
    apply (ensures_accept_handler n jv Hgreeting Hsize acceptor so); try done.
    apply lobby_at_conn. exists cn. split; [done|apply Hr].
  - destruct (k_starts None w Hi _ Hin) as [(so & Es & Hsrv) [(cn & E & Hr) ->]]. cbn [complete_op].
    eapply ensures_bind, ensures_mono; [eapply (ensures_connect_handler connector so); try done|by intros w1 a].
    apply (no_link_started w l1 (ConnectConn connector ep c 0) l2 c cn); try done. simpl. by rewrite bool_decide_true.
  - destruct o; try done; try (by apply Hlinked, linked_conn_op). by apply Hlinked, linked_update_handler.
Qed.

Lemma server_step_net w w' : server_step w w' → net_step receiver_at msgProc_at w w'.
Proof. intros [l1 o l2 cp Ep Hr Hok _ Hrun]. by eapply step_complete. Qed.

Lemma link_inv_steps w w' :
  rtc server_step w w' → net_inv w → link_inv None w → net_inv w' ∧ link_inv None w'.
Proof.
  induction 1 as [|w w1 w2 Hstep _ IH]; [done|]. intros Hni Hi. apply IH.
  - eapply net_step_inv; [apply server_receivers|apply server_msgProcs| |done]. by apply server_step_net.
  - by eapply link_inv_step.
Qed.
End Steps.
