(* ===== verification/BrokerStart.v ===== *)
(** * The start of a server with a broker

    [link_inv] of BrokerLink.v holds when [main_broker] has run; with the steps
    of BrokerServer.v, [broker_server_typed] says what holds of the tags, the
    users and the link in every state such a server reaches. *)
From stdpp Require Import gmap strings list.
From coqutil Require Import Byte.
From S2P Require Import Prelude.
From S2P Require Import MessageBuffer.
From S2P Require Import PacketHeader.
From S2P Require Import Connection.
From S2P Require Import MessageProcedure.
From S2P Require Import EventReceiver.
From S2P Require Import IoService.
From S2P Require Import ConnectionImpl.
From S2P Require Import ConnectionSafety.
From S2P Require Import NetService.
From S2P Require Import NetKeeps.
From S2P Require Import NetServiceSafety.
From S2P Require Import NetProperties.
From S2P Require Import Json.
From S2P Require Import LobbyState.
From S2P Require Import LobbyUser.
From S2P Require Import LobbyUserManager.
From S2P Require Import LobbyHandlers.
From S2P Require Import BrokerConnector.
From S2P Require Import LobbyAcceptorReceiver.
From S2P Require Import PacketParserSimple.
From S2P Require Import PacketParserJson.
From S2P Require Import LobbySafety.
From S2P Require Import Environment.
From S2P Require Import TestInterface.
From S2P Require Import Server.
From S2P Require Import ServerProperties.
From S2P Require Import ServerDemo.
From S2P Require Import ServerStart.
From S2P Require Import LobbySpec.
From S2P Require Import LobbyUsersSpec.
From S2P Require Import LobbyRefinement.
From S2P Require Import LobbyInvariant.
From S2P Require Import ServerInvariant.
From S2P Require Import BrokerLink.
From S2P Require Import BrokerServer.
#[local] Open Scope Z_scope.

Implicit Types (w : NetWorld App) (c : ConnPtr) (p : ServicePtr).

Section Start.
Context `{FreshMemory} `{J : !Jsoncpp} `{!Sockets} `{!PropertyTree} `{!JsonLaws J}.
Local Abbreviation W := (NetWorld App).

(** ** Code that sets up the server *)
Definition same_tags w w' : Prop := ci_tag <$> nw_conns w' = ci_tag <$> nw_conns w.
#[local] Instance same_tags_preorder : PreOrder same_tags.
Proof. split; [done|]. intros w1 w2 w3. unfold same_tags. congruence. Qed.
Definition sets_up w w' : Prop := linked w w' ∧ base w w' ∧ same_tags w w'.
#[local] Instance sets_up_preorder : PreOrder sets_up.
Proof.
  split; [intros w; split; [done|by split]|].
  intros w1 w2 w3 (? & ? & ?) (? & ? & ?). split; [by etrans|split; by etrans].
Qed.
Lemma calm_sets_up w w' : calm w w' → sets_up w w'.
Proof. intros Hc. split; [by apply calm_linked|]. destruct Hc as (? & _ & []). by split. Qed.
#[local] Instance sets_up_calm : NetCalm sets_up.
Proof. eapply net_calm_weaken; [typeclasses eauto|exact calm_sets_up|typeclasses eauto]. Qed.

Lemma sets_up_upd_lobby f :
  (∀ s, l_heap (f s) = l_heap s ∧ m_users (f s) = m_users s ∧ m_user (f s) = m_user s
        ∧ (m_encType s = EncType.GREETING → m_encType (f s) = EncType.GREETING)) →
  keeps sets_up (upd_lobby (W := W) f).
Proof.
  intros Hf w. exact (conj (linked_upd_lobby f Hf w) (conj (proj1 (with_lobby_base (f (lobby w)) w)) eq_refl)).
Qed.
Lemma sets_up_app_state {T A} (get : App → T) (set : T → App → App) (m : M T A) :
  (∀ t a, app_services (set t a) = app_services a ∧ app_lobby (set t a) = app_lobby a) →
  keeps sets_up (zoom (λ w : W, get (nw_app w)) (λ t w, set_app (set t (nw_app w)) w) m).
Proof.
  intros Hset w. unfold zoom.
  assert (Hc : ∀ t, sets_up w (set_app (set t (nw_app w)) w)).
  { intros t. destruct (Hset t (nw_app w)) as [Es El]. apply calm_sets_up. split_and!.
    - split; unfold services; simpl; by rewrite ?Es.
    - by apply moves_same.
    - split; unfold lobby; simpl; by rewrite ?El. }
  destruct (m _); simpl; auto.
Qed.
#[local] Hint Extern 1 (keeps sets_up (upd_lobby _)) => apply sets_up_upd_lobby; done : keeps.

Record ready (k : Z) w : Prop := {
  r_link : link_inv None w;
  r_no_link : no_link w;
  r_seed : nw_identitySeed w ≤ k
}.
Lemma ready_sets_up k w w' : sets_up w w' → ready k w → ready k w'.
Proof.
  intros ([Hs Hl] & Hb & Ht) [Hi Hn Hk]. split; [by apply Hl|by apply (no_link_base w)|by rewrite Hs].
Qed.
Lemma ready_mono k k' w : k ≤ k' → ready k w → ready k' w.
Proof. intros Hk []. split; [done..|lia]. Qed.

Lemma sets_up_then {A B} (m : M W A) (g : A → M W B) w P :
  keeps sets_up m → (∀ a w', sets_up w w' → ensures (g a) w' P) → ensures (m ≫= g) w P.
Proof.
  intros Hm Hg. eapply ensures_bind, ensures_mono; [by apply (ensures_keeps sets_up)|]. simpl. eauto.
Qed.
Lemma ready_then {A B} (m : M W A) (g : A → M W B) k w P :
  keeps sets_up m → ready k w → (∀ a w', ready k w' → ensures (g a) w' P) → ensures (m ≫= g) w P.
Proof. intros Hm Hw Hg. apply sets_up_then; [done|]. intros a w' Hs. apply Hg. by apply (ready_sets_up k w). Qed.
Lemma ready_ends {A} (m : M W A) k w : keeps sets_up m → ready k w → ensures m w (λ w' _, ready k w').
Proof.
  intros Hm Hw. eapply ensures_mono; [by apply (ensures_keeps sets_up)|]. intros w' a Hs. by apply (ready_sets_up k w).
Qed.

(** ** Services *)
Definition service_params (params : ServiceParams) : Prop :=
  (sp_receiver params = LOBBY_RECEIVER ∧ sp_msgProc params = LOBBY_MSGPROC
   ∨ sp_receiver params = BROKER_RECEIVER ∧ sp_msgProc params = BROKER_MSGPROC)
  ∧ sp_manip params = Some json_getMsgManipulatorTest.
(** A service made with these parameters. *)
Definition serves params (so : NetServiceImpl) : Prop :=
  service_fixed so = (sp_receiver params, sp_msgProc params, sp_manip params).

Definition with_objects (m : gmap ServicePtr NetServiceImpl) w : W :=
  set_app (set_app_services (set_objects m (app_services (nw_app w))) (nw_app w)) w.

Lemma ready_new_service k p params so w :
  services w !! p = None → service_params params → serves params so →
  ready k w → ready k (with_objects (<[p := so]> (services w)) w).
Proof.
  intros Hp Hparams [= Er Em Ep] [Hi Hn Hk]. set (w' := with_objects _ w).
  assert (Hold : ∀ q so', services w !! q = Some so' → services w' !! q = Some so').
  { intros q so' Hq. unfold services, w'. simpl. rewrite lookup_insert_ne; [done|]. intros <-. congruence. }
  assert (Hok : ∀ o, start_ok w o → start_ok w' o).
  { intros []; simpl; try done.
    - intros [(so' & Es & ?) ?]. split; [|done]. exists so'. split; [by apply Hold|done].
    - intros [(so' & Es & ?) ?]. split; [|done]. exists so'. split; [by apply Hold|done]. }
  split; [|exact Hn|exact Hk]. split; try apply Hi.
  - intros q so'. unfold services at 1, w'. simpl. rewrite lookup_insert_Some.
    intros [[_ <-]|[_ Hq]]; [|by apply (k_services None w Hi q)].
    destruct Hparams as [Hrole Hman]. unfold lobby_service, broker_service. rewrite Er, Em, Ep. done.
  - intros q Hin. destruct (k_connectors None w Hi q Hin) as (so' & Es & Hso).
    exists so'. split; [by apply Hold|done].
  - intros o Hin. by apply Hok, (k_starts None w Hi).
Qed.

(** The registry of connectors. *)
Lemma ready_set_connectors k l w :
  (∀ p, Some p ∈ l → Some p ∈ s_connectors (app_services (nw_app w))
                     ∨ ∃ so, services w !! p = Some so ∧ broker_service so) →
  ready k w →
  ready k (set_app (set_app_services (set_connectors l (app_services (nw_app w))) (nw_app w)) w).
Proof.
  intros Hl [Hi Hn Hk]. split; [|exact Hn|exact Hk]. split; try apply Hi.
  intros p Hin. destruct (Hl p Hin) as [Hold|Hnew]; [by apply (k_connectors None w Hi)|done].
Qed.

Lemma sets_up_initHandler r p : keeps sets_up (call (er_initHandler (receiver_at r)) p).
Proof.
  revert r. apply (receiver_cases (λ er, keeps sets_up (call (er_initHandler er) p))).
  - rewrite receiver_lobby, service_receiver_eq. simpl. unfold LobbyAcceptorReceiver_initHandler. keeps_auto.
  - rewrite receiver_broker, service_receiver_eq. simpl. unfold BrokerConnector_initHandler. keeps_auto.
  - simpl. keeps_auto.
Qed.
Definition has_service params p w : Prop := ∃ so, services w !! p = Some so ∧ serves params so.
Lemma has_service_sets_up params p w w' : sets_up w w' → has_service params p w → has_service params p w'.
Proof.
  intros (_ & Hb & _) (so & Es & Hs). destruct (base_service' w w' Hb p so Es) as (so' & Es' & Ef).
  exists so'. split; [done|]. unfold serves in *. congruence.
Qed.
(** Both at once. *)
Definition ready_with k params p w : Prop := ready k w ∧ has_service params p w.
Lemma ready_with_sets_up k params p w w' :
  sets_up w w' → ready_with k params p w → ready_with k params p w'.
Proof. intros Hs []. split; [by apply (ready_sets_up k w)|by apply (has_service_sets_up params p w)]. Qed.

Lemma ensures_service_new params ks k w :
  service_params params → ready k w →
  ensures (NetServiceImpl_new (U := App) receiver_at params ks) w (λ w' p, ready_with k params p w').
Proof.
  intros Hparams Hw. unfold NetServiceImpl_new, ensures, get_services, upd_services. run_step.
  set (p := fresh _). set (so := mkNetServiceImpl _ _ _ _ _ _ _ _ _ _).
  assert (Hp : services w !! p = None) by (apply not_elem_of_dom, is_fresh).
  assert (Hso : serves params so) by done.
  pose proof (ready_new_service k p params so w Hp Hparams Hso Hw) as Hw1.
  set (w1 := with_objects _ w) in *.
  assert (Hs1 : has_service params p w1).
  { exists so. split; [|done]. unfold services, w1. simpl. apply lookup_insert_eq. }
  change (ensures (call (er_initHandler (service_receiver (receiver_at (sp_receiver params)))) (sp_msgProc params);;
    mret p) w1 (λ w' p, ready_with k params p w')).
  rewrite service_receiver_eq. apply sets_up_then; [apply sets_up_initHandler|]. intros _ w2 Hs2.
  by apply (ready_with_sets_up k params p w1).
Qed.

Lemma serves_lobby params so : lobby_params params → serves params so → lobby_service so.
Proof. intros (Er & Ep & _) [= Es Em _]. split; congruence. Qed.

(** Set-up code before code that needs the service. *)
Lemma ready_with_then {A B} (m : M W A) (g : A → M W B) k params p w P :
  keeps sets_up m → ready_with k params p w →
  (∀ a w', ready_with k params p w' → ensures (g a) w' P) → ensures (m ≫= g) w P.
Proof.
  intros Hm Hw Hg. apply sets_up_then; [done|]. intros a w' Hs. apply Hg. by apply (ready_with_sets_up k params p w).
Qed.

Lemma ensures_acceptWait hc p a s n params w k :
  k < 2 ^ 64 - 1 → lobby_params params → ready_with k params p w →
  ensures (acceptWait (U := App) hc p a s n) w (λ w' _, ready (k + 1) w').
Proof.
  intros Hk Hp Hw. unfold acceptWait. cbv zeta.
  do 8 (eapply ready_with_then; [keeps_auto|exact Hw|clear dependent w; intros ? w Hw]).
  destruct Hw as [[Hi Hn Hs] (so & Es & Hso)]. apply (serves_lobby params so Hp) in Hso.
  assert (Hmax : nw_identitySeed w < 2 ^ 64 - 1) by lia.
  pose proof (runs_next_accept None p so w Hi Hmax Es Hso) as Hr. apply runs_ensures in Hr.
  apply ensures_bind. unfold ensures in *. rewrite bind_run in Hr.
  destruct (create_conn p 0 w) as [w1 c|w1 e| |]; simpl in *; try done. destruct Hr as [Ha Hn1].
  assert (Hw1 : ready (k + 1) (set_pending (nw_pending w1 ++ [AcceptConn p c]) w1)).
  { split; [apply Ha|by apply Hn1|]. pose proof (a_seed _ _ _ Ha). simpl in *. lia. }
  set (w2 := set_pending _ w1) in *.
  eapply (ready_ends (o ← this_service p; _ ← addWorkerThreads_ios _ (ns_ios o); expireTimerReady p));
    [keeps_auto|exact Hw1].
Qed.

Lemma ensures_createAcceptor hc i params userParams w k :
  k < 2 ^ 64 - 1 → lobby_params params → ready k w →
  ensures (createAcceptor (U := App) receiver_at hc i params userParams) w (λ w' _, ready (k + 1) w').
Proof.
  intros Hk Hp Hw. unfold createAcceptor, NetServiceAcceptor_new.
  do 2 (eapply ready_then; [keeps_auto|exact Hw|clear dependent w; intros ? w Hw]).
  case_match; [apply (ready_mono k); [lia|done]|].
  eapply ensures_bind, ensures_mono; [apply ensures_service_new; [|exact Hw]|].
  { destruct Hp as (? & ? & ?). split; [by left|done]. }
  simpl. intros w1 p Hw1. clear dependent w.
  do 2 (eapply ready_with_then; [keeps_auto|exact Hw1|clear dependent w1; intros ? w1 Hw1]).
  eapply ensures_bind, ensures_mono; [by eapply ensures_acceptWait|]. simpl. intros w2 _ Hw2.
  eapply ready_ends; [keeps_auto|done].
Qed.

(** ** The connector *)
Definition broker_params params : Prop :=
  sp_receiver params = BROKER_RECEIVER ∧ sp_msgProc params = BROKER_MSGPROC
  ∧ sp_manip params = Some json_getMsgManipulatorTest.
Lemma serves_broker params so : broker_params params → serves params so → broker_service so.
Proof. intros (Er & Ep & _) [= Es Em _]. split; congruence. Qed.

Lemma ensures_connector_new params userParams w k :
  broker_params params → ready k w →
  ensures (NetServiceConnector_new (U := App) receiver_at params userParams) w
    (λ w' p, ready_with k params p w').
Proof.
  intros Hp Hw. unfold NetServiceConnector_new, setTargetServer, set_connector.
  eapply ensures_bind, ensures_mono; [apply ensures_service_new; [|exact Hw]|].
  { destruct Hp as (? & ? & ?). split; [by right|done]. }
  simpl. intros w1 p Hw1. eapply ready_with_then; [keeps_auto|exact Hw1|]. by intros _ w2 Hw2.
Qed.

Lemma resized_elem n (l : list (option ServicePtr)) p : Some p ∈ vector_resize n l → Some p ∈ l.
Proof.
  unfold vector_resize. rewrite elem_of_app. intros [?|Hin]; [done|].
  by apply elem_of_replicate in Hin as [[=] _].
Qed.

Lemma ensures_createConnector i params userParams w k :
  broker_params params → ready k w →
  ensures (createConnector (U := App) receiver_at i params userParams) w (λ w' _, ready k w').
Proof.
  intros Hp Hw. unfold createConnector.
  apply ensures_bind. unfold ensures at 1, upd_services. run_step.
  eapply ready_set_connectors in Hw; [|intros p Hin; left; by eapply resized_elem].
  eapply ready_then; [keeps_auto|exact Hw|]. clear dependent w. intros a w Hw.
  case_match; [exact Hw|]. clear dependent a.
  eapply ensures_bind, ensures_mono; [by apply ensures_connector_new|]. simpl. intros w1 p [Hw1 (so & Es & Hso)].
  clear dependent w. apply ensures_bind. unfold ensures at 1, upd_services. run_step.
  eapply (ready_set_connectors k (<[Z.to_nat i := Some p]> (s_connectors (app_services (nw_app w1))))) in Hw1.
  2:{ intros q Hin. apply list_elem_of_lookup in Hin as [j Hj].
      apply list_lookup_insert_Some in Hj as [(_ & [= <-] & _)|[_ Hj]].
      - right. exists so. split; [done|by eapply serves_broker].
      - left. by eapply list_elem_of_lookup_2. }
  eapply ready_then; [keeps_auto|exact Hw1|]. clear dependent w1. intros _ w Hw.
  eapply ready_ends; [keeps_auto|done].
Qed.

Lemma ensures_registConnector i setting w k :
  k < 2 ^ 64 - 1 → ready k w →
  ensures (registConnectorReceiver i setting) w (λ w' _, link_inv None w').
Proof.
  intros Hk Hw. unfold registConnectorReceiver.
  eapply ready_then; [keeps_auto|exact Hw|]. clear dependent w. intros active w Hw.
  destruct active; [|exact (r_link _ _ Hw)]. cbn [negb]. cbv zeta.
  eapply ensures_bind, ensures_mono; [by apply ensures_createConnector|]. simpl.
  clear dependent w. intros w connector [Hi Hn Hs].
  eapply ensures_bind, ensures_mono; [apply ensures_tryConnect; [done|done|lia]|]. by intros w' _ [].
Qed.

(** ** The start *)
Lemma ensures_registAcceptor hc i setting w k :
  k < 2 ^ 64 - 1 → ready k w →
  ensures (registAcceptorReceiver hc i setting) w (λ w' _, ready (k + 1) w').
Proof.
  intros Hk Hw. unfold registAcceptorReceiver.
  eapply ready_then; [keeps_auto|exact Hw|]. clear dependent w. intros active w Hw.
  destruct active; [|apply (ready_mono k); [lia|done]]. cbn [negb]. cbv zeta.
  eapply ensures_bind, ensures_mono; [by apply ensures_createAcceptor|]. simpl.
  clear dependent w. intros w acceptor Hw. eapply ready_ends; [keeps_auto|done].
Qed.

Lemma ensures_thread_broker hc w k :
  k < 2 ^ 64 - 2 → ready k w → ensures (ioServiceThread_broker hc) w (λ w' _, link_inv None w').
Proof.
  intros Hk Hw. unfold ioServiceThread_broker.
  eapply ready_then; [keeps_auto|exact Hw|]. clear dependent w. intros a w Hw.
  eapply ensures_bind, ensures_mono; [apply ensures_registAcceptor; [|exact Hw]; lia|]. simpl.
  clear dependent w. intros w lobbyAcceptor Hw.
  eapply ensures_bind, (ensures_mono _ _ (λ w' _, link_inv None w')).
  - destruct lobbyAcceptor; [|exact (r_link _ _ Hw)].
    eapply ensures_bind, ensures_mono; [eapply ensures_registConnector; [|exact Hw]; lia|]. by intros w' a' Hi.
  - clear dependent w. intros w _ Hi. eapply ensures_mono; [apply (linked_ends _ None); [keeps_auto|done]|].
    by intros w' a' [].
Qed.

Lemma link_inv_init : link_inv None (net_init App_init).
Proof.
  assert (Hc : ∀ c (cn : ConnectionImpl), nw_conns (net_init App_init) !! c ≠ Some cn)
    by (intros c cn; simpl; by rewrite lookup_empty).
  split; try (intros; by destruct (Hc _ _ ltac:(eassumption))); try done.
  - intros p Hin. by apply not_elem_of_nil in Hin.
  - intros c Hin. by apply not_elem_of_nil in Hin.
  - intros c c' (cn & E & _). by destruct (Hc c cn).
  - intros o Hin. by apply not_elem_of_nil in Hin.
Qed.

Lemma ensures_main_broker hc conf :
  ensures (main_broker hc conf) (net_init App_init) (λ w' _, link_inv None w').
Proof.
  assert (Hw : ready 1 (net_init App_init)).
  { split; [apply link_inv_init| |simpl; lia]. intros c (cn & E & _). simpl in E. by rewrite lookup_empty in E. }
  revert Hw. generalize (net_init App_init). intros w Hw.
  unfold main_broker, main_with, initLogService, publish_clientVersion, initTestInterface, on_test.
  eapply ready_then; [keeps_auto|exact Hw|]. clear dependent w. intros logs w Hw.
  case_match; [exact (r_link _ _ Hw)|].
  eapply ready_then; [by apply sets_up_app_state|exact Hw|]. clear dependent w. intros ok w Hw.
  case_match; [exact (r_link _ _ Hw)|].
  eapply ready_then; [|exact Hw|].
  { apply keeps_bind; [typeclasses eauto|keeps_auto|]. intros w'. case_match; keeps_auto. }
  clear dependent w. intros _ w Hw. eapply ready_then; [|exact Hw|].
  { do 2 (apply keeps_bind; [typeclasses eauto|keeps_auto|intros ?]). by apply sets_up_app_state. }
  clear dependent w. intros _ w Hw.
  eapply ensures_bind, ensures_mono; [eapply ensures_thread_broker; [|exact Hw]; lia|]. by intros w' r Hi.
Qed.
End Start.

(** ** Theorem *)
Section Typed.
Context `{FreshMemory} `{J : !Jsoncpp} `{!Sockets} `{!PropertyTree} `{!JsonLaws J}.
Local Abbreviation W := (NetWorld App).

(** The tag of a connection points to an object of the class its receiver
    takes it for, made for that connection. *)
Definition tag_typed w c (cn : ConnectionImpl) (t : TagPtr) : Prop :=
  match l_heap (lobby w) !! t with
  | Some (OUser u) => lobby_conn cn ∧ u_conn u = c
  | Some (OConnectorUser u) => broker_conn cn ∧ cu_conn u = c ∧ m_user (lobby w) = Some t
  | None => False
  end.
(** A connection to the broker that is attempted, or made. *)
Definition link_of w c : Prop :=
  ∃ cn, nw_conns w !! c = Some cn ∧ broker_conn cn
    ∧ (ci_status cn ≠ status_close ∨ ci_tag cn ≠ None
       ∨ ∃ p ep n, ConnectConn p ep c n ∈ nw_pending w).

Lemma link_of_busy w c : link_inv None w → link_of w c → busy w c.
Proof.
  intros Hi (cn & E & Hr & Hc). exists cn. split_and!; [done..|].
  destruct Hc as [Hs|[Ht|(p & ep & n & Hin)]]; [left; by apply (k_open None w Hi c)|by left|].
  right. eexists. split; [exact Hin|]. simpl. by rewrite bool_decide_true.
Qed.
Lemma link_inv_tag w c cn t :
  link_inv None w → nw_conns w !! c = Some cn → ci_tag cn = Some t → tag_typed w c cn t.
Proof.
  intros Hi E Et. unfold tag_typed. destruct (k_role None w Hi c cn E) as [[Hr|Hr] _].
  - assert (Hc : lobby_at w c = true) by (apply lobby_at_conn; exists cn; split; [done|apply Hr]).
    destruct (lobby_entry None w c Hc Hi) as (e & He & _ & Hv).
    pose proof He as (cn' & E' & ->)%observed_conn. rewrite E in E'. injection E' as <-.
    unfold entry_of in Hv. rewrite Et in Hv.
    destruct (uo_tag _ (k_users None w Hi) _ _ _ _ Hv) as [(u & Hu & Huc) _].
    change (l_heap (lobby w) !! t = Some (OUser u)) in Hu. by rewrite Hu.
  - destruct (k_linked None w Hi c cn t E Hr Et) as [Hm (u & Hu & Huc)]. by rewrite Hu.
Qed.
Lemma link_inv_users w i c : link_inv None w → m_users (lobby w) !! i = Some c ↔ has_user w c i.
Proof.
  intros Hi. pose proof (k_users None w Hi) as Hu. split.
  - intros Hm. destruct (uo_users _ Hu i c Hm) as (p & m & Hc).
    destruct (uo_tag _ Hu _ _ _ _ Hc) as [(u & Hp & Huc) _].
    unfold lobby_view in Hc. rewrite restrict_lookup in Hc. destruct (lobby_at w c); [|done].
    destruct (observed_conn c w _ Hc) as (cn & Ec & [= Et Eid _]). exists cn, p, u. by split_and!.
  - intros (cn & p & u & Ec & <- & Et & Hp & Huc).
    pose proof (link_inv_tag w c cn p Hi Ec Et) as Ht. unfold tag_typed, lobby in Ht. rewrite Hp in Ht.
    destruct Ht as [Hr _].
    assert (Hc : lobby_at w c = true) by (apply lobby_at_conn; exists cn; split; [done|apply Hr]).
    destruct (lobby_entry None w c Hc Hi) as (e & He & _ & Hv).
    pose proof He as (cn' & E' & ->)%observed_conn. rewrite Ec in E'. injection E' as <-.
    unfold entry_of in Hv. rewrite Et in Hv. by destruct (uo_tag _ Hu _ _ _ _ Hv) as [_ ?].
Qed.

(** C4. A server built to use a broker, in every state it reaches, whatever its clients and the
    broker send and in whatever order operations complete: the tag of a connection points to an
    object made for that connection, of the class its receiver casts it to, and the one of the
    broker is the static user; a connection to the broker is not open without that user; at most
    one such connection is attempted or made; and the map of users has exactly the connections
    that carry a client. *)
Theorem broker_server_typed hc conf w0 code w n jv :
  greeting = Some (n, jv) → zlen (text jv) < 30000 →
  main_broker hc conf (net_init App_init) = Done w0 code → rtc server_step w0 w →
  (∀ c cn t, nw_conns w !! c = Some cn → ci_tag cn = Some t → tag_typed w c cn t)
  ∧ (∀ c cn, nw_conns w !! c = Some cn → broker_conn cn → ci_status cn ≠ status_close →
       ci_tag cn ≠ None)
  ∧ (∀ c c', link_of w c → link_of w c' → c = c')
  ∧ (∀ i c, m_users (lobby w) !! i = Some c ↔ has_user w c i).
Proof.
  intros Hg Hs Hm Hr. pose proof (ensures_main_broker hc conf) as He. unfold ensures in He. rewrite Hm in He.
  pose proof (keeps_main_broker hc conf (net_init App_init)) as Hk. rewrite Hm in Hk.
  assert (Hni : net_inv w0) by (eapply frames_inv; [exact Hk|apply net_init_inv]).
  destruct (link_inv_steps n jv Hg Hs w0 w Hr Hni He) as [_ Hi]. split_and!.
  - intros c cn t E Et. by apply link_inv_tag.
  - intros c cn E Hb Hst. by apply (k_open None w Hi c).
  - intros c c' Hc%link_of_busy Hc'%link_of_busy; [by apply (k_single None w Hi)|done..].
  - intros i c. by apply link_inv_users.
Qed.
End Typed.

(** ** Witness: the demonstration server reaches its broker *)
Section Witness.
Import ServerDemo.
#[local] Instance json_laws : JsonLaws json := DemoJson.demo_laws texts.

Definition broker_linked (w : NetWorld App) : bool :=
  match nw_conns w !! 1%N with
  | Some cn => bool_decide (ci_tag cn = Some 0%N ∧ ci_status cn = status_open)
               && bool_decide (ci_eventReceiver cn = Some BROKER_RECEIVER)
               && bool_decide (ci_msgProc cn = BROKER_MSGPROC)
  | None => false
  end.
(** The connect completes. *)
Definition linked_broker (w0 : NetWorld App) : bool :=
  match exec_completion receiver_at msgProc_at 3 Demo.ok w0 with
  | Some (Done w _) => broker_linked w
  | _ => false
  end.

Lemma broker_server_typed_witness :
  ∃ w0 w cn, main_broker 4 "chase_lobby.xml" (net_init App_init) = Done w0 1
    ∧ rtc server_step w0 w ∧ nw_conns w !! 1%N = Some cn ∧ tag_typed w 1%N cn 0%N.
Proof.
  assert (Hg : short_greeting = true) by (vm_compute; reflexivity).
  unfold short_greeting in Hg.
  destruct greeting as [[n jv]|] eqn:Eg; [apply Z.ltb_lt in Hg|discriminate].
  assert (Hs : match main_broker 4 "chase_lobby.xml" (net_init App_init) with
               | Done w0 code => (code =? 1) && (nw_identitySeed w0 <? 2 ^ 64 - 1) && linked_broker w0
               | _ => false
               end = true) by (vm_compute; reflexivity).
  destruct (main_broker 4 "chase_lobby.xml" (net_init App_init)) as [w0 code| | |] eqn:Em; [|discriminate Hs..].
  apply andb_true_iff in Hs as [[Hcode Hseed]%andb_true_iff Hone].
  apply Z.eqb_eq in Hcode. apply Z.ltb_lt in Hseed. subst code. unfold linked_broker in Hone.
  destruct (exec_completion receiver_at msgProc_at 3 Demo.ok w0) as [[w []| | |]|] eqn:Ew;
    [|discriminate Hone..].
  unfold broker_linked in Hone. destruct (nw_conns w !! 1%N) as [cn|] eqn:Ec; [|discriminate Hone].
  apply andb_true_iff in Hone as [[[Ht _]%bool_decide_eq_true _]%andb_true_iff _].
  pose proof (rtc_once _ _ (exec_completion_step 3 Demo.ok w0 w Ew Hseed)) as Hr.
  exists w0, w, cn. split; [exact eq_refl|]. split; [exact Hr|]. split; [exact Ec|].
  exact (proj1 (broker_server_typed 4 "chase_lobby.xml" w0 1 w n jv Eg Hg Em Hr) 1%N cn 0%N Ec Ht).
Defined.
End Witness.
