(* ===== verification/BrokerRequests.v ===== *)
(** * Requests of the broker

    What [BrokerConnector::dispatch] does with a JSON value from the broker, as
    a function on views ([v_broker_request]): whom a message goes to is decided
    by [broker_route] from the maps of the lobby.  The code refines it for
    every URL and every value: a value that lacks what a handler reads leaves
    the lobby as it was.  In the other direction [v_chat] says what of a chat
    request of a client [nh_chat::sendMsg] passes on to the broker, and when that
    is undefined. *)
From stdpp Require Import gmap strings list sorting.
From coqutil Require Import Byte.
From S2P Require Import Prelude.
From S2P Require Import Connection.
From S2P Require Import MlnUtils.
From S2P Require Import Json.
From S2P Require Import LobbyState.
From S2P Require Import LobbyUser.
From S2P Require Import LobbyUserManager.
From S2P Require Import LobbyHandlers.
From S2P Require Import BrokerConnector.
From S2P Require Import LobbyAcceptorReceiver.
From S2P Require Import LobbySpec.
From S2P Require Import LobbyUsersSpec.
From S2P Require Import IoService.
From S2P Require Import ConnectionImpl.
From S2P Require Import Server.
From S2P Require Import ServerDemo.
From S2P Require Import LobbyRefinement.
From S2P Require Import LobbyProperties.
#[local] Open Scope Z_scope.

(** ** The specification *)
Section Spec.
Context `{FreshMemory} `{J : Jsoncpp}.

(** The connections a message goes to, and the URL and the value it has there;
    [None] when the value lacks what is needed to decide that. *)
Definition broker_route (h : broker_handler) (jv : Value) (l : LobbyState)
    : option (list ConnPtr * string * Value) :=
  match h with
  | ConnectorHandler_auth | ConnectorHandler_loginedUser => None
  | ConnectorHandler_isOnline =>
      jv ← json_set RSP_RC (json_int 0) jv;
      jv ← json_set RSP_RM (json_string RSP_OK) jv;
      '(seq, jv) ← member_at "pkSeq" jv;
      jv ← json_set RSP_SEQ seq jv;
      '(v, jv) ← member_at "identity" jv;
      i ← json_asUInt64 v;
      Some (option_list (m_users l !! i), "/friend/list", jv)
  | ConnectorHandler_chatSendMsg =>
      '(v, jv) ← member_at "identity" jv;
      i ← json_asUInt64 v;
      Some (option_list (m_users l !! i), "/chat/sendMsg", jv)
  | ConnectorHandler_chatReceiveMsg =>
      '(v, jv) ← member_at "channelType" jv;
      channel ← json_asInt v;
      if channel =? 1 then Some (snd <$> users_in_order (m_users l), "/chat/receiveMsg", jv)
      else if channel =? 2 then
        '(v, jv) ← member_at "addition_toIDX" jv;
        idx ← json_asUInt v;
        Some (option_list (i ← m_nodeToUserMap l !! idx; m_users l !! i), "/chat/receiveMsg", jv)
      else None
  end.

(** The same packet to each of some connections, if it can be made. *)
Definition v_relay (cs : list ConnPtr) (url : string) (jv : Value) (v : LobbyView) : LobbyView :=
  match sent_value jv with
  | Some (n, jv') =>
      v_add_sent ((λ c, (c, wire (lobby_packet n (string_bytes url) (text jv')))) <$> cs) v
  | None => v
  end.
Definition server_index (jv : Value) : option Z :=
  '(v, _) ← member_at "serverIDX" jv; json_asUInt v.

Definition v_broker_request (h : broker_handler) (jv : Value) (v : LobbyView) : LobbyView :=
  match h with
  | ConnectorHandler_auth =>
      match server_index jv with
      | Some idx => v_upd_lobby (set_idx4Broker idx) v
      | None => v
      end
  | _ => match broker_route h jv (v_lobby v) with
         | Some (cs, url, jv') => v_relay cs url jv' v
         | None => v
         end
  end.

(** What is sent fits a packet, and sending it again sends the same. *)
Definition settles (jv : Value) : Prop :=
  ∀ n jv', sent_value jv = Some (n, jv') → sent_value jv' = Some (n, jv') ∧ zlen (text jv') < 30000.
End Spec.

(** ** Refinement *)
Section Calculus.
Context `{FreshMemory} `{J : Jsoncpp} {W : Type} `{CS : ConnectionSpec W}.
Implicit Types (w : W) (c : ConnPtr) (v : LobbyView).

(** [m] ends, normally or by an exception, in a world with the view [v], or, for
    [None], does something undefined. *)
Definition goes {A} (m : M (Value * W) A) (jv : Value) w (o : option LobbyView) : Prop :=
  match o with
  | Some v => ∃ jv' w', ((∃ a, m (jv, w) = Done (jv', w') a) ∨ (∃ e, m (jv, w) = Threw (jv', w') e))
                ∧ observe w' = v
  | None => ∃ why, m (jv, w) = Undef why
  end.
#[local] Arguments goes : simpl never.
#[local] Notation "'leaves' m jv w v" := (goes m jv w (Some v))
  (at level 10, m at level 9, jv at level 9, w at level 9, v at level 9, only parsing).

Lemma leaves_ret {A} (a : A) jv w : leaves (mret a) jv w (observe w).
Proof. exists jv, w. eauto. Qed.
Lemma leaves_throw {A} e jv w : leaves (throw (A := A) e) jv w (observe w).
Proof. exists jv, w. eauto. Qed.
Lemma leaves_yields {A} (m : M (Value * W) A) jv w jv' a v : yields_local m jv w jv' a v → leaves m jv w v.
Proof. intros (w' & E & O). exists jv', w'. eauto. Qed.
Lemma goes_run {A B} (m : M (Value * W) A) (k : A → M (Value * W) B) jv w jv1 w1 a o :
  m (jv, w) = Done (jv1, w1) a → goes (k a) jv1 w1 o → goes (m ≫= k) jv w o.
Proof. intros E. unfold goes. by rewrite bind_run, E. Qed.
Lemma goes_bind {A B} (m : M (Value * W) A) (k : A → M (Value * W) B) jv w jv1 a v1 o :
  yields_local m jv w jv1 a v1 → (∀ w', observe w' = v1 → goes (k a) jv1 w' o) →
  goes (m ≫= k) jv w o.
Proof. intros (w1 & E1 & O1) Hk. by eapply goes_run, Hk. Qed.

(** [m] throws and leaves the view as it was. *)
Definition throws {A} (m : M (Value * W) A) (jv : Value) w : Prop :=
  ∃ jv' w' e, m (jv, w) = Threw (jv', w') e ∧ observe w' = observe w.

Lemma throws_bad_json {A} (m : M (Value * W) A) jv w : bad_json (m (jv, w)) w → throws m jv w.
Proof. intros [jv' E]. by exists jv', w, bad_value. Qed.
Lemma throws_first {A B} (m : M (Value * W) A) (k : A → M (Value * W) B) jv w :
  throws m jv w → throws (m ≫= k) jv w.
Proof. intros (jv' & w' & e & E & O). exists jv', w', e. by rewrite bind_run, E. Qed.
Lemma throws_bind {A B} (m : M (Value * W) A) (k : A → M (Value * W) B) jv w jv1 a :
  yields_local m jv w jv1 a (observe w) →
  (∀ w', observe w' = observe w → throws (k a) jv1 w') → throws (m ≫= k) jv w.
Proof.
  intros (w1 & E1 & O1) Hk. destruct (Hk w1 O1) as (jv2 & w2 & e & E2 & O2).
  exists jv2, w2, e. rewrite bind_run, E1. split; [done|congruence].
Qed.
Lemma leaves_threw {A} (m : M (Value * W) A) jv w : throws m jv w → leaves m jv w (observe w).
Proof. intros (jv' & w' & e & E & O). exists jv', w'. eauto. Qed.

Lemma goes_member {B} key (k : Value → M (Value * W) B) jv w o :
  match member_at key jv with
  | Some (x, jv') => goes (k x) jv' w o
  | None => o = Some (observe w)
  end →
  goes (json_at key ≫= k) jv w o.
Proof.
  pose proof (json_at_member key jv w) as Hm. destruct (member_at key jv) as [[x jv']|].
  - by eapply goes_run.
  - intros ->. by apply leaves_threw, throws_first, throws_bad_json.
Qed.
Lemma goes_conv {A B} (f : Value → option A) x (k : A → M (Value * W) B) jv w o :
  match f x with Some a => goes (k a) jv w o | None => o = Some (observe w) end →
  goes (json_conv f x ≫= k) jv w o.
Proof.
  unfold json_conv. destruct (f x) as [a|]; [done|]. intros ->. apply leaves_threw, throws_first, throws_bad_json. by exists jv.
Qed.
Lemma goes_assign {B} key x (k : unit → M (Value * W) B) jv w o :
  match json_set key x jv with Some jv' => goes (k tt) jv' w o | None => o = Some (observe w) end →
  goes (json_assign key x ≫= k) jv w o.
Proof.
  destruct (json_set key x jv) as [jv'|] eqn:E.
  - by apply goes_run, json_assign_run.
  - intros ->. apply leaves_threw, throws_first, throws_bad_json. exists jv. unfold json_assign. rewrite on_fst_run. run_step. by rewrite E.
Qed.
End Calculus.
#[local] Arguments goes : simpl never.
#[local] Notation "'leaves' m jv w v" := (goes m jv w (Some v))
  (at level 10, m at level 9, jv at level 9, w at level 9, v at level 9, only parsing).

(** One step of a handler and of its specification: the value [x] that both
    of them ask for is there or not. *)
Local Ltac decided x :=
  let E := fresh "E" in
  destruct x as [?|] eqn:E; cbn [mbind option_bind]; [|done];
  repeat match goal with
  | Hs : context [x] |- _ => lazymatch Hs with E => fail | _ => rewrite E in Hs end
  end;
  try match goal with Hs : ∀ _, _ |- _ => progress cbn [mbind option_bind] in Hs end.
Local Ltac step :=
  match goal with
  | |- goes (json_at ?k ≫= _) ?jv _ _ =>
      apply goes_member; decided (member_at k jv);
      match goal with p : Value * Value |- _ => destruct p end; cbn [mbind option_bind] in *
  | |- goes (json_conv ?f ?x ≫= _) _ _ _ => apply goes_conv; decided (f x)
  | |- goes (json_assign ?k ?x ≫= _) ?jv _ _ => apply goes_assign; decided (json_set k x jv)
  end.

(** ** The senders *)
Section Handlers.
Context `{FreshMemory} `{J : Jsoncpp} {W : Type} `{CS : ConnectionSpec W} `{!LocalTime W}.
Implicit Types (w : W) (c : ConnPtr) (v : LobbyView).

Lemma throws_send_to i c url jv w :
  registered (observe w) → m_users (v_lobby (observe w)) !! i = Some c → sent_value jv = None →
  throws (send_to c (λ _, mret tt) url) jv w.
Proof.
  intros Hv Hi Es. destruct (Hv _ _ Hi) as (p & m & u & Hc & Hu & Hcu).
  unfold send_to.
  eapply throws_bind; [apply yields_on_snd, yields_weak_lock; by rewrite Hc|]. y_next w1.
  eapply throws_bind; [by eapply yields_on_snd, yields_getTag|]. y_next w2.
  eapply throws_bind; [apply yields_on_snd, yields_ret|]. y_next w3.
  apply throws_first. unfold User_SendJsonPacket. apply throws_first, throws_bad_json.
  pose proof (send_prologue_run jv w3) as Hp. by rewrite Es in Hp.
Qed.
Lemma leaves_send_to i c url jv w :
  registered (observe w) → m_users (v_lobby (observe w)) !! i = Some c →
  zlen (string_bytes url) ≤ 32 → settles jv →
  leaves (send_to c (λ _, mret tt) url) jv w (v_relay [c] url jv (observe w)).
Proof.
  intros Hv Hi Hurl Hs. destruct (Hv _ _ Hi) as (p & m & u & Hc & Hu & Hcu).
  unfold v_relay. destruct (sent_value jv) as [[n jv']|] eqn:Es.
  - destruct (Hs n jv' Es) as [_ Ht]. eapply leaves_yields. by eapply yields_send_to.
  - by eapply leaves_threw, throws_send_to.
Qed.

Lemma v_relay_nil url jv v : v_relay [] url jv v = v.
Proof. unfold v_relay. destruct (sent_value jv) as [[]|]; [apply v_add_sent_nil|done]. Qed.

Lemma leaves_send_to_each conns url jv w :
  registered (observe w) → (∀ c, c ∈ conns → ∃ i, m_users (v_lobby (observe w)) !! i = Some c) →
  zlen (string_bytes url) ≤ 32 → (conns ≠ [] → settles jv) →
  leaves (send_to_each conns url) jv w (v_relay conns url jv (observe w)).
Proof.
  intros Hv Hin Hurl Hs. destruct conns as [|c conns].
  { rewrite v_relay_nil. apply leaves_ret. }
  specialize (Hs ltac:(done)). destruct (Hin c) as [i Hi]; [by left|].
  destruct (Hv _ _ Hi) as (p & m & u & Hc & Hu & Hcu).
  simpl. unfold v_relay. destruct (sent_value jv) as [[n jv']|] eqn:Es.
  - destruct (Hs n jv' Es) as [Hstable Ht].
    eapply goes_bind; [by eapply yields_send_to|]. intros w1 E1. cbn [fmap list_fmap].
    rewrite v_add_sent_cons, <- E1. eapply leaves_yields, yields_send_to_each; rewrite ?E1; try done.
    intros c' Hc'. apply Hin. by right.
  - by eapply leaves_threw, throws_first, throws_send_to.
Qed.

(** One user at most. *)
Lemma leaves_lookup_send o i url jv w :
  registered (observe w) → (∀ c, o = Some c → m_users (v_lobby (observe w)) !! i = Some c) →
  zlen (string_bytes url) ≤ 32 → (option_list o ≠ [] → settles jv) →
  leaves (match o with None => mret tt | Some c => send_to c (λ _, mret tt) url end) jv w
    (v_relay (option_list o) url jv (observe w)).
Proof.
  intros Hv Ho Hurl Hs. destruct o as [c|]; simpl.
  - eapply leaves_send_to; eauto.
  - rewrite v_relay_nil. apply leaves_ret.
Qed.
Lemma leaves_sendPacketFromBroker i url jv w :
  registered (observe w) → zlen (string_bytes url) ≤ 32 →
  (option_list (m_users (v_lobby (observe w)) !! i) ≠ [] → settles jv) →
  leaves (sendPacketFromBroker i url (λ _, mret tt)) jv w
    (v_relay (option_list (m_users (v_lobby (observe w)) !! i)) url jv (observe w)).
Proof.
  intros Hv Hurl Hs. unfold sendPacketFromBroker.
  eapply goes_bind; [apply yields_on_snd, yields_get_lobby|]. y_next w1.
  by apply (leaves_lookup_send _ i).
Qed.
Lemma leaves_sendPacketFromBroker_byUserIDX idx url jv w :
  registered (observe w) → zlen (string_bytes url) ≤ 32 →
  (option_list (i ← m_nodeToUserMap (v_lobby (observe w)) !! idx; m_users (v_lobby (observe w)) !! i) ≠ [] →
   settles jv) →
  leaves (sendPacketFromBroker_byUserIDX idx url) jv w
    (v_relay (option_list (i ← m_nodeToUserMap (v_lobby (observe w)) !! idx;
                           m_users (v_lobby (observe w)) !! i)) url jv (observe w)).
Proof.
  intros Hv Hurl Hs. unfold sendPacketFromBroker_byUserIDX.
  eapply goes_bind; [apply yields_on_snd, yields_get_lobby|]. y_next w1.
  destruct (m_nodeToUserMap _ !! idx) as [i|]; simpl in *.
  - by apply (leaves_lookup_send _ i).
  - rewrite v_relay_nil. apply leaves_ret.
Qed.
Lemma leaves_sendPacketFromBroker_All url jv w :
  registered (observe w) → zlen (string_bytes url) ≤ 32 →
  (snd <$> users_in_order (m_users (v_lobby (observe w))) ≠ [] → settles jv) →
  leaves (sendPacketFromBroker_All url) jv w
    (v_relay (snd <$> users_in_order (m_users (v_lobby (observe w)))) url jv (observe w)).
Proof.
  intros Hv Hurl Hs. unfold sendPacketFromBroker_All.
  eapply goes_bind; [apply yields_on_snd, yields_get_lobby|]. y_next w1.
  apply leaves_send_to_each; [done| |done..]. intros c. apply users_in_order_elem.
Qed.


(** ** The handlers *)
(** What a handler needs of the values it relays. *)
Definition relays_settle (h : broker_handler) (jv : Value) v : Prop :=
  ∀ cs url jv', broker_route h jv (v_lobby v) = Some (cs, url, jv') → cs ≠ [] → settles jv'.

Lemma leaves_auth conn url jv w :
  leaves (auth conn url) jv w (v_broker_request ConnectorHandler_auth jv (observe w)).
Proof.
  unfold auth, v_broker_request, server_index. do 2 step.
  eapply leaves_yields, yields_on_snd, yields_upd_lobby.
Qed.
Lemma leaves_loginedUser conn url jv w :
  registered (observe w) →
  leaves (loginedUser conn url) jv w (v_broker_request ConnectorHandler_loginedUser jv (observe w)).
Proof.
  intros Hv. unfold loginedUser, v_broker_request, broker_route. do 2 step.
  assert (Hget : ∀ i, yields (getUser i) w (m_users (v_lobby (observe w)) !! i) (observe w)).
  { intros i. unfold getUser. eapply yields_bind; [apply yields_get_lobby|]. intros w1 <-.
    apply yields_ret. }
  eapply goes_bind; [apply yields_on_snd, Hget|]. y_next w1.
  destruct (m_users _ !! _) as [c|] eqn:Ei; [|apply leaves_ret].
  destruct (Hv _ _ Ei) as (p & m & u & Hc & _).
  eapply goes_bind; [apply yields_on_snd, yields_weak_lock; by rewrite Hc|]. y_next w2.
  apply leaves_ret.
Qed.
Lemma leaves_isOnline conn url jv w :
  registered (observe w) → relays_settle ConnectorHandler_isOnline jv (observe w) →
  leaves (isOnline conn url) jv w (v_broker_request ConnectorHandler_isOnline jv (observe w)).
Proof.
  intros Hv Hs. unfold isOnline. unfold v_broker_request, relays_settle, broker_route in *.
  do 6 step. apply leaves_sendPacketFromBroker; [done|vm_compute; discriminate|by eapply Hs].
Qed.
Lemma leaves_chatSendMsg conn url jv w :
  registered (observe w) → relays_settle ConnectorHandler_chatSendMsg jv (observe w) →
  leaves (chatSendMsg conn url) jv w (v_broker_request ConnectorHandler_chatSendMsg jv (observe w)).
Proof.
  intros Hv Hs. unfold chatSendMsg. unfold v_broker_request, relays_settle, broker_route in *.
  do 2 step. apply leaves_sendPacketFromBroker; [done|vm_compute; discriminate|by eapply Hs].
Qed.
Lemma leaves_chatReceiveMsg conn url jv w :
  registered (observe w) → relays_settle ConnectorHandler_chatReceiveMsg jv (observe w) →
  leaves (chatReceiveMsg conn url) jv w
    (v_broker_request ConnectorHandler_chatReceiveMsg jv (observe w)).
Proof.
  intros Hv Hs. unfold chatReceiveMsg. unfold v_broker_request, relays_settle, broker_route in *.
  do 2 step. destruct (_ =? 1).
  { apply leaves_sendPacketFromBroker_All; [done|vm_compute; discriminate|by eapply Hs]. }
  destruct (_ =? 2); [|apply leaves_ret]. do 2 step.
  apply leaves_sendPacketFromBroker_byUserIDX; [done|vm_compute; discriminate|by eapply Hs].
Qed.

Lemma leaves_broker_handler h conn url jv w :
  registered (observe w) → relays_settle h jv (observe w) →
  leaves (run_broker_handler h conn url) jv w (v_broker_request h jv (observe w)).
Proof.
  intros Hv Hs. destruct h; simpl.
  - apply leaves_auth.
  - by apply leaves_loginedUser.
  - by apply leaves_isOnline.
  - by apply leaves_chatSendMsg.
  - by apply leaves_chatReceiveMsg.
Qed.

Lemma v_broker_request_ok h jv v : registered v → registered (v_broker_request h jv v).
Proof.
  intros Hv. unfold v_broker_request, v_relay.
  destruct h; repeat case_match; try done; exact Hv.
Qed.

(** C12. A JSON value from the broker does exactly what its URL and its members say: a chat message
    goes to every user, to the user with the index it names, or to the connection with the identity
    it names, as one packet each; the answer of the broker to the log-in sets the index of the
    server; any other URL, and a value that lacks a member the handler reads, does nothing.  No
    exception leaves the dispatch, and the users stay well formed. *)
Theorem broker_requests_refine conn url jv w :
  registered (observe w) →
  (∀ h, broker_URLs (v_lobby (observe w)) !! url = Some h → relays_settle h jv (observe w)) →
  ∃ w', with_json jv (BrokerConnector_dispatch conn url) w = Done w' tt
    ∧ observe w' = match broker_URLs (v_lobby (observe w)) !! url with
                   | Some h => v_broker_request h jv (observe w)
                   | None => observe w
                   end
    ∧ registered (observe w').
Proof.
  intros Hv Hs.
  assert (Hd : ∃ jv' w', BrokerConnector_dispatch conn url (jv, w) = Done (jv', w') tt
    ∧ observe w' = match broker_URLs (v_lobby (observe w)) !! url with
                   | Some h => v_broker_request h jv (observe w)
                   | None => observe w
                   end).
  { unfold BrokerConnector_dispatch.
    destruct (yields_get_lobby w) as (w1 & E & O).
    rewrite bind_run, on_snd_run, E. cbn [map_state bind_outcome].
    destruct (broker_URLs _ !! url) as [h|]; [|by exists jv, w1]. rewrite <- O in *.
    destruct (leaves_broker_handler h conn url jv w1 Hv (Hs h eq_refl)) as (jv' & w' & Hc & O').
    exists jv', w'. split; [|done]. unfold try_catch. by destruct Hc as [[[] ->]|[e ->]]. }
  destruct Hd as (jv' & w' & E & O). exists w'. split_and!; [|done|].
  - unfold with_json, with_local. run_step. by rewrite E.
  - rewrite O. destruct (broker_URLs _ !! url); [by apply v_broker_request_ok|done].
Qed.
End Handlers.

(** ** Messages to the broker *)
Section Chat.
Context `{FreshMemory} `{J : Jsoncpp}.

(** A request that [nh_chat::sendMsg] passes on: there is a message, and a name
    of two characters if it is for one user. *)
Definition chat_accepted (jv : Value) : option Value :=
  '(msg, jv) ← member_at "msg" jv;
  msg ← json_asString msg;
  if bool_decide (msg = "") then None
  else
    '(channel, jv) ← member_at "channelType" jv;
    channel ← json_asInt channel;
    if 2 =? channel
    then '(to, jv) ← member_at "to" jv; to ← json_asString to;
         if (String.length to <? 2)%nat then None else Some jv
    else Some jv.
(** What it sends for the user [u] with the identity [i] at the time [t]. *)
Definition chat_value (u : User) (i t : Z) (l : LobbyState) (jv : Value) : option Value :=
  jv ← json_set "addition_fromIDX" (json_uint (u_userIDX u)) jv;
  jv ← json_set "addition_fromSVR" (json_uint (g_idx4Broker l)) jv;
  jv ← json_set "from" (json_string (u_userID u)) jv;
  '(seq, jv) ← member_at RSP_SEQ jv;
  jv ← json_set "seq" seq jv;
  jv ← json_set "sendTime" (json_uint64 (u64 t)) jv;
  json_set "identity" (json_uint (u32 i)) jv.
Definition chat_message (u : User) (i t : Z) (l : LobbyState) (jv : Value) : option Value :=
  jv ← chat_accepted jv; chat_value u i t l jv.

(** What is sent to the broker.  Without a broker that is nothing.  It is undefined
    if the object [m_user] points to is gone, or if the text is longer than the
    structure it is copied to. *)
Definition v_to_broker (url : string) (jv : Value) (v : LobbyView) : option LobbyView :=
  match m_user (v_lobby v) with
  | None => Some v
  | Some p =>
      match l_heap (v_lobby v) !! p with
      | Some (OConnectorUser b) =>
          if zlen (text jv) <=? 4000
          then Some (v_add_sent [(cu_conn b, wire (broker_packet (string_bytes url) (text jv)))] v)
          else None
      | _ => None
      end
  end.
Definition v_chat (u : User) (i t : Z) (jv : Value) (v : LobbyView) : option LobbyView :=
  match chat_message u i t (v_lobby v) jv with
  | Some jv' => v_to_broker "/chatSendMsg" jv' v
  | None => Some v
  end.
End Chat.

Section ChatRefinement.
Context `{FreshMemory} `{J : Jsoncpp} {W : Type} `{CS : ConnectionSpec W} `{!LocalTime W}.
Implicit Types (w : W) (c : ConnPtr) (v : LobbyView).

(** The object of the broker, while it is there, has its connection. *)
Definition broker_conn_ok v : Prop :=
  ∀ p b, m_user (v_lobby v) = Some p → l_heap (v_lobby v) !! p = Some (OConnectorUser b) →
  ∃ e, v_conns v !! cu_conn b = Some e ∧ framed e.

Lemma goes_assoc {A B C} (m : M (Value * W) A) (f : A → M (Value * W) B) (g : B → M (Value * W) C) jv w o :
  goes (m ≫= λ a, f a ≫= g) jv w o → goes ((m ≫= f) ≫= g) jv w o.
Proof. unfold goes. by rewrite bind_assoc. Qed.
Lemma goes_undef {A B} (m : M (Value * W) A) (k : A → M (Value * W) B) jv w :
  (∃ why, m (jv, w) = Undef why) → goes (m ≫= k) jv w None.
Proof. intros [why E]. exists why. by rewrite bind_run, E. Qed.

Lemma goes_to_broker url jv w :
  broker_conn_ok (observe w) → zlen (string_bytes url) ≤ 32 →
  goes (_ ← BrokerConnector_sendJsonPacket url; mret tt) jv w (v_to_broker url jv (observe w)).
Proof.
  intros Hb Hurl. unfold BrokerConnector_sendJsonPacket, v_to_broker.
  apply goes_assoc. eapply goes_bind; [apply yields_on_snd, yields_get_lobby|]. y_next w1.
  destruct (m_user (v_lobby (observe w1))) as [p|] eqn:Em; simpl; [|apply leaves_ret].
  destruct (l_heap _ !! p) as [[u|b]|] eqn:Hp;
    [apply goes_undef, broker_packet_dangling; [congruence|done]| |
     apply goes_undef, broker_packet_dangling; [congruence|done]].
  destruct (Z.leb_spec (zlen (text jv)) 4000) as [Ht|Ht].
  - destruct (Hb p b Em Hp) as (e & Hc & Hf).
    eapply goes_bind; [by eapply yields_broker_packet|]. intros w2 <-. apply leaves_ret.
  - apply goes_undef. eexists. by apply broker_packet_overrun.
Qed.

(** The hypotheses on a request: it comes from a user. *)
Context (c : ConnPtr) (p : TagPtr) (u : User) (e : ConnEntry) (t : Z).
Definition chat_ready v : Prop :=
  v_conns v !! c = Some e ∧ e_tag e = Some p ∧ user_at p u v ∧ u_conn u = c ∧ broker_conn_ok v.

(** Calls that leave the world itself alone, so that the clock is read in the
    world the request comes in. *)
Lemma get_lobby_run w : get_lobby w = Done w (v_lobby (observe w)).
Proof. unfold get_lobby. run_step. by rewrite cs_lobby. Qed.
Lemma on_get_lobby_run (jv : Value) w : on_snd get_lobby (jv, w) = Done (jv, w) (v_lobby (observe w)).
Proof. by rewrite on_snd_run, get_lobby_run. Qed.
Lemma on_this_user_run (jv : Value) w :
  user_at p u (observe w) → on_snd (this_user p) (jv, w) = Done (jv, w) u.
Proof. intros [Hp _]. unfold this_user. rewrite on_snd_run, bind_run, get_lobby_run. simpl. by rewrite Hp. Qed.
Lemma on_getTag_run (jv : Value) w :
  v_conns (observe w) !! c = Some e → on_snd (conn_getTag c) (jv, w) = Done (jv, w) (e_tag e).
Proof. intros Hc. by rewrite on_snd_run, (cs_getTag _ _ _ Hc). Qed.

Lemma goes_chat_value (jv : Value) w :
  chat_ready (observe w) → yields getLocalTimeSec w t (observe w) →
  goes
    (u ← on_snd (this_user p);
     s ← on_snd get_lobby;
     json_assign "addition_fromIDX" (json_uint (u_userIDX u));;
     json_assign "addition_fromSVR" (json_uint (g_idx4Broker s));;
     json_assign "from" (json_string (u_userID u));;
     seq ← json_at RSP_SEQ; json_assign "seq" seq;;
     now ← on_snd getLocalTimeSec;
     json_assign "sendTime" (json_uint64 (u64 now));;
     identity ← on_snd (conn_getIdentity (u_conn u));
     json_assign "identity" (json_uint (u32 identity));;
     _ ← BrokerConnector_sendJsonPacket "/chatSendMsg";
     mret tt) jv w
    (match chat_value u (e_identity e) t (v_lobby (observe w)) jv with
     | Some jv' => v_to_broker "/chatSendMsg" jv' (observe w)
     | None => Some (observe w)
     end).
Proof.
  intros (Hc & _ & Hu & Huc & Hb) Hclock. unfold chat_value in *.
  eapply goes_run; [by apply on_this_user_run|]. eapply goes_run; [apply on_get_lobby_run|].
  do 5 step. eapply goes_bind; [apply yields_on_snd, Hclock|]. intros w3 Ew. rewrite <- Ew in *.
  step. rewrite Huc. eapply goes_bind; [by eapply yields_on_snd, yields_getIdentity|]. y_next w4.
  step. apply goes_to_broker; [done|vm_compute; discriminate].
Qed.

Lemma goes_sendMsg url (jv : Value) w :
  chat_ready (observe w) → yields getLocalTimeSec w t (observe w) →
  goes (sendMsg c url) jv w (v_chat u (e_identity e) t jv (observe w)).
Proof.
  intros Hr Hclock. destruct (Hr) as (Hc & Htag & Hu & _). unfold sendMsg, v_chat, chat_message, chat_accepted in *.
  eapply goes_run; [by apply on_getTag_run|]. rewrite Htag.
  assert (Hrefused : ∀ jv', leaves (_ ← on_snd (this_user p); mret tt) jv' w (observe w)).
  { intros jv'. eapply goes_run; [by apply on_this_user_run|]. apply leaves_ret. }
  do 2 step. destruct (bool_decide (_ = "")); [apply Hrefused|]. do 2 step.
  destruct (2 =? _).
  - apply goes_assoc. step. apply goes_assoc. step. eapply goes_run; [done|].
    destruct (_ <? 2)%nat; [apply Hrefused|]. by apply goes_chat_value.
  - eapply goes_run; [done|]. by apply goes_chat_value.
Qed.

Lemma v_chat_frame u' i t' jv v v' :
  v_chat u' i t' jv v = Some v' → v_lobby v' = v_lobby v ∧ v_conns v' = v_conns v.
Proof. unfold v_chat, v_to_broker. intros E. by repeat case_match; simplify_eq. Qed.

End ChatRefinement.

(** ** Witnesses: a user and the broker, connected *)
Section Witness.
Import ServerDemo.

(** The user has the connection 0, the broker the connection 1. *)
Definition broker_world : NetWorld App :=
  mkNetWorld {[ 0%N := lobby_conn (Some 3%N); 1%N := lobby_conn (Some 4%N) ]} 7 [] []
    (set_app_lobby
       (set_users {[ 5 := 0%N ]}
          (set_heap {[ 3%N := OUser (User_new 0%N); 4%N := OConnectorUser (ConnectorUser_new 1%N) ]}
             (set_m_user (Some 4%N)
                (set_broker_URLs {[ "/chatReceiveMsg" := ConnectorHandler_chatReceiveMsg ]}
                   (set_lobby_URLs {[ "/chat/sendMsg" := nh_chat_sendMsg ]} (LobbyState_init 7))))))
       App_init).
Definition chat_for_all : @Value json :=
  DemoJson.JObj [("channelType", DemoJson.JInt 1); (RSP_RM, DemoJson.JStr "hi"); (RSP_SEQ, DemoJson.JInt 7)].

Lemma broker_world_registered : registered (observe broker_world).
Proof.
  intros i c Hi. change (({[ 5 := 0%N ]} : gmap Z ConnPtr) !! i = Some c) in Hi.
  apply lookup_singleton_Some in Hi as [<- <-]. eexists 3%N, _, (User_new 0%N).
  split; [reflexivity|]. split; [|done]. split; [done|]. split; [|done].
  by eexists.
Qed.

(** A value that already has the members the sender looks at. *)
Definition settled : @Value json :=
  DemoJson.JObj [(RSP_RM, DemoJson.JNull); (RSP_SEQ, DemoJson.JNull)].


Lemma broker_requests_refine_witness :
  ∃ w', with_json chat_for_all (BrokerConnector_dispatch 1%N "/chatReceiveMsg") broker_world
        = Done w' tt
    ∧ fst <$> v_sent (observe w') = [0%N].
Proof.
  assert (Hs : ∀ h, broker_URLs (v_lobby (observe broker_world)) !! "/chatReceiveMsg" = Some h →
    relays_settle h chat_for_all (observe broker_world)).
  { intros h Hh. vm_compute in Hh. injection Hh as <-. intros cs url jv' Hr _.
    vm_compute in Hr. injection Hr as <- <- <-. intros n jv' Hsent.
    vm_compute in Hsent. injection Hsent as <- <-. split; vm_compute; reflexivity. }
  destruct (broker_requests_refine 1%N "/chatReceiveMsg" chat_for_all broker_world
              broker_world_registered Hs) as (w' & E & O & _).
  exists w'. split; [exact E|]. rewrite O. vm_compute. reflexivity.
Defined.

Definition chat_request : @Value json :=
  DemoJson.JObj [("msg", DemoJson.JStr "hello"); ("channelType", DemoJson.JInt 1)].

Lemma broker_world_broker : broker_conn_ok (observe broker_world).
Proof.
  intros p b [= <-] Hb. vm_compute in Hb. injection Hb as <-.
  by exists (entry_of (lobby_conn (Some 4%N))).
Qed.

End Witness.
