(* ===== verification/ParserProperties.v ===== *)
(** * The packet parsers: theorems

    What the parsers of lobbysvr/packetParserJson.cpp and
    net/packetParserSimple.cpp do with a buffer, from the lemmas of
    PacketParser.v: streams of packets, obfuscated bodies, arbitrary bytes,
    refusals, and the split of a packet over two reads. *)
From stdpp Require Import list strings gmap.
From coqutil Require Import Byte Word.LittleEndianList.
From S2P Require Import Prelude.
From S2P Require Import MessageBuffer.
From S2P Require Import PacketHeader.
From S2P Require Import Connection.
From S2P Require Import MessageProcedure.
From S2P Require Import PacketParser.
From S2P Require Import PacketParserSimple.
From S2P Require Import Protocol.
From S2P Require Import Json.
From S2P Require Import LobbyState.
From S2P Require Import LobbyHandlers.
From S2P Require Import LobbyUserManager.
From S2P Require Import BrokerConnector.
From S2P Require Import LobbyAcceptorReceiver.
From S2P Require Import PacketParserJson.
From S2P Require Import IoService.
From S2P Require Import ConnectionImpl.
From S2P Require Import ConnectionSafety.
From S2P Require Import ConnectionSend.
From S2P Require Import Server.
From S2P Require Import ServerDemo.
#[local] Open Scope Z_scope.

(** ** The xor of [packetParser_xor] *)
Section Xor.
Context `{FreshMemory}.

(** The five passes amount to one with the xor of the five characters. *)
Definition xor_key : byte := Byte.x5a.
Definition xor_bytes (body : list byte) : list byte := xor_byte xor_key <$> body.

Lemma xor_byte_keys b :
  foldr (λ c b, xor_byte c b) b xor_keys = xor_byte xor_key b.
Proof. by destruct b. Qed.

Lemma xor_byte_involutive b : xor_byte xor_key (xor_byte xor_key b) = b.
Proof. by destruct b. Qed.

Lemma xor_bytes_involutive body : xor_bytes (xor_bytes body) = body.
Proof.
  unfold xor_bytes. rewrite <- list_fmap_compose. rewrite <- (list_fmap_id body) at 2.
  apply list_fmap_ext. intros i b _. apply xor_byte_involutive.
Qed.

Lemma zlen_xor_bytes body : zlen (xor_bytes body) = zlen body.
Proof. unfold xor_bytes, zlen. by rewrite length_fmap. Qed.

(** A pass over the bytes in the middle of the storage. *)
Lemma xor_pass_run c mid : ∀ pre post b,
  mb_buffer b = pre ++ mid ++ post → zlen (mb_buffer b) = MAX_BUFFER_SIZE →
  xor_pass (length mid) (zlen pre) c b
  = Done (set_mb_buffer (pre ++ (xor_byte c <$> mid) ++ post) b) tt.
Proof.
  induction mid as [|x mid IH]; intros pre post b Hb Hl; simpl.
  { rewrite ret_run. destruct b as [buf r wr mn]. simpl in *. by subst buf. }
  pose proof (zlen_nonneg pre). pose proof (zlen_nonneg mid). pose proof (zlen_nonneg post).
  assert (Hlen : zlen pre + 1 ≤ MAX_BUFFER_SIZE) by (rewrite Hb in Hl; simpl in Hl; len).
  rewrite bind_run. unfold mb_load. run_step.
  rewrite (proj2 (andb_true_iff _ _)) by (split; apply Z.leb_le; lia). run_step.
  assert (Hs : zslice (zlen pre) 1 (mb_buffer b) = [x]).
  { rewrite Hb. change (pre ++ (x :: mid) ++ post) with (pre ++ [x] ++ (mid ++ post)).
    by rewrite zslice_app_at. }
  rewrite Hs. unfold mb_store. run_step. change (xor_byte c <$> [x]) with [xor_byte c x].
  change (zlen [xor_byte c x]) with 1.
  rewrite (proj2 (andb_true_iff _ _)) by (split; apply Z.leb_le; lia). run_step.
  assert (Hsp : zsplice (zlen pre) [xor_byte c x] (mb_buffer b)
                = (pre ++ [xor_byte c x]) ++ mid ++ post).
  { rewrite Hb. rewrite zsplice_app_ge, Z.sub_diag by lia. rewrite <- app_assoc. f_equal. }
  rewrite Hsp. replace (zlen pre + 1) with (zlen (pre ++ [xor_byte c x])) by len.
  rewrite (IH (pre ++ [xor_byte c x]) post); [|done|].
  - rewrite <- app_assoc. by destruct b.
  - simpl. rewrite <- Hl, Hb. unfold zlen. rewrite !length_app. simpl. lia.
Qed.

Lemma xor_passes_run ks mid post : ∀ b,
  mb_buffer b = mid ++ post → zlen (mb_buffer b) = MAX_BUFFER_SIZE →
  foldr (λ c rest, rest;; xor_pass (length mid) 0 c) (mret tt) ks b
  = Done (set_mb_buffer (((λ x, foldr (λ c b, xor_byte c b) x ks) <$> mid) ++ post) b) tt.
Proof.
  intros b Hb Hl. induction ks as [|c ks IH]; cbn [foldr].
  { rewrite list_fmap_id, <- Hb. by destruct b. }
  rewrite bind_run, IH. cbn [bind_outcome].
  set (mid' := (λ x, foldr (λ c b, xor_byte c b) x ks) <$> mid).
  assert (Hm : length mid = length mid') by (unfold mid'; by rewrite length_fmap).
  rewrite Hm. change 0 with (zlen (@nil byte)).
  rewrite (xor_pass_run c mid' [] post); [|done|].
  - unfold mid'. rewrite <- list_fmap_compose. by destruct b.
  - simpl. rewrite <- Hl, Hb. unfold zlen. rewrite !length_app. lia.
Qed.

Lemma procMsg_buffer body :
  mb_buffer (procMsg_of body)
  = body ++ drop (length body) (mb_buffer MessageBuffer_new).
Proof. reflexivity. Qed.

Lemma xor_body_run body :
  zlen body ≤ MAX_BUFFER_SIZE →
  xor_body (MessageBuffer_enableBuffer MessageBuffer_new) (zlen body) (procMsg_of body)
  = Done (procMsg_of (xor_bytes body)) tt.
Proof.
  intros Hb. destruct (procMsg_of_wf body Hb) as [[Hl _ _] _].
  unfold xor_body. change (MessageBuffer_enableBuffer MessageBuffer_new) with 0.
  unfold zlen at 1. rewrite Nat2Z.id.
  rewrite (xor_passes_run xor_keys body (drop (length body) (mb_buffer MessageBuffer_new)));
    [|apply procMsg_buffer|done].
  f_equal. unfold xor_bytes.
  assert (E : (λ x, foldr (λ c b, xor_byte c b) x xor_keys) <$> body = xor_byte xor_key <$> body).
  { apply list_fmap_ext. intros i x _. apply xor_byte_keys. }
  rewrite E. unfold procMsg_of, set_mb_write, set_mb_buffer, zsplice. simpl.
  rewrite length_fmap. unfold zlen. by rewrite length_fmap.
Qed.
End Xor.

(** ** Parsers with a cipher, without one *)
Section NoCipher.
Context `{FreshMemory} {W : Type} `{!Connection W} `{!ConnectionReceiver W}.

(** No cipher has been registered. *)
Definition no_cipher (t : HandlerTables W) : Prop :=
  mp_userCipherType t = NOT_SET_CIPHER_VALUE
  ∧ mp_ciperHandlers t = replicate (Z.to_nat UINT8_MAX) (mkEncParameters 0 None None).

Lemma no_cipher_new parse manip : no_cipher (mp_tables (MessageProcedure_new parse manip)).
Proof. done. Qed.

Lemma registMessage_no_cipher p fn t t' r :
  registMessage p fn t = Done t' r → no_cipher t → no_cipher t'.
Proof. unfold registMessage. run_step. destruct (_ !! p); run_step; intros; by simplify_eq. Qed.

Lemma parse_loop_ext rules (f g : Z → M (MessageBuffer * W) part_ctl) :
  (∀ n p, f n p = g n p) → ∀ fuel l p, parse_loop rules f fuel l p = parse_loop rules g fuel l p.
Proof.
  intros Hfg fuel. induction fuel as [|fuel IH]; intros l p; [done|].
  assert (Hpart : ∀ total q, parse_part rules f total q = parse_part rules g total q).
  { intros total q. unfold parse_part. rewrite !bind_run.
    destruct (on_fst _ q) as [q1 kb| | |]; try done. cbn [bind_outcome].
    destruct (negb _); [done|]. rewrite !bind_run.
    destruct (on_fst _ q1) as [q2 ok| | |]; try done. cbn [bind_outcome].
    destruct (negb ok); [done|]. by rewrite !bind_run, Hfg. }
  cbn [parse_loop]. rewrite !bind_run.
  assert (Hit : parse_iteration rules f l p = parse_iteration rules g l p).
  { unfold parse_iteration. rewrite !bind_run.
    destruct (readStartFromMainKey l); [|apply Hpart].
    destruct (parse_main_key rules p) as [q [total|r]| | |]; try done. apply Hpart. }
  rewrite Hit. destruct (parse_iteration rules g l p) as [q [l'|r]| | |]; try done. apply IH.
Qed.

Lemma consume_cipher_without c t (m s : msgMapTy W) rules q :
  no_cipher t → run_parser rules (consume_cipher c t m s) q = run_parser rules (consume_copied (dispatch_maps c m s)) q.
Proof.
  intros [Hty Hci]. unfold run_parser. rewrite !bind_run. destruct (on_fst MessageBuffer_size q) as [p n| | |]; try done.
  apply parse_loop_ext. intros k p'. unfold consume_cipher, ciperData. unfold getUserCipherType.
  rewrite Hty, Z.eqb_refl. unfold getCipherHandler. by rewrite Hci.
Qed.
End NoCipher.

(** ** The JSON parsers on streams of packets *)

(** The parsers of the file, with the header rules and the code that gets the
    body; that of [P_packetParser] is for a procedure without a cipher. *)
Inductive json_parser : Type :=
| P_packetParser | P_notUseEnc | P_xor | P_broker | P_brokerTest | P_notUseEncTest.

Definition rules_of (k : json_parser) : HeaderRules :=
  match k with
  | P_packetParser | P_notUseEnc | P_xor | P_broker => json_rules
  | P_brokerTest | P_notUseEncTest => test_rules
  end.
Definition manip_of (k : json_parser) : MsgUserManip :=
  match k with
  | P_packetParser | P_notUseEnc | P_xor | P_broker => json_getMsgManipulator
  | P_brokerTest | P_notUseEncTest => json_getMsgManipulatorTest
  end.
#[export] Instance codec_of k : HeaderCodec (rules_of k) (manip_of k) :=
  match k with
  | P_packetParser | P_notUseEnc | P_xor | P_broker => json_codec
  | P_brokerTest | P_notUseEncTest => test_codec
  end.
(** The bytes a peer sends for a body. *)
Definition wire_body (k : json_parser) (body : list byte) : list byte :=
  match k with P_xor => xor_bytes body | _ => body end.
Definition wire_packets (k : json_parser) (packets : list (list (list byte)))
    : list (list (list byte)) := map (map (wire_body k)) packets.

Section Streams.
Context `{FreshMemory} `{Jsoncpp} {W : Type} `{!Connection W} `{!ConnectionReceiver W}
  `{!HasLobby W} `{!WeakConnection W} `{!LocalTime W} `{!NetServiceApi W}.

Definition parser_of (k : json_parser) : customMessageParser W :=
  match k with
  | P_packetParser => packetParser
  | P_notUseEnc => packetParser_notUseEnc
  | P_xor => packetParser_xor
  | P_broker => packetParser_broker
  | P_brokerTest => packetParser_brokerTest
  | P_notUseEncTest => packetParser_notUseEncTest
  end.
(** What a parser does with a plain body. *)
Definition handler_of (k : json_parser) (c : ConnPtr) (m s : msgMapTy W) : Z → M (MessageBuffer * W) part_ctl :=
  match k with
  | P_packetParser => dispatch_maps c m s
  | P_notUseEnc | P_xor => dispatch_lobby packetCode_int32 c
  | P_broker | P_brokerTest => dispatch_broker c
  | P_notUseEncTest => dispatch_lobby packetCode_uint8 c
  end.

(** The body as it comes from the wire. *)
Definition wire_handler (k : json_parser) (c : ConnPtr) (m s : msgMapTy W) : Z → M (MessageBuffer * W) part_ctl :=
  match k with P_xor => dispatch_xor c | k => handler_of k c m s end.
(** The parser that can decrypt needs a procedure without a cipher. *)
Definition plain (k : json_parser) (t : HandlerTables W) : Prop := k = P_packetParser → no_cipher t.

Lemma parser_of_run k c t m s q :
  plain k t → parser_of k c t m s q = run_parser (rules_of k) (consume_copied (wire_handler k c m s)) q.
Proof. intros Hp. destruct k; try done. by apply consume_cipher_without, Hp. Qed.

Lemma wire_handler_body k c m s body (w : W) :
  zlen body ≤ MAX_BUFFER_SIZE →
  handle_body (wire_handler k c m s) (wire_body k body) w = handle_body (handler_of k c m s) body w.
Proof.
  intros Hb. destruct k; try done. simpl.
  assert (E : wire_handler P_xor c m s (zlen (xor_bytes body)) (procMsg_of (xor_bytes body), w)
              = handler_of P_xor c m s (zlen body) (procMsg_of body, w)).
  { simpl. unfold dispatch_xor. run_step. rewrite on_fst_run, zlen_xor_bytes.
    rewrite <- (zlen_xor_bytes body) at 1.
    rewrite xor_body_run by (by rewrite zlen_xor_bytes). cbn [map_state bind_outcome].
    by rewrite xor_bytes_involutive. }
  unfold handle_body. rewrite !bind_run. unfold with_local. simpl in E. rewrite E. done.
Qed.

Lemma run_bodies_wire k c m s bodies : ∀ w : W,
  Forall (λ body, zlen body ≤ MAX_BUFFER_SIZE) bodies →
  run_bodies (handle_body (wire_handler k c m s)) (wire_body k <$> bodies) w
  = run_bodies (handle_body (handler_of k c m s)) bodies w.
Proof.
  induction bodies as [|body bodies IH]; intros w Hf; [done|].
  apply Forall_cons in Hf as [Hb Hf]. cbn [fmap list_fmap]. rewrite !run_bodies_cons.
  rewrite wire_handler_body by done. destruct (handle_body _ body w) as [w' []| | |]; try done.
  by apply IH.
Qed.

Lemma zlen_wire_body k body : zlen (wire_body k body) = zlen body.
Proof. destruct k; try done. apply zlen_xor_bytes. Qed.

(** A body of a stream is no longer than the stream. *)
Lemma stream_body_bound {rules manip} `{!HeaderCodec rules manip} packets body :
  body ∈ concat packets → zlen body ≤ zlen (stream_bytes packets).
Proof.
  induction packets as [|p ps IH]; [by intros ?%elem_of_nil|].
  rewrite stream_bytes_cons, zlen_app. cbn [concat]. rewrite elem_of_app.
  unfold packet_bytes at 1. rewrite zlen_app, zlen_le32.
  pose proof (zlen_nonneg (stream_bytes ps)). pose proof (zlen_nonneg (parts_bytes p)).
  intros [Hin|Hin]; [|specialize (IH Hin); lia].
  assert (zlen body ≤ zlen (parts_bytes p)); [|lia]. clear -Hin.
  induction p as [|b0 p IH]; [by apply elem_of_nil in Hin|].
  rewrite parts_bytes_cons, zlen_app, zlen_part_bytes.
  pose proof (zlen_nonneg (parts_bytes p)). pose proof (zlen_nonneg b0).
  apply elem_of_cons in Hin as [->|Hin]; [lia|]. specialize (IH Hin). lia.
Qed.

Lemma json_stream k c t m s packets rest b (w : W) :
  plain k t → Forall (λ p, p ≠ []) packets → incomplete (rules_of k) rest → mb_wf b →
  mb_content b
  = stream_bytes (rules := rules_of k) (manip := manip_of k) (wire_packets k packets) ++ rest →
  parser_agrees (parser_of k c t m s (b, w))
    (run_bodies (handle_body (handler_of k c m s)) (concat packets) w) rest.
Proof.
  intros Hk Hne Hinc Hwf Hc. rewrite parser_of_run by done.
  assert (Hcat : concat (wire_packets k packets) = wire_body k <$> concat packets)
    by (symmetry; apply concat_map).
  rewrite <- run_bodies_wire, <- Hcat.
  - eapply run_parser_stream; [apply consume_copied_consumes| |done|done|exact Hc].
    apply Forall_fmap. eapply Forall_impl; [exact Hne|]. by intros [|].
  - apply Forall_forall. intros body Hin.
    pose proof (mb_content_bound b Hwf) as Hb. rewrite Hc, zlen_app in Hb.
    pose proof (zlen_nonneg rest).
    assert (zlen (wire_body k body) ≤ zlen (stream_bytes (rules := rules_of k)
              (manip := manip_of k) (wire_packets k packets))).
    { apply stream_body_bound. rewrite Hcat. by apply list_elem_of_fmap_2. }
    rewrite zlen_wire_body in *. lia.
Qed.

(** C2. A buffer that holds whole packets, each of one part or more, and then the beginning of
    one: each of the six parsers, [packetParser] as long as no cipher is registered, hands the bodies
    to its handler one after the other, as they are (for [packetParser_xor], de-obfuscated), and leaves
    the incomplete packet in the buffer; it stops at the first body that is refused or that raises
    an exception. *)
Theorem json_parser_stream k c t m s packets rest b (w : W) :
  plain k t → Forall (λ p, p ≠ []) packets → incomplete (rules_of k) rest → mb_wf b →
  mb_content b
  = stream_bytes (rules := rules_of k) (manip := manip_of k) (wire_packets k packets) ++ rest →
  parser_agrees (parser_of k c t m s (b, w))
    (run_bodies (handle_body (handler_of k c m s)) (concat packets) w) rest.
Proof. apply json_stream. Qed.
End Streams.

(** ** Refusals and exceptions *)
Section Refusals.
Context `{FreshMemory} `{Jsoncpp} {W : Type} `{!Connection W} `{!ConnectionReceiver W}
  `{!HasLobby W} `{!WeakConnection W} `{!LocalTime W} `{!NetServiceApi W}.

(** C20. A parser with keyed headers refuses a buffer whose first word does not carry the tag
    of a main key: it returns false, throws the whole buffer away, and has no other effect. *)
Theorem keyed_parser_refuses k c t m s b (w : W) :
  k = P_notUseEnc ∨ k = P_xor ∨ k = P_broker → mb_wf b → sizeof_HEADER ≤ zlen (mb_content b) →
  JSON_PARSER_KEY_GETKEY (s32 (le_combine (take 4 (mb_content b)))) ≠ 0xffff0000 →
  ∃ b', parser_of k c t m s (b, w) = Done (b', w) false ∧ mb_content b' = [].
Proof.
  intros Hk Hwf H8 Hbad. rewrite parser_of_run by (intros ->; by destruct Hk as [|[|]]). apply run_parser_bad_main_key; [done|done|].
  destruct Hk as [-> | [-> | ->]]; by apply Z.eqb_neq.
Qed.

(** A packet whose main key announces any other length than that of its one part makes the
    parsers without keys throw, once the body has been handled: the loop looks for another part where
    there is none.  Nothing above the parser catches the exception. *)
Theorem unkeyed_parser_throws k c t m s announced body b (w w' : W) :
  k = P_brokerTest ∨ k = P_notUseEncTest →
  mb_wf b → mb_content b = le32 announced ++ le32 (zlen body) ++ body →
  0 ≤ announced ≤ zlen body + 4 → announced ≠ zlen body + 4 →
  handle_body (handler_of k c m s) body w = Done w' PartNext →
  ∃ b', parser_of k c t m s (b, w) = Threw (b', w') not_readable ∧ mb_content b' = [].
Proof.
  intros Hk Hwf Hc Ha Hne Hh. rewrite parser_of_run by (intros ->; by destruct Hk).
  pose proof (mb_content_bound b Hwf) as Hb. rewrite Hc in Hb. pose proof (zlen_nonneg body) as Hnn.
  assert (Hlen : zlen body ≤ 32760) by (unfold MAX_BUFFER_SIZE in Hb; len).
  assert (Hrules : rules_of k = test_rules) by (destruct Hk as [-> | ->]; done). rewrite Hrules.
  apply (run_parser_short_total test_rules _ (handle_body (wire_handler k c m s))
           (consume_copied_consumes _) b w (le32 announced) (le32 (zlen body)) body w' (announced + 4));
    rewrite ?zlen_le32; try done.
  - simpl. rewrite le_combine_le32. wrap_lia.
  - lia.
  - wrap_lia.
  - simpl. rewrite le_combine_le32. wrap_lia.
  - destruct Hk as [-> | ->]; done.
Qed.
End Refusals.

(** ** Arbitrary bytes *)
Section Total.
Context `{FreshMemory} {W : Type} `{!Connection W} `{!ConnectionReceiver W}.

(** The code the parser calls has no undefined behaviour in worlds of [I],
    and stays in [I]. *)
Definition handler_safe (I : W → Prop) (h : M (MessageBuffer * W) unit) : Prop :=
  ∀ msg w, I w → safe_in (λ p, I (snd p)) (h (msg, w)).
Definition handlers_safe (I : W → Prop) (c : ConnPtr) (m s : msgMapTy W) : Prop :=
  (∀ code h n, find_handler m code = Some h ∨ find_handler s code = Some h →
     handler_safe I (_ ← h c n; mret tt))
  ∧ handler_safe I (call_noHandler c).

Lemma safe_in_bind_tt {A B} (I : W → Prop) (f : M (MessageBuffer * W) A) (r : B) p :
  safe_in (λ p, I (snd p)) ((_ ← f; mret tt) p) →
  safe_in (λ p, I (snd p)) ((_ ← f; mret r) p).
Proof. rewrite !bind_run. by destruct (f p). Qed.

Lemma dispatch_maps_safe I c m s n msg w :
  handlers_safe I c m s → mb_wf msg → I w →
  safe_in (λ p, I (snd p)) (dispatch_maps c m s n (msg, w)).
Proof.
  intros [Hh Hno] Hwf HI. unfold dispatch_maps. run_step.
  rewrite on_fst_run, packetCode_int32_run by done. run_step.
  destruct (find_handler m _) as [h|] eqn:Em.
  { apply safe_in_bind_tt. by eapply Hh; [left|]. }
  destruct (find_handler s _) as [h|] eqn:Es.
  { apply safe_in_bind_tt. by eapply Hh; [right|]. }
  specialize (Hno msg w HI). rewrite bind_run. by destruct (call_noHandler c (msg, w)).
Qed.

(** C19. Whatever bytes arrive, [packetParser_notUseEnc] of the simple parsers comes to an end,
    never reads or writes outside its buffers and leaves the received buffer well-formed, as long as the
    handlers it calls are free of undefined behaviour. *)
Theorem simple_parser_total I c t m s b (w : W) :
  handlers_safe I c m s → mb_wf b → I w →
  parser_total I (simple_packetParser_notUseEnc c t m s (b, w)).
Proof.
  intros Hh Hwf HI.
  apply (run_parser_total simple_rules simple_rules_nonneg _ _ (consume_copied_consumes _)); [|done..].
  intros body w1 HI1 Hb. destruct (procMsg_of_wf body Hb) as [Hwf1 _].
  pose proof (dispatch_maps_safe I c m s (zlen body) _ w1 Hh Hwf1 HI1) as Hs.
  unfold handle_body. rewrite bind_run. unfold with_local.
  by destruct (dispatch_maps c m s (zlen body) (procMsg_of body, w1)) as [[]|[]| |].
Qed.
End Total.

(** ** Ciphers *)
Section Ciphers.
Context `{FreshMemory} {W : Type} `{!Connection W} `{!ConnectionReceiver W}.

(** As long as no cipher is registered, the parser that can decrypt does exactly what the
    one that cannot does. *)
Theorem cipher_parser_without_cipher c t m s b (w : W) :
  no_cipher t →
  simple_packetParser c t m s (b, w) = simple_packetParser_notUseEnc c t m s (b, w).
Proof.
  intros Hn. by apply (consume_cipher_without c t m s simple_rules (b, w)).
Qed.

(** With a cipher registered and a connection whose keys are not exchanged yet, the body
    of a packet goes to the initialisation of the cipher: no packet handler sees it, and it is skipped
    afterwards; if the initialisation refuses it, the packet is refused. *)
Theorem handshake_before_packets c t m s initf decf ty body rest b (w w1 : W) b1 ok :
  mp_userCipherType t = NOT_SET_CIPHER_VALUE →
  mp_ciperHandlers t !! Z.to_nat EncType.AES_128_CBC = Some (mkEncParameters ty (Some initf) decf) →
  conn_isSyncEncryptionKey c ty w = Done w false →
  initf ty None c (zlen body) (b, w) = Done (b1, w1) ok →
  mb_wf b1 → mb_content b1 = body ++ rest →
  if (ok : bool)
  then ∃ b2, consume_cipher c t m s (zlen body) (b, w) = Done (b2, w1) PartNext
         ∧ mb_wf b2 ∧ mb_content b2 = rest
  else consume_cipher c t m s (zlen body) (b, w) = Done (b1, w1) PartFail.
Proof.
  intros Hty Hci Hsync Hinit Hwf Hc.
  pose proof (zlen_nonneg body). pose proof (zlen_nonneg rest).
  destruct (read_spec b1 (zlen body) Hwf) as (b2 & E & Hwf2 & Hc2 & _); [rewrite Hc; len|].
  rewrite Hc, drop_app_zlen in Hc2 by done.
  assert (Hrun : consume_cipher c t m s (zlen body) (b, w)
                 = if ok then Done (b2, w1) PartNext else Done (b1, w1) PartFail);
    [|destruct ok; [by exists b2|done]].
  unfold consume_cipher, ciperData, getUserCipherType, getCipherHandler.
  rewrite Hty, Z.eqb_refl, Hci. cbn [deref]. run_step. cbn [enc_init enc_type].
  run_step. rewrite on_snd_run, Hsync. run_step. cbn [negb]. run_step. rewrite Hinit. run_step.
  destruct ok; [|done]. cbn [negb]. run_step.
  rewrite on_fst_run, readable_spec by done. rewrite Hc, (proj2 (Z.leb_le _ _)) by len. run_step.
  cbn [negb]. run_step. by rewrite on_fst_run, E.
Qed.
End Ciphers.

(** ** Dispatch *)
Section Dispatch.
Context {U : Type} `{FreshMemory} `{!Sockets}.
Local Abbreviation W := (NetWorld U).

(** What [dispatch] leaves: one handler less is pending. *)
Definition dispatched (c : ConnPtr) (cn : ConnectionImpl) (w : W) : W :=
  set_conns (<[c := set_ci_readHandlerPending (u32 (ci_readHandlerPending cn - 1)) cn]> (nw_conns w)) w.

Lemma dispatch_run (mp : MessageProcedure W) parse c cn cn1 msg msg1 w w1 r :
  mp_packetParsingFunction mp = Some parse →
  nw_conns w !! c = Some cn → ci_status cn = status_open → nw_conns w1 !! c = Some cn1 →
  parse c (mp_tables mp) (mp_instanceElements (mp_tables mp)) (mp_staticElements (mp_tables mp)) (msg, w)
  = Done (msg1, w1) r →
  MessageProcedure_dispatch mp c msg w = Done (dispatched c cn1 w1) r.
Proof.
  intros Hp Ec Hst Ec1 Hrun. unfold MessageProcedure_dispatch. simpl.
  unfold ConnectionImpl_get_status, ConnectionImpl_decReadHandlerPendingCount.
  run_step. rewrite (this_conn_run _ _ _ Ec). run_step. rewrite bool_decide_false by (intros Hn; by apply Hn).
  run_step. rewrite Hp. run_step. unfold with_local. rewrite Hrun. run_step.
  rewrite (this_conn_run _ _ _ Ec1). run_step. rewrite (upd_conn_run _ _ _ _ Ec1). by run_step.
Qed.

(** [dispatch] of a buffer on a connection that is not open, or whose parser throws, does
    not count the buffer as handled: the number of pending handlers stays one too high for ever. *)
Theorem dispatch_keeps_pending (mp : MessageProcedure W) c cn msg w :
  nw_conns w !! c = Some cn →
  (ci_status cn ≠ status_open → MessageProcedure_dispatch mp c msg w = Done w false)
  ∧ ∀ parse msg1 w1 e, mp_packetParsingFunction mp = Some parse → ci_status cn = status_open →
      parse c (mp_tables mp) (mp_instanceElements (mp_tables mp)) (mp_staticElements (mp_tables mp)) (msg, w)
      = Threw (msg1, w1) e →
      MessageProcedure_dispatch mp c msg w = Threw w1 e.
Proof.
  intros Ec. split.
  - intros Hst. unfold MessageProcedure_dispatch. simpl. unfold ConnectionImpl_get_status.
    run_step. rewrite (this_conn_run _ _ _ Ec). run_step. by rewrite bool_decide_true.
  - intros parse msg1 w1 e Hp Hst Hrun. unfold MessageProcedure_dispatch. simpl.
    unfold ConnectionImpl_get_status. run_step. rewrite (this_conn_run _ _ _ Ec). run_step.
    rewrite bool_decide_false by (intros Hn; by apply Hn). run_step. rewrite Hp. run_step.
    unfold with_local. by rewrite Hrun.
Qed.
End Dispatch.

(** ** Packets split over two reads *)
Section Fragments.
Context `{FreshMemory} `{Jsoncpp} `{!Sockets}.
Local Abbreviation W := (NetWorld App).

Lemma incomplete_prefix {rules manip} `{!HeaderCodec rules manip} body n :
  zlen body ≤ MAX_BUFFER_SIZE → 0 ≤ n < zlen body + sizeof_HEADER →
  incomplete rules (take (Z.to_nat n) (frame (rules := rules) (manip := manip) body)).
Proof.
  intros Hb Hn. pose proof (zlen_nonneg body). unfold incomplete.
  assert (Hlen : zlen (take (Z.to_nat n) (frame (rules := rules) (manip := manip) body)) = n).
  { rewrite zlen_take; [done|]. rewrite (zlen_frame (rules := rules) (manip := manip)).
    unfold sizeof_HEADER in *. lia. }
  rewrite Hlen. destruct (Z.lt_ge_cases n sizeof_HEADER) as [|Hge]; [by left|right].
  unfold sizeof_HEADER in *.
  assert (Hk : take 4 (take (Z.to_nat n) (frame (rules := rules) (manip := manip) body))
               = le32 (codec_main (rules := rules) (manip := manip) (zlen body))).
  { rewrite take_take. replace (4 `min` Z.to_nat n)%nat with 4%nat by lia.
    unfold frame. by apply (take_app_zlen _ _ 4). }
  rewrite Hk, le_combine_le32.
  destruct (codec_main_ok (rules := rules) (manip := manip) (zlen body)) as [Hok Htot]; [lia|].
  split; [done|]. rewrite Htot. lia.
Qed.

(** A packet that arrives in two reads is lost: [dispatch] is given each read on its own,
    finds the packet incomplete, and drops the bytes; the connection and the application are as before,
    except that one dispatch less is pending. *)
Theorem fragment_lost c w cn msg body n :
  nw_conns w !! c = Some cn → ci_status cn = status_open →
  zlen body ≤ MAX_BUFFER_SIZE → 0 ≤ n < zlen body + sizeof_HEADER →
  mb_wf msg →
  mb_content msg = take (Z.to_nat n)
    (frame (rules := test_rules) (manip := json_getMsgManipulatorTest) body) →
  MessageProcedure_dispatch (msgProc_at LOBBY_MSGPROC) c msg w = Done (dispatched c cn w) true.
Proof.
  intros Ec Hst Hb Hn Hwf Hc.
  pose proof (incomplete_prefix body n Hb Hn (rules := test_rules)
    (manip := json_getMsgManipulatorTest)) as Hinc.
  assert (Hc0 : mb_content msg = stream_bytes (rules := test_rules)
      (manip := json_getMsgManipulatorTest) (wire_packets P_notUseEncTest [])
      ++ take (Z.to_nat n) (frame (rules := test_rules) (manip := json_getMsgManipulatorTest) body))
    by exact Hc.
  destruct (json_stream P_notUseEncTest c (mp_tables (msgProc_at LOBBY_MSGPROC))
              (mp_instanceElements (mp_tables (msgProc_at LOBBY_MSGPROC)))
              (mp_staticElements (mp_tables (msgProc_at LOBBY_MSGPROC)))
              [] _ msg w ltac:(done) (Forall_nil_2 _) Hinc Hwf Hc0) as (b' & Hrun & _).
  by eapply dispatch_run.
Qed.
End Fragments.

(** ** From one server to another *)
Section EndToEnd.
Context {U : Type} `{FreshMemory} `{!Sockets}.
Local Abbreviation W := (NetWorld U).

Fixpoint send_packets (c : ConnPtr) (bodies : list (list byte)) : M W unit :=
  match bodies with
  | [] => mret tt
  | body :: bodies' => ConnectionImpl_sendPacket c body;; send_packets c bodies'
  end.

Lemma send_packets_run rules manip `{!HeaderCodec rules manip} c cn bodies : ∀ w : W,
  nw_conns w !! c = Some cn → ci_msgManipulator cn = Some manip →
  Forall (λ body, zlen body + sizeof_HEADER ≤ MAX_BUFFER_SIZE) bodies →
  send_packets c bodies w
  = Done (set_pending (nw_pending w ++ map (λ body, WriteAll c (frame (rules := rules)
            (manip := manip) body) false) bodies) w) tt.
Proof.
  induction bodies as [|body bodies IH]; intros w E Hm Hf; cbn [send_packets map].
  { rewrite app_nil_r. by destruct w. }
  apply Forall_cons in Hf as [Hb Hf]. rewrite bind_run.
  rewrite (sendPacket_run (rules := rules) (manip := manip) c w cn body E Hm Hb). cbn [bind_outcome].
  rewrite IH by done. simpl. by rewrite <- app_assoc.
Qed.
End EndToEnd.

Lemma singletons_stream {rules manip} `{!HeaderCodec rules manip} bodies :
  concat (map (λ body, frame (rules := rules) (manip := manip) body) bodies)
  = stream_bytes (rules := rules) (manip := manip) (map (λ body, [body]) bodies).
Proof.
  induction bodies as [|body bodies IH]; [done|]. cbn [map concat].
  rewrite stream_bytes_cons, packet_bytes_single. by f_equal.
Qed.

Lemma concat_singletons {A} (l : list A) : concat (map (λ a, [a]) l) = l.
Proof. induction l as [|a l IH]; [done|]. simpl. by f_equal. Qed.

Section RoundTrip.
Context {U : Type} `{FreshMemory} `{!Sockets} `{Jsoncpp} {W : Type} `{!Connection W}
  `{!ConnectionReceiver W} `{!HasLobby W} `{!WeakConnection W} `{!LocalTime W} `{!NetServiceApi W}.

(** The system takes all the bytes of a write while [async_write] runs. *)
Definition taken_whole (o : async_op) (system : nat * list byte) : Prop :=
  match o with WriteAll _ data _ => (length data ≤ fst system)%nat | _ => True end.
Definition sent_stream (ops : list async_op) (system : list (nat * list byte)) : list byte :=
  concat (zip_with (λ o sys, transmitted (fst sys) (snd sys) o) ops system).
Lemma sent_whole ops system : Forall2 taken_whole ops system →
  sent_stream ops system = concat (map (λ o, match o with WriteAll _ data _ => data | _ => [] end) ops).
Proof.
  unfold sent_stream. induction 1 as [|o sys ops system Ho _ IH]; [done|]. cbn [zip_with concat map]. rewrite IH. f_equal.
  destruct o as [|c data there| | | | | | | |]; try done. cbn in Ho |- *. destruct there; [done|].
  rewrite take_ge, drop_ge, app_nil_r by (rewrite ?length_take; lia). done.
Qed.

(** C7. Bodies sent with [sendPacket]: each is given to one write, whose buffer is gone when [sendPacket]
    returns. If the system takes the bytes of every write during the call, they arrive: from the
    bytes transmitted the parser of the peer hands exactly these bodies, in order, to its handler.
    (If it does not, what is in the memory of the buffer later is sent instead.) *)
Theorem sent_packets_arrive k c cn bodies (w : NetWorld U) :
  nw_conns w !! c = Some cn → ci_msgManipulator cn = Some (manip_of k) →
  Forall (λ body, zlen body + sizeof_HEADER ≤ MAX_BUFFER_SIZE) bodies →
  ∃ w' ops,
    send_packets c (map (wire_body k) bodies) w = Done w' tt
    ∧ nw_pending w' = nw_pending w ++ ops ∧ length ops = length bodies
    ∧ Forall (λ o, ∃ data, o = WriteAll c data false) ops
    ∧ ∀ system peer t m s b (wp : W), Forall2 taken_whole ops system → plain k t →
        mb_wf b → mb_content b = sent_stream ops system →
        parser_agrees (parser_of k peer t m s (b, wp))
          (run_bodies (handle_body (handler_of k peer m s)) bodies wp) [].
Proof.
  intros E Hm Hf.
  set (ops := map (λ body, WriteAll c (frame (rules := rules_of k) (manip := manip_of k) body) false)
                (map (wire_body k) bodies)).
  exists (set_pending (nw_pending w ++ ops) w), ops. split_and!.
  - apply (send_packets_run (rules_of k) (manip_of k) c cn); [done..|].
    apply Forall_map. eapply Forall_impl; [exact Hf|]. intros body Hb. by rewrite zlen_wire_body.
  - done.
  - unfold ops. by rewrite !length_map.
  - apply Forall_map, Forall_forall. intros body _. by eexists.
  - intros system peer t m s b wp Htaken Hk Hwf Hc. rewrite sent_whole in Hc by done.
    unfold ops in Hc. rewrite (map_map _ (λ o, match o with WriteAll _ data _ => data | _ => [] end)) in Hc.
    rewrite singletons_stream in Hc.
    rewrite <- (concat_singletons bodies).
    apply (json_stream k peer t m s (map (λ body, [body]) bodies) []); [done| | |done|].
    + apply Forall_map, Forall_forall. by intros.
    + left. done.
    + rewrite app_nil_r, Hc. unfold wire_packets. by rewrite !map_map.
Qed.
End RoundTrip.

(** ** Witnesses *)
Section Witnesses.
Import ServerDemo.

Lemma json_parser_stream_witness :
  ∃ b', packetParser_xor 0%N (mp_tables (msgProc_at LOBBY_MSGPROC)) ∅ ∅
          (procMsg_of (frame (rules := json_rules) (manip := json_getMsgManipulator)
                         (xor_bytes [Byte.x03; Byte.x00; Byte.x00; Byte.x00]) ++ [Byte.x01]),
           empty_world)
        = Done (b', empty_world) true
    ∧ mb_wf b' ∧ mb_content b' = [Byte.x01].
Proof.
  assert (Hl : zlen (frame (rules := json_rules) (manip := json_getMsgManipulator)
                 (xor_bytes [Byte.x03; Byte.x00; Byte.x00; Byte.x00]) ++ [Byte.x01])
               ≤ MAX_BUFFER_SIZE) by (vm_compute; discriminate).
  destruct (procMsg_of_wf _ Hl) as [Hwf Hc].
  assert (E : ∀ w : NetWorld App, run_bodies (handle_body (handler_of P_xor 0%N ∅ ∅))
                (concat [[[Byte.x03; Byte.x00; Byte.x00; Byte.x00]]]) w = Done w PartNext)
    by (intros w; vm_compute; reflexivity).
  pose proof (λ H0 H1 H2 H3, json_parser_stream P_xor 0%N (mp_tables (msgProc_at LOBBY_MSGPROC)) ∅ ∅
           [[[Byte.x03; Byte.x00; Byte.x00; Byte.x00]]] [Byte.x01] _ empty_world H0 H1 H2 Hwf H3) as Hp.
  rewrite E in Hp. apply Hp.
  - discriminate.
  - repeat constructor. discriminate.
  - left. vm_compute. reflexivity.
  - rewrite Hc. vm_compute. reflexivity.
Defined.

Lemma keyed_parser_refuses_witness :
  ∃ b', packetParser_broker 0%N (mp_tables (msgProc_at LOBBY_MSGPROC)) ∅ ∅
          (procMsg_of (replicate 9 Byte.x01), empty_world)
        = Done (b', empty_world) false ∧ mb_content b' = [].
Proof.
  destruct (procMsg_of_wf (replicate 9 Byte.x01)) as [Hwf Hc];
    [vm_compute; discriminate|].
  pose proof (λ H1 H2 H3, keyed_parser_refuses P_broker 0%N (mp_tables (msgProc_at LOBBY_MSGPROC))
    ∅ ∅ (procMsg_of (replicate 9 Byte.x01)) empty_world H1 Hwf H2 H3) as Hp.
  rewrite Hc in Hp. apply Hp; [by right; right|vm_compute; discriminate|vm_compute; discriminate].
Defined.

Lemma unkeyed_parser_throws_witness :
  ∃ b', packetParser_notUseEncTest 0%N (mp_tables (msgProc_at LOBBY_MSGPROC)) ∅ ∅
          (procMsg_of [Byte.x00; Byte.x00; Byte.x00; Byte.x00; Byte.x01; Byte.x00; Byte.x00; Byte.x00;
                       Byte.x03], empty_world)
        = Threw (b', empty_world) not_readable ∧ mb_content b' = [].
Proof.
  destruct (procMsg_of_wf [Byte.x00; Byte.x00; Byte.x00; Byte.x00; Byte.x01; Byte.x00; Byte.x00;
    Byte.x00; Byte.x03]) as [Hwf Hc]; [vm_compute; discriminate|].
  pose proof (λ H1 H2 H3 H4 H5, unkeyed_parser_throws P_notUseEncTest 0%N
    (mp_tables (msgProc_at LOBBY_MSGPROC)) ∅ ∅ 0 [Byte.x03] _ empty_world empty_world H1 Hwf H2 H3 H4 H5) as Hp.
  rewrite Hc in Hp. apply Hp.
  - by right.
  - vm_compute. reflexivity.
  - vm_compute. split; discriminate.
  - vm_compute. discriminate.
  - generalize empty_world. intros w. vm_compute. reflexivity.
Defined.

(** A handler for packet code 7, and the world it stays in. *)
Definition demo_map : msgMapTy (NetWorld App) := {[ 7 := λ _ _, mret true ]}.
Definition in_lobby (w : NetWorld App) : Prop := nw_conns w !! 0%N = Some (lobby_conn None).

Lemma demo_map_safe : handlers_safe in_lobby 0%N demo_map ∅.
Proof.
  split.
  - intros code h n [Hf|Hf] msg w HI; [|done].
    unfold find_handler, demo_map in Hf.
    apply (lookup_singleton_Some (M := gmap Z) (A := msgHandlerFn (NetWorld App)) 7 code) in Hf
      as [_ <-]. done.
  - intros msg w HI. unfold in_lobby in HI. unfold call_noHandler. run_step. rewrite on_snd_run.
    unfold conn_getReceiver, App_receiver, ConnectionImpl_getReceiver. rewrite bind_run.
    rewrite (this_conn_run _ _ _ HI). run_step. exact HI.
Qed.

Lemma simple_parser_total_witness :
  parser_total in_lobby
    (simple_packetParser_notUseEnc 0%N (mp_tables (msgProc_at LOBBY_MSGPROC)) demo_map ∅
       (procMsg_of [Byte.xff; Byte.x00; Byte.x12], empty_world)).
Proof.
  apply simple_parser_total.
  - exact demo_map_safe.
  - apply procMsg_of_wf. vm_compute. discriminate.
  - reflexivity.
Defined.

Lemma cipher_parser_without_cipher_witness :
  simple_packetParser 0%N (mp_tables (msgProc_at LOBBY_MSGPROC)) demo_map ∅
    (procMsg_of [Byte.x01], empty_world)
  = simple_packetParser_notUseEnc 0%N (mp_tables (msgProc_at LOBBY_MSGPROC)) demo_map ∅
    (procMsg_of [Byte.x01], empty_world).
Proof. apply cipher_parser_without_cipher. split; reflexivity. Defined.

(** An [AES_128_CBC] cipher whose initialisation accepts everything, registered
    in the element for the default cipher. *)
Definition cipher_tables : HandlerTables (NetWorld App) :=
  mkHandlerTables ∅ ∅ NOT_SET_CIPHER_VALUE
    (<[2%nat := mkEncParameters 2 (Some (λ _ _ _ _, mret true)) None]>
       (replicate 255 (mkEncParameters 0 None None))) None.

Lemma handshake_before_packets_witness :
  ∃ b2, consume_cipher 0%N cipher_tables demo_map ∅ 2
          (procMsg_of [Byte.x07; Byte.x00; Byte.x09], empty_world)
        = Done (b2, empty_world) PartNext
    ∧ mb_wf b2 ∧ mb_content b2 = [Byte.x09].
Proof.
  destruct (procMsg_of_wf [Byte.x07; Byte.x00; Byte.x09]) as [Hwf Hc]; [vm_compute; discriminate|].
  apply (handshake_before_packets 0%N cipher_tables demo_map ∅ (λ _ _ _ _, mret true) None 2
           [Byte.x07; Byte.x00] [Byte.x09] (procMsg_of [Byte.x07; Byte.x00; Byte.x09])
           empty_world empty_world (procMsg_of [Byte.x07; Byte.x00; Byte.x09]) true);
    [reflexivity..|exact Hwf|exact Hc].
Defined.

Lemma dispatch_keeps_pending_witness :
  MessageProcedure_dispatch (msgProc_at LOBBY_MSGPROC) 0%N (procMsg_of [])
    (set_conns {[ 0%N := set_ci_status status_closing (lobby_conn None) ]} empty_world)
  = Done (set_conns {[ 0%N := set_ci_status status_closing (lobby_conn None) ]} empty_world) false.
Proof.
  refine (proj1 (dispatch_keeps_pending (msgProc_at LOBBY_MSGPROC) 0%N
    (set_ci_status status_closing (lobby_conn None)) (procMsg_of [])
    (set_conns {[ 0%N := set_ci_status status_closing (lobby_conn None) ]} empty_world) _) _).
  - reflexivity.
  - discriminate.
Defined.

Lemma fragment_lost_witness :
  MessageProcedure_dispatch (msgProc_at LOBBY_MSGPROC) 0%N
    (procMsg_of [Byte.x05; Byte.x00; Byte.x00; Byte.x00; Byte.x01]) empty_world
  = Done (dispatched 0%N (lobby_conn None) empty_world) true.
Proof.
  destruct (procMsg_of_wf [Byte.x05; Byte.x00; Byte.x00; Byte.x00; Byte.x01]) as [Hwf Hc];
    [vm_compute; discriminate|].
  apply (fragment_lost 0%N empty_world (lobby_conn None) _ [Byte.x03] 5); done.
Defined.

Lemma sent_packets_arrive_witness :
  let o1 := WriteAll 0%N (frame (rules := test_rules) (manip := json_getMsgManipulatorTest) [Byte.x03]) false in
  let o2 := WriteAll 0%N (frame (rules := test_rules) (manip := json_getMsgManipulatorTest) [Byte.x03; Byte.x04]) false in
  ∃ w', send_packets 0%N [[Byte.x03]; [Byte.x03; Byte.x04]] empty_world = Done w' tt
    ∧ nw_pending w' = [o1; o2]
    ∧ ∀ b, mb_wf b → mb_content b = sent_stream [o1; o2] [(9%nat, []); (40%nat, [])] →
        ∃ b', packetParser_notUseEncTest 0%N (mp_tables (msgProc_at LOBBY_MSGPROC)) ∅ ∅ (b, empty_world)
              = Done (b', empty_world) true ∧ mb_wf b' ∧ mb_content b' = [].
Proof.
  intros o1 o2.
  assert (E : ∀ w : NetWorld App, run_bodies (handle_body (handler_of P_notUseEncTest 0%N ∅ ∅))
                [[Byte.x03]; [Byte.x03; Byte.x04]] w = Done w PartNext)
    by (intros w; vm_compute; reflexivity).
  destruct (sent_packets_arrive (W := NetWorld App) P_notUseEncTest 0%N (lobby_conn None)
    [[Byte.x03]; [Byte.x03; Byte.x04]] empty_world) as (w' & ops & H1 & H2 & _ & _ & H3).
  - reflexivity.
  - reflexivity.
  - repeat constructor; vm_compute; discriminate.
  - assert (Hr : send_packets 0%N [[Byte.x03]; [Byte.x03; Byte.x04]] empty_world
                 = Done (set_pending [o1; o2] empty_world) tt).
    { apply (send_packets_run test_rules json_getMsgManipulatorTest 0%N (lobby_conn None)
               [[Byte.x03]; [Byte.x03; Byte.x04]] empty_world); [reflexivity..|].
      repeat constructor; vm_compute; discriminate. }
    change (map _ _) with [[Byte.x03]; [Byte.x03; Byte.x04]] in H1.
    rewrite Hr in H1. injection H1 as <-. change ([o1; o2] = ops) in H2. subst ops.
    exists (set_pending [o1; o2] empty_world). split; [exact Hr|]. split; [reflexivity|]. intros b Hwf Hc.
    pose proof (H3 [(9%nat, []); (40%nat, [])] 0%N (mp_tables (msgProc_at LOBBY_MSGPROC)) ∅ ∅ b empty_world
                  ltac:(repeat constructor; vm_compute; lia) ltac:(done) Hwf Hc) as Hp.
    rewrite E in Hp. exact Hp.
Defined.
End Witnesses.
