(* ===== verification/MssqlConsumer.v ===== *)
(** * The ODBC consumer

    Models net/mssqlConsumer.h and net/mssqlConsumer.cpp: the statics of the
    file, [DBConsumer] with its connection, the three ways to run a query, the
    binding of columns and the fetch of rows.  The ODBC driver is a parameter:
    a state and the functions of its documentation.  What [_vsnprintf] prints
    for a format and its arguments is given as [text].  The statements of
    [Execute] after its last [return] are not reached and not modelled.  The
    properties are in MssqlProperties.v. *)
From stdpp Require Import gmap strings list pretty.
From coqutil Require Import Byte.
From S2P Require Import Prelude.
From S2P Require Import MlnUtils.
From S2P Require Import TestInterface.
#[local] Open Scope Z_scope.

(** ** ODBC, as its documentation has it *)
Definition SQLHANDLE : Type := N.
Definition SQL_NULL_HANDLE : SQLHANDLE := 0%N.
Definition SQL_SUCCESS : Z := 0.
Definition SQL_SUCCESS_WITH_INFO : Z := 1.
Definition SQL_NO_DATA : Z := 100.
Definition SQL_ERROR : Z := -1.
Definition SQL_INVALID_HANDLE : Z := -2.
(** [(((rc) & (~1)) == 0)] *)
Definition SQL_SUCCEEDED (rc : Z) : bool := Z.land rc (Z.lnot 1) =? 0.

Inductive handle_type : Type := SQL_HANDLE_ENV | SQL_HANDLE_DBC | SQL_HANDLE_STMT.
Inductive free_option : Type := SQL_CLOSE | SQL_UNBIND | SQL_RESET_PARAMS.
Inductive c_type : Type :=
| SQL_C_TINYINT | SQL_C_LONG | SQL_C_SBIGINT | SQL_C_UBIGINT | SQL_C_CHAR | SQL_C_TIMESTAMP
| SQL_C_other (n : Z).
Inductive env_attr : Type := SQL_ATTR_CONNECTION_POOLING | SQL_ATTR_ODBC_VERSION.
Inductive env_value : Type := SQL_CP_ONE_PER_DRIVER | SQL_OV_ODBC3.

(** Where the driver writes: a variable of the caller, or a member of the
    consumer. *)
Inductive SqlPointer : Type := ToVar (a : N) | ToRetCode | ToRetMsg.
Inductive SqlIndicator : Type :=
| Ind_nInd | Ind_cbInt | Ind_cbChar | Ind_cbTime | Ind_cbByte | Ind_cbBigint | IndAt (a : N).
Inductive SqlWrite : Type :=
| WData (p : SqlPointer) (bs : list byte)
| WInd (i : SqlIndicator) (z : Z).

(** The arguments of [SQLBindParameter] after the statement. *)
Record SqlParam : Type := mkSqlParam {
  ipar : Z; fParamType : Z; fCType : Z; fSqlType : Z; cbColDef : Z; ibScale : Z;
  rgbValue : SqlPointer; cbValueMax : Z; pcbValue : SqlIndicator
}.

Class Odbc : Type := {
  driver : Type;
  GetTickCount : driver → Z * driver;
  SQLSetEnvAttr : SQLHANDLE → env_attr → env_value → driver → Z * driver;
  (* the return code, and the handle if one is written *)
  SQLAllocHandle : handle_type → SQLHANDLE → driver → (Z * option SQLHANDLE) * driver;
  SQLFreeHandle : handle_type → SQLHANDLE → driver → Z * driver;
  SQLConnect : SQLHANDLE → list byte → list byte → list byte → driver → Z * driver;
  SQLFreeStmt : SQLHANDLE → free_option → driver → Z * driver;
  SQLExecDirect : SQLHANDLE → list byte → driver → Z * driver;
  (* the return code, the five characters of the state, the message *)
  SQLGetDiagRec : handle_type → SQLHANDLE → Z → driver → (Z * list byte * list byte) * driver;
  SQLNumResultCols : SQLHANDLE → driver → (Z * option Z) * driver;
  SQLBindCol : SQLHANDLE → Z → c_type → SqlPointer → Z → SqlIndicator → driver → Z * driver;
  SQLBindParameter : SQLHANDLE → SqlParam → driver → Z * driver;
  SQLFetch : SQLHANDLE → driver → (Z * list SqlWrite) * driver;
  SQLMoreResults : SQLHANDLE → driver → Z * driver
}.

(** ** State *)
Inductive log_level : Type := LOGE | LOGW | LOGI.

Section State.
Context `{Odbc} {U : Type}.

(** The statics of mssqlConsumer.cpp, the driver, the variables of the callers
    and the application the shutdown function works on. *)
Record Db : Type := mkDb {
  db_driver : driver;
  g_henv : SQLHANDLE;
  s_szServer : list byte;
  g_szId : list byte;
  g_szPassword : list byte;
  shutdownFunc : option (string → M U unit);
  s_nSqlTick : Z;
  db_vars : gmap N (list byte);
  db_log : list (log_level * list byte);
  db_app : U
}.
Definition set_driver (d : driver) (w : Db) : Db :=
  mkDb d (g_henv w) (s_szServer w) (g_szId w) (g_szPassword w) (shutdownFunc w) (s_nSqlTick w)
    (db_vars w) (db_log w) (db_app w).
Definition set_henv (h : SQLHANDLE) (w : Db) : Db :=
  mkDb (db_driver w) h (s_szServer w) (g_szId w) (g_szPassword w) (shutdownFunc w) (s_nSqlTick w)
    (db_vars w) (db_log w) (db_app w).
Definition set_login (server uid upw : list byte) (cb : option (string → M U unit)) (w : Db) : Db :=
  mkDb (db_driver w) (g_henv w) server uid upw cb (s_nSqlTick w) (db_vars w) (db_log w) (db_app w).
Definition set_vars (m : gmap N (list byte)) (w : Db) : Db :=
  mkDb (db_driver w) (g_henv w) (s_szServer w) (g_szId w) (g_szPassword w) (shutdownFunc w)
    (s_nSqlTick w) m (db_log w) (db_app w).
Definition add_log (l : log_level) (text : list byte) (w : Db) : Db :=
  mkDb (db_driver w) (g_henv w) (s_szServer w) (g_szId w) (g_szPassword w) (shutdownFunc w)
    (s_nSqlTick w) (db_vars w) (db_log w ++ [(l, text)]) (db_app w).
Definition set_db_app (u : U) (w : Db) : Db :=
  mkDb (db_driver w) (g_henv w) (s_szServer w) (g_szId w) (g_szPassword w) (shutdownFunc w)
    (s_nSqlTick w) (db_vars w) (db_log w) u.

(** [DBConnection] *)
Record DBConnection : Type := mkDBConnection { dc_hStmt : SQLHANDLE; dc_hDBC : SQLHANDLE }.

(** [DBConsumer]; [m_cbBin] is never used.  [m_nInd] and [m_resultColumns] are
    not initialised. *)
Record DBConsumer : Type := mkDBConsumer {
  m_hStmt : SQLHANDLE;
  m_nInd : option Z;
  m_cbInt : Z;
  m_cbChar : Z;
  m_cbTime : Z;
  m_cbByte : Z;
  m_cbBigint : Z;
  m_szQuery : list byte;
  m_resultColumns : option Z;
  m_dbRetCode : list byte;
  m_dbRetMsg : list byte;
  m_pDBConnect : DBConnection;
  m_nBind : Z
}.
Definition set_szQuery (q : list byte) (c : DBConsumer) : DBConsumer :=
  mkDBConsumer (m_hStmt c) (m_nInd c) (m_cbInt c) (m_cbChar c) (m_cbTime c) (m_cbByte c)
    (m_cbBigint c) q (m_resultColumns c) (m_dbRetCode c) (m_dbRetMsg c) (m_pDBConnect c) (m_nBind c).
Definition set_resultColumns (n : option Z) (c : DBConsumer) : DBConsumer :=
  mkDBConsumer (m_hStmt c) (m_nInd c) (m_cbInt c) (m_cbChar c) (m_cbTime c) (m_cbByte c)
    (m_cbBigint c) (m_szQuery c) n (m_dbRetCode c) (m_dbRetMsg c) (m_pDBConnect c) (m_nBind c).
Definition set_dbRetCode (bs : list byte) (c : DBConsumer) : DBConsumer :=
  mkDBConsumer (m_hStmt c) (m_nInd c) (m_cbInt c) (m_cbChar c) (m_cbTime c) (m_cbByte c)
    (m_cbBigint c) (m_szQuery c) (m_resultColumns c) bs (m_dbRetMsg c) (m_pDBConnect c) (m_nBind c).
Definition set_dbRetMsg (bs : list byte) (c : DBConsumer) : DBConsumer :=
  mkDBConsumer (m_hStmt c) (m_nInd c) (m_cbInt c) (m_cbChar c) (m_cbTime c) (m_cbByte c)
    (m_cbBigint c) (m_szQuery c) (m_resultColumns c) (m_dbRetCode c) bs (m_pDBConnect c) (m_nBind c).
Definition set_nBind (n : Z) (c : DBConsumer) : DBConsumer :=
  mkDBConsumer (m_hStmt c) (m_nInd c) (m_cbInt c) (m_cbChar c) (m_cbTime c) (m_cbByte c)
    (m_cbBigint c) (m_szQuery c) (m_resultColumns c) (m_dbRetCode c) (m_dbRetMsg c)
    (m_pDBConnect c) n.
(** An indicator of the consumer; one of the caller is not looked at. *)
Definition set_indicator (i : SqlIndicator) (z : Z) (c : DBConsumer) : DBConsumer :=
  let mk nInd cbInt cbChar cbTime cbByte cbBigint :=
    mkDBConsumer (m_hStmt c) nInd cbInt cbChar cbTime cbByte cbBigint (m_szQuery c)
      (m_resultColumns c) (m_dbRetCode c) (m_dbRetMsg c) (m_pDBConnect c) (m_nBind c) in
  match i with
  | Ind_nInd => mk (Some z) (m_cbInt c) (m_cbChar c) (m_cbTime c) (m_cbByte c) (m_cbBigint c)
  | Ind_cbInt => mk (m_nInd c) z (m_cbChar c) (m_cbTime c) (m_cbByte c) (m_cbBigint c)
  | Ind_cbChar => mk (m_nInd c) (m_cbInt c) z (m_cbTime c) (m_cbByte c) (m_cbBigint c)
  | Ind_cbTime => mk (m_nInd c) (m_cbInt c) (m_cbChar c) z (m_cbByte c) (m_cbBigint c)
  | Ind_cbByte => mk (m_nInd c) (m_cbInt c) (m_cbChar c) (m_cbTime c) z (m_cbBigint c)
  | Ind_cbBigint => mk (m_nInd c) (m_cbInt c) (m_cbChar c) (m_cbTime c) (m_cbByte c) z
  | IndAt _ => c
  end.
End State.
Arguments Db {_} U.

(** ** Calls of the driver *)
Section Calls.
Context `{Odbc} {U : Type}.
Local Abbreviation W := (Db U).

Definition odbc {A} (f : driver → A * driver) : M W A :=
  λ w, let r := f (db_driver w) in Done (set_driver (snd r) w) (fst r).
Definition log (l : log_level) (text : list byte) : M W unit := modify (add_log l text).
Definition call_shutdown (msg : string) : M W unit :=
  w ← get_state;
  match shutdownFunc w with
  | None => throw (runtime_error "bad_function_call")
  | Some f => zoom db_app set_db_app (f msg)
  end.

(** [strcpy] into an array of [size] bytes. *)
Definition strcpy_to (size : Z) (src : list byte) : M W (list byte) :=
  if zlen (c_str src) <? size then mret (c_str src) else undefined "strcpy: past the end of the array".

(** ** [Open] and [Close] *)
Fixpoint connect_loop (fuel : nat) (hDBC : SQLHANDLE) : M W unit :=
  match fuel with
  | O => no_fuel
  | S fuel =>
      log LOGI (string_bytes "trying DB Connecting...");;
      w ← get_state;
      r ← odbc (SQLConnect hDBC (s_szServer w) (g_szId w) (g_szPassword w));
      if negb (r =? SQL_ERROR) then
        log LOGI (string_bytes "Connected to DB.");;
        _ ← odbc (SQLFreeHandle SQL_HANDLE_DBC hDBC);
        mret tt
      else connect_loop fuel hDBC
  end.

Definition open_fail (hDBC : SQLHANDLE) : M W bool :=
  (if bool_decide (hDBC ≠ SQL_NULL_HANDLE)
   then _ ← odbc (SQLFreeHandle SQL_HANDLE_DBC hDBC); mret tt else mret tt);;
  w ← get_state;
  (if bool_decide (g_henv w ≠ SQL_NULL_HANDLE)
   then _ ← odbc (SQLFreeHandle SQL_HANDLE_ENV (g_henv w)); modify (set_henv SQL_NULL_HANDLE)
   else mret tt);;
  mret false.

Definition Open (fuel : nat) (szServer uid upw : list byte) (cb : option (string → M U unit))
    : M W bool :=
  server ← strcpy_to 64 szServer;
  user ← strcpy_to 80 uid;
  password ← strcpy_to 80 upw;
  modify (set_login server user password cb);;
  _ ← odbc (SQLSetEnvAttr SQL_NULL_HANDLE SQL_ATTR_CONNECTION_POOLING SQL_CP_ONE_PER_DRIVER);
  env ← odbc (SQLAllocHandle SQL_HANDLE_ENV SQL_NULL_HANDLE);
  (match snd env with Some h => modify (set_henv h) | None => mret tt end);;
  if negb (fst env =? SQL_SUCCESS) && (fst env =? SQL_SUCCESS_WITH_INFO) then
    log LOGE (string_bytes "Can't Get SQL HENV");;
    open_fail SQL_NULL_HANDLE
  else
    w ← get_state;
    _ ← odbc (SQLSetEnvAttr (g_henv w) SQL_ATTR_ODBC_VERSION SQL_OV_ODBC3);
    dbc ← odbc (SQLAllocHandle SQL_HANDLE_DBC (g_henv w));
    let hDBC := default SQL_NULL_HANDLE (snd dbc) in
    if fst dbc =? SQL_ERROR then
      log LOGE (string_bytes "Can't Allocate SQL Connection Handle");;
      open_fail hDBC
    else
      connect_loop fuel hDBC;;
      mret true.

Definition Close : M W unit :=
  w ← get_state;
  if bool_decide (g_henv w ≠ SQL_NULL_HANDLE) then
    _ ← odbc (SQLFreeHandle SQL_HANDLE_ENV (g_henv w));
    modify (set_henv SQL_NULL_HANDLE)
  else mret tt.

(** ** [DBConnection] *)
Definition connection_err (hDBC hStmt : SQLHANDLE) : M W DBConnection :=
  if bool_decide (hDBC ≠ SQL_NULL_HANDLE) then
    _ ← odbc (SQLFreeHandle SQL_HANDLE_DBC hDBC);
    mret (mkDBConnection hStmt SQL_NULL_HANDLE)
  else mret (mkDBConnection hStmt hDBC).

Definition DBConnection_new : M W DBConnection :=
  w ← get_state;
  dbc ← odbc (SQLAllocHandle SQL_HANDLE_DBC (g_henv w));
  let hDBC := default SQL_NULL_HANDLE (snd dbc) in
  if fst dbc =? SQL_ERROR then
    log LOGE (string_bytes "Can't Allocate SQL Connection Handle");;
    connection_err hDBC SQL_NULL_HANDLE
  else
    r ← odbc (SQLConnect hDBC (s_szServer w) (g_szId w) (g_szPassword w));
    if r =? SQL_ERROR then
      log LOGE (string_bytes "Can't connect to SQL");;
      call_shutdown "Can't connect to SQL";;
      connection_err hDBC SQL_NULL_HANDLE
    else
      stmt ← odbc (SQLAllocHandle SQL_HANDLE_STMT hDBC);
      let hStmt := default SQL_NULL_HANDLE (snd stmt) in
      if fst stmt =? SQL_ERROR then
        log LOGE (string_bytes "Can't Allocate SQL Stmt Handle");;
        connection_err hDBC hStmt
      else mret (mkDBConnection hStmt hDBC).

Definition DBConnection_delete (c : DBConnection) : M W unit :=
  (if bool_decide (dc_hStmt c ≠ SQL_NULL_HANDLE)
   then _ ← odbc (SQLFreeHandle SQL_HANDLE_STMT (dc_hStmt c)); mret tt else mret tt);;
  if bool_decide (dc_hDBC c ≠ SQL_NULL_HANDLE)
  then _ ← odbc (SQLFreeHandle SQL_HANDLE_DBC (dc_hDBC c)); mret tt else mret tt.
End Calls.

(** ** [DBConsumer] *)
Section Consumer.
Context `{Odbc} {U : Type} `{FreshMemory}.
Local Abbreviation W := (Db U).
Local Abbreviation S := (DBConsumer * Db U)%type.

Definition SQL_NTS : Z := -3.

(** The constructor: the object it leaves. *)
Definition DBConsumer_new : M W DBConsumer :=
  connection ← DBConnection_new;
  mret (mkDBConsumer (dc_hStmt connection) None 0 SQL_NTS SQL_NTS SQL_NTS SQL_NTS [] None
    (replicate 4 Byte.x00) (fresh_bytes 256) connection 0).

(** The destructor; the connection is not deleted. *)
Definition free_stmt (o : free_option) : M S unit :=
  c ← on_fst get_state; _ ← on_snd (odbc (SQLFreeStmt (m_hStmt c) o)); mret tt.
Definition DBConsumer_delete : M S unit :=
  free_stmt SQL_UNBIND;; free_stmt SQL_CLOSE;; free_stmt SQL_RESET_PARAMS.

(** *** Queries *)

(** [_vsnprintf(query, 1023, format, va)]: the characters written, or None for
    the result -1. *)
Definition vsnprintf_query (text : list byte) : option (list byte) :=
  if zlen text <=? 1023 then Some text else None.

Definition u32_text (n : Z) : list byte := string_bytes (pretty n).

(** The statements the three functions share, from [strcpy] to the warning;
    [label] stands before the query in the warning. *)
Definition exec_direct (label : string) (query : list byte) : M S Z :=
  on_fst (modify (set_szQuery (c_str query)));;
  dwBefore ← on_snd (odbc GetTickCount);
  c ← on_fst get_state;
  r ← on_snd (odbc (SQLExecDirect (m_hStmt c) query));
  now ← on_snd (odbc GetTickCount);
  let dwDiff := u32 (now - dwBefore) in
  w ← on_snd get_state;
  (if s_nSqlTick w <? dwDiff then
     on_snd (log LOGW (string_bytes "SQLExecDirect() delayed : " ++ u32_text dwDiff
                       ++ string_bytes label ++ c_str query))
   else mret tt);;
  mret r.

(** The first diagnostic record of the statement: state and message. *)
Definition get_diag : M S (option (list byte * list byte)) :=
  c ← on_fst get_state;
  d ← on_snd (odbc (SQLGetDiagRec SQL_HANDLE_STMT (m_hStmt c) 1));
  mret (if SQL_SUCCEEDED (fst (fst d)) then Some (c_str (snd (fst d)), c_str (snd d)) else None).
Definition log_diag (szState szMessage query : list byte) : M S unit :=
  on_snd (log LOGE (string_bytes "state: " ++ szState ++ string_bytes "/ msg:" ++ szMessage
                    ++ [Byte.x0a] ++ string_bytes "Query: " ++ c_str query)).
Definition log_retValue (r : Z) (query : list byte) : M S unit :=
  on_snd (log LOGE (string_bytes "retValue : " ++ u32_text r ++ string_bytes ", query: " ++ c_str query)).
Definition sql_disconnected : M S unit :=
  on_snd (log LOGE (string_bytes "SQL Disconnected"));; on_snd (call_shutdown "SQL Disconnected").

Definition state_is (s : string) (szState : list byte) : bool := bool_decide (szState = string_bytes s).

Definition num_result_cols : M S bool :=
  c ← on_fst get_state;
  r ← on_snd (odbc (SQLNumResultCols (m_hStmt c)));
  (match snd r with Some n => on_fst (modify (set_resultColumns (Some n))) | None => mret tt end);;
  if negb (SQL_SUCCEEDED (fst r)) then
    on_snd (log LOGE (string_bytes "failed SQLNumResultCols()"));; mret false
  else mret true.

Definition Execute (text : list byte) : M S bool :=
  match vsnprintf_query text with
  | None => on_snd (log LOGE (string_bytes "Critical Error!!!"));; mret false
  | Some query =>
      r ← exec_direct ", Query:" query;
      if negb (r =? SQL_SUCCESS) then
        d ← get_diag;
        match d with
        | Some (szState, szMessage) =>
            log_diag szState szMessage query;;
            if state_is "08S01" szState then sql_disconnected;; mret false else mret false
        | None => log_retValue r query;; mret false
        end
      else num_result_cols
  end.

Definition ExecuteInsertUnique (text : list byte) : M S Z :=
  match vsnprintf_query text with
  | None => mret SQL_ERROR
  | Some query =>
      r ← exec_direct " / query: " query;
      if r =? SQL_SUCCESS then mret SQL_SUCCESS
      else
        d ← get_diag;
        match d with
        | Some (szState, szMessage) =>
            if state_is "23000" szState then mret SQL_SUCCESS_WITH_INFO
            else
              log_diag szState szMessage query;;
              if state_is "08S01" szState then sql_disconnected;; mret SQL_ERROR
              else mret SQL_ERROR
        | None => log_retValue r query;; mret SQL_ERROR
        end
  end.

Definition ExecuteNoData (text : list byte) : M S bool :=
  match vsnprintf_query text with
  | None => mret false
  | Some query =>
      r ← exec_direct ", Query:" query;
      if r =? SQL_SUCCESS then mret true
      else if r =? SQL_NO_DATA then mret false
      else
        d ← get_diag;
        match d with
        | Some (szState, szMessage) =>
            log_diag szState szMessage query;;
            if state_is "08S01" szState then sql_disconnected;; mret false else mret false
        | None => log_retValue r query;; mret false
        end
  end.

(** *** Memory *)

(** A store to the start of the object behind a pointer. *)
Definition store_to (p : SqlPointer) (bs : list byte) : M S unit :=
  let over (old : list byte) := bs ++ drop (length bs) old in
  let past := undefined "a store past the end of the object" in
  match p with
  | ToRetCode =>
      c ← on_fst get_state;
      if zlen bs <=? zlen (m_dbRetCode c)
      then on_fst (modify (set_dbRetCode (over (m_dbRetCode c)))) else past
  | ToRetMsg =>
      c ← on_fst get_state;
      if zlen bs <=? zlen (m_dbRetMsg c)
      then on_fst (modify (set_dbRetMsg (over (m_dbRetMsg c)))) else past
  | ToVar a =>
      w ← on_snd get_state;
      old ← deref "a dangling pointer is bound" (db_vars w !! a);
      if zlen bs <=? zlen old
      then on_snd (modify (λ w, set_vars (<[a := over old]> (db_vars w)) w)) else past
  end.

(** *** Columns *)

(** [SQLBindCol] on the next column; its parameter is a [SQLUSMALLINT]. *)
Definition bind_next (t : c_type) (p : SqlPointer) (len : Z) (i : SqlIndicator) : M S unit :=
  on_fst (modify (λ c, set_nBind (m_nBind c + 1) c));;
  c ← on_fst get_state;
  _ ← on_snd (odbc (SQLBindCol (m_hStmt c) (u16 (m_nBind c)) t p len i));
  mret tt.

Definition BindCol (t : c_type) (p : SqlPointer) (nLength : Z) (pnInd : SqlIndicator) : M S unit :=
  bind_next t p nLength pnInd.
Definition Skip (n : Z) : M S unit := on_fst (modify (λ c, set_nBind (m_nBind c + n) c)).
Definition BindParam (p : SqlParam) : M S unit :=
  c ← on_fst get_state; _ ← on_snd (odbc (SQLBindParameter (m_hStmt c) p)); mret tt.

(** The overloads of [Bind]: the first two, [int*], [float*], [int64_t*],
    [uint64_t*], a character array, [std::string], [TIMESTAMP_STRUCT*]. *)
Definition Bind_char (n : SqlPointer) : M S unit :=
  store_to n [Byte.x00];; bind_next SQL_C_TINYINT n 0 Ind_cbByte.
Definition Bind_int (n : SqlPointer) : M S unit :=
  store_to n (replicate 4 Byte.x00);; bind_next SQL_C_LONG n 0 Ind_cbInt.
Definition Bind_float (n : SqlPointer) : M S unit :=
  store_to n (replicate 4 Byte.x00);; bind_next SQL_C_LONG n 0 Ind_nInd.
Definition Bind_int64 (n : SqlPointer) : M S unit :=
  store_to n (replicate 8 Byte.x00);; bind_next SQL_C_SBIGINT n 0 Ind_cbBigint.
Definition Bind_uint64 (n : SqlPointer) : M S unit :=
  store_to n (replicate 8 Byte.x00);; bind_next SQL_C_UBIGINT n 0 Ind_cbBigint.
Definition Bind_chars (str : SqlPointer) (size : Z) : M S unit :=
  store_to str [Byte.x00];; bind_next SQL_C_CHAR str size Ind_cbChar.
(** The string of a caller, at the address [a], is resized first. *)
Definition Bind_string (a : N) (size : Z) : M S unit :=
  on_snd (modify (λ w, set_vars (<[a := replicate (Z.to_nat size) Byte.x00]> (db_vars w)) w));;
  bind_next SQL_C_CHAR (ToVar a) size Ind_cbChar.
Definition Bind_timestamp (str : SqlPointer) : M S unit :=
  bind_next SQL_C_TIMESTAMP str 16 Ind_cbTime.

(** *** Rows *)
Fixpoint apply_writes (l : list SqlWrite) : M S unit :=
  match l with
  | [] => mret tt
  | WData p bs :: l => store_to p bs;; apply_writes l
  | WInd i z :: l => on_fst (modify (set_indicator i z));; apply_writes l
  end.

Definition Fetch : M S bool :=
  c ← on_fst get_state;
  r ← on_snd (odbc (SQLFetch (m_hStmt c)));
  apply_writes (snd r);;
  if SQL_SUCCEEDED (fst r) then mret true
  else if fst r =? SQL_NO_DATA then mret false
  else
    d ← get_diag;
    match d with
    | Some (szState, szMessage) =>
        c ← on_fst get_state;
        on_snd (log LOGE (string_bytes "SQL Fetch Error. state: " ++ szState ++ string_bytes "/ msg:"
                          ++ szMessage ++ [Byte.x0a] ++ string_bytes "Query: " ++ m_szQuery c))
    | None => mret tt
    end;;
    mret false.

Definition Reset : M S unit :=
  free_stmt SQL_UNBIND;; free_stmt SQL_CLOSE;; on_fst (modify (set_nBind 0)).
Definition UnBind : M S unit := free_stmt SQL_UNBIND;; on_fst (modify (set_nBind 0)).

Definition FetchResultCode : M S bool :=
  Bind_int ToRetCode;;
  Bind_chars ToRetMsg 256;;
  ok ← Fetch;
  if negb ok then mret false else mret true.

Definition MoreResults : M S bool :=
  UnBind;;
  c ← on_fst get_state;
  r ← on_snd (odbc (SQLMoreResults (m_hStmt c)));
  if negb (r =? SQL_SUCCESS) then mret false else num_result_cols.
End Consumer.
