(* ===== verification/MssqlProperties.v ===== *)
(** * What the ODBC consumer does with the answers of the driver

    The outcome of the three ways to run a query, and [Open]: how long it tries
    and what its check of the environment handle lets through. *)
From stdpp Require Import gmap strings list pretty.
From coqutil Require Import Byte.
From S2P Require Import Prelude.
From S2P Require Import MlnUtils.
From S2P Require Import MssqlConsumer.
#[local] Open Scope Z_scope.

Section Queries.
Context `{Odbc} {U : Type} `{FreshMemory}.
Local Abbreviation S := (DBConsumer * Db U)%type.
Implicit Types (c : DBConsumer) (w : Db U).

(** ** Queries *)

(** What the driver answers to a query: the return code, the SQL state of its
    diagnostic record if it has one, and the driver afterwards. *)
Definition answer (h : SQLHANDLE) (query : list byte) (d : driver) : Z * driver :=
  let d1 := snd (GetTickCount d) in
  let r := SQLExecDirect h query d1 in
  (fst r, snd (GetTickCount (snd r))).
Definition diagnosis (h : SQLHANDLE) (d : driver) : option (list byte) :=
  let r := fst (SQLGetDiagRec SQL_HANDLE_STMT h 1 d) in
  if SQL_SUCCEEDED (fst (fst r)) then Some (c_str (snd (fst r))) else None.
Definition has_state (s : string) (st : option (list byte)) : bool :=
  match st with Some bs => state_is s bs | None => false end.

(** The consumer remembers the query and nothing else changes in it; the
    application is [u]. *)
Definition ran {A} (m : M S A) c w (query : list byte) (u : U) (a : A) : Prop :=
  ∃ w', m (c, w) = Done (set_szQuery (c_str query) c, w') a ∧ db_app w' = u
    ∧ shutdownFunc w' = shutdownFunc w.

Lemma exec_direct_run label query c w :
  ∃ w', exec_direct label query (c, w)
        = Done (set_szQuery (c_str query) c, w') (fst (answer (m_hStmt c) query (db_driver w)))
    ∧ db_driver w' = snd (answer (m_hStmt c) query (db_driver w))
    ∧ db_app w' = db_app w ∧ shutdownFunc w' = shutdownFunc w.
Proof.
  unfold exec_direct, odbc, on_fst, on_snd, zoom. run_step. simpl.
  case_match; simpl; by eexists.
Qed.

Lemma get_diag_run c w :
  ∃ w' msg, get_diag (c, w)
        = Done (c, w') ((λ st, (st, msg)) <$> diagnosis (m_hStmt c) (db_driver w))
    ∧ db_app w' = db_app w ∧ shutdownFunc w' = shutdownFunc w.
Proof.
  unfold get_diag, diagnosis, odbc, on_fst, on_snd, zoom. run_step.
  set (d := SQLGetDiagRec _ _ _ _). exists (set_driver (snd d) w), (c_str (snd (fst d))).
  split; [|done]. simpl. by destruct (SQL_SUCCEEDED _).
Qed.

Lemma log_run l text c w :
  on_snd (log (U := U) l text) (c, w) = Done (c, add_log l text w) tt.
Proof. done. Qed.

Lemma disconnected_run c w f u :
  shutdownFunc w = Some f → f "SQL Disconnected" (db_app w) = Done u tt →
  ∃ w', sql_disconnected (c, w) = Done (c, w') tt ∧ db_app w' = u ∧ shutdownFunc w' = shutdownFunc w.
Proof.
  intros Hf Hu. unfold sql_disconnected, call_shutdown, log, on_snd, zoom. run_step.
  cbn [shutdownFunc add_log]. rewrite Hf. cbn [db_app add_log]. rewrite Hu.
  eexists. split; [done|]. by rewrite <- Hf.
Qed.

(** The end of a query that failed: the diagnosis is logged and a lost
    connection reported, unless [skip] says that the state is no failure. *)
Lemma failed_query_run {A} (skip : list byte → bool) (query : list byte) r (a b : A) c w f u :
  (∀ bs, skip bs = true → state_is "08S01" bs = false) →
  shutdownFunc w = Some f → f "SQL Disconnected" (db_app w) = Done u tt →
  let st := diagnosis (m_hStmt c) (db_driver w) in
  ∃ w', (d ← get_diag;
         match d with
         | Some (szState, szMessage) =>
             if skip szState then mret b
             else
               log_diag szState szMessage query;;
               if state_is "08S01" szState then sql_disconnected;; mret a else mret a
         | None => log_retValue r query;; mret a
         end) (c, w)
        = Done (c, w') (match st with Some bs => if skip bs then b else a | None => a end)
    ∧ db_app w' = (if has_state "08S01" st then u else db_app w)
    ∧ shutdownFunc w' = shutdownFunc w.
Proof.
  intros Hskip Hf Hu st. destruct (get_diag_run c w) as (w1 & msg & E & Ha & Hs). fold st in E.
  rewrite bind_run, E. cbn [bind_outcome]. destruct st as [bs|]; cbn [fmap option_fmap option_map].
  2:{ unfold log_retValue. rewrite bind_run, log_run. eexists. split; [done|]. by split. }
  simpl. destruct (skip bs) eqn:Hk.
  { rewrite (Hskip bs Hk). by eexists. }
  unfold log_diag. rewrite bind_run, log_run. cbn [bind_outcome].
  destruct (state_is "08S01" bs); [|by eexists].
  destruct (disconnected_run c (add_log LOGE (string_bytes "state: " ++ bs ++ string_bytes "/ msg:"
    ++ msg ++ [Byte.x0a] ++ string_bytes "Query: " ++ c_str query) w1) f u) as (w2 & E2 & Ha2 & Hs2);
    [simpl; congruence|simpl; congruence|].
  rewrite bind_run, E2. cbn [bind_outcome]. eexists. split; [done|]. split; [done|]. by rewrite Hs2.
Qed.

Lemma num_result_cols_run c w :
  ∃ c' w', num_result_cols (c, w)
        = Done (c', w') (SQL_SUCCEEDED (fst (fst (SQLNumResultCols (m_hStmt c) (db_driver w)))))
    ∧ db_app w' = db_app w ∧ m_szQuery c' = m_szQuery c ∧ m_nBind c' = m_nBind c.
Proof.
  unfold num_result_cols, odbc, on_fst, on_snd, zoom, log. run_step. simpl.
  destruct (snd _) as [n|]; simpl; destruct (SQL_SUCCEEDED _); simpl; by do 2 eexists.
Qed.

(** C32. Whatever the driver answers, a query that fits into the 1023 bytes of the buffer is
    executed once and remembered in full (up to its first NUL); the result says whether the driver
    returned SQL_SUCCESS, [ExecuteInsertUnique] also tells a duplicate key; and the shutdown
    function is called, exactly once, if and only if the query failed with state 08S01, the
    connection being lost. A query that does not fit fails without a call of the driver. *)
Theorem query_outcomes text c w f u :
  shutdownFunc w = Some f → f "SQL Disconnected" (db_app w) = Done u tt →
  let '(r, d) := answer (m_hStmt c) text (db_driver w) in
  let st := diagnosis (m_hStmt c) d in
  let lost (failed : bool) := if failed && has_state "08S01" st then u else db_app w in
  if zlen text <=? 1023 then
    ran (ExecuteInsertUnique text) c w text (lost (negb (r =? SQL_SUCCESS)))
      (if r =? SQL_SUCCESS then SQL_SUCCESS
       else if has_state "23000" st then SQL_SUCCESS_WITH_INFO else SQL_ERROR)
    ∧ ran (ExecuteNoData text) c w text (lost (negb (r =? SQL_SUCCESS) && negb (r =? SQL_NO_DATA)))
        (r =? SQL_SUCCESS)
    ∧ (if r =? SQL_SUCCESS then
         ∃ c' w', Execute text (c, w)
             = Done (c', w') (SQL_SUCCEEDED (fst (fst (SQLNumResultCols (m_hStmt c) d))))
           ∧ db_app w' = db_app w ∧ m_szQuery c' = c_str text ∧ m_nBind c' = m_nBind c
       else ran (Execute text) c w text (lost true) false)
  else
    ExecuteInsertUnique text (c, w) = Done (c, w) SQL_ERROR
    ∧ ExecuteNoData text (c, w) = Done (c, w) false
    ∧ Execute text (c, w) = Done (c, add_log LOGE (string_bytes "Critical Error!!!") w) false.
Proof.
  intros Hf Hu. destruct (answer _ _ _) as [r d] eqn:Ea. cbv zeta.
  unfold ExecuteInsertUnique, ExecuteNoData, Execute, vsnprintf_query.
  destruct (zlen text <=? 1023); [|done].
  assert (Hrun : ∀ label, ∃ w1, exec_direct label text (c, w) = Done (set_szQuery (c_str text) c, w1) r
            ∧ db_driver w1 = d ∧ db_app w1 = db_app w ∧ shutdownFunc w1 = shutdownFunc w).
  { intros label. destruct (exec_direct_run label text c w) as (w1 & E & Hd & Happ & Hsf).
    rewrite Ea in E, Hd. by exists w1. }
  assert (Hskip : ∀ bs, state_is "23000" bs = true → state_is "08S01" bs = false).
  { unfold state_is. intros bs ->%bool_decide_eq_true. by apply bool_decide_eq_false. }
  set (c1 := set_szQuery (c_str text) c) in *. split_and!.
  - destruct (Hrun " / query: ") as (w1 & E & <- & Happ & Hsf). unfold ran.
    rewrite bind_run, E. cbn [bind_outcome].
    destruct (r =? SQL_SUCCESS); [by exists w1|].
    destruct (failed_query_run (state_is "23000") text r SQL_ERROR SQL_SUCCESS_WITH_INFO c1 w1 f u
                Hskip) as (w2 & -> & Ha & Hs); [congruence..|].
    exists w2. change (m_hStmt c1) with (m_hStmt c) in *. rewrite Ha, Happ, Hs. split_and!; try done.
    unfold has_state. by destruct (diagnosis _ _).
  - destruct (Hrun ", Query:") as (w1 & E & <- & Happ & Hsf). unfold ran.
    rewrite bind_run, E. cbn [bind_outcome].
    destruct (r =? SQL_SUCCESS); [by exists w1|].
    destruct (r =? SQL_NO_DATA); [by exists w1|].
    destruct (failed_query_run (λ _, false) text r false false c1 w1 f u) as (w2 & E2 & Ha & Hs);
      [done|congruence..|].
    exists w2. change (m_hStmt c1) with (m_hStmt c) in *. rewrite Ha, Happ, Hs. split_and!; try done.
    rewrite E2. by destruct (diagnosis _ _).
  - destruct (Hrun ", Query:") as (w1 & E & <- & Happ & Hsf). unfold ran.
    rewrite bind_run, E. cbn [bind_outcome].
    destruct (r =? SQL_SUCCESS); cbn [negb].
    { destruct (num_result_cols_run c1 w1) as (c2 & w2 & -> & Ha & Hq & Hn). exists c2, w2.
      split; [done|]. by rewrite Ha. }
    destruct (failed_query_run (λ _, false) text r false false c1 w1 f u) as (w2 & E2 & Ha & Hs);
      [done|congruence..|].
    exists w2. change (m_hStmt c1) with (m_hStmt c) in *. rewrite Ha, Happ, Hs. split_and!; try done.
    rewrite E2. by destruct (diagnosis _ _).
Qed.
End Queries.

(** ** Opening *)
Section Opening.
Context `{Odbc} {U : Type}.
Implicit Types (w : Db U).

(** The driver after [k] attempts to connect with the login of [w]. *)
Definition connect_attempt (hDBC : SQLHANDLE) w (d : driver) : Z * driver :=
  SQLConnect hDBC (s_szServer w) (g_szId w) (g_szPassword w) d.
Definition after_attempts (hDBC : SQLHANDLE) w (k : nat) (d : driver) : driver :=
  Nat.iter k (λ d, snd (connect_attempt hDBC w d)) d.

Definition trying : log_level * list byte := (LOGI, string_bytes "trying DB Connecting...").
Definition connected : log_level * list byte := (LOGI, string_bytes "Connected to DB.").

Lemma connect_loop_run hDBC k : ∀ fuel w,
  (∀ j, (j < k)%nat →
     fst (connect_attempt hDBC w (after_attempts hDBC w j (db_driver w))) = SQL_ERROR) →
  fst (connect_attempt hDBC w (after_attempts hDBC w k (db_driver w))) ≠ SQL_ERROR →
  (k < fuel)%nat →
  ∃ w', connect_loop fuel hDBC w = Done w' tt ∧ g_henv w' = g_henv w
    ∧ db_log w' = db_log w ++ replicate (S k) trying ++ [connected].
Proof.
  induction k as [|k IH]; intros fuel w Hfail Hok Hfuel; (destruct fuel as [|fuel]; [lia|]);
    cbn [connect_loop]; unfold log, odbc; run_step.
  - change (fst (SQLConnect _ _ _ _ _)) with (fst (connect_attempt hDBC w (db_driver w))).
    simpl in Hok. rewrite (proj2 (Z.eqb_neq _ _)) by done. cbn [negb]. run_step.
    eexists. split; [done|]. split; [done|]. simpl. by rewrite <- app_assoc.
  - set (w1 := set_driver _ _).
    change (fst (SQLConnect _ _ _ _ _)) with (fst (connect_attempt hDBC w (db_driver w))).
    pose proof (Hfail 0%nat ltac:(lia)) as Hz. simpl in Hz. rewrite Hz. cbn [negb].
    assert (Hiter : ∀ j, after_attempts hDBC w (S j) (db_driver w)
                         = after_attempts hDBC w1 j (db_driver w1)).
    { intros j. unfold after_attempts. by rewrite Nat.iter_succ_r. }
    destruct (IH fuel w1) as (w' & E & He & Hl); [| |lia|].
    + intros j Hj. rewrite <- Hiter. apply (Hfail (S j)). lia.
    + by rewrite <- Hiter.
    + exists w'. split; [done|]. split; [done|]. rewrite Hl. simpl. by rewrite <- app_assoc.
Qed.

Lemma connect_loop_never hDBC : ∀ fuel w,
  (∀ j, fst (connect_attempt hDBC w (after_attempts hDBC w j (db_driver w))) = SQL_ERROR) →
  connect_loop fuel hDBC w = NoFuel.
Proof.
  induction fuel as [|fuel IH]; intros w Hfail; [done|].
  cbn [connect_loop]. unfold log, odbc. run_step. set (w1 := set_driver _ _).
  change (fst (SQLConnect _ _ _ _ _)) with (fst (connect_attempt hDBC w (db_driver w))).
  pose proof (Hfail 0%nat) as Hz. simpl in Hz. rewrite Hz. cbn [negb]. apply IH. intros j.
  pose proof (Hfail (S j)) as Hj. unfold after_attempts in *. by rewrite Nat.iter_succ_r in Hj.
Qed.

(** The handles are allocated: the code and the environment, the code and the
    connection, and the driver afterwards. *)
Definition allocated (d : driver) : (Z * SQLHANDLE) * (Z * SQLHANDLE) * driver :=
  let d1 := snd (SQLSetEnvAttr SQL_NULL_HANDLE SQL_ATTR_CONNECTION_POOLING SQL_CP_ONE_PER_DRIVER d) in
  let env := SQLAllocHandle SQL_HANDLE_ENV SQL_NULL_HANDLE d1 in
  let henv := default SQL_NULL_HANDLE (snd (fst env)) in
  let d2 := snd (SQLSetEnvAttr henv SQL_ATTR_ODBC_VERSION SQL_OV_ODBC3 (snd env)) in
  let dbc := SQLAllocHandle SQL_HANDLE_DBC henv d2 in
  ((fst (fst env), henv), (fst (fst dbc), default SQL_NULL_HANDLE (snd (fst dbc))), snd dbc).

Definition login_fits (server uid upw : list byte) : Prop :=
  zlen (c_str server) < 64 ∧ zlen (c_str uid) < 80 ∧ zlen (c_str upw) < 80.

(** [Open] up to its loop, the environment not being given [SUCCESS_WITH_INFO]. *)
Lemma open_run fuel server uid upw cb w :
  login_fits server uid upw → g_henv w = SQL_NULL_HANDLE →
  let '((rc_env, henv), (rc_dbc, hDBC), d) := allocated (db_driver w) in
  rc_env ≠ SQL_SUCCESS_WITH_INFO → rc_dbc ≠ SQL_ERROR →
  ∃ w1, Open fuel server uid upw cb w = (connect_loop fuel hDBC;; mret true) w1
    ∧ db_driver w1 = d ∧ g_henv w1 = henv ∧ db_log w1 = db_log w
    ∧ s_szServer w1 = c_str server ∧ g_szId w1 = c_str uid ∧ g_szPassword w1 = c_str upw.
Proof.
  intros (Hs & Hu & Hp) Hnull. unfold allocated.
  unfold Open, strcpy_to. rewrite !(proj2 (Z.ltb_lt _ _)) by done. unfold odbc. run_step.
  cbn [db_driver set_driver set_login].
  set (d1 := snd (SQLSetEnvAttr _ _ _ _)). destruct (SQLAllocHandle SQL_HANDLE_ENV _ d1) as [[rc o] d2] eqn:E.
  simpl. intros Hinfo Hdbc.
  assert (Hguard : negb (rc =? SQL_SUCCESS) && (rc =? SQL_SUCCESS_WITH_INFO) = false)
    by (rewrite (proj2 (Z.eqb_neq rc SQL_SUCCESS_WITH_INFO)) by done; apply andb_false_r).
  rewrite Hguard. destruct o as [h|]; run_step; cbn [g_henv set_driver set_henv set_login db_driver];
    rewrite ?Hnull; rewrite (proj2 (Z.eqb_neq _ _)) by done; by eexists.
Qed.

(** C33. [Open] with an environment and a connection handle tries to connect until the driver
    returns anything but SQL_ERROR, and then returns true: after k failures with k + 1 attempts; if
    every attempt fails it never returns. *)
Theorem open_tries_until_connected server uid upw cb w :
  login_fits server uid upw → g_henv w = SQL_NULL_HANDLE →
  let '((rc_env, henv), (rc_dbc, hDBC), d) := allocated (db_driver w) in
  let attempt k :=
    fst (SQLConnect hDBC (c_str server) (c_str uid) (c_str upw)
           (Nat.iter k (λ d, snd (SQLConnect hDBC (c_str server) (c_str uid) (c_str upw) d)) d)) in
  rc_env = SQL_SUCCESS → rc_dbc ≠ SQL_ERROR →
  (∀ k fuel, (∀ j, (j < k)%nat → attempt j = SQL_ERROR) → attempt k ≠ SQL_ERROR → (k < fuel)%nat →
     ∃ w', Open fuel server uid upw cb w = Done w' true ∧ g_henv w' = henv
       ∧ db_log w' = db_log w ++ replicate (S k) trying ++ [connected])
  ∧ ((∀ j, attempt j = SQL_ERROR) → ∀ fuel, Open fuel server uid upw cb w = NoFuel).
Proof.
  intros Hfit Hnull. pose proof (λ fuel, open_run fuel server uid upw cb w Hfit Hnull) as Hopen.
  destruct (allocated (db_driver w)) as [[[rc_env henv] [rc_dbc hDBC]] d]. intros attempt Henv Hdbc.
  assert (Hinfo : rc_env ≠ SQL_SUCCESS_WITH_INFO) by (by rewrite Henv).
  split.
  - intros k fuel Hfail Hok Hfuel. destruct (Hopen fuel Hinfo Hdbc) as (w1 & -> & Hd & Hh & Hl & Es & Eu & Ep).
    destruct (connect_loop_run hDBC k fuel w1) as (w2 & E & Hh2 & Hl2); [| |done|].
    + intros j Hj. unfold after_attempts, connect_attempt. rewrite Hd, Es, Eu, Ep. by apply Hfail.
    + unfold after_attempts, connect_attempt. by rewrite Hd, Es, Eu, Ep.
    + exists w2. rewrite bind_run, E. split; [done|]. by rewrite Hh2, Hl2, Hl.
  - intros Hfail fuel. destruct (Hopen fuel Hinfo Hdbc) as (w1 & -> & Hd & _ & _ & Es & Eu & Ep).
    rewrite bind_run, connect_loop_never; [done|]. intros j.
    unfold after_attempts, connect_attempt. rewrite Hd, Es, Eu, Ep. apply Hfail.
Qed.

(** What ODBC documents of calls on a null handle. *)
Definition null_handles_refused : Prop :=
  (∀ t d, t ≠ SQL_HANDLE_ENV → fst (SQLAllocHandle t SQL_NULL_HANDLE d) = (SQL_INVALID_HANDLE, None))
  ∧ (∀ s u p d, fst (SQLConnect SQL_NULL_HANDLE s u p d) = SQL_INVALID_HANDLE).

(** The check of the environment handle in [Open] is inverted. When the driver has no
    environment to give ([SQL_ERROR], a null handle) and refuses calls on a null handle as
    documented, [Open] reports a connection and returns true at once; when it gives one with
    [SQL_SUCCESS_WITH_INFO], which is a success, [Open] frees it and returns false. *)
Theorem open_checks_environment_wrongly server uid upw cb w fuel :
  login_fits server uid upw → g_henv w = SQL_NULL_HANDLE → (0 < fuel)%nat → null_handles_refused →
  let env := fst (SQLAllocHandle SQL_HANDLE_ENV SQL_NULL_HANDLE
    (snd (SQLSetEnvAttr SQL_NULL_HANDLE SQL_ATTR_CONNECTION_POOLING SQL_CP_ONE_PER_DRIVER (db_driver w)))) in
  (env = (SQL_ERROR, Some SQL_NULL_HANDLE) →
   ∃ w', Open fuel server uid upw cb w = Done w' true ∧ g_henv w' = SQL_NULL_HANDLE
     ∧ db_log w' = db_log w ++ [trying; connected])
  ∧ (∀ h, env = (SQL_SUCCESS_WITH_INFO, Some h) →
     ∃ w', Open fuel server uid upw cb w = Done w' false ∧ g_henv w' = SQL_NULL_HANDLE).
Proof.
  intros Hfit Hnull Hfuel [Halloc Hconn] env. split.
  - intros Henv. pose proof (open_run fuel server uid upw cb w Hfit Hnull) as Hopen.
    unfold allocated in Hopen. fold env in Hopen. rewrite Henv in Hopen. cbn [fst snd default] in Hopen.
    match type of Hopen with context [SQLAllocHandle SQL_HANDLE_DBC _ ?d] =>
      pose proof (Halloc SQL_HANDLE_DBC d ltac:(done)) as Hdbc end.
    simpl in Hopen, Hdbc. rewrite Hdbc in Hopen. simpl in Hopen.
    destruct Hopen as (w1 & -> & _ & Hh & Hl & _); [done..|].
    destruct (connect_loop_run SQL_NULL_HANDLE 0 fuel w1) as (w2 & E & Hh2 & Hl2);
      [intros j Hj; lia|simpl; unfold connect_attempt; by rewrite Hconn|done|].
    exists w2. rewrite bind_run, E. split; [done|]. by rewrite Hh2, Hl2, Hh, Hl.
  - intros h Henv. destruct Hfit as (Hs & Hu & Hp).
    unfold Open, strcpy_to. rewrite !(proj2 (Z.ltb_lt _ _)) by done. unfold odbc. run_step.
    cbn [db_driver set_driver set_login].
    match goal with |- context [SQLAllocHandle SQL_HANDLE_ENV _ ?d] =>
      change (fst (SQLAllocHandle SQL_HANDLE_ENV SQL_NULL_HANDLE d)) with env end.
    rewrite Henv. unfold log, open_fail, odbc. run_step. simpl. run_step. cbn [g_henv set_henv add_log].
    destruct (decide (h = SQL_NULL_HANDLE)) as [->|Hh];
      [rewrite bool_decide_false by naive_solver|rewrite bool_decide_true by done]; by eexists.
Qed.
End Opening.

(** ** Witnesses: a driver that counts its calls *)
Section Witnesses.
#[local] Existing Instance zero_memory.

(** Connecting fails twice; queries fail with the SQL state [st]; a null handle
    is refused; [env] is the answer to the request for an environment. *)
Definition demo_driver (env : Z * option SQLHANDLE) (st : string) : Odbc := {|
  driver := nat;
  GetTickCount d := (Z.of_nat d, d);
  SQLSetEnvAttr _ _ _ d := (SQL_SUCCESS, d);
  SQLAllocHandle t h d :=
    match t with
    | SQL_HANDLE_ENV => (env, d)
    | _ => (if decide (h = SQL_NULL_HANDLE) then (SQL_INVALID_HANDLE, None) else (SQL_SUCCESS, Some 2%N), d)
    end;
  SQLFreeHandle _ _ d := (SQL_SUCCESS, d);
  SQLConnect h _ _ _ d :=
    (if decide (h = SQL_NULL_HANDLE) then SQL_INVALID_HANDLE
     else if decide (d < 2)%nat then SQL_ERROR else SQL_SUCCESS, S d);
  SQLFreeStmt _ _ d := (SQL_SUCCESS, d);
  SQLExecDirect _ _ d := (SQL_ERROR, d);
  SQLGetDiagRec _ _ _ d := ((SQL_SUCCESS, string_bytes st, []), d);
  SQLNumResultCols _ d := ((SQL_SUCCESS, Some 0), d);
  SQLBindCol _ _ _ _ _ _ d := (SQL_SUCCESS, d);
  SQLBindParameter _ _ d := (SQL_SUCCESS, d);
  SQLFetch _ d := ((SQL_NO_DATA, []), d);
  SQLMoreResults _ d := (SQL_NO_DATA, d)
|}.

(** The application counts the calls of the shutdown function. *)
Definition demo_shutdown (msg : string) : M nat unit := modify S.
Definition demo_db (env : Z * option SQLHANDLE) (st : string) : @Db (demo_driver env st) nat :=
  @mkDb (demo_driver env st) nat 0%nat 0%N [] [] [] (Some demo_shutdown) 5000 ∅ [] 0%nat.
Definition demo_consumer : DBConsumer :=
  mkDBConsumer 3%N None 0 SQL_NTS SQL_NTS SQL_NTS SQL_NTS [] None (replicate 4 Byte.x00)
    (fresh_bytes 256) (mkDBConnection 3%N 2%N) 0.

Lemma query_outcomes_witness :
  ran (H := demo_driver (SQL_SUCCESS, Some 1%N) "08S01") (ExecuteInsertUnique (string_bytes "q"))
    demo_consumer (demo_db (SQL_SUCCESS, Some 1%N) "08S01") (string_bytes "q") 1%nat SQL_ERROR.
Proof.
  exact (proj1 (query_outcomes (H := demo_driver (SQL_SUCCESS, Some 1%N) "08S01") (string_bytes "q")
    demo_consumer (demo_db (SQL_SUCCESS, Some 1%N) "08S01") demo_shutdown 1%nat eq_refl eq_refl)).
Defined.

Lemma demo_login : login_fits (string_bytes "db") (string_bytes "u") (string_bytes "p").
Proof. by vm_compute. Qed.

Lemma open_tries_until_connected_witness :
  ∃ w', Open (H := demo_driver (SQL_SUCCESS, Some 1%N) "") 9 (string_bytes "db") (string_bytes "u")
          (string_bytes "p") None (demo_db (SQL_SUCCESS, Some 1%N) "") = Done w' true
    ∧ db_log w' = [trying; trying; trying; connected].
Proof.
  destruct (proj1 (open_tries_until_connected (H := demo_driver (SQL_SUCCESS, Some 1%N) "")
    (string_bytes "db") (string_bytes "u") (string_bytes "p") None (demo_db (SQL_SUCCESS, Some 1%N) "")
    demo_login eq_refl eq_refl ltac:(done)) 2%nat 9%nat) as (w' & E & _ & Hl).
  - intros [|[|j]] Hj; [done|done|lia].
  - done.
  - lia.
  - exists w'. by split.
Defined.

Lemma open_checks_environment_wrongly_witness :
  ∃ w', Open (H := demo_driver (SQL_ERROR, Some 0%N) "") 1 (string_bytes "db") (string_bytes "u")
          (string_bytes "p") None (demo_db (SQL_ERROR, Some 0%N) "") = Done w' true
    ∧ g_henv w' = 0%N ∧ db_log w' = [trying; connected].
Proof.
  refine (proj1 (open_checks_environment_wrongly (H := demo_driver (SQL_ERROR, Some 0%N) "")
    (string_bytes "db") (string_bytes "u") (string_bytes "p") None (demo_db (SQL_ERROR, Some 0%N) "")
    1%nat demo_login eq_refl ltac:(lia) _) eq_refl).
  split; [by intros []|done].
Defined.
End Witnesses.
