(* ===== verification/ThreadStatic.v ===== *)
(** * Values of threads and pools of objects

    Models net/threadStaticValue.h, a value of its own for every thread whose
    objects are kept in a stack to be deleted later, and net/memoryPool.h, the
    [operator new] of the pooled classes.  The lock-free stack and the pool are
    those of Boost and interfaces here.  Every step of the model is one call;
    calls of different threads are interleaved in any order. *)
From stdpp Require Import gmap strings list.
From S2P Require Import Prelude.
#[local] Open Scope Z_scope.

(** ** [ThreadStaticValue] *)

(** [boost::lockfree::stack<T *, capacity<CapacityLimit>>] *)
Class LockfreeStack : Type := {
  stack : Type;
  stack_empty : stack → bool;
  stack_push : N → stack → option stack;       (* none: the stack is full *)
  stack_pop : stack → option (N * stack)
}.

(** Pointers are numbers; a thread without an entry has [nullptr]. *)
Record StaticWorld `{LockfreeStack} (T : Type) : Type := mkStaticWorld {
  sw_heap : gmap N T;
  sw_next : N;
  sw_threadValue : gmap N N;
  sw_ContainerForClear : stack
}.
#[global] Arguments mkStaticWorld {_ T}.
#[global] Arguments sw_heap {_ T}.
#[global] Arguments sw_next {_ T}.
#[global] Arguments sw_threadValue {_ T}.
#[global] Arguments sw_ContainerForClear {_ T}.

Section ThreadStaticValue.
Context `{LockfreeStack} {T : Type} (T_new : T).
Local Abbreviation W := (StaticWorld T).

(** [get], in the thread [tid]; the result of [push] is not used. *)
Definition ThreadStaticValue_get (tid : N) : M W N :=
  w ← get_state;
  match sw_threadValue w !! tid with
  | Some threadValue => mret threadValue
  | None =>
      let threadValue := sw_next w in
      put_state (mkStaticWorld (<[threadValue := T_new]> (sw_heap w)) (threadValue + 1)%N
                   (<[tid := threadValue]> (sw_threadValue w))
                   (default (sw_ContainerForClear w) (stack_push threadValue (sw_ContainerForClear w))));;
      mret threadValue
  end.

(** Use of the reference that [get] returns. *)
Definition static_load (p : N) : M W T :=
  w ← get_state; deref "dangling reference" (sw_heap w !! p).
Definition static_store (p : N) (v : T) : M W unit :=
  w ← get_state;
  _ ← deref "dangling reference" (sw_heap w !! p);
  put_state (mkStaticWorld (<[p := v]> (sw_heap w)) (sw_next w) (sw_threadValue w) (sw_ContainerForClear w)).

Definition static_delete (p : N) : M W unit :=
  w ← get_state;
  _ ← deref "delete of a dangling pointer" (sw_heap w !! p);
  put_state (mkStaticWorld (delete p (sw_heap w)) (sw_next w) (sw_threadValue w) (sw_ContainerForClear w)).

(** The destructor; a pop that finds nothing leaves [nullptr], which is deleted
    without effect. *)
Fixpoint clear_loop (fuel : nat) : M W unit :=
  match fuel with
  | O => no_fuel
  | S fuel =>
      w ← get_state;
      if stack_empty (sw_ContainerForClear w) then mret tt
      else
        match stack_pop (sw_ContainerForClear w) with
        | Some (ptr, c) =>
            put_state (mkStaticWorld (sw_heap w) (sw_next w) (sw_threadValue w) c);;
            static_delete ptr
        | None => mret tt
        end;;
        clear_loop fuel
  end.
Definition ThreadStaticValue_delete (fuel : nat) : M W unit := clear_loop fuel.
End ThreadStaticValue.

(** ** [MemoryPool] *)

(** [boost::pool<>] with chunks of the size it was made for. *)
Class BoostPool : Type := {
  pool : Type;
  pool_malloc : pool → option (N * pool);
  pool_free : N → pool → pool
}.
Section MemoryPool.
Context `{BoostPool} (sizeof_class : Z).

(** [operator new]: the size is not used; the pool is locked around the call. *)
Definition MemoryPool_new (size : Z) : M pool (option N) :=
  s ← get_state;
  match pool_malloc s with
  | Some (ptr, s') => put_state s';; mret (Some ptr)
  | None => mret None
  end.
Definition MemoryPool_delete (ptr : N) : M pool unit := modify (pool_free ptr).
Definition MemoryPool_destruct (ptr : N) : M pool unit := MemoryPool_delete ptr.

(** A new expression of an object of [size] bytes: the object is constructed at
    what [operator new], which is not [noexcept], returns. *)
Definition pooled_object (size : Z) : M pool N :=
  ptr ← MemoryPool_new size;
  ptr ← deref "object constructed at a null pointer" ptr;
  if sizeof_class <? size then undefined "object larger than its chunk" else mret ptr.
End MemoryPool.

(** ** What the calls promise *)

(** The stack as Boost documents it: last in, first out, and [push] fails only
    when the stack is full. *)
Class LockfreeStackLaws (S : LockfreeStack) (capacity : nat) : Type := {
  contents : stack → list N;
  contents_empty s : stack_empty s = bool_decide (contents s = []);
  contents_push p s :
    if decide (length (contents s) < capacity)%nat
    then ∃ s', stack_push p s = Some s' ∧ contents s' = p :: contents s
    else stack_push p s = None;
  contents_pop s :
    match contents s with
    | p :: l => ∃ s', stack_pop s = Some (p, s') ∧ contents s' = l
    | [] => stack_pop s = None
    end
}.

Section Statics.
Context {St : LockfreeStack} {capacity : nat} {L : LockfreeStackLaws St capacity} {T : Type} (T_new : T).
Local Abbreviation W := (StaticWorld T).

(** Reading and writing the value of a thread. *)
Inductive static_op : Type :=
| StRead (tid : N)
| StWrite (tid : N) (v : T).
Definition run_static (o : static_op) : M W (option T) :=
  match o with
  | StRead tid => p ← ThreadStaticValue_get T_new tid; v ← static_load p; mret (Some v)
  | StWrite tid v => p ← ThreadStaticValue_get T_new tid; static_store p v;; mret None
  end.
Fixpoint run_statics (l : list static_op) : M W (list (option T)) :=
  match l with
  | [] => mret []
  | o :: l => r ← run_static o; rs ← run_statics l; mret (r :: rs)
  end.

(** Every thread has a variable of its own. *)
Definition spec_static (vars : gmap N T) (o : static_op) : gmap N T * option T :=
  match o with
  | StRead tid => let v := default T_new (vars !! tid) in (<[tid := v]> vars, Some v)
  | StWrite tid v => (<[tid := v]> vars, None)
  end.
Fixpoint spec_statics (vars : gmap N T) (l : list static_op) : gmap N T * list (option T) :=
  match l with
  | [] => (vars, [])
  | o :: l =>
      let '(vars, r) := spec_static vars o in
      let '(vars, rs) := spec_statics vars l in
      (vars, r :: rs)
  end.

(** The first [capacity] of [n] pointers, the latest first. *)
Definition first_made (n : N) : list N := N.of_nat <$> reverse (seq 0 (N.to_nat n `min` capacity)).

(** Threads have different objects, which hold their variables; the stack has the
    first ones that were made. *)
Record statics_inv (vars : gmap N T) (w : W) : Prop := {
  si_values tid : vars !! tid = sw_threadValue w !! tid ≫= (sw_heap w !!.);
  si_alive tid p : sw_threadValue w !! tid = Some p → is_Some (sw_heap w !! p);
  si_apart tid tid' p : sw_threadValue w !! tid = Some p → sw_threadValue w !! tid' = Some p → tid = tid';
  si_heap p : is_Some (sw_heap w !! p) ↔ (p < sw_next w)%N;
  si_owned p : (p < sw_next w)%N → ∃ tid, sw_threadValue w !! tid = Some p;
  si_container : contents (sw_ContainerForClear w) = first_made (sw_next w)
}.
Lemma elem_of_first_made n p : p ∈ first_made n ↔ (p < n)%N ∧ (p < N.of_nat capacity)%N.
Proof.
  unfold first_made. rewrite list_elem_of_fmap. setoid_rewrite elem_of_reverse. setoid_rewrite elem_of_seq. split.
  - intros (k & -> & Hk). lia.
  - intros Hp. exists (N.to_nat p). lia.
Qed.
Lemma first_made_NoDup n : NoDup (first_made n).
Proof.
  unfold first_made. apply NoDup_fmap_2; [intros x y; lia|]. rewrite reverse_Permutation. apply NoDup_seq.
Qed.
(** A push of the next pointer, when there is room. *)
Lemma push_first_made c n :
  contents c = first_made n → contents (default c (stack_push n c)) = first_made (n + 1)%N.
Proof.
  intros Hc. pose proof (contents_push n c) as Hp.
  assert (Hl : length (contents c) = (N.to_nat n `min` capacity)%nat)
    by (rewrite Hc; unfold first_made; by rewrite length_fmap, length_reverse, length_seq).
  case_decide as Hd.
  - destruct Hp as (s' & -> & Hs). simpl. rewrite Hs, Hc. unfold first_made.
    replace (N.to_nat (n + 1) `min` capacity)%nat with (S (N.to_nat n `min` capacity)) by lia.
    rewrite seq_S, reverse_app. simpl. f_equal. lia.
  - rewrite Hp. simpl. rewrite Hc. unfold first_made. do 3 f_equal. lia.
Qed.

Lemma static_get_run vars w tid :
  statics_inv vars w →
  returns (ThreadStaticValue_get T_new tid) w (λ w' p,
    sw_threadValue w' !! tid = Some p ∧ statics_inv (<[tid := default T_new (vars !! tid)]> vars) w').
Proof.
  intros [Hv Ha Hp Hh Ho Hc]. unfold ThreadStaticValue_get, returns, get_state, put_state. run_step.
  destruct (sw_threadValue w !! tid) as [p|] eqn:Et.
  - do 2 eexists. split; [done|]. split; [done|]. destruct (Ha _ _ Et) as [v Ev].
    rewrite insert_id; [by split|]. by rewrite Hv, Et; simpl; rewrite Ev.
  - run_step. do 2 eexists. split; [done|]. cbn [sw_threadValue]. split; [apply lookup_insert_eq|].
    assert (Hn : ∀ p, is_Some (sw_heap w !! p) → p ≠ sw_next w) by (intros p ?%Hh; lia).
    assert (Hvn : vars !! tid = None) by by rewrite Hv, Et.
    split; cbn [sw_threadValue sw_heap sw_next sw_ContainerForClear].
    + intros t. destruct (decide (t = tid)) as [->|Ht].
      * rewrite !lookup_insert_eq, Hvn. simpl. by rewrite lookup_insert_eq.
      * rewrite !lookup_insert_ne by done. rewrite Hv.
        destruct (sw_threadValue w !! t) as [p|] eqn:Ep; [|done]. simpl.
        by rewrite lookup_insert_ne by (apply not_eq_sym, Hn; eauto).
    + intros t p. destruct (decide (t = tid)) as [->|Ht].
      * rewrite lookup_insert_eq. intros [= <-]. rewrite lookup_insert_eq. eauto.
      * rewrite lookup_insert_ne by done. intros Ep. apply Ha in Ep.
        rewrite lookup_insert_ne by (apply not_eq_sym; auto). done.
    + assert (Hnew : ∀ t, sw_threadValue w !! t = Some (sw_next w) → False)
        by (intros t Et'; apply Ha in Et'; by eapply Hn).
      intros t t' p. rewrite !lookup_insert_Some. naive_solver.
    + intros p. rewrite lookup_insert_is_Some'. rewrite Hh. lia.
    + intros p Hlt. destruct (decide (p = sw_next w)) as [->|Hne].
      * exists tid. by rewrite lookup_insert_eq.
      * destruct (Ho p) as [t Et']; [lia|]. exists t. rewrite lookup_insert_ne; [done|congruence].
    + by apply push_first_made.
Qed.

Lemma static_load_run vars w tid p :
  statics_inv vars w → sw_threadValue w !! tid = Some p → ∃ v, vars !! tid = Some v ∧ static_load p w = Done w v.
Proof.
  intros [Hv Ha _ _ _ _] Ep. destruct (Ha _ _ Ep) as [v Ev]. exists v. split.
  - by rewrite Hv, Ep.
  - unfold static_load, get_state. run_step. by rewrite Ev.
Qed.
Lemma static_store_run vars w tid p v :
  statics_inv vars w → sw_threadValue w !! tid = Some p →
  returns (static_store p v) w (λ w' _, statics_inv (<[tid := v]> vars) w').
Proof.
  intros [Hv Ha Hp Hh Ho Hc] Ep. destruct (Ha _ _ Ep) as [v0 Ev]. unfold static_store, returns, get_state, put_state.
  run_step. rewrite Ev. run_step. do 2 eexists. split; [done|].
  assert (Hs : ∀ q, is_Some (<[p := v]> (sw_heap w) !! q) ↔ is_Some (sw_heap w !! q)).
  { intros q. rewrite lookup_insert_is_Some'. split; [intros [<-|?]|]; eauto. }
  split; cbn [sw_threadValue sw_heap sw_next sw_ContainerForClear]; try done.
  - intros t. destruct (decide (t = tid)) as [->|Ht].
    + rewrite lookup_insert_eq, Ep. simpl. by rewrite lookup_insert_eq.
    + rewrite lookup_insert_ne by done. rewrite Hv. destruct (sw_threadValue w !! t) as [q|] eqn:Eq; [|done].
      simpl. rewrite lookup_insert_ne; [done|]. intros <-. apply Ht. by eapply Hp.
  - intros t q Eq. apply Hs. by eapply Ha.
  - intros q. by rewrite Hs.
Qed.

Lemma static_op_run o vars w :
  statics_inv vars w →
  returns (run_static o) w (λ w' r, r = snd (spec_static vars o) ∧ statics_inv (fst (spec_static vars o)) w').
Proof.
  intros Hw. destruct o as [tid|tid v]; cbn [run_static spec_static fst snd]; apply returns_bind;
    (eapply returns_mono; [by apply static_get_run|]); cbn beta; intros w' p [Ep Hw'].
  - destruct (static_load_run _ _ _ _ Hw' Ep) as (v & Ev & El). rewrite lookup_insert_eq in Ev.
    injection Ev as <-. unfold returns. rewrite bind_run, El. by do 2 eexists.
  - apply returns_bind. eapply returns_mono; [by eapply static_store_run|]. cbn beta. intros w'' _ Hw''.
    do 2 eexists. split; [done|]. split; [done|]. by rewrite insert_insert_eq in Hw''.
Qed.
Lemma statics_run l : ∀ vars w,
  statics_inv vars w →
  returns (run_statics l) w (λ w' rs, rs = snd (spec_statics vars l) ∧ statics_inv (fst (spec_statics vars l)) w').
Proof.
  induction l as [|o l IH]; intros vars w Hw; [by do 2 eexists|]. cbn [run_statics spec_statics].
  apply returns_bind. eapply returns_mono; [by apply static_op_run|]. cbn beta.
  destruct (spec_static vars o) as [vars' r']. simpl. intros w' r [-> Hw'].
  apply returns_bind. eapply returns_mono; [by apply IH|]. cbn beta.
  destruct (spec_statics vars' l) as [vars'' rs']. simpl. intros w'' rs [-> Hw'']. by do 2 eexists.
Qed.

Definition static_start (c : stack) : W := mkStaticWorld ∅ 0 ∅ c.
Lemma start_inv c : contents c = [] → statics_inv ∅ (static_start c).
Proof.
  intros Hc. split; simpl; try done.
  - intros p. rewrite lookup_empty. split; [by intros []|lia].
  - intros p. lia.
Qed.

(** Any sequence of reads and writes by any threads does for each thread what a variable of its own
    would do: nothing is undefined, a thread reads what it has written last, or the initial
    value, and no thread sees the value of another, however many threads there are. *)
Theorem thread_values_refine c l :
  contents c = [] →
  returns (run_statics l) (static_start c) (λ _ rs, rs = snd (spec_statics ∅ l)).
Proof.
  intros Hc. eapply returns_mono; [by apply statics_run, start_inv|]. by intros w rs [].
Qed.

(** The destructor frees the objects of the stack. *)
Lemma clear_run fuel : ∀ w,
  (length (contents (sw_ContainerForClear w)) < fuel)%nat → NoDup (contents (sw_ContainerForClear w)) →
  (∀ p, p ∈ contents (sw_ContainerForClear w) → is_Some (sw_heap w !! p)) →
  returns (ThreadStaticValue_delete (T := T) fuel) w (λ w' _,
    sw_threadValue w' = sw_threadValue w
    ∧ ∀ p, sw_heap w' !! p = if decide (p ∈ contents (sw_ContainerForClear w)) then None else sw_heap w !! p).
Proof.
  induction fuel as [|fuel IH]; intros w Hf Hd Ha; [lia|]. unfold ThreadStaticValue_delete in *.
  cbn [clear_loop]. apply returns_bind. do 2 eexists. split; [done|]. rewrite contents_empty.
  pose proof (contents_pop (sw_ContainerForClear w)) as Hpop.
  destruct (contents (sw_ContainerForClear w)) as [|p rest] eqn:Ec.
  - rewrite bool_decide_true by done. do 2 eexists. split; [done|]. split; [done|]. intros q.
    by rewrite decide_False by apply not_elem_of_nil.
  - rewrite bool_decide_false by done. destruct Hpop as (s' & -> & Hs').
    apply NoDup_cons in Hd as [Hp Hd]. destruct (Ha p) as [v Ev]; [by left|].
    unfold returns, put_state, static_delete, get_state. run_step. cbn [sw_heap]. rewrite Ev. cbn [deref]. run_step.
    match goal with |- context [clear_loop fuel ?w'] => destruct (IH w') as (w2 & [] & E2 & Ht & Hh) end.
    + cbn [sw_ContainerForClear]. rewrite Hs'. simpl in Hf. lia.
    + cbn [sw_ContainerForClear]. by rewrite Hs'.
    + cbn [sw_ContainerForClear sw_heap]. rewrite Hs'. intros q Hq.
      rewrite lookup_delete_ne by (intros ->; done). apply Ha. by right.
    + exists w2, tt. split; [exact E2|]. split; [exact Ht|]. intros q. rewrite Hh. cbn [sw_ContainerForClear sw_heap].
      rewrite Hs'. destruct (decide (q = p)) as [->|Hq].
      * rewrite lookup_delete_eq. rewrite (decide_True (P := p ∈ p :: rest)) by by left. by case_decide.
      * rewrite lookup_delete_ne by done. apply decide_ext. rewrite elem_of_cons. naive_solver.
Qed.

(** The objects of all but the first [capacity] threads are never deleted, and the
    threads whose objects are deleted keep their pointers. *)
Theorem destructor_leaves c l w rs tid p :
  contents c = [] → run_statics l (static_start c) = Done w rs → sw_threadValue w !! tid = Some p →
  ∃ w', ThreadStaticValue_delete (S capacity) w = Done w' tt
    ∧ if decide (p < N.of_nat capacity)%N
      then run_static (StRead tid) w' = Undef "dangling reference"
      else is_Some (sw_heap w' !! p).
Proof.
  intros Hc E Et. destruct (statics_run l ∅ (static_start c)) as (w1 & rs1 & E1 & _ & Hw); [by apply start_inv|].
  rewrite E in E1. injection E1 as <- <-. destruct Hw as [_ Ha _ Hh _ Hcont].
  destruct (clear_run (S capacity) w) as (w' & [] & E' & Ht & Hh').
  - rewrite Hcont. unfold first_made. rewrite length_fmap, length_reverse, length_seq. lia.
  - rewrite Hcont. apply first_made_NoDup.
  - intros q. rewrite Hcont, elem_of_first_made. intros []. by apply Hh.
  - exists w'. split; [done|]. specialize (Hh' p). rewrite Hcont in Hh'.
    assert (Hp : (p < sw_next w)%N) by (by eapply Hh, Ha).
    destruct (decide (p < N.of_nat capacity)%N) as [Hd|Hd].
    + rewrite decide_True in Hh' by by apply elem_of_first_made.
      cbn [run_static]. unfold ThreadStaticValue_get, static_load, get_state. run_step.
      rewrite Ht, Et. run_step. by rewrite Hh'.
    + rewrite decide_False in Hh' by (rewrite elem_of_first_made; tauto). rewrite Hh'. by eapply Ha.
Qed.
End Statics.

(** ** Witness: two threads and room for one object *)
Section Witness.
Definition list_stack : LockfreeStack := {|
  stack := list N;
  stack_empty s := bool_decide (s = []);
  stack_push p s := if decide (length s < 1)%nat then Some (p :: s) else None;
  stack_pop s := match s with p :: s => Some (p, s) | [] => None end
|}.
#[local] Instance list_stack_laws : LockfreeStackLaws list_stack 1.
Proof.
  refine (Build_LockfreeStackLaws list_stack 1 (λ s : list N, s) _ _ _); [done| |].
  - intros p s. simpl. case_decide; [by eexists|done].
  - intros [|p s]; [done|]. by exists s.
Defined.
Definition no_objects : @stack list_stack := ([] : list N).
Definition two_threads : list static_op := [StWrite 1 5; StRead 2; StWrite 2 6; StRead 1; StRead 2].

Lemma thread_values_refine_witness :
  returns (run_statics (St := list_stack) 0 two_threads) (static_start (no_objects : @stack list_stack))
    (λ _ rs, rs = [None; Some 0; None; Some 5; Some 6]).
Proof. exact (thread_values_refine (St := list_stack) 0 no_objects two_threads eq_refl). Defined.

(** After the destructor the object of the first thread is gone, that of the second leaks. *)
Example destructor_demo :
  match run_statics (St := list_stack) 0 two_threads (static_start (no_objects : @stack list_stack)) with
  | Done w _ => match ThreadStaticValue_delete (H := list_stack) 2 w with
                | Done w' _ => sw_heap w' !! 0%N = None ∧ sw_heap w' !! 1%N = Some 6
                | _ => False
                end
  | _ => False
  end.
Proof. vm_compute. by split. Qed.
End Witness.

(** [operator new] of the pool gives a chunk of the size of the pooled class whatever the size
    that is asked for: an object of a derived class that is larger does not fit. *)
Theorem pooled_object_fits `{BoostPool} sizeof_class size s :
  match pooled_object sizeof_class size s with
  | Done s' p => pool_malloc s = Some (p, s') ∧ size ≤ sizeof_class
  | Undef _ => pool_malloc s = None ∨ sizeof_class < size
  | Threw _ _ | NoFuel => False
  end.
Proof.
  unfold pooled_object, MemoryPool_new, get_state, put_state. run_step.
  destruct (pool_malloc s) as [[p s']|] eqn:E; [|by left]. run_step. cbn [deref]. run_step.
  destruct (Z.ltb_spec sizeof_class size); [by right|]. by split.
Qed.
