(* ===== verification/TextFormat.v ===== *)
(** * Numbers as text

    The formats that crash dumps, memory maps and the old logger print numbers
    with, over lists of bytes, and what the proofs use of them: hexadecimal
    digits can be read back, and nothing in a number ends a C string. *)
From stdpp Require Import strings list.
From coqutil Require Import Byte.
From S2P Require Import Prelude.
From S2P Require Import MlnUtils.
#[local] Open Scope Z_scope.

(** ** Formats *)
Definition chr (z : Z) : byte := byte.of_Z z.
Definition ord (b : byte) : Z := byte.unsigned b.

(** The output of a stream with [std::hex] or [std::dec]; the fuel is the
    number of digits. *)
Definition digit (d : Z) : byte := chr (if d <? 10 then 48 + d else 87 + d).
Fixpoint num_digits (fuel : nat) (base n : Z) : list byte :=
  match fuel with
  | O => []
  | Datatypes.S fuel =>
      if n <? base then [digit n] else num_digits fuel base (n / base) ++ [digit (n mod base)]
  end.
Definition print_num (base n : Z) : list byte := num_digits 64 base n.

(** A signed number. *)
Definition print_int (n : Z) : list byte := if n <? 0 then chr 45 :: print_num 10 (- n) else print_num 10 n.

(** [%0nd] *)
Definition pad_num (width : nat) (n : Z) : list byte :=
  let digits := print_num 10 n in replicate (width - length digits) (chr 48) ++ digits.

Definition hex_upper (d : Z) : byte := chr (if d <? 10 then 48 + d else 55 + d).
Fixpoint hex_digits (fuel : nat) (n : Z) : list byte :=
  match fuel with
  | O => []
  | S fuel => if n <? 16 then [hex_upper n] else hex_digits fuel (n / 16) ++ [hex_upper (n mod 16)]
  end.
(** The formats %0wX, for a number below 2^64. *)
Definition format_hex (w : nat) (n : Z) : list byte :=
  let d := hex_digits 16 n in replicate (w - length d) (chr 48) ++ d.
(** The value of an upper-case digit, to read hexadecimal numbers back. *)
Definition hex_value (b : byte) : option Z :=
  let c := ord b in
  if (48 <=? c) && (c <=? 57) then Some (c - 48)
  else if (65 <=? c) && (c <=? 70) then Some (c - 55) else None.

(** ** Reading numbers *)
Section Numbers.
Context {S : Type}.

(** [isspace] of the C locale, and \s in a regular expression. *)
Definition is_space (b : byte) : bool := (ord b =? 32) || ((9 <=? ord b) && (ord b <=? 13)).

Definition is_dash (b : byte) : bool := ord b =? 45.
(** The value of a character as a digit. *)
Definition digit_val (base : Z) (b : byte) : option Z :=
  let c := ord b in
  let v := if (48 <=? c) && (c <=? 57) then c - 48
           else if (97 <=? c) && (c <=? 122) then c - 87
           else if (65 <=? c) && (c <=? 90) then c - 55
           else base in
  if v <? base then Some v else None.
Fixpoint take_digits (base acc : Z) (l : list byte) : Z * list byte :=
  match l with
  | [] => (acc, [])
  | b :: l' => match digit_val base b with
               | Some d => take_digits base (acc * base + d) l'
               | None => (acc, l)
               end
  end.

Fixpoint skip_space (l : list byte) : list byte :=
  match l with
  | b :: l' => if is_space b then skip_space l' else l
  | [] => []
  end.
Definition skip_sign (l : list byte) : bool * list byte :=
  match l with
  | b :: l' => if ord b =? 45 then (true, l') else if ord b =? 43 then (false, l') else (false, l)
  | [] => (false, l)
  end.
(** The prefix 0x, if a digit follows it. *)
Definition skip_prefix (base : Z) (l : list byte) : list byte :=
  match l with
  | z :: x :: d :: l' =>
      if (base =? 16) && (ord z =? 48) && ((ord x =? 120) || (ord x =? 88))
         && bool_decide (is_Some (digit_val base d))
      then d :: l' else l
  | _ => l
  end.

(** [std::stoull(str, 0, base)] *)
Definition stoull (str : list byte) (base : Z) : M S Z :=
  let '(neg, l) := skip_sign (skip_space str) in
  let l := skip_prefix base l in
  let '(v, rest) := take_digits base 0 l in
  if bool_decide (length rest = length l) then throw (runtime_error "invalid_argument")
  else if 2 ^ 64 <=? v then throw (runtime_error "out_of_range")
  else mret (if (neg : bool) then u64 (- v) else v).

(** What [strtol] and its relatives read in base 10, before they look at the
    range; nothing without digits. *)
Definition scan_number (l : list byte) : option (Z * list byte) :=
  let '(neg, l) := skip_sign (skip_space l) in
  let '(v, rest) := take_digits 10 0 l in
  if bool_decide (length rest = length l) then None
  else Some (if (neg : bool) then - v else v, rest).

(** [std::stoi], [std::stol] and [std::stoll], by the width of the result;
    [std::stoul] and [std::stoull] wrap a negative number. *)
Definition sto_signed (bits : Z) (str : list byte) : M S Z :=
  match scan_number str with
  | None => throw (runtime_error "invalid_argument")
  | Some (v, _) =>
      if (- 2 ^ (bits - 1) <=? v) && (v <? 2 ^ (bits - 1)) then mret v
      else throw (runtime_error "out_of_range")
  end.
Definition sto_unsigned (bits : Z) (str : list byte) : M S Z :=
  match scan_number str with
  | None => throw (runtime_error "invalid_argument")
  | Some (v, _) =>
      if Z.abs v <? 2 ^ bits then mret (v mod 2 ^ bits) else throw (runtime_error "out_of_range")
  end.
End Numbers.

(** ** Facts *)
Lemma ord_chr z : 0 ≤ z < 256 → ord (chr z) = z.
Proof. intros Hz. unfold ord, chr. rewrite byte.unsigned_of_Z. apply Z.mod_small. lia. Qed.

Lemma format_byte b :
  ∃ h1 h2 d1 d2, format_hex 2 (ord b) = [h1; h2] ∧ hex_value h1 = Some d1 ∧ hex_value h2 = Some d2
    ∧ chr (16 * d1 + d2) = b.
Proof. destruct b; do 4 eexists; (split; [vm_compute; reflexivity|]); by split_and!. Qed.

Lemma has_nul_hex_digits fuel n : 0 ≤ n → has_nul (hex_digits fuel n) = false.
Proof.
  assert (Hd : ∀ d, 0 ≤ d < 16 → has_nul [hex_upper d] = false).
  { intros d Hd. simpl. rewrite orb_false_r. apply bool_decide_eq_false. intros E.
    apply (f_equal ord) in E. unfold hex_upper in E. rewrite ord_chr in E by (case_match; lia).
    change (ord Byte.x00) with 0 in E. destruct (Z.ltb_spec d 10); lia. }
  revert n. induction fuel as [|fuel IH]; intros n Hn; simpl; [done|].
  destruct (Z.ltb_spec n 16); [by apply Hd|]. rewrite has_nul_app, IH, Hd; [done|..].
  - by apply Z.mod_pos_bound.
  - by apply Z.div_pos.
Qed.
Lemma has_nul_format w n : 0 ≤ n → has_nul (format_hex w n) = false.
Proof.
  intros Hn. unfold format_hex. rewrite has_nul_app, has_nul_hex_digits by done.
  rewrite orb_false_r. generalize (w - length (hex_digits 16 n))%nat as k. by induction k.
Qed.
Lemma c_str_no_nul l : has_nul l = false → c_str l = l.
Proof.
  induction l as [|b l IH]; simpl; [done|]. intros [Hb Hn]%orb_false_iff.
  apply bool_decide_eq_false in Hb. rewrite decide_False by done. by rewrite IH.
Qed.

(** ** What is printed is read back *)
Section Digits.
Context {S : Type} (base : Z) (Hbase : 2 ≤ base ≤ 16).

Lemma digit_val_digit d : 0 ≤ d < base → digit_val base (digit d) = Some d.
Proof.
  intros Hd. unfold digit_val, digit. rewrite ord_chr by (case_match; lia).
  destruct (Z.ltb_spec d 10).
  - rewrite (proj2 (Z.leb_le 48 _)), (proj2 (Z.leb_le _ 57)) by lia. simpl.
    replace (48 + d - 48) with d by lia. by rewrite (proj2 (Z.ltb_lt _ _)) by lia.
  - rewrite (proj2 (Z.leb_gt _ 57)) by lia. rewrite andb_false_r.
    rewrite (proj2 (Z.leb_le 97 _)), (proj2 (Z.leb_le _ 122)) by lia. simpl.
    replace (87 + d - 87) with d by lia. by rewrite (proj2 (Z.ltb_lt _ _)) by lia.
Qed.

(** A digit is none of the characters the readers look for. *)
Lemma digit_range b d :
  digit_val base b = Some d → 48 ≤ ord b ≤ 57 ∨ 97 ≤ ord b < 107 ∨ 65 ≤ ord b < 75.
Proof.
  unfold digit_val. cbv zeta.
  destruct (Z.leb_spec 48 (ord b)), (Z.leb_spec (ord b) 57), (Z.leb_spec 97 (ord b)),
    (Z.leb_spec (ord b) 122), (Z.leb_spec 65 (ord b)), (Z.leb_spec (ord b) 90); simpl;
    case_match eqn:E; try done; apply Z.ltb_lt in E; lia.
Qed.
Lemma digit_not_space b : is_Some (digit_val base b) → is_space b = false ∧ is_dash b = false.
Proof.
  intros [d Hd%digit_range]. unfold is_space, is_dash.
  split; repeat (apply orb_false_iff; split); try apply andb_false_iff;
    rewrite ?Z.eqb_neq, ?Z.leb_gt; lia.
Qed.

Lemma take_digits_app l1 : ∀ acc a l2,
  take_digits base acc l1 = (a, []) → take_digits base acc (l1 ++ l2) = take_digits base a l2.
Proof.
  induction l1 as [|b l1 IH]; intros acc a l2; simpl; [by intros [= ->]|].
  destruct (digit_val base b); [apply IH|done].
Qed.

Lemma num_digits_value fuel : ∀ n, 0 ≤ n < base ^ Z.of_nat fuel →
  take_digits base 0 (num_digits fuel base n) = (n, []).
Proof.
  induction fuel as [|fuel IH]; intros n Hn; [change (base ^ Z.of_nat 0) with 1 in Hn; simpl; f_equal; lia|].
  cbn [num_digits]. destruct (Z.ltb_spec n base).
  { simpl. rewrite digit_val_digit by lia. done. }
  rewrite Nat2Z.inj_succ, Z.pow_succ_r in Hn by lia.
  rewrite (take_digits_app _ 0 (n / base)).
  2:{ apply IH. split; [apply Z.div_pos; lia|apply Z.div_lt_upper_bound; lia]. }
  simpl. pose proof (Z.mod_pos_bound n base ltac:(lia)). rewrite digit_val_digit by lia.
  f_equal. pose proof (Z.div_mod n base ltac:(lia)). lia.
Qed.

Lemma num_digits_digits fuel : ∀ n, 0 ≤ n →
  Forall (λ b, is_Some (digit_val base b)) (num_digits fuel base n).
Proof.
  induction fuel as [|fuel IH]; intros n Hn; [done|]. cbn [num_digits].
  destruct (Z.ltb_spec n base).
  - apply Forall_singleton. rewrite digit_val_digit by lia. by eexists.
  - apply Forall_app. split; [apply IH, Z.div_pos; lia|].
    apply Forall_singleton. rewrite digit_val_digit by (apply Z.mod_pos_bound; lia). by eexists.
Qed.

Lemma print_num_nonempty n : print_num base n ≠ [].
Proof.
  unfold print_num. change 64%nat with (Datatypes.S 63). cbn [num_digits].
  case_match; [done|]. by intros [_ ?]%app_eq_nil.
Qed.

Lemma print_num_range n : 0 ≤ n < 2 ^ 64 → 0 ≤ n < base ^ Z.of_nat 64.
Proof.
  intros Hn. split; [lia|]. eapply Z.lt_le_trans; [apply Hn|].
  change (Z.of_nat 64) with 64. apply Z.pow_le_mono_l. lia.
Qed.

Lemma skip_prefix_digits l :
  Forall (λ b, is_Some (digit_val base b)) l → skip_prefix base l = l.
Proof.
  destruct l as [|z [|x [|d l]]]; try done. simpl.
  intros (_ & ([v Hx%digit_range] & _)%Forall_cons)%Forall_cons.
  rewrite (proj2 (Z.eqb_neq (ord x) 120)), (proj2 (Z.eqb_neq (ord x) 88)) by lia.
  by rewrite andb_false_r.
Qed.

Lemma stoull_print n (s : S) : 0 ≤ n < 2 ^ 64 → stoull (print_num base n) base s = Done s n.
Proof.
  intros Hn. unfold stoull. pose proof (num_digits_digits 64 n ltac:(lia)) as Hall.
  pose proof (num_digits_value 64 n (print_num_range n Hn)) as Hval.
  pose proof (print_num_nonempty n) as Hne. unfold print_num in *.
  destruct (num_digits 64 base n) as [|b l] eqn:E; [done|].
  apply Forall_cons in Hall as Hb. destruct Hb as [Hb _].
  destruct (digit_not_space b Hb) as [Hsp Hd]. unfold is_dash in Hd.
  cbn [skip_space]. rewrite Hsp. cbn [skip_sign]. rewrite Hd.
  assert (Hplus : (ord b =? 43) = false).
  { apply Z.eqb_neq. destruct Hb as [d Hb%digit_range]. lia. }
  rewrite Hplus, skip_prefix_digits, Hval by done.
  rewrite bool_decide_false by done. by rewrite (proj2 (Z.leb_gt _ _)) by lia.
Qed.
End Digits.

(** A number followed by something that is no digit. *)
Lemma take_digits_print n rest :
  0 ≤ n < 2 ^ 64 → (∀ b r, rest = b :: r → digit_val 10 b = None) →
  take_digits 10 0 (print_num 10 n ++ rest) = (n, rest).
Proof.
  intros Hn Hr. pose proof (num_digits_value 10 ltac:(lia) 64 n (print_num_range 10 ltac:(lia) n Hn)) as Hv.
  rewrite (take_digits_app _ _ _ _ _ Hv). destruct rest as [|b r]; [done|]. simpl. by rewrite (Hr b r).
Qed.
Lemma scan_digits n rest :
  0 ≤ n < 2 ^ 64 → (∀ b r, rest = b :: r → digit_val 10 b = None) →
  skip_sign (skip_space (print_num 10 n ++ rest)) = (false, print_num 10 n ++ rest)
  ∧ length rest ≠ length (print_num 10 n ++ rest).
Proof.
  intros Hn _. pose proof (num_digits_digits 10 ltac:(lia) 64 n ltac:(lia)) as Hall.
  pose proof (print_num_nonempty 10 n) as Hne. unfold print_num in *.
  destruct (num_digits 64 10 n) as [|b l]; [done|]. apply Forall_cons in Hall as [Hb _].
  destruct (digit_not_space 10 ltac:(lia) b Hb) as [Hs Hd]. unfold is_dash in Hd. split.
  - simpl. rewrite Hs. cbn [skip_sign]. rewrite Hd.
    by rewrite (proj2 (Z.eqb_neq (ord b) 43)) by (destruct Hb as [d Hb%digit_range]; lia).
  - rewrite length_app. simpl. lia.
Qed.
Lemma scan_print_int n rest :
  - 2 ^ 63 ≤ n < 2 ^ 64 → (∀ b r, rest = b :: r → digit_val 10 b = None) →
  scan_number (print_int n ++ rest) = Some (n, rest).
Proof.
  intros Hn Hr. unfold scan_number, print_int. destruct (Z.ltb_spec n 0).
  - cbn [app]. assert (E : ∀ l, skip_sign (skip_space (chr 45 :: l)) = (true, l)) by done. rewrite E.
    rewrite take_digits_print by (done || lia). rewrite bool_decide_false.
    + f_equal. f_equal. lia.
    + apply scan_digits; [lia|done].
  - destruct (scan_digits n rest ltac:(lia) Hr) as [E Hl]. rewrite E, take_digits_print by (done || lia).
    by rewrite bool_decide_false.
Qed.
Lemma sto_signed_print {S} bits n (s : S) :
  1 ≤ bits ≤ 64 → - 2 ^ (bits - 1) ≤ n < 2 ^ (bits - 1) → sto_signed bits (print_int n) s = Done s n.
Proof.
  intros Hb Hn. unfold sto_signed. rewrite <- (app_nil_r (print_int n)).
  assert (2 ^ (bits - 1) ≤ 2 ^ 63) by (apply Z.pow_le_mono_r; lia).
  rewrite scan_print_int by (done || lia).
  by rewrite (proj2 (Z.leb_le _ _)), (proj2 (Z.ltb_lt _ _)) by lia.
Qed.
Lemma sto_unsigned_print {S} bits n (s : S) :
  1 ≤ bits ≤ 64 → 0 ≤ n < 2 ^ bits → sto_unsigned bits (print_int n) s = Done s n.
Proof.
  intros Hb Hn. unfold sto_unsigned. rewrite <- (app_nil_r (print_int n)).
  assert (2 ^ bits ≤ 2 ^ 64) by (apply Z.pow_le_mono_r; lia).
  rewrite scan_print_int by (done || lia).
  rewrite Z.abs_eq, (proj2 (Z.ltb_lt _ _)), Z.mod_small by lia. done.
Qed.
