(* ===== verification/Datetime.v ===== *)
(** * Dates of the database

    Models lobbysvr/mysql+++/polyfill/datetime.h: a date, a time or both, as
    they are read from the text of a field and printed again.  Text is a list
    of bytes; a member that a constructor leaves unset is an [option]. *)
From stdpp Require Import strings list.
From coqutil Require Import Byte.
From S2P Require Import Prelude.
From S2P Require Import MlnUtils.
From S2P Require Import TextFormat.
#[local] Open Scope Z_scope.

(** Numbers with a fraction are those of the C++ library: [print_float p] is %.pg, and
    [scan_float] is what a stream reads, with the text behind it. *)
Class FloatText : Type := {
  float : Type;
  print_float : Z → float → list byte;
  scan_float : list byte → option (float * list byte);
  float_of_int : Z → float;
  int_of_float : float → Z
}.
(** [struct tm] and the calls that make and read it. *)
Record tm : Type := mkTm { tm_year : Z; tm_mon : Z; tm_mday : Z; tm_hour : Z; tm_min : Z; tm_sec : Z }.
Class Calendar : Type := {
  localtime : Z → tm;
  mktime : tm → Z → Z                   (* the second argument is tm_isdst *)
}.

(** ** Input streams *)
Record istringstream : Type := mkIstream { is_text : list byte; is_eof : bool; is_fail : bool }.
Definition is_good (s : istringstream) : bool := negb (is_eof s) && negb (is_fail s).
Definition is_failed (s : istringstream) : istringstream := mkIstream (is_text s) (is_eof s) true.

(** [ignore()] *)
Definition is_ignore (s : istringstream) : istringstream :=
  if negb (is_good s) then is_failed s
  else match is_text s with
       | _ :: rest => mkIstream rest false false
       | [] => mkIstream [] true false
       end.
(** [>>]: nothing is assigned when the stream has failed or ended before, 0 when
    there is no number; the result says what is assigned. *)
Definition is_extract {A} (scan : list byte → option (A * list byte)) (zero : A) (s : istringstream)
    : option A * istringstream :=
  if negb (is_good s) then (None, is_failed s)
  else
    match skip_space (is_text s) with
    | [] => (None, mkIstream [] true true)
    | text =>
        match scan text with
        | Some (v, rest) => (Some v, mkIstream rest (bool_decide (rest = [])) false)
        | None => (Some zero, mkIstream [] false true)
        end
    end.
(** An [int] out of range is assigned as the next one in the range, and fails. *)
Definition int_max : Z := 2 ^ 31 - 1.
Definition int_min : Z := - 2 ^ 31.
Definition is_extract_int (s : istringstream) : option Z * istringstream :=
  match is_extract scan_number 0 s with
  | (Some v, s') =>
      if v <? int_min then (Some int_min, is_failed s')
      else if int_max <? v then (Some int_max, is_failed s') else (Some v, s')
  | r => r
  end.

(** ** [datetime] *)
Section Datetime.
Context `{FloatText}.

Record datetime : Type := mkDatetime {
  dt_year : option Z;
  dt_month : option Z;
  dt_day : option Z;
  dt_hour : option Z;
  dt_minute : option Z;
  dt_sec : option float;
  dt_with_date : option bool;
  dt_with_time : option bool
}.
Definition datetime_new : datetime :=
  mkDatetime None None None None None None (Some false) (Some false).
(** From a [time_t]: the flags are not set. *)
Definition datetime_of_time `{Calendar} (ts : Z) : datetime :=
  let t := localtime ts in
  mkDatetime (Some (tm_year t)) (Some (tm_mon t)) (Some (tm_mday t)) (Some (tm_hour t))
    (Some (tm_min t)) (Some (float_of_int (tm_sec t))) None None.
Definition datetime_full (year mon day hour min : Z) (sec : float) : datetime :=
  mkDatetime (Some year) (Some mon) (Some day) (Some hour) (Some min) (Some sec) (Some true) (Some true).
Definition datetime_date (year mon day : Z) : datetime :=
  mkDatetime (Some year) (Some mon) (Some day) None None None (Some true) (Some false).
Definition datetime_time (hour min : Z) (sec : float) : datetime :=
  mkDatetime None None None (Some hour) (Some min) (Some sec) (Some false) (Some true).

Definition strchr (sql : list byte) (c : Z) : bool := existsb (λ b, ord b =? c) sql.
(** An extraction keeps the old value when it assigns nothing. *)
Definition assign {A} (old : option A) (r : option A) : option A :=
  match r with Some v => Some v | None => old end.

Definition read_date (d : datetime) (s : istringstream) : datetime * istringstream :=
  let '(y, s) := is_extract_int s in
  let '(m, s) := is_extract_int (is_ignore s) in
  let '(dd, s) := is_extract_int (is_ignore s) in
  (mkDatetime (assign (dt_year d) y) (assign (dt_month d) m) (assign (dt_day d) dd)
     (dt_hour d) (dt_minute d) (dt_sec d) (dt_with_date d) (dt_with_time d), is_ignore s).
Definition read_time (d : datetime) (s : istringstream) : datetime * istringstream :=
  let '(h, s) := is_extract_int s in
  let '(m, s) := is_extract_int (is_ignore s) in
  let '(sec, s) := is_extract scan_float (float_of_int 0) (is_ignore s) in
  (mkDatetime (dt_year d) (dt_month d) (dt_day d) (assign (dt_hour d) h) (assign (dt_minute d) m)
     (assign (dt_sec d) sec) (dt_with_date d) (dt_with_time d), s).
Definition from_sql (d : datetime) (sql : list byte) : datetime :=
  let with_date := strchr sql 45 in
  let with_time := strchr sql 58 in
  let d := mkDatetime (dt_year d) (dt_month d) (dt_day d) (dt_hour d) (dt_minute d) (dt_sec d)
             (Some with_date) (Some with_time) in
  let s := mkIstream sql false false in
  let '(d, s) := if with_date then read_date d s else (d, s) in
  if with_time then fst (read_time d s) else d.

(** [setfill('0') << setw(w)]: for the one value that follows. *)
Definition setw (w : nat) (text : list byte) : list byte := replicate (w - length text) (chr 48) ++ text.
Definition to_sql {S} (d : datetime) (with_sec_frac : bool) : M S (list byte) :=
  let uninit := "a member of datetime is not initialised" in
  with_date ← deref uninit (dt_with_date d);
  date ← (if (with_date : bool) then
            year ← deref uninit (dt_year d);
            month ← deref uninit (dt_month d);
            day ← deref uninit (dt_day d);
            with_time ← deref uninit (dt_with_time d);
            mret (print_int year ++ chr 45 :: setw 2 (print_int month) ++ chr 45 :: print_int day
                  ++ if (with_time : bool) then [chr 32] else [])
          else mret []);
  with_time ← deref uninit (dt_with_time d);
  time ← (if (with_time : bool) then
            hour ← deref uninit (dt_hour d);
            minute ← deref uninit (dt_minute d);
            sec ← deref uninit (dt_sec d);
            mret (setw 2 (print_int hour) ++ chr 58 :: print_int minute ++ chr 58 ::
                  if with_sec_frac then setw 6 (print_float 3 sec) else print_int (int_of_float sec))
          else mret []);
  mret (date ++ time).

(** [operator time_t]: [tm_isdst] is what the memory holds. *)
Definition to_time_t `{Calendar} {S} (isdst : Z) (d : datetime) : M S Z :=
  let uninit := "a member of datetime is not initialised" in
  let pick (b : bool) (m : option Z) : M S Z := if b then deref uninit m else mret 0 in
  with_date ← deref uninit (dt_with_date d);
  year ← pick with_date (dt_year d);
  mon ← pick with_date (dt_month d);
  mday ← pick with_date (dt_day d);
  with_time ← deref uninit (dt_with_time d);
  hour ← pick with_time (dt_hour d);
  min ← pick with_time (dt_minute d);
  sec ← pick with_time (int_of_float <$> dt_sec d);
  mret (mktime (mkTm year mon mday hour min sec) isdst).
End Datetime.

(** ** What is printed is read back *)
Section RoundTrip.
Context `{FloatText} {S : Type}.

Definition is_int (n : Z) : Prop := int_min ≤ n ≤ int_max.
Definition no_digit_first (l : list byte) : Prop := ∀ b r, l = b :: r → digit_val 10 b = None.

(** Zeros in front of a number do not matter. *)
Lemma take_digits_zeros k : ∀ l, take_digits 10 0 (replicate k (chr 48) ++ l) = take_digits 10 0 l.
Proof. induction k as [|k IH]; intros l; [done|]. simpl. apply IH. Qed.
Lemma print_num_length n : (1 ≤ length (print_num 10 n))%nat.
Proof. pose proof (print_num_nonempty 10 n). destruct (print_num 10 n); [done|simpl; lia]. Qed.

(** The text of a number, padded to two characters, is read as the number. *)
Lemma setw_number w n rest :
  (w ≤ 2)%nat → is_int n → no_digit_first rest →
  skip_space (setw w (print_int n) ++ rest) = setw w (print_int n) ++ rest
  ∧ setw w (print_int n) ++ rest ≠ []
  ∧ scan_number (setw w (print_int n) ++ rest) = Some (n, rest).
Proof.
  intros Hw Hn Hr. unfold is_int, int_min, int_max in Hn. unfold setw.
  pose proof (scan_print_int n rest ltac:(lia) Hr) as Hs. unfold print_int in *.
  destruct (Z.ltb_spec n 0).
  - assert (Hl := print_num_length (- n)). simpl length. replace (w - _)%nat with 0%nat by lia. by split_and!.
  - assert (Hn' : 0 ≤ n < 2 ^ 64) by lia. destruct (w - length (print_num 10 n))%nat as [|k] eqn:Ek.
    + destruct (scan_digits n rest Hn' Hr) as [Hsp Hne]. split_and!; [| |exact Hs].
      2:{ intros E%(f_equal length). rewrite !length_app in E. pose proof (print_num_length n). simpl in E. lia. }
      unfold replicate. cbn [app].
      pose proof (num_digits_digits 10 ltac:(lia) 64 n ltac:(lia)) as Hall.
      pose proof (print_num_nonempty 10 n) as Hne'. unfold print_num in *.
      destruct (num_digits 64 10 n) as [|b l]; [done|]. apply Forall_cons in Hall as [Hb _].
      destruct (digit_not_space 10 ltac:(lia) b Hb) as [Hb' _]. simpl. by rewrite Hb'.
    + split_and!; [done|done|]. unfold scan_number. cbn [replicate app].
      assert (E0 : ∀ l, skip_sign (skip_space (chr 48 :: l)) = (false, chr 48 :: l)) by done. rewrite E0.
      change (chr 48 :: (replicate k (chr 48) ++ print_num 10 n) ++ rest)
        with ((replicate (Datatypes.S k) (chr 48) ++ print_num 10 n) ++ rest).
      rewrite <- app_assoc, take_digits_zeros, take_digits_print by done. rewrite bool_decide_false; [done|].
      rewrite !length_app, length_replicate. pose proof (print_num_length n). lia.
Qed.

Lemma extract_number w n rest :
  (w ≤ 2)%nat → is_int n → no_digit_first rest →
  is_extract_int (mkIstream (setw w (print_int n) ++ rest) false false)
  = (Some n, mkIstream rest (bool_decide (rest = [])) false).
Proof.
  intros Hw Hn Hr. destruct (setw_number w n rest Hw Hn Hr) as (Hsp & Hne & Hs).
  unfold is_extract_int, is_extract. cbn [is_good is_eof is_fail negb andb is_text]. rewrite Hsp.
  destruct (setw w (print_int n) ++ rest); [done|]. rewrite Hs. destruct Hn.
  by rewrite (proj2 (Z.ltb_ge _ _)), (proj2 (Z.ltb_ge _ _)) by lia.
Qed.
Lemma print_int_setw n : print_int n = setw 0 (print_int n).
Proof. done. Qed.

(** One character between two numbers. *)
Lemma ignore_one c rest : is_ignore (mkIstream (c :: rest) (bool_decide (c :: rest = [])) false) = mkIstream rest false false.
Proof. done. Qed.

Definition date_text (y m d : Z) : list byte :=
  print_int y ++ chr 45 :: setw 2 (print_int m) ++ chr 45 :: print_int d.
Lemma read_date_text d0 y m d rest :
  is_int y → is_int m → is_int d → no_digit_first rest →
  read_date d0 (mkIstream (date_text y m d ++ rest) false false)
  = (mkDatetime (Some y) (Some m) (Some d) (dt_hour d0) (dt_minute d0) (dt_sec d0) (dt_with_date d0) (dt_with_time d0),
     is_ignore (mkIstream rest (bool_decide (rest = [])) false)).
Proof.
  intros Hy Hm Hd Hr. unfold read_date, date_text. rewrite <- !app_assoc. cbn [app]. rewrite <- app_assoc. cbn [app].
  rewrite (print_int_setw y), extract_number by (done || lia || by intros ? ? [= <- _]).
  rewrite ignore_one, extract_number by (done || by intros ? ? [= <- _]).
  rewrite ignore_one, (print_int_setw d), extract_number by (done || lia). done.
Qed.

Lemma strchr_app l1 l2 c : strchr (l1 ++ l2) c = strchr l1 c || strchr l2 c.
Proof. apply existsb_app. Qed.
(** Only digits and a sign are in a number. *)
Lemma strchr_setw w n c :
  - 2 ^ 63 ≤ n < 2 ^ 64 → c = 58 ∨ c = 45 ∧ 0 ≤ n → strchr (setw w (print_int n)) c = false.
Proof.
  intros Hn Hc. unfold setw. rewrite strchr_app. apply orb_false_iff. split.
  - unfold strchr. induction (w - _)%nat as [|k IH]; [done|]. simpl. rewrite IH, orb_false_r.
    destruct Hc as [->|[-> _]]; done.
  - assert (Hd : ∀ k, 0 ≤ k → strchr (print_num 10 k) c = false).
    { intros k Hk. pose proof (num_digits_digits 10 ltac:(lia) 64 k Hk) as Hall. apply not_true_is_false.
      unfold strchr, print_num. intros (b & Hb & E%Z.eqb_eq)%existsb_exists.
      rewrite Forall_forall in Hall. destruct (Hall b) as [v Hv%digit_range]; [by apply list_elem_of_In|lia..]. }
    unfold print_int. destruct (Z.ltb_spec n 0); [|by apply Hd].
    simpl. rewrite Hd by lia. rewrite orb_false_r. destruct Hc as [->|[_ ?]]; [done|lia].
Qed.

(** A printed date is read back, from any object before. *)
Theorem date_roundtrip d0 y m d frac (s : S) :
  is_int y → is_int m → is_int d →
  to_sql (datetime_date y m d) frac s = Done s (date_text y m d)
  ∧ from_sql d0 (date_text y m d)
    = mkDatetime (Some y) (Some m) (Some d) (dt_hour d0) (dt_minute d0) (dt_sec d0) (Some true) (Some false).
Proof.
  intros Hy Hm Hd. split.
  - unfold to_sql, datetime_date. cbn -[print_int setw]. run_step. cbn [deref dt_with_date dt_year dt_month dt_day dt_with_time].
    repeat (run_step; cbn [deref]). unfold date_text. by rewrite !app_nil_r.
  - unfold from_sql. unfold is_int, int_min, int_max in *.
    assert (E : strchr (date_text y m d) 45 = true).
    { unfold date_text. rewrite strchr_app. simpl. by rewrite orb_true_r. }
    assert (E' : strchr (date_text y m d) 58 = false).
    { unfold date_text. rewrite (print_int_setw y), (print_int_setw d), strchr_app, strchr_setw by (lia || by left).
      simpl. rewrite strchr_app, strchr_setw by (lia || by left). simpl. apply strchr_setw; [lia|by left]. }
    rewrite E, E'. cbv zeta. rewrite <- (app_nil_r (date_text y m d)), read_date_text by done. done.
Qed.

(** Seconds that the three digits of [to_sql] can express: what the library prints
    it reads again. *)
Definition sec_text (sec : float) : list byte := setw 6 (print_float 3 sec).
Record exact_sec (sec : float) : Prop := {
  es_scan : scan_float (sec_text sec) = Some (sec, []);
  es_start : skip_space (sec_text sec) = sec_text sec;
  es_nonempty : sec_text sec ≠ []
}.

Definition time_text (h m : Z) (sec : float) : list byte :=
  setw 2 (print_int h) ++ chr 58 :: print_int m ++ chr 58 :: sec_text sec.
Lemma read_time_text d0 h m sec :
  is_int h → is_int m → exact_sec sec →
  fst (read_time d0 (mkIstream (time_text h m sec) false false))
  = mkDatetime (dt_year d0) (dt_month d0) (dt_day d0) (Some h) (Some m) (Some sec) (dt_with_date d0) (dt_with_time d0).
Proof.
  intros Hh Hm [Hs Hsp Hne]. unfold read_time, time_text.
  rewrite extract_number by (done || by intros ? ? [= <- _]).
  rewrite ignore_one, (print_int_setw m), extract_number by (done || lia || by intros ? ? [= <- _]).
  rewrite ignore_one. unfold is_extract. cbn [is_good is_eof is_fail negb andb is_text]. rewrite Hsp.
  destruct (sec_text sec); [done|]. by rewrite Hs.
Qed.

(** A time alone is read back if it has no minus sign in it. *)
Theorem time_roundtrip d0 h m sec (s : S) :
  is_int h → is_int m → 0 ≤ h → 0 ≤ m → exact_sec sec → strchr (sec_text sec) 45 = false →
  to_sql (datetime_time h m sec) true s = Done s (time_text h m sec)
  ∧ from_sql d0 (time_text h m sec)
    = mkDatetime (dt_year d0) (dt_month d0) (dt_day d0) (Some h) (Some m) (Some sec) (Some false) (Some true).
Proof.
  intros Hh Hm Hh0 Hm0 Hs Hd. split.
  - unfold to_sql, datetime_time. by repeat (run_step; cbn [deref dt_with_date dt_with_time dt_hour dt_minute dt_sec]).
  - unfold from_sql. unfold is_int, int_min, int_max in *.
    assert (E : strchr (time_text h m sec) 45 = false).
    { unfold time_text. rewrite (print_int_setw m), strchr_app, strchr_setw by (lia || by right). simpl.
      rewrite strchr_app, strchr_setw by (lia || by right). by simpl. }
    assert (E' : strchr (time_text h m sec) 58 = true).
    { unfold time_text. rewrite strchr_app. simpl. by rewrite orb_true_r. }
    rewrite E, E'. cbv zeta. by rewrite read_time_text.
Qed.

(** C40. A date with a time, printed with [to_sql], is read back by [from_sql] as it was, from
    whatever object, for all numbers of the width of an [int] and all seconds that the format can
    express. *)
Theorem datetime_roundtrip d0 y mo d h mi sec (s : S) :
  is_int y → is_int mo → is_int d → is_int h → is_int mi → exact_sec sec →
  ∃ text, to_sql (datetime_full y mo d h mi sec) true s = Done s text
    ∧ from_sql d0 text = datetime_full y mo d h mi sec.
Proof.
  intros Hy Hmo Hd Hh Hmi Hs. exists (date_text y mo d ++ chr 32 :: time_text h mi sec). split.
  - unfold to_sql, datetime_full.
    repeat (run_step; cbn [deref dt_with_date dt_with_time dt_year dt_month dt_day dt_hour dt_minute dt_sec]).
    unfold date_text. by repeat (rewrite <- app_assoc; cbn [app]).
  - unfold from_sql.
    assert (E : strchr (date_text y mo d ++ chr 32 :: time_text h mi sec) 45 = true).
    { unfold date_text. rewrite !strchr_app. simpl. by rewrite !orb_true_r. }
    assert (E' : strchr (date_text y mo d ++ chr 32 :: time_text h mi sec) 58 = true).
    { rewrite strchr_app. unfold time_text. simpl. rewrite strchr_app. simpl. by rewrite !orb_true_r. }
    rewrite E, E'. cbv zeta. rewrite read_date_text by (done || by intros ? ? [= <- _]).
    rewrite ignore_one. by rewrite read_time_text.
Qed.

(** The flags of a date made from a [time_t] are never set: printing it is undefined. *)
Theorem time_t_not_printable `{Calendar} ts frac (s : S) :
  to_sql (datetime_of_time ts) frac s = Undef "a member of datetime is not initialised".
Proof. done. Qed.
End RoundTrip.

(** ** Witness: seconds without a fraction *)
Section Witness.
Definition demo_floats : FloatText := {|
  float := Z;
  print_float _ n := print_int n;
  scan_float := scan_number;
  float_of_int n := n;
  int_of_float n := n
|}.
#[local] Existing Instance demo_floats.

Lemma datetime_roundtrip_witness :
  ∃ text, to_sql (datetime_full 2019 3 5 7 4 (9 : float)) true tt = Done tt text
    ∧ from_sql datetime_new text = datetime_full 2019 3 5 7 4 (9 : float).
Proof.
  apply datetime_roundtrip; try (split; vm_compute; discriminate).
  split; vm_compute; [reflexivity..|discriminate].
Defined.

(** Only the month and the hour get their zero. *)
Example demo_text :
  to_sql (datetime_full 2019 3 5 7 4 (9 : float)) true tt = Done tt (string_bytes "2019-03-5 07:4:000009").
Proof. vm_compute. reflexivity. Qed.
Example demo_read :
  let d := from_sql datetime_new (string_bytes "1981-07-18") in
  (dt_year d, dt_month d, dt_day d, dt_with_time d) = (Some 1981, Some 7, Some 18, Some false).
Proof. vm_compute. reflexivity. Qed.
End Witness.
