(* ===== verification/Optional.v ===== *)
(** * The polyfill of optional

    Models lobbysvr/mysql+++/polyfill/optional.hpp: class [optional] with the
    life of the object in its storage, optional references, and the
    comparisons.  The type of the elements is an interface; an optional and the
    object in its storage have the same address. *)
From stdpp Require Import gmap strings list.
From S2P Require Import Prelude.
#[local] Open Scope Z_scope.

(** ** The type of the elements

    Constructors and assignments may throw; a move says what it leaves behind.
    An assignment is told whether an object is assigned to itself. *)
Inductive comparison_op : Type := C_EQ | C_NE | C_LT | C_GT | C_LE | C_GE.
Class Element : Type := {
  value : Type;
  value_args : Type;
  el_make : value_args → exn + value;
  el_copy : value → exn + value;
  el_move : value → value * (exn + value);
  el_assign : bool → value → value → value * option exn;
  el_move_assign : bool → value → value → value * value * option exn;
  el_trivial : bool;
  el_compare : comparison_op → value → value → bool;
  el_hash : value → Z
}.

Section Optional.
Context `{Element}.

(** The members [init_] of the optionals that live, and the objects in their storage. *)
Record OptWorld : Type := mkOptWorld { ow_init : gmap N bool; ow_objects : gmap N value }.
Local Abbreviation W := OptWorld.

Definition no_object : string := "no such object".
Definition set_objects (f : gmap N value → gmap N value) : M W unit :=
  modify (λ w, mkOptWorld (ow_init w) (f (ow_objects w))).
Definition set_init_map (f : gmap N bool → gmap N bool) : M W unit :=
  modify (λ w, mkOptWorld (f (ow_init w)) (ow_objects w)).

Definition lift_result {S A} (r : exn + A) : M S A := match r with inl e => throw e | inr a => mret a end.
Definition throw_some {S} (e : option exn) : M S unit := match e with Some e => throw e | None => mret tt end.

(** [::new (storage) T(...)] *)
Definition construct (a : N) (r : exn + value) : M W unit :=
  v ← lift_result r;
  w ← get_state;
  match ow_objects w !! a with
  | Some _ => undefined "an object lives here already"
  | None => set_objects (insert a v)
  end.
(** [ptr->T::~T()] *)
Definition destroy (a : N) : M W unit :=
  w ← get_state; _ ← deref no_object (ow_objects w !! a); set_objects (delete a).
(** The memory of an optional is given back; an object in it ends without its
    destructor, which must be trivial. *)
Definition release (a : N) : M W unit :=
  w ← get_state;
  match ow_objects w !! a with
  | Some _ => if el_trivial then set_objects (delete a) else undefined "an object was not destroyed"
  | None => mret tt
  end;;
  set_init_map (delete a).

(** ** [optional_base] and [optional]: private functions *)
Definition initialized (a : N) : M W bool := w ← get_state; deref no_object (ow_init w !! a).
Definition set_init (a : N) (b : bool) : M W unit := set_init_map (insert a b).
Definition contained_val (a : N) : M W value := w ← get_state; deref no_object (ow_objects w !! a).
Definition set_contained (a : N) (v : value) : M W unit := _ ← contained_val a; set_objects (insert a v).

Definition opt_clear (a : N) : M W unit := i ← initialized a; when i (destroy a);; set_init a false.
(** [assert(!init_)] is compiled out. *)
Definition initialize (a : N) (src : M W (exn + value)) : M W unit :=
  r ← src; construct a r;; set_init a true.

(** An operand of an assignment: a value outside, or the object of an optional. *)
Inductive source : Type := SrcValue (v : value) | SrcObject (b : N).
Definition read_source (src : source) : M W value :=
  match src with SrcValue v => mret v | SrcObject b => contained_val b end.
Definition copy_source (src : source) : M W (exn + value) := v ← read_source src; mret (el_copy v).
Definition left_in_source (src : source) (v : value) : M W unit :=
  match src with SrcValue _ => mret tt | SrcObject b => set_contained b v end.
Definition move_source (src : source) : M W (exn + value) :=
  v ← read_source src; let '(v', r) := el_move v in left_in_source src v';; mret r.
Definition is_self (a : N) (src : source) : bool :=
  match src with SrcValue _ => false | SrcObject b => bool_decide (a = b) end.
(** [contained_val() = v] and [contained_val() = std::move(v)] *)
Definition assign_contained (a : N) (src : source) : M W unit :=
  u ← contained_val a; v ← read_source src;
  let '(u', e) := el_assign (is_self a src) u v in set_contained a u';; throw_some e.
Definition move_contained (a : N) (src : source) : M W unit :=
  u ← contained_val a; v ← read_source src;
  let '(u', v', e) := el_move_assign (is_self a src) u v in
  left_in_source src v';; set_contained a u';; throw_some e.

(** ** Constructors and the destructor *)

(** A new optional lives at an address of its own. *)
Definition new_base (a : N) (b : bool) : M W unit :=
  w ← get_state;
  match ow_init w !! a with Some _ => undefined "the storage is in use" | None => set_init a b end.
Definition optional_base_delete (a : N) : M W unit := i ← initialized a; when i (destroy a);; release a.
Definition constexpr_optional_base_delete (a : N) : M W unit := _ ← initialized a; release a.
Definition optional_delete (a : N) : M W unit :=
  if el_trivial then constexpr_optional_base_delete a else optional_base_delete a.

Definition optional_new (a : N) : M W unit := new_base a false.
(** What the body of a constructor throws deletes the base. *)
Definition optional_body (a : N) (body : M W unit) : M W unit :=
  new_base a false;; try_catch body (λ e, optional_delete a;; throw e).
Definition optional_copy (a b : N) : M W unit :=
  optional_body a
    (i ← initialized b; when i (r ← copy_source (SrcObject b); construct a r;; set_init a true)).
Definition optional_move (a b : N) : M W unit :=
  optional_body a
    (i ← initialized b; when i (r ← move_source (SrcObject b); construct a r;; set_init a true)).
(** [init_(true), storage_(...)]: of an object that throws nothing is left. *)
Definition base_with (a : N) (r : exn + value) : M W unit :=
  match r with inl e => throw e | inr _ => new_base a true;; construct a r end.
Definition optional_of_copy (a : N) (v : value) : M W unit := base_with a (el_copy v).
Definition optional_of_move (a : N) (v : value) : M W unit := base_with a (snd (el_move v)).
Definition optional_in_place (a : N) (args : value_args) : M W unit := base_with a (el_make args).

(** ** Assignment *)
Definition assign_null (a : N) : M W unit := opt_clear a.
Definition assign_copy (a b : N) : M W unit :=
  i ← initialized a; j ← initialized b;
  if i && negb j then opt_clear a
  else if negb i && j then initialize a (copy_source (SrcObject b))
  else if i && j then assign_contained a (SrcObject b)
  else mret tt.
Definition assign_move (a b : N) : M W unit :=
  i ← initialized a; j ← initialized b;
  if i && negb j then opt_clear a
  else if negb i && j then initialize a (move_source (SrcObject b))
  else if i && j then move_contained a (SrcObject b)
  else mret tt.
Definition assign_value (a : N) (v : source) : M W unit :=
  i ← initialized a; if (i : bool) then assign_contained a v else initialize a (copy_source v).
Definition assign_moved (a : N) (v : source) : M W unit :=
  i ← initialized a; if (i : bool) then move_contained a v else initialize a (move_source v).
Definition emplace (a : N) (args : value_args) : M W unit := opt_clear a;; initialize a (mret (el_make args)).

(** [std::swap] of two objects, through a temporary. *)
Definition std_swap (a b : N) : M W unit :=
  r ← move_source (SrcObject a);
  tmp ← lift_result r;
  move_contained a (SrcObject b);;
  move_contained b (SrcValue tmp).
Definition opt_swap (a b : N) : M W unit :=
  i ← initialized a; j ← initialized b;
  if i && negb j then initialize b (move_source (SrcObject a));; opt_clear a
  else if negb i && j then initialize a (move_source (SrcObject b));; opt_clear b
  else if i && j then std_swap a b
  else mret tt.
Definition opt_reset (a : N) : M W unit := opt_clear a.

(** ** Observers *)
Definition has_value (a : N) : M W bool := initialized a.
Definition opt_deref (a : N) : M W value := contained_val a.
Definition opt_value (a : N) : M W value :=
  i ← initialized a;
  if (i : bool) then contained_val a else throw (bad_optional_access "bad optional access").
(** [other] is what the conversion of the argument gives. *)
Definition value_or (a : N) (other : exn + value) : M W value :=
  i ← initialized a;
  if (i : bool) then v ← contained_val a; lift_result (el_copy v) else lift_result other.
Definition value_or_moved (a : N) (other : exn + value) : M W value :=
  i ← initialized a;
  if (i : bool) then r ← move_source (SrcObject a); lift_result r else lift_result other.

(** ** Comparisons *)
Definition is_full (x : option value) : bool := match x with Some _ => true | None => false end.
Definition opt_eq (x y : option value) : bool :=
  match x, y with
  | Some x, Some y => el_compare C_EQ x y
  | None, None => true
  | _, _ => false
  end.
Definition opt_lt (x y : option value) : bool :=
  match y with
  | None => false
  | Some y => match x with None => true | Some x => el_compare C_LT x y end
  end.
Definition compare_opt (c : comparison_op) (x y : option value) : bool :=
  match c with
  | C_EQ => opt_eq x y
  | C_NE => negb (opt_eq x y)
  | C_LT => opt_lt x y
  | C_GT => opt_lt y x
  | C_LE => negb (opt_lt y x)
  | C_GE => negb (opt_lt x y)
  end.
Definition compare_null (c : comparison_op) (x : option value) : bool :=
  match c with
  | C_EQ | C_LE => negb (is_full x)
  | C_NE | C_GT => is_full x
  | C_LT => false
  | C_GE => true
  end.
Definition null_compare (c : comparison_op) (x : option value) : bool :=
  match c with
  | C_EQ | C_GE => negb (is_full x)
  | C_NE | C_LT => is_full x
  | C_LE => true
  | C_GT => false
  end.
(** What an empty optional gives on the left and on the right of a value. *)
Definition empty_compares (c : comparison_op) : bool := match c with C_NE | C_LT | C_LE => true | _ => false end.
Definition empty_compared (c : comparison_op) : bool := match c with C_NE | C_GT | C_GE => true | _ => false end.
Definition compare_value (c : comparison_op) (x : option value) (v : value) : bool :=
  match x with Some x => el_compare c x v | None => empty_compares c end.
Definition value_compare (c : comparison_op) (v : value) (x : option value) : bool :=
  match x with Some x => el_compare c v x | None => empty_compared c end.
Definition opt_hash (x : option value) : Z := match x with Some v => el_hash v | None => 0 end.

(** The value of an optional as the comparisons read it. *)
Definition view (a : N) : M W (option value) :=
  i ← initialized a; if (i : bool) then v ← contained_val a; mret (Some v) else mret None.

(** ** [optional<T&>]: null or the address of an object *)
Definition opt_ref : Type := option N.
Definition ref_new : opt_ref := None.
Definition ref_of (a : N) : opt_ref := Some a.
Definition ref_assign (r rhs : opt_ref) : opt_ref := rhs.
Definition ref_emplace (r : opt_ref) (a : N) : opt_ref := Some a.
Definition ref_swap (r rhs : opt_ref) : opt_ref * opt_ref := (rhs, r).
Definition ref_reset (r : opt_ref) : opt_ref := None.
Definition ref_has_value (r : opt_ref) : bool := match r with Some _ => true | None => false end.
Definition ref_deref (r : opt_ref) : M W value := a ← deref "null reference" r; contained_val a.
Definition ref_value (r : opt_ref) : M W value :=
  if ref_has_value r then ref_deref r else throw (bad_optional_access "bad optional access").
Definition ref_value_or (r : opt_ref) (other : exn + value) : M W value :=
  if ref_has_value r then v ← ref_deref r; lift_result (el_copy v) else lift_result other.
Definition ref_compare_value (c : comparison_op) (r : opt_ref) (v : value) : M W bool :=
  if ref_has_value r then x ← ref_deref r; mret (el_compare c x v) else mret (empty_compares c).
Definition ref_value_compare (c : comparison_op) (v : value) (r : opt_ref) : M W bool :=
  if ref_has_value r then x ← ref_deref r; mret (el_compare c v x) else mret (empty_compared c).
End Optional.
