(* ===== verification/OptionalSpec.v ===== *)
(** * What an optional promises

    The polyfill of Optional.v refines values of [option]: the member [init_] and
    the storage always agree, no object is constructed over another, destroyed
    twice or left in storage that is given back, whatever the constructors and
    assignments of the elements throw.  The comparisons with an empty optional
    and with a value are those of two optionals. *)
From stdpp Require Import gmap strings list.
From S2P Require Import Prelude.
From S2P Require Import Optional.
#[local] Open Scope Z_scope.

(** ** The specification: optionals are options *)
Section Spec.
Context `{Element}.
Local Abbreviation S := (gmap N (option value)).

Definition spec_get (a : N) : M S (option value) := m ← get_state; deref no_object (m !! a).
Definition spec_set (a : N) (x : option value) : M S unit := modify (insert a x).
Definition spec_value (a : N) : M S value := x ← spec_get a; deref no_object x.
Definition spec_put (a : N) (v : value) : M S unit := _ ← spec_value a; spec_set a (Some v).
Definition spec_new (a : N) (x : option value) : M S unit :=
  m ← get_state;
  match m !! a with Some _ => undefined "the storage is in use" | None => spec_set a x end.
Definition spec_delete (a : N) : M S unit := _ ← spec_get a; modify (delete a).

Definition spec_source (src : source) : M S value :=
  match src with SrcValue v => mret v | SrcObject b => spec_value b end.
Definition spec_left (src : source) (v : value) : M S unit :=
  match src with SrcValue _ => mret tt | SrcObject b => spec_put b v end.
Definition spec_copied (src : source) : M S (exn + value) := v ← spec_source src; mret (el_copy v).
Definition spec_moved (src : source) : M S (exn + value) :=
  v ← spec_source src; let '(v', r) := el_move v in spec_left src v';; mret r.
(** An optional takes a value that was made; where making it throws, it stays empty. *)
Definition spec_fill (a : N) (made : M S (exn + value)) : M S unit :=
  r ← made; v ← lift_result r; spec_set a (Some v).
Definition spec_assign (a : N) (src : source) : M S unit :=
  u ← spec_value a; v ← spec_source src;
  let '(u', e) := el_assign (is_self a src) u v in spec_put a u';; throw_some e.
Definition spec_move_assign (a : N) (src : source) : M S unit :=
  u ← spec_value a; v ← spec_source src;
  let '(u', v', e) := el_move_assign (is_self a src) u v in spec_left src v';; spec_put a u';; throw_some e.

Inductive opt_op : Type :=
| OpNew (a : N) | OpCopy (a b : N) | OpMove (a b : N)
| OpOfCopy (a : N) (v : value) | OpOfMove (a : N) (v : value) | OpInPlace (a : N) (args : value_args)
| OpDelete (a : N)
| OpAssignNull (a : N) | OpAssignCopy (a b : N) | OpAssignMove (a b : N)
| OpAssignValue (a : N) (v : source) | OpAssignMoved (a : N) (v : source)
| OpEmplace (a : N) (args : value_args) | OpSwap (a b : N) | OpReset (a : N)
| OpHasValue (a : N) | OpDeref (a : N) | OpValue (a : N)
| OpValueOr (a : N) (other : exn + value) | OpValueOrMoved (a : N) (other : exn + value)
| OpCompare (c : comparison_op) (a b : N)
| OpCompareValue (c : comparison_op) (a : N) (v : value) | OpValueCompare (c : comparison_op) (v : value) (a : N).
Inductive opt_answer : Type := OaDone | OaFlag (b : bool) | OaValue (v : value) | OaThrew (e : exn).

Definition done_ {T} (m : M T unit) : M T opt_answer := _ ← m; mret OaDone.
Definition flag {T} (m : M T bool) : M T opt_answer := b ← m; mret (OaFlag b).
Definition answer_value {T} (m : M T value) : M T opt_answer := v ← m; mret (OaValue v).

Definition run_opt (o : opt_op) : M OptWorld opt_answer :=
  match o with
  | OpNew a => done_ (optional_new a)
  | OpCopy a b => done_ (optional_copy a b)
  | OpMove a b => done_ (optional_move a b)
  | OpOfCopy a v => done_ (optional_of_copy a v)
  | OpOfMove a v => done_ (optional_of_move a v)
  | OpInPlace a args => done_ (optional_in_place a args)
  | OpDelete a => done_ (optional_delete a)
  | OpAssignNull a => done_ (assign_null a)
  | OpAssignCopy a b => done_ (assign_copy a b)
  | OpAssignMove a b => done_ (assign_move a b)
  | OpAssignValue a v => done_ (assign_value a v)
  | OpAssignMoved a v => done_ (assign_moved a v)
  | OpEmplace a args => done_ (emplace a args)
  | OpSwap a b => done_ (opt_swap a b)
  | OpReset a => done_ (opt_reset a)
  | OpHasValue a => flag (has_value a)
  | OpDeref a => answer_value (opt_deref a)
  | OpValue a => answer_value (opt_value a)
  | OpValueOr a other => answer_value (value_or a other)
  | OpValueOrMoved a other => answer_value (value_or_moved a other)
  | OpCompare c a b => flag (x ← view a; y ← view b; mret (compare_opt c x y))
  | OpCompareValue c a v => flag (x ← view a; mret (compare_value c x v))
  | OpValueCompare c v a => flag (x ← view a; mret (value_compare c v x))
  end.

(** An optional that is made from another. *)
Definition spec_construct (a b : N) (made : M S (exn + value)) : M S unit :=
  m ← get_state;
  match m !! a with
  | Some _ => undefined "the storage is in use"
  | None =>
      if bool_decide (a = b) then spec_set a None
      else
        y ← spec_get b;
        match y with Some _ => r ← made; v ← lift_result r; spec_set a (Some v) | None => spec_set a None end
  end.
Definition spec_of (a : N) (r : exn + value) : M S unit := v ← lift_result r; spec_new a (Some v).
Definition spec_assign_from (a : N) (assign : M S unit) (made : M S (exn + value)) : M S unit :=
  x ← spec_get a; match x with Some _ => assign | None => spec_fill a made end.
Definition spec_optional_from (a b : N) (assign : M S unit) (made : M S (exn + value)) : M S unit :=
  x ← spec_get a; y ← spec_get b;
  match x, y with
  | Some _, None => spec_set a None
  | None, Some _ => spec_fill a made
  | Some _, Some _ => assign
  | None, None => mret tt
  end.
Definition spec_swap (a b : N) : M S unit :=
  x ← spec_get a; y ← spec_get b;
  match x, y with
  | Some _, None => spec_fill b (spec_moved (SrcObject a));; spec_set a None
  | None, Some _ => spec_fill a (spec_moved (SrcObject b));; spec_set b None
  | Some _, Some _ =>
      r ← spec_moved (SrcObject a); tmp ← lift_result r;
      spec_move_assign a (SrcObject b);; spec_move_assign b (SrcValue tmp)
  | None, None => mret tt
  end.
Definition spec_opt (o : opt_op) : M S opt_answer :=
  match o with
  | OpNew a => done_ (spec_new a None)
  | OpCopy a b => done_ (spec_construct a b (spec_copied (SrcObject b)))
  | OpMove a b => done_ (spec_construct a b (spec_moved (SrcObject b)))
  | OpOfCopy a v => done_ (spec_of a (el_copy v))
  | OpOfMove a v => done_ (spec_of a (snd (el_move v)))
  | OpInPlace a args => done_ (spec_of a (el_make args))
  | OpDelete a => done_ (spec_delete a)
  | OpAssignNull a | OpReset a => done_ (_ ← spec_get a; spec_set a None)
  | OpAssignCopy a b => done_ (spec_optional_from a b (spec_assign a (SrcObject b)) (spec_copied (SrcObject b)))
  | OpAssignMove a b => done_ (spec_optional_from a b (spec_move_assign a (SrcObject b)) (spec_moved (SrcObject b)))
  | OpAssignValue a v => done_ (spec_assign_from a (spec_assign a v) (spec_copied v))
  | OpAssignMoved a v => done_ (spec_assign_from a (spec_move_assign a v) (spec_moved v))
  | OpEmplace a args => done_ (_ ← spec_get a; spec_set a None;; spec_fill a (mret (el_make args)))
  | OpSwap a b => done_ (spec_swap a b)
  | OpHasValue a => flag (x ← spec_get a; mret (is_full x))
  | OpDeref a => answer_value (spec_value a)
  | OpValue a => answer_value
      (x ← spec_get a; match x with Some v => mret v | None => throw (bad_optional_access "bad optional access") end)
  | OpValueOr a other => answer_value
      (x ← spec_get a; match x with Some v => lift_result (el_copy v) | None => lift_result other end)
  | OpValueOrMoved a other => answer_value
      (x ← spec_get a; match x with Some _ => r ← spec_moved (SrcObject a); lift_result r | None => lift_result other end)
  | OpCompare c a b => flag (x ← spec_get a; y ← spec_get b; mret (compare_opt c x y))
  | OpCompareValue c a v => flag (x ← spec_get a; mret (compare_value c x v))
  | OpValueCompare c v a => flag (x ← spec_get a; mret (value_compare c v x))
  end.

(** Calls one after the other; what one throws is caught. *)
Fixpoint run_all {T O} (run : O → M T opt_answer) (l : list O) : M T (list opt_answer) :=
  match l with
  | [] => mret []
  | o :: l => x ← try_catch (run o) (λ e, mret (OaThrew e)); rest ← run_all run l; mret (x :: rest)
  end.
End Spec.

(** ** The refinement *)
Create HintDb refines.
Section Refinement.
Context `{Element}.
Local Abbreviation S := (gmap N (option value)).

(** The world that a state of the specification stands for: the storage of an
    optional holds an object exactly if it has a value. *)
Definition abs (m : S) : OptWorld := mkOptWorld (is_full <$> m) (omap id m).
(** A program does to the world what another does to the options. *)
Definition refines {A} (f : M OptWorld A) (g : M S A) : Prop := ∀ m, f (abs m) = map_state abs (g m).

Lemma refines_ret {A} (a : A) : refines (mret a) (mret a).
Proof. done. Qed.
Lemma refines_lift {A} (r : exn + A) : refines (lift_result r) (lift_result r).
Proof. by destruct r. Qed.
Lemma refines_throw_some e : refines (throw_some e) (throw_some e).
Proof. by destruct e. Qed.
Lemma refines_bind {A B} (f : M OptWorld A) (g : M S A) (k : A → M OptWorld B) (l : A → M S B) :
  refines f g → (∀ a, refines (k a) (l a)) → refines (f ≫= k) (g ≫= l).
Proof.
  intros Hf Hk m. rewrite !bind_run, Hf. destruct (g m) as [m' a| | |]; try done. apply Hk.
Qed.

Lemma init_lookup m a : ow_init (abs m) !! a = is_full <$> m !! a.
Proof. apply lookup_fmap. Qed.
Lemma objects_lookup m a : ow_objects (abs m) !! a = m !! a ≫= id.
Proof. apply lookup_omap. Qed.

(** The private functions on a world of the specification. *)
Lemma initialized_run m a x : m !! a = Some x → initialized a (abs m) = Done (abs m) (is_full x).
Proof. intros Ha. unfold initialized. run_step. by rewrite init_lookup, Ha. Qed.
Lemma initialized_refines a : refines (initialized a) (x ← spec_get a; mret (is_full x)).
Proof. intros m. unfold initialized, spec_get. run_step. rewrite init_lookup. by destruct (m !! a). Qed.
Lemma contained_refines a : refines (contained_val a) (spec_value a).
Proof.
  intros m. unfold contained_val, spec_value, spec_get. run_step. rewrite objects_lookup.
  by destruct (m !! a) as [[]|].
Qed.
Lemma set_contained_refines a v : refines (set_contained a v) (spec_put a v).
Proof.
  intros m. unfold set_contained, contained_val, spec_put, spec_value, spec_get, spec_set, set_objects. run_step.
  rewrite objects_lookup. destruct (m !! a) as [[u|]|] eqn:Ha; try done.
  cbn [mbind option_bind id deref]. repeat (run_step; cbn [deref]). unfold abs. f_equal. cbn. f_equal.
  - rewrite fmap_insert. rewrite insert_id; [done|]. by rewrite lookup_fmap, Ha.
  - by rewrite (omap_insert_Some id m a (Some v) v).
Qed.
Lemma cleared_run m a x : m !! a = Some x → opt_clear a (abs m) = Done (abs (<[a := None]> m)) tt.
Proof.
  intros Ha. unfold opt_clear. rewrite bind_run, (initialized_run m a x) by done. cbn [bind_outcome].
  assert (Hw : abs (<[a := None]> m) = mkOptWorld (<[a := false]> (is_full <$> m)) (delete a (omap id m))).
  { unfold abs. f_equal; [by rewrite fmap_insert|]. by rewrite (omap_insert_None id m a None). }
  rewrite Hw. unfold set_init, set_init_map, destroy, set_objects. destruct x as [u|]; cbn [is_full when].
  - run_step. rewrite objects_lookup, Ha. cbn [mbind option_bind id deref]. by run_step.
  - run_step. unfold abs. cbn [ow_init ow_objects]. f_equal. f_equal. rewrite delete_id; [done|]. by rewrite lookup_omap, Ha.
Qed.
Lemma clear_refines a : refines (opt_clear a) (_ ← spec_get a; spec_set a None).
Proof.
  intros m. destruct (m !! a) as [x|] eqn:Ha.
  - rewrite (cleared_run m a x) by done. unfold spec_get, spec_set. run_step. rewrite Ha. cbn [deref]. by run_step.
  - unfold opt_clear. rewrite bind_run, initialized_refines. unfold spec_get. run_step. by rewrite Ha.
Qed.

(** An object is made in the storage of an optional that is empty. *)
Lemma construct_run m a v :
  m !! a = Some None →
  (construct a (inr v);; set_init a true) (abs m) = Done (abs (<[a := Some v]> m)) tt.
Proof.
  intros Ha. unfold construct, set_init, set_init_map, set_objects, lift_result. run_step.
  rewrite objects_lookup, Ha. cbn [mbind option_bind id]. run_step. unfold abs. f_equal. cbn. f_equal.
  - by rewrite fmap_insert.
  - by rewrite (omap_insert_Some id m a (Some v) v).
Qed.
Lemma initialize_run (src : M OptWorld (exn + value)) made m a :
  refines src made → (∀ m' r, made m = Done m' r → m' !! a = Some None) →
  initialize a src (abs m) = map_state abs (spec_fill a made m).
Proof.
  intros Hsrc Ha. unfold initialize, spec_fill. rewrite !bind_run, Hsrc.
  destruct (made m) as [m' [e|v]| | |] eqn:E; try done. cbn [map_state bind_outcome].
  rewrite construct_run by by eapply Ha. unfold spec_set. by run_step.
Qed.

(** ** Operands *)
#[local] Hint Resolve refines_ret refines_lift refines_throw_some contained_refines set_contained_refines
  initialized_refines : refines.
Lemma source_refines src : refines (read_source src) (spec_source src).
Proof. destruct src; simpl; auto with refines. Qed.
Lemma left_refines src v : refines (left_in_source src v) (spec_left src v).
Proof. destruct src; simpl; auto with refines. Qed.
#[local] Hint Resolve source_refines left_refines : refines.
Ltac refines_step :=
  match goal with
  | |- refines (mbind _ _) (mbind _ _) => apply refines_bind; [|intros ?]
  | |- refines (let '(_, _) := ?x in _) _ => destruct x as [??]
  | |- refines _ _ => solve [auto with refines]
  end.
Lemma copied_refines src : refines (copy_source src) (spec_copied src).
Proof. unfold copy_source, spec_copied. repeat refines_step. Qed.
Lemma moved_refines src : refines (move_source src) (spec_moved src).
Proof. unfold move_source, spec_moved. repeat refines_step. Qed.
Lemma assign_refines a src : refines (assign_contained a src) (spec_assign a src).
Proof. unfold assign_contained, spec_assign. repeat refines_step. Qed.
Lemma move_assign_refines a src : refines (move_contained a src) (spec_move_assign a src).
Proof. unfold move_contained, spec_move_assign. repeat refines_step. Qed.
#[local] Hint Resolve copied_refines moved_refines assign_refines move_assign_refines clear_refines : refines.

(** Taking an operand does not touch an empty optional. *)
Definition leaves_empty {A} (g : M S A) (a : N) : Prop :=
  ∀ m m' r, m !! a = Some None → g m = Done m' r → m' !! a = Some None.
Lemma copied_leaves_empty src a : leaves_empty (spec_copied src) a.
Proof.
  intros m m' r Ha. unfold spec_copied, spec_source, spec_value, spec_get. destruct src as [v|b]; run_step; [by intros [= <- _]|].
  destruct (m !! b) as [[u|]|]; repeat (run_step; cbn [deref]); try done. by intros [= <- _].
Qed.
Lemma moved_leaves_empty src a : leaves_empty (spec_moved src) a.
Proof.
  intros m m' r Ha. unfold spec_moved, spec_source, spec_left, spec_put, spec_value, spec_get, spec_set.
  destruct src as [v|b]; run_step; [destruct (el_move v); run_step; by intros [= <- _]|].
  destruct (m !! b) as [[u|]|] eqn:Hb; repeat (run_step; cbn [deref]); try done.
  destruct (el_move u) as [u' r']. repeat (run_step; cbn [deref]; rewrite ?Hb). intros [= <- _].
  rewrite lookup_insert_ne by congruence. done.
Qed.
Lemma made_leaves_empty r a : leaves_empty (mret (A := exn + value) r) a.
Proof. by intros m m' r' Ha [= <- _]. Qed.
#[local] Hint Resolve copied_leaves_empty moved_leaves_empty made_leaves_empty : refines.

(** ** The operations *)
Lemma initialize_empty (src : M OptWorld (exn + value)) made m a :
  refines src made → leaves_empty made a → m !! a = Some None →
  initialize a src (abs m) = map_state abs (spec_fill a made m).
Proof. intros Hsrc Hl Ha. apply initialize_run; [done|]. intros m' r. by apply Hl. Qed.

(** Both assignments between optionals. *)
Lemma optional_from_refines a b assign assign' (src : M OptWorld (exn + value)) made :
  refines assign assign' → refines src made → leaves_empty made a →
  refines (i ← initialized a; j ← initialized b;
           if i && negb j then opt_clear a
           else if negb i && j then initialize a src
           else if i && j then assign else mret tt)
    (spec_optional_from a b assign' made).
Proof.
  intros Has Hsrc Hl m. unfold spec_optional_from, spec_get. run_step.
  destruct (m !! a) as [x|] eqn:Ha; [|unfold initialized; run_step; by rewrite init_lookup, Ha].
  rewrite (initialized_run m a x) by done. repeat (run_step; cbn [deref]).
  destruct (m !! b) as [y|] eqn:Hb; [|unfold initialized; run_step; by rewrite init_lookup, Hb].
  rewrite (initialized_run m b y) by done. repeat (run_step; cbn [deref]).
  destruct x as [u|], y as [v|]; cbn [is_full andb negb].
  - apply Has.
  - by rewrite (cleared_run m a (Some u)).
  - by apply initialize_empty.
  - done.
Qed.
Lemma assign_from_refines a assign assign' (src : M OptWorld (exn + value)) made :
  refines assign assign' → refines src made → leaves_empty made a →
  refines (i ← initialized a; if (i : bool) then assign else initialize a src) (spec_assign_from a assign' made).
Proof.
  intros Has Hsrc Hl m. unfold spec_assign_from, spec_get. run_step.
  destruct (m !! a) as [x|] eqn:Ha; [|unfold initialized; run_step; by rewrite init_lookup, Ha].
  rewrite (initialized_run m a x) by done. repeat (run_step; cbn [deref]).
  destruct x; cbn [is_full]; [apply Has|]. by apply initialize_empty.
Qed.
Lemma emplace_refines a args :
  refines (emplace a args) (_ ← spec_get a; spec_set a None;; spec_fill a (mret (el_make args))).
Proof.
  intros m. unfold emplace, spec_get, spec_set. run_step. destruct (m !! a) as [x|] eqn:Ha.
  - rewrite (cleared_run m a x) by done. repeat (run_step; cbn [deref]).
    apply initialize_empty; auto with refines. apply lookup_insert_eq.
  - unfold opt_clear. rewrite bind_run, initialized_refines. unfold spec_get. run_step. by rewrite Ha.
Qed.

Lemma fill_moved_then_clear a b m v :
  m !! a = Some (Some v) → m !! b = Some None →
  (initialize b (move_source (SrcObject a));; opt_clear a) (abs m)
  = map_state abs ((spec_fill b (spec_moved (SrcObject a));; spec_set a None) m).
Proof.
  intros Ha Hb. rewrite !bind_run, (initialize_empty _ (spec_moved (SrcObject a))) by auto with refines.
  unfold spec_fill, spec_moved, spec_source, spec_left, spec_put, spec_value, spec_get, spec_set.
  repeat (run_step; cbn [deref]; rewrite ?Ha). destruct (el_move v) as [v' [e|w]];
    repeat (run_step; cbn [deref lift_result throw]; rewrite ?Ha); [done|].
  rewrite (cleared_run _ a (Some v')); [done|]. rewrite lookup_insert_ne by congruence. apply lookup_insert_eq.
Qed.
Lemma std_swap_refines a b :
  refines (std_swap a b)
    (r ← spec_moved (SrcObject a); tmp ← lift_result r;
     spec_move_assign a (SrcObject b);; spec_move_assign b (SrcValue tmp)).
Proof. unfold std_swap. repeat refines_step. Qed.
Lemma swap_refines a b : refines (opt_swap a b) (spec_swap a b).
Proof.
  intros m. unfold opt_swap, spec_swap. rewrite bind_run, (bind_run (spec_get a)). unfold spec_get. run_step.
  destruct (m !! a) as [x|] eqn:Ha; [|unfold initialized; run_step; by rewrite init_lookup, Ha].
  rewrite (initialized_run m a x) by done. repeat (run_step; cbn [deref]).
  destruct (m !! b) as [y|] eqn:Hb; [|unfold initialized; run_step; by rewrite init_lookup, Hb].
  rewrite (initialized_run m b y) by done. repeat (run_step; cbn [deref]).
  destruct x as [u|], y as [v|]; cbn [is_full andb negb].
  - apply std_swap_refines.
  - exact (fill_moved_then_clear a b m u Ha Hb).
  - exact (fill_moved_then_clear b a m v Hb Ha).
  - done.
Qed.

(** ** Constructors, the destructor and the observers *)
Lemma new_run m a : m !! a = None → optional_new a (abs m) = Done (abs (<[a := None]> m)) tt.
Proof.
  intros Ha. unfold optional_new, new_base, set_init, set_init_map. run_step. rewrite init_lookup, Ha. cbn [fmap option_fmap option_map].
  run_step. unfold abs. f_equal. cbn. f_equal.
  - by rewrite fmap_insert.
  - rewrite (omap_insert_None id m a None) by done. rewrite delete_id; [done|]. by rewrite lookup_omap, Ha.
Qed.
Lemma new_used m a x : m !! a = Some x → new_base a false (abs m) = Undef "the storage is in use".
Proof. intros Ha. unfold new_base. run_step. by rewrite init_lookup, Ha. Qed.
Lemma delete_run m a x : m !! a = Some x → optional_delete a (abs m) = Done (abs (delete a m)) tt.
Proof.
  intros Ha.
  assert (Hw : abs (delete a m) = mkOptWorld (delete a (is_full <$> m)) (delete a (omap id m))).
  { unfold abs. by rewrite fmap_delete, omap_delete. }
  rewrite Hw. unfold optional_delete, constexpr_optional_base_delete, optional_base_delete, destroy, release, set_objects, set_init_map.
  destruct el_trivial, x as [u|]; rewrite bind_run, (initialized_run m a _ Ha); cbn [bind_outcome is_full when];
    repeat (run_step; rewrite ?objects_lookup, ?Ha, ?lookup_delete_eq; cbn [mbind option_bind id deref ow_objects ow_init abs]);
    try done; unfold abs; cbn [ow_init ow_objects]; f_equal; f_equal; symmetry; apply delete_id; by rewrite lookup_omap, Ha.
Qed.
Lemma delete_refines a : refines (optional_delete a) (spec_delete a).
Proof.
  intros m. unfold spec_delete, spec_get. run_step. destruct (m !! a) as [x|] eqn:Ha.
  - rewrite (delete_run m a x) by done. repeat (run_step; cbn [deref]). done.
  - unfold optional_delete, constexpr_optional_base_delete, optional_base_delete.
    destruct el_trivial; unfold initialized; run_step; by rewrite init_lookup, Ha.
Qed.
Lemma new_refines a : refines (optional_new a) (spec_new a None).
Proof.
  intros m. unfold spec_new, spec_set. run_step. destruct (m !! a) as [x|] eqn:Ha.
  - by apply (new_used m a x).
  - run_step. by rewrite (new_run m a).
Qed.
Lemma base_with_refines a r : refines (base_with a r) (spec_of a r).
Proof.
  intros m. unfold base_with, spec_of, spec_new, spec_set. destruct r as [e|v]; [done|]. unfold lift_result at 1. run_step.
  unfold new_base, construct, set_init, set_init_map, set_objects, lift_result. run_step. rewrite init_lookup.
  destruct (m !! a) as [x|] eqn:Ha; [done|]. cbn [fmap option_fmap option_map]. run_step. cbn [ow_objects].
  rewrite objects_lookup, Ha. cbn [mbind option_bind]. run_step. unfold abs. f_equal. cbn. f_equal.
  - by rewrite fmap_insert.
  - by rewrite (omap_insert_Some id m a (Some v) v).
Qed.

Lemma delete_throw_run (m : S) a e :
  m !! a = None → (optional_delete a;; throw (A := unit) e) (abs (<[a := None]> m)) = Threw (abs m) e.
Proof.
  intros Ha. rewrite bind_run, (delete_run _ a None) by apply lookup_insert_eq. by rewrite delete_insert_id.
Qed.
(** The constructors that take the value of another optional. *)
Lemma optional_body_refines a b (src : M OptWorld (exn + value)) made :
  refines src made → leaves_empty made a →
  (∀ m, m !! a = None → a ≠ b → made (<[a := None]> m) = map_state (insert a None) (made m)
        ∧ match made m with Done m' _ | Threw m' _ => m' !! a = None | _ => True end) →
  refines (optional_body a (i ← initialized b; when i (r ← src; construct a r;; set_init a true)))
    (spec_construct a b made).
Proof.
  intros Hsrc Hl Hfresh m. unfold optional_body, spec_construct, spec_set, spec_get. rewrite bind_run. run_step.
  destruct (m !! a) as [x|] eqn:Ha; [by rewrite (new_used m a x)|].
  change (new_base a false) with (optional_new a). rewrite (new_run m a) by done. cbn [bind_outcome]. unfold try_catch.
  rewrite bind_run, initialized_refines. unfold spec_get. run_step.
  case_bool_decide as Hab.
  { subst b. rewrite lookup_insert_eq. by repeat (run_step; cbn [deref is_full when map_state]). }
  rewrite lookup_insert_ne by done. destruct (m !! b) as [y|] eqn:Hb;
    repeat (run_step; cbn [deref]; rewrite ?Hb); [|done]. destruct y as [v|]; cbn [is_full when]; [|done].
  destruct (Hfresh m Ha Hab) as [E Hn]. rewrite bind_run, Hsrc, E.
  rewrite bind_run. destruct (made m) as [m' [e|w]|m' e| |]; try done; cbn [map_state bind_outcome].
  - by apply delete_throw_run.
  - rewrite construct_run by apply lookup_insert_eq. by rewrite insert_insert_eq.
  - by apply delete_throw_run.
Qed.
Lemma copied_fresh a b (m : S) :
  m !! a = None → a ≠ b →
  spec_copied (SrcObject b) (<[a := None]> m) = map_state (insert a None) (spec_copied (SrcObject b) m)
  ∧ match spec_copied (SrcObject b) m with Done m' _ | Threw m' _ => m' !! a = None | _ => True end.
Proof.
  intros Ha Hab. unfold spec_copied, spec_source, spec_value, spec_get. run_step. rewrite lookup_insert_ne by done.
  by destruct (m !! b) as [[v|]|].
Qed.
Lemma moved_fresh a b (m : S) :
  m !! a = None → a ≠ b →
  spec_moved (SrcObject b) (<[a := None]> m) = map_state (insert a None) (spec_moved (SrcObject b) m)
  ∧ match spec_moved (SrcObject b) m with Done m' _ | Threw m' _ => m' !! a = None | _ => True end.
Proof.
  intros Ha Hab. unfold spec_moved, spec_source, spec_left, spec_put, spec_value, spec_get, spec_set.
  run_step. rewrite lookup_insert_ne by done. destruct (m !! b) as [[v|]|] eqn:Hb; try done.
  repeat (run_step; cbn [deref]). destruct (el_move v) as [v' r].
  repeat (run_step; cbn [deref]; rewrite ?lookup_insert_ne, ?Hb by done). split.
  - by rewrite insert_insert_ne.
  - done.
Qed.
Lemma view_refines a : refines (view a) (spec_get a).
Proof.
  intros m. unfold view, contained_val, initialized, spec_get. run_step. rewrite init_lookup.
  destruct (m !! a) as [[v|]|] eqn:Ha; repeat (run_step; cbn [deref fmap option_fmap option_map is_full]); [|done..].
  by rewrite objects_lookup, Ha.
Qed.
(** An observer that looks at the value, if there is one. *)
Lemma observer_refines {A} a (full empty : M OptWorld A) (full' : value → M S A) (empty' : M S A) :
  (∀ m v, m !! a = Some (Some v) → full (abs m) = map_state abs (full' v m)) → refines empty empty' →
  refines (i ← initialized a; if (i : bool) then full else empty)
    (x ← spec_get a; match x with Some v => full' v | None => empty' end).
Proof.
  intros Hfull Hempty m. rewrite bind_run, initialized_refines. unfold spec_get. run_step.
  destruct (m !! a) as [[v|]|] eqn:Ha; repeat (run_step; cbn [deref is_full]); [by apply Hfull|apply Hempty|done].
Qed.
Lemma contained_run m a v : m !! a = Some (Some v) → contained_val a (abs m) = Done (abs m) v.
Proof. intros Ha. unfold contained_val. run_step. by rewrite objects_lookup, Ha. Qed.
#[local] Hint Resolve view_refines delete_refines new_refines base_with_refines emplace_refines swap_refines : refines.

Lemma opt_refines o : refines (run_opt o) (spec_opt o).
Proof.
  destruct o; cbn [run_opt spec_opt]; unfold done_, flag, answer_value, optional_of_copy, optional_of_move,
    optional_in_place, assign_null, opt_reset, has_value, opt_deref; apply refines_bind; try (intros ?; apply refines_ret);
    auto with refines; try solve [repeat refines_step].
  - apply optional_body_refines; auto with refines. apply copied_fresh.
  - apply optional_body_refines; auto with refines. apply moved_fresh.
  - apply optional_from_refines; auto with refines.
  - apply optional_from_refines; auto with refines.
  - apply assign_from_refines; auto with refines.
  - apply assign_from_refines; auto with refines.
  - apply observer_refines; [|done]. intros m v. apply contained_run.
  - apply observer_refines; [|apply refines_lift]. intros m v Ha. rewrite bind_run, (contained_run m a v) by done.
    apply refines_lift.
  - apply (observer_refines a _ _ (λ _, r ← spec_moved (SrcObject a); lift_result r)); [|apply refines_lift].
    intros m v _. by apply (refines_bind (move_source (SrcObject a)) (spec_moved (SrcObject a)) lift_result lift_result);
      auto with refines.
Qed.
Lemma run_all_refines l : refines (run_all run_opt l) (run_all spec_opt l).
Proof.
  induction l as [|o l IH]; [done|]. cbn [run_all]. apply refines_bind.
  - intros m. unfold try_catch. rewrite opt_refines. by destruct (spec_opt o m).
  - intros x. apply refines_bind; [done|]. intros rest. apply refines_ret.
Qed.

(** C23. Whatever is done with optionals, also where making and assigning their elements throws: the
    answers are those of values of [option], every object lives exactly as long as its optional
    has a value (none is constructed over another, destroyed twice or left in storage that is given
    back), and what is undefined is the use of an optional or a value that is not there. *)
Theorem optional_refines l (m : S) :
  run_all run_opt l (abs m) = map_state abs (run_all spec_opt l m).
Proof. apply run_all_refines. Qed.
End Refinement.

(** ** Comparisons *)
Section Comparisons.
Context `{Element}.

(** The comparisons of the elements belong together. *)
Class ElementOrder : Prop := {
  cmp_ne x y : el_compare C_NE x y = negb (el_compare C_EQ x y);
  cmp_gt x y : el_compare C_GT x y = el_compare C_LT y x;
  cmp_le x y : el_compare C_LE x y = negb (el_compare C_LT y x);
  cmp_ge x y : el_compare C_GE x y = negb (el_compare C_LT x y);
  lt_irrefl x : el_compare C_LT x x = false;
  lt_trans x y z : el_compare C_LT x y = true → el_compare C_LT y z = true → el_compare C_LT x z = true;
  lt_total x y : el_compare C_LT x y = false → el_compare C_LT y x = false → el_compare C_EQ x y = true
}.

(** The comparisons of an optional with nothing and with a value are those with the optional that
    has no value and with the one that has this value; an empty optional is below all others,
    and the order is a strict total one if that of the elements is. *)
Theorem comparisons_agree `{!ElementOrder} c (x : option value) v :
  compare_null c x = compare_opt c x None ∧ null_compare c x = compare_opt c None x
  ∧ compare_value c x v = compare_opt c x (Some v) ∧ value_compare c v x = compare_opt c (Some v) x.
Proof.
  destruct c, x as [x|]; unfold compare_null, null_compare, compare_value, value_compare, compare_opt, opt_eq, opt_lt;
    cbn [is_full negb empty_compares empty_compared]; rewrite ?cmp_ne, ?cmp_gt, ?cmp_le, ?cmp_ge; done.
Qed.
Theorem opt_lt_strict_order `{!ElementOrder} (x y z : option value) :
  opt_lt x x = false ∧ (opt_lt x y = true → opt_lt y z = true → opt_lt x z = true)
  ∧ (opt_lt x y = false → opt_lt y x = false → opt_eq x y = true).
Proof.
  destruct x as [x|], y as [y|], z as [z|]; cbn [opt_lt opt_eq]; rewrite ?lt_irrefl; split_and!; try done;
    (apply lt_trans || apply lt_total).
Qed.

(** A reference is compared as the object it refers to. *)
Theorem ref_compares c (m : gmap N (option value)) a x v :
  m !! a = Some (Some x) →
  ref_compare_value c (ref_of a) v (abs m) = Done (abs m) (compare_value c (Some x) v)
  ∧ ref_value_compare c v (ref_of a) (abs m) = Done (abs m) (value_compare c v (Some x)).
Proof.
  intros Ha. unfold ref_compare_value, ref_value_compare, ref_of, ref_deref. cbn [ref_has_value].
  repeat (run_step; cbn [deref]). rewrite (contained_run m a x) by done. by repeat run_step.
Qed.
(** A reference to the object of an optional that was reset dangles. *)
Theorem ref_dangles (m : gmap N (option value)) a x :
  m !! a = Some x → (opt_reset a;; ref_deref (ref_of a)) (abs m) = Undef no_object.
Proof.
  intros Ha. unfold opt_reset. rewrite bind_run, (cleared_run m a x) by done. cbn [bind_outcome].
  unfold ref_deref, ref_of, contained_val. repeat (run_step; cbn [deref]). by rewrite objects_lookup, lookup_insert_eq.
Qed.
End Comparisons.

(** ** Example: numbers, of which 13 cannot be copied *)
Section Demo.
Definition demo_copy (v : Z) : exn + Z := if v =? 13 then inl bad_alloc else inr v.
Definition demo_cmp (c : comparison_op) (x y : Z) : bool :=
  match c with
  | C_EQ => x =? y | C_NE => negb (x =? y) | C_LT => x <? y | C_GT => y <? x | C_LE => negb (y <? x) | C_GE => negb (x <? y)
  end.
Definition demo_element : Element := {|
  value := Z;
  value_args := Z;
  el_make n := inr n;
  el_copy := demo_copy;
  el_move v := (0, inr v);
  el_assign _ u v := if v =? 13 then (u, Some bad_alloc) else (v, None);
  el_move_assign self u v := (v, if self then v else 0, None);
  el_trivial := false;
  el_compare := demo_cmp;
  el_hash v := v
|}.
#[local] Existing Instance demo_element.

Example demo_optionals :
  run_all run_opt
    [OpNew 1; OpInPlace 2 (13%Z : value_args); OpAssignCopy 1 2; OpHasValue 1; OpAssignMove 1 2; OpValue 1; OpHasValue 2; OpSwap 1 2;
     OpReset 2; OpValue 2; OpCompareValue C_LT 2 ((-5)%Z : value); OpDelete 1; OpDelete 2]%N (abs ∅)
  = Done (abs ∅)
      [OaDone; OaDone; OaThrew bad_alloc; OaFlag false; OaDone; OaValue (13 : value); OaFlag true; OaDone;
       OaDone; OaThrew (bad_optional_access "bad optional access"); OaFlag true; OaDone; OaDone].
Proof. reflexivity. Qed.
#[local] Instance demo_order : ElementOrder.
Proof. split; cbn; intros; try done; lia. Qed.
End Demo.
