(* ===== verification/MySqlResult.v ===== *)
(** * Results of the database

    Models class [result] of lobbysvr/mysql+++/mysql+++.h with its iterators:
    a result belongs to a connection and stores its rows when it is first
    asked for them.  The MySQL client library is an interface ([MySQL]); a
    result set of it is a list of rows, whose fields may be null. *)
From stdpp Require Import gmap strings list.
From coqutil Require Import Byte.
From S2P Require Import Prelude.
From S2P Require Import MlnUtils.
From S2P Require Import TextFormat.
From S2P Require Import Datetime.
#[local] Open Scope Z_scope.

(** ** The client library *)
Record MYSQL_RES : Type := mkMYSQL_RES {
  res_fields : Z;
  res_rows : list (list (option (list byte)))
}.
(** Connections are handles; every call changes the state of the library and
    the server.  [mysql_fetch_lengths_fails] says of a row of a result set that
    its lengths are not available. *)
Class MySQL : Type := {
  db : Type;
  mysql_real_query : N → list byte → db → Z * db;
  mysql_next_result : N → db → Z * db;
  mysql_store_result : N → db → option MYSQL_RES * db;
  mysql_use_result : N → db → bool * db;
  mysql_fetch_lengths_fails : MYSQL_RES → nat → bool;
  mysql_errno : N → db → Z;
  mysql_error : N → db → list byte;
  mysql_ping : N → db → Z * db;
  mysql_insert_id : N → db → Z;
  mysql_affected_rows : N → db → Z;
  mysql_set_server_option : N → Z → db → Z * db
}.

(** The connections that are open and the result sets that are not freed. *)
Record MyWorld `{MySQL} : Type := mkMyWorld {
  mw_db : db;
  mw_conns : gset N;
  mw_results : gset N;
  mw_next : N
}.
#[global] Arguments mkMyWorld {_}.

(** [throw mysql_exception{conn}]: with the error of the connection. *)
Definition throw_mysql `{MySQL} {A} (c : N) : M MyWorld A :=
  w ← get_state; throw (mysql_exception (mysql_errno c (mw_db w)) (mysql_error c (mw_db w))).

Section Client.
Context `{MySQL}.

(** A call on a connection; one that is null or closed is not defined. *)
Definition on_conn {A} (c : option N) (f : N → db → A * db) : M MyWorld A :=
  c ← deref "call on a null connection" c;
  w ← get_state;
  if bool_decide (c ∈ mw_conns w) then
    let '(a, d) := f c (mw_db w) in
    put_state (mkMyWorld d (mw_conns w) (mw_results w) (mw_next w));; mret a
  else undefined "call on a closed connection".

Lemma on_conn_run {A} c (f : N → db → A * db) (w : MyWorld) :
  c ∈ mw_conns w →
  on_conn (Some c) f w
  = Done (mkMyWorld (snd (f c (mw_db w))) (mw_conns w) (mw_results w) (mw_next w)) (fst (f c (mw_db w))).
Proof.
  intros Hc. unfold on_conn. run_step. cbn [deref]. run_step. rewrite bool_decide_true by done.
  destruct (f c (mw_db w)) as [a d]. by unfold put_state; run_step.
Qed.

(** A result set with its handle. *)
Definition store_result (c : option N) : M MyWorld (option (N * MYSQL_RES)) :=
  r ← on_conn c mysql_store_result;
  match r with
  | None => mret None
  | Some rs =>
      w ← get_state;
      put_state (mkMyWorld (mw_db w) (mw_conns w) ({[mw_next w]} ∪ mw_results w) (mw_next w + 1)%N);;
      mret (Some (mw_next w, rs))
  end.
Definition free_result (h : N) : M MyWorld unit :=
  modify (λ w, mkMyWorld (mw_db w) (mw_conns w) (mw_results w ∖ {[h]}) (mw_next w)).
End Client.

(** ** Values of fields *)
Inductive field_type : Type :=
| FBool | FInt | FUInt | FLong | FULong | FLongLong | FULongLong | FFloat | FDouble | FLongDouble
| FString | FDatetime.
#[export] Instance field_type_eq_dec : EqDecision field_type.
Proof. solve_decision. Defined.

(** [std::stof], [std::stod] and [std::stold]; nothing when they throw. *)
Class RealText `{FloatText} : Type := { sto_real : field_type → list byte → option float }.

Section Values.
Context `{RealText}.

Inductive field_value : Type :=
| VBool (b : bool)
| VNum (n : Z)
| VReal (x : float)
| VText (s : list byte)
| VDate (d : datetime).
(** A variable that a field is read into: nothing is in a number that was never
    assigned, and an [optional] has a value or not. *)
Inductive variable : Type :=
| Plain (t : field_type) (v : option field_value)
| Optional (t : field_type) (v : option field_value).

(** A variable that is only declared, and one that is value-initialised. *)
Definition declared (t : field_type) : variable :=
  Plain t (match t with FString => Some (VText []) | FDatetime => Some (VDate datetime_new) | _ => None end).
Definition zeroed (t : field_type) : variable :=
  Plain t (Some (match t with
    | FString => VText [] | FDatetime => VDate datetime_new | FBool => VBool false
    | FFloat | FDouble | FLongDouble => VReal (float_of_int 0)
    | _ => VNum 0
    end)).

(** The [try] around the conversion; [long] has 64 bits. *)
Definition converted {A} (m : M unit A) : option A :=
  match m tt with Done _ a => Some a | _ => None end.
(** The conversion of the text of a field; [unsigned int] cuts what [stoul] gives. *)
Definition convert (t : field_type) (old : option field_value) (s : list byte) : option field_value :=
  match t with
  | FBool => (λ n, VBool (negb (n =? 0))) <$> converted (sto_signed 32 s)
  | FInt => VNum <$> converted (sto_signed 32 s)
  | FUInt => (λ n, VNum (u32 n)) <$> converted (sto_unsigned 64 s)
  | FLong | FLongLong => VNum <$> converted (sto_signed 64 s)
  | FULong | FULongLong => VNum <$> converted (sto_unsigned 64 s)
  | FFloat | FDouble | FLongDouble => VReal <$> sto_real t s
  | FString => Some (VText s)
  | FDatetime => Some (VDate (from_sql (match old with Some (VDate d) => d | _ => datetime_new end) s))
  end.
End Values.

(** ** [result] *)

(** [num_fields] is not initialised by the constructors; the position is an
    index into [rows], nothing for an iterator of no container. *)
Record result : Type := mkResult {
  my_conn : option N;
  fetched : bool;
  rows : list (list (list byte));
  current_row_itr : option Z;
  num_fields : option Z
}.
(** [result()] and the constructor of a connection without [fetch_now]. *)
Definition result_new (c : option N) : result := mkResult c false [] None None.

Section Result.
Context `{MySQL} `{RealText}.
Local Abbreviation W := (result * MyWorld)%type.

Definition set_itr (i : Z) (r : result) : result :=
  mkResult (my_conn r) (fetched r) (rows r) (Some i) (num_fields r).
Definition get_result : M W result := gets fst.
Definition upd_result (f : result → result) : M W unit := on_fst (modify f).

(** [std::string(_row[i], fetch_lengths[i])]: a null field gives an empty one. *)
Fixpoint row_data (row : list (option (list byte))) (i : nat) (n : nat) : M W (list (list byte)) :=
  match n with
  | O => mret []
  | S n =>
      f ← deref "_row: index out of range" (row !! i);
      rest ← row_data row (S i) n;
      mret (default [] f :: rest)
  end.
Fixpoint fetch_rows (rs : MYSQL_RES) (n : nat) (todo : list (list (option (list byte)))) : M W unit :=
  match todo with
  | [] => mret tt
  | _row :: todo =>
      if mysql_fetch_lengths_fails rs n then
        r ← get_result;
        c ← deref "null connection" (my_conn r);
        on_snd (throw_mysql c)
      else
        rowdata ← row_data _row 0 (Z.to_nat (res_fields rs));
        upd_result (λ r, mkResult (my_conn r) (fetched r) (rows r ++ [rowdata]) (current_row_itr r) (num_fields r));;
        fetch_rows rs (S n) todo
  end.

(** [mysql_num_fields] reads the result set: for a statement without one it is
    given a null pointer. *)
Definition fetch : M W unit :=
  r ← get_result;
  if fetched r then throw (mysqlpp_exception "Error: 0")
  else
    _res ← on_snd (store_result (my_conn r));
    '(h, rs) ← deref "mysql_num_fields of a null pointer" _res;
    upd_result (λ r, mkResult (my_conn r) (fetched r) (rows r) (current_row_itr r) (Some (res_fields rs)));;
    when (0 <? res_fields rs) (fetch_rows rs 0 (res_rows rs);; upd_result (set_itr 0));;
    on_snd (free_result h);;
    upd_result (λ r, mkResult (my_conn r) true (rows r) (current_row_itr r) (num_fields r)).
Definition check_condition : M W unit :=
  r ← get_result; if negb (fetched r) then fetch else mret tt.

Definition free : M W unit :=
  r ← get_result;
  (if negb (fetched r) then
     match my_conn r with
     | Some c => _ ← on_snd (on_conn (Some c) mysql_use_result); mret tt
     | None => mret tt
     end
   else upd_result (λ r, mkResult (my_conn r) (fetched r) [] (current_row_itr r) (num_fields r)));;
  upd_result (λ r, mkResult None false (rows r) (current_row_itr r) (num_fields r)).

(** Moves: [num_fields] stays behind; the object that is moved from has no
    connection and no rows. *)
Definition result_move (r : result) : result * result :=
  (mkResult (my_conn r) (fetched r) (rows r) (current_row_itr r) None,
   mkResult None false [] (current_row_itr r) (num_fields r)).
Definition result_assign (r : result) : M W result :=
  free;;
  upd_result (λ old, mkResult (my_conn r) (fetched r) (rows r) (current_row_itr r) (num_fields old));;
  mret (snd (result_move r)).

Definition itr_of (r : result) : M W Z := deref "iterator of no container" (current_row_itr r).
Definition move_to (i : Z) : M W unit :=
  r ← get_result;
  if (0 <=? i) && (i <=? zlen (rows r)) then upd_result (set_itr i)
  else undefined "iterator out of range".

Definition count : M W Z := check_condition;; r ← get_result; mret (zlen (rows r)).
Definition fields : M W Z :=
  check_condition;; r ← get_result; deref "num_fields is not initialised" (num_fields r).
Definition is_empty : M W bool := n ← count; mret (n =? 0).
Definition eof : M W bool :=
  check_condition;; r ← get_result; i ← itr_of r; mret (i =? zlen (rows r)).
Definition seek (n : Z) : M W unit := check_condition;; move_to n.
Definition reset : M W unit := seek 0.
Definition next : M W unit := check_condition;; r ← get_result; i ← itr_of r; move_to (i + 1).
Definition prev : M W unit := check_condition;; r ← get_result; i ← itr_of r; move_to (i - 1).
Definition tell : M W Z := check_condition;; r ← get_result; itr_of r.

(** An empty field counts as none; the text of one ends at its first NUL. *)
Definition get_field_data (i : Z) : M W (option (list byte)) :=
  check_condition;;
  r ← get_result;
  pos ← itr_of r;
  if pos =? zlen (rows r) then mret None
  else
    row ← deref "row out of range" (rows r !! Z.to_nat pos);
    f ← deref "field out of range" (if 0 <=? i then row !! Z.to_nat i else None);
    if bool_decide (f = []) then mret None else mret (Some (c_str f)).

Definition get_value (i : Z) (v : variable) : M W (bool * variable) :=
  s ← get_field_data i;
  match s with
  | None => mret (false, v)
  | Some s =>
      mret match v with
           | Plain t old => match convert t old s with
                            | Some x => (true, Plain t (Some x))
                            | None => (false, v)
                            end
           | Optional t old => match convert t (match declared t with Plain _ o | Optional _ o => o end) s with
                               | Some x => (true, Optional t (Some x))
                               | None => (false, v)
                               end
           end
  end.
(** [get_value<Value>(i)] gives the variable whether a value was there or not,
    [operator[]] only then. *)
Definition get_value_of (v : variable) (i : Z) : M W variable := '(_, v) ← get_value i v; mret v.
Definition result_index (v : variable) (i : Z) : M W variable :=
  '(found, v) ← get_value i v;
  if (found : bool) then mret v else throw (mysqlpp_exception "Error: 1").

(** [fetch(values...)] *)
Fixpoint fetch_impl (i : Z) (values : list variable) : M W (list variable) :=
  match values with
  | [] => mret []
  | v :: values => '(_, v) ← get_value i v; rest ← fetch_impl (i + 1) values; mret (v :: rest)
  end.
Definition fetch_values (values : list variable) : M W (option (list variable)) :=
  check_condition;;
  r ← get_result;
  pos ← itr_of r;
  if pos =? zlen (rows r) then mret None
  else vs ← fetch_impl 0 values; mret (Some vs).

(** [each]: the callback has the parameters [params], which are declared before
    they are read, and a state [U] of its own. *)
Definition bind_and_call {U} (params : list variable) (callback : list variable → U → bool * U) (u : U) : M W (bool * U) :=
  vs ← fetch_impl 0 params; mret (callback vs u).
(** [count++] of an [int], which must not overflow. *)
Definition count_up {S} (n : Z) : M S Z :=
  if n <? 2 ^ 31 - 1 then mret (n + 1) else undefined "int overflow".
Fixpoint each_loop {U} (fuel : nat) (params : list variable) (callback : list variable → U → bool * U)
    (n : Z) (u : U) : M W (Z * U) :=
  match fuel with
  | O => no_fuel
  | S fuel =>
      e ← eof;
      if (e : bool) then mret (n, u)
      else
        n ← count_up n;
        '(more, u) ← bind_and_call params callback u;
        if negb more then mret (n, u)
        else next;; each_loop fuel params callback n u
  end.
Definition each {U} (fuel : nat) (params : list variable) (callback : list variable → U → bool * U) (u : U)
    : M W (Z * U) :=
  reset;; each_loop fuel params callback 0 u.

(** ** [result_iterator] and [result_containter] *)
Record result_iterator : Type := mkIterator { row_index : Z; itr_data : option (list variable) }.
Definition set_index (i : Z) : result_iterator := mkIterator (u64 i) None.
Definition itr_next (itr : result_iterator) : result_iterator := set_index (row_index itr + 1).
Definition itr_prev (itr : result_iterator) : result_iterator := set_index (row_index itr - 1).
Definition itr_add (itr : result_iterator) (n : Z) : result_iterator := set_index (row_index itr + n).
Definition itr_sub (itr : result_iterator) (n : Z) : result_iterator := set_index (row_index itr - n).
Definition itr_eq (a b : result_iterator) : bool := row_index a =? row_index b.
Definition itr_lt (a b : result_iterator) : bool := row_index a <? row_index b.

(** [fetch_impl<I>] goes from the last value of the tuple to the first. *)
Fixpoint itr_fetch_impl (values : list variable) (i : Z) : M W (list variable) :=
  match values with
  | [] => mret []
  | v :: values => rest ← itr_fetch_impl values (i + 1); '(_, v) ← get_value i v; mret (v :: rest)
  end.
(** [operator *]: the tuple is value-initialised. *)
Definition itr_deref (tuple : list variable) (itr : result_iterator) : M W (result_iterator * list variable) :=
  match itr_data itr with
  | Some data => mret (itr, data)
  | None =>
      seek (row_index itr);;
      data ← itr_fetch_impl tuple 0;
      mret (mkIterator (row_index itr) (Some data), data)
  end.
Definition container_begin : result_iterator := mkIterator 0 None.
Definition container_end : M W result_iterator := n ← count; mret (mkIterator n None).

(** [for (auto &row : container) body], where the body has a state [U]. *)
Fixpoint range_loop {U} (fuel : nat) (tuple : list variable) (body : list variable → U → U)
    (itr last : result_iterator) (u : U) : M W U :=
  match fuel with
  | O => no_fuel
  | S fuel =>
      if itr_eq itr last then mret u
      else
        '(itr, row) ← itr_deref tuple itr;
        range_loop fuel tuple body (itr_next itr) last (body row u)
  end.
Definition range_for {U} (fuel : nat) (tuple : list variable) (body : list variable → U → U) (u : U) : M W U :=
  last ← container_end;
  range_loop fuel tuple body container_begin last u.
End Result.

(** ** A result is a table with a position *)
Section Table.
Context `{MySQL} `{RealText}.
Local Abbreviation W := (result * MyWorld)%type.

(** Reading a field into a variable. *)
Definition read_var (f : list byte) (v : variable) : bool * variable :=
  if bool_decide (f = []) then (false, v)
  else
    match v with
    | Plain t old => match convert t old (c_str f) with
                     | Some x => (true, Plain t (Some x))
                     | None => (false, v)
                     end
    | Optional t old => match convert t (match declared t with Plain _ o | Optional _ o => o end) (c_str f) with
                        | Some x => (true, Optional t (Some x))
                        | None => (false, v)
                        end
    end.
(** Reading a row into as many variables. *)
Fixpoint read_row (row : list (list byte)) (values : list variable) {struct values} : list variable :=
  match values, row with
  | v :: values, f :: row => snd (read_var f v) :: read_row row values
  | _, _ => []
  end.

Definition stored (r : result) (pos : Z) : Prop := fetched r = true ∧ current_row_itr r = Some pos.
Lemma stored_set_itr r pos i : stored r pos → stored (set_itr i r) i.
Proof. by intros []. Qed.

Lemma check_stored r w : fetched r = true → check_condition (r, w) = Done (r, w) tt.
Proof. intros Hf. unfold check_condition, get_result, gets. run_step. simpl. by rewrite Hf. Qed.

Lemma get_value_run r w pos row f i v :
  stored r pos → 0 ≤ pos < zlen (rows r) → rows r !! Z.to_nat pos = Some row → 0 ≤ i →
  row !! Z.to_nat i = Some f → get_value i v (r, w) = Done (r, w) (read_var f v).
Proof.
  intros [Hf Hi] Hp Hrow Hi0 Hcol. unfold get_value, get_field_data, itr_of, get_result, gets, read_var.
  repeat rewrite bind_run. rewrite check_stored by done. cbn [bind_outcome fst].
  repeat (run_step; cbn [deref fst]). rewrite Hi. cbn [deref]. run_step.
  rewrite (proj2 (Z.eqb_neq _ _)) by lia. rewrite Hrow. run_step. cbn [deref]. run_step.
  rewrite (proj2 (Z.leb_le _ _)), Hcol by done. cbn [deref]. run_step.
  case_bool_decide; run_step; [done|]. by destruct v; case_match.
Qed.

Lemma fetch_impl_run values : ∀ r w pos row i,
  stored r pos → 0 ≤ pos < zlen (rows r) → rows r !! Z.to_nat pos = Some row → 0 ≤ i →
  (Z.to_nat i + length values ≤ length row)%nat →
  fetch_impl i values (r, w) = Done (r, w) (read_row (drop (Z.to_nat i) row) values).
Proof.
  induction values as [|v values IH]; intros r w pos row i Hs Hp Hrow Hi Hl; [done|].
  cbn [fetch_impl]. simpl in Hl. destruct (lookup_lt_is_Some_2 row (Z.to_nat i)) as [f Hf]; [lia|].
  rewrite bind_run, (get_value_run r w pos row f) by done. cbn [bind_outcome].
  rewrite (drop_S _ _ _ Hf). cbn [read_row]. destruct (read_var f v) as [b v'].
  rewrite bind_run, (IH r w pos row) by (done || lia). cbn [bind_outcome].
  by replace (Z.to_nat (i + 1)) with (S (Z.to_nat i)) by lia.
Qed.
Lemma itr_fetch_impl_run values : ∀ r w pos row i,
  stored r pos → 0 ≤ pos < zlen (rows r) → rows r !! Z.to_nat pos = Some row → 0 ≤ i →
  (Z.to_nat i + length values ≤ length row)%nat →
  itr_fetch_impl values i (r, w) = Done (r, w) (read_row (drop (Z.to_nat i) row) values).
Proof.
  induction values as [|v values IH]; intros r w pos row i Hs Hp Hrow Hi Hl; [done|].
  cbn [itr_fetch_impl]. simpl in Hl. destruct (lookup_lt_is_Some_2 row (Z.to_nat i)) as [f Hf]; [lia|].
  rewrite bind_run, (IH r w pos row) by (done || lia). cbn [bind_outcome].
  rewrite bind_run, (get_value_run r w pos row f) by done. cbn [bind_outcome].
  rewrite (drop_S _ _ _ Hf). cbn [read_row]. destruct (read_var f v) as [b v'].
  by replace (Z.to_nat (i + 1)) with (S (Z.to_nat i)) by lia.
Qed.

Lemma seek_run r w n :
  fetched r = true → 0 ≤ n ≤ zlen (rows r) → seek n (r, w) = Done (set_itr n r, w) tt.
Proof.
  intros Hf Hn. unfold seek, move_to, get_result, gets, upd_result, modify. rewrite bind_run, check_stored by done.
  cbn [bind_outcome]. run_step. simpl.
  by rewrite (proj2 (Z.leb_le 0 n)), (proj2 (Z.leb_le n _)) by lia.
Qed.
Lemma eof_run r w pos : stored r pos → eof (r, w) = Done (r, w) (pos =? zlen (rows r)).
Proof.
  intros [Hf Hi]. unfold eof, itr_of, get_result, gets. rewrite bind_run, check_stored by done.
  cbn [bind_outcome]. run_step. simpl. rewrite Hi. by run_step.
Qed.
Lemma next_run r w pos :
  stored r pos → 0 ≤ pos < zlen (rows r) → next (r, w) = Done (set_itr (pos + 1) r, w) tt.
Proof.
  intros [Hf Hi] Hp. unfold next, itr_of, move_to, get_result, gets, upd_result, modify.
  rewrite bind_run, check_stored by done. cbn [bind_outcome]. run_step. simpl. rewrite Hi.
  cbn [deref]. run_step. simpl. by rewrite (proj2 (Z.leb_le 0 _)), (proj2 (Z.leb_le _ (zlen _))) by lia.
Qed.

(** What [each] does with the rows: the number of calls and the state of the callback. *)
Fixpoint visit {U} (params : list variable) (callback : list variable → U → bool * U)
    (todo : list (list (list byte))) (n : Z) (u : U) : Z * U :=
  match todo with
  | [] => (n, u)
  | row :: todo =>
      let '(more, u) := callback (read_row row params) u in
      if more then visit params callback todo (n + 1) u else (n + 1, u)
  end.
Definition wide_enough (values : list variable) (r : result) : Prop :=
  ∀ row, row ∈ rows r → (length values ≤ length row)%nat.

Lemma each_loop_run {U} params (callback : list variable → U → bool * U) fuel : ∀ r w pos u n,
  stored r pos → 0 ≤ pos ≤ zlen (rows r) → wide_enough params r → zlen (rows r) - pos < Z.of_nat fuel →
  n + (zlen (rows r) - pos) < 2 ^ 31 →
  ∃ pos', each_loop fuel params callback n u (r, w)
    = Done (set_itr pos' r, w) (visit params callback (drop (Z.to_nat pos) (rows r)) n u).
Proof.
  induction fuel as [|fuel IH]; intros r w pos u n Hs Hp Hwide Hfuel Hn; [lia|].
  cbn [each_loop]. rewrite bind_run, (eof_run r w pos) by done. cbn [bind_outcome].
  destruct (Z.eqb_spec pos (zlen (rows r))) as [->|Hne].
  - exists (zlen (rows r)). rewrite drop_ge by (unfold zlen; lia). cbn [visit].
    replace (set_itr _ r) with r; [done|]. destruct r, Hs. simpl in *. unfold set_itr. simpl. by subst.
  - destruct (lookup_lt_is_Some_2 (rows r) (Z.to_nat pos)) as [row Hrow]; [unfold zlen in *; lia|].
    pose proof (Hwide row (list_elem_of_lookup_2 _ _ _ Hrow)) as Hl.
    unfold bind_and_call, count_up. rewrite (proj2 (Z.ltb_lt n _)) by lia. run_step.
    rewrite ?bind_run, (fetch_impl_run params r w pos row 0) by (done || simpl; lia).
    cbn [bind_outcome]. rewrite (drop_S _ _ _ Hrow). cbn [visit]. change (drop (Z.to_nat 0) row) with row. run_step.
    destruct (callback (read_row row params) u) as [[] u'] eqn:Ec; cbn [negb].
    + rewrite bind_run, (next_run r w pos) by (done || lia). cbn [bind_outcome].
      destruct (IH (set_itr (pos + 1) r) w (pos + 1) u' (n + 1)) as [pos' E]; try done; [by eapply stored_set_itr|simpl; lia..|].
      exists pos'. rewrite E. replace (Z.to_nat (pos + 1)) with (S (Z.to_nat pos)) by lia. done.
    + exists pos. replace (set_itr _ r) with r; [done|]. destruct r, Hs. simpl in *. unfold set_itr. simpl. by subst.
Qed.

(** A callback that never stops the walk: the counter overflows. *)
Lemma each_loop_over {U} params (body : list variable → U → U) fuel : ∀ r w pos u n,
  stored r pos → 0 ≤ pos ≤ zlen (rows r) → wide_enough params r → zlen (rows r) - pos < Z.of_nat fuel →
  n < 2 ^ 31 ≤ n + (zlen (rows r) - pos) →
  each_loop fuel params (λ row u, (true, body row u)) n u (r, w) = Undef "int overflow".
Proof.
  induction fuel as [|fuel IH]; intros r w pos u n Hs Hp Hwide Hfuel Hn; [lia|].
  cbn [each_loop]. rewrite bind_run, (eof_run r w pos) by done. cbn [bind_outcome].
  rewrite (proj2 (Z.eqb_neq _ _)) by lia.
  destruct (lookup_lt_is_Some_2 (rows r) (Z.to_nat pos)) as [row Hrow]; [unfold zlen in *; lia|].
  pose proof (Hwide row (list_elem_of_lookup_2 _ _ _ Hrow)) as Hl.
  unfold bind_and_call, count_up. destruct (Z.ltb_spec n (2 ^ 31 - 1)) as [Hlt|]; [|by run_step]. run_step.
  rewrite ?bind_run, (fetch_impl_run params r w pos row 0) by (done || simpl; lia). run_step. cbn [negb].
  rewrite bind_run, (next_run r w pos) by (done || lia). cbn [bind_outcome].
  apply (IH _ w (pos + 1)); try done; [by eapply stored_set_itr|simpl; lia..].
Qed.

Lemma each_run {U} params (callback : list variable → U → bool * U) fuel r w u :
  fetched r = true → wide_enough params r → zlen (rows r) < 2 ^ 31 → (length (rows r) < fuel)%nat →
  ∃ pos, each fuel params callback u (r, w) = Done (set_itr pos r, w) (visit params callback (rows r) 0 u).
Proof.
  intros Hf Hwide Hmax Hfuel. pose proof (zlen_nonneg (rows r)). unfold each, reset.
  rewrite bind_run, seek_run by (done || lia). cbn [bind_outcome].
  destruct (each_loop_run params callback fuel (set_itr 0 r) w 0 u 0) as [pos E]; try done; [simpl; lia..| | |].
  - unfold zlen in *. simpl. lia.
  - simpl. lia.
  - exists pos. exact E.
Qed.
Lemma each_over {U} params (body : list variable → U → U) fuel r w u :
  fetched r = true → wide_enough params r → 2 ^ 31 ≤ zlen (rows r) → (length (rows r) < fuel)%nat →
  each fuel params (λ row u, (true, body row u)) u (r, w) = Undef "int overflow".
Proof.
  intros Hf Hwide Hmax Hfuel. pose proof (zlen_nonneg (rows r)). unfold each, reset.
  rewrite bind_run, seek_run by (done || lia). cbn [bind_outcome].
  apply (each_loop_over params body fuel (set_itr 0 r) w 0); try done; simpl; unfold zlen in *; lia.
Qed.

Lemma range_loop_run {U} tuple (body : list variable → U → U) fuel : ∀ r w pos itr u,
  fetched r = true → 0 ≤ pos ≤ zlen (rows r) → wide_enough tuple r → zlen (rows r) < 2 ^ 64 →
  zlen (rows r) - pos < Z.of_nat fuel → itr = mkIterator pos None →
  ∃ r', range_loop fuel tuple body itr (mkIterator (zlen (rows r)) None) u (r, w)
    = Done (r', w) (foldl (λ u row, body (read_row row tuple) u) u (drop (Z.to_nat pos) (rows r))).
Proof.
  induction fuel as [|fuel IH]; intros r w pos itr u Hf Hp Hwide Hmax Hfuel ->; [lia|].
  cbn [range_loop]. unfold itr_eq. cbn [row_index].
  destruct (Z.eqb_spec pos (zlen (rows r))) as [->|Hne].
  - exists r. by rewrite drop_ge by (unfold zlen; lia).
  - destruct (lookup_lt_is_Some_2 (rows r) (Z.to_nat pos)) as [row Hrow]; [unfold zlen in *; lia|].
    pose proof (Hwide row (list_elem_of_lookup_2 _ _ _ Hrow)) as Hl.
    unfold itr_deref. cbn [itr_data row_index]. rewrite !bind_run, seek_run by (done || lia). cbn [bind_outcome].
    rewrite !bind_run, (itr_fetch_impl_run tuple (set_itr pos r) w pos row 0) by (done || simpl; lia).
    cbn [bind_outcome]. change (drop (Z.to_nat 0) row) with row. run_step. rewrite (drop_S _ _ _ Hrow). cbn [foldl].
    destruct (IH (set_itr pos r) w (pos + 1) (itr_next (mkIterator pos (Some (read_row row tuple))))
                (body (read_row row tuple) u)) as [r' E]; try done; [simpl; lia..| |].
    + unfold itr_next, set_index. cbn [row_index]. rewrite u64_small by lia. done.
    + exists r'. change (rows (set_itr pos r)) with (rows r) in E. rewrite E. by replace (Z.to_nat (pos + 1)) with (S (Z.to_nat pos)) by lia.
Qed.
Lemma range_for_run {U} tuple (body : list variable → U → U) fuel r w u :
  fetched r = true → wide_enough tuple r → zlen (rows r) < 2 ^ 64 → (length (rows r) < fuel)%nat →
  ∃ r', range_for fuel tuple body u (r, w)
    = Done (r', w) (foldl (λ u row, body (read_row row tuple) u) u (rows r)).
Proof.
  intros Hf Hwide Hmax Hfuel. pose proof (zlen_nonneg (rows r)). unfold range_for, container_end, count, get_result, gets.
  rewrite !bind_run, check_stored by done. cbn [bind_outcome]. run_step. cbn [fst].
  apply (range_loop_run tuple body fuel r w 0); try done. unfold zlen in *. lia.
Qed.

(** The variables that [each] declares and the tuple of an iterator, where a row leaves
    the same in both: each of its fields is there and converts, or is for an optional. *)
Definition filled_alike (params tuple : list variable) (r : result) : Prop :=
  ∀ row, row ∈ rows r → read_row row tuple = read_row row params.

Lemma visit_all {U} params (body : list variable → U → U) todo : ∀ n u,
  visit params (λ row u, (true, body row u)) todo n u
  = (n + zlen todo, foldl (λ u row, body (read_row row params) u) u todo).
Proof.
  induction todo as [|row todo IH]; intros n u; [by rewrite Z.add_0_r|].
  simpl. rewrite IH, zlen_cons. f_equal. lia.
Qed.
Lemma foldl_alike {U} params tuple (body : list variable → U → U) r u :
  filled_alike params tuple r →
  foldl (λ u row, body (read_row row tuple) u) u (rows r) = foldl (λ u row, body (read_row row params) u) u (rows r).
Proof.
  unfold filled_alike. revert u. induction (rows r) as [|row todo IH]; intros u Ha; [done|].
  simpl. rewrite Ha by by left. apply IH. intros row' Hr. apply Ha. by right.
Qed.

(** C37. Walking through a stored result of less than [2 ^ 31] rows with the callback of [each] and with
    a range-based for over its container are the same: both go through all rows in order, and give
    the body the same values, if the rows fill the variables of both alike.  With more rows the
    range-based for still does that, but the counter of [each], an [int], overflows. *)
Theorem each_is_range_for {U} params tuple (body : list variable → U → U) fuel r w u :
  fetched r = true → wide_enough params r → wide_enough tuple r → filled_alike params tuple r →
  zlen (rows r) < 2 ^ 64 → (length (rows r) < fuel)%nat →
  ∃ r2 v, range_for fuel tuple body u (r, w) = Done (r2, w) v
    ∧ v = foldl (λ u row, body (read_row row params) u) u (rows r)
    ∧ if zlen (rows r) <? 2 ^ 31
      then ∃ r1, each fuel params (λ row u, (true, body row u)) u (r, w) = Done (r1, w) (zlen (rows r), v)
      else ∃ why, each fuel params (λ row u, (true, body row u)) u (r, w) = Undef why.
Proof.
  intros Hf Hparams Htuple Halike Hmax Hfuel.
  destruct (range_for_run tuple body fuel r w u Hf Htuple Hmax Hfuel) as [r2 ->].
  exists r2. eexists. split; [done|]. rewrite (foldl_alike params tuple) by done. split; [done|].
  destruct (Z.ltb_spec (zlen (rows r)) (2 ^ 31)) as [Hlt|].
  - destruct (each_run params (λ row u, (true, body row u)) fuel r w u Hf Hparams Hlt Hfuel) as [pos ->].
    exists (set_itr pos r). by rewrite visit_all, Z.add_0_l.
  - eexists. by apply each_over.
Qed.
End Table.

(** ** Storing a result, and a cursor on it *)
Section Cursor.
Context `{MySQL} `{RealText}.
Local Abbreviation W := (result * MyWorld)%type.

(** The rows of a result set as text. *)
Definition texts (rs : MYSQL_RES) : list (list (list byte)) := map (default []) <$> res_rows rs.
Record good_set (rs : MYSQL_RES) : Prop := {
  gs_fields : 0 < res_fields rs;
  gs_width : Forall (λ row, length row = Z.to_nat (res_fields rs)) (res_rows rs);
  gs_lengths n : mysql_fetch_lengths_fails rs n = false
}.
(** A result as a query returns it, on a connection that is open. *)
Record pending (c : N) (s : W) : Prop := {
  pe_conn : my_conn (fst s) = Some c;
  pe_fetched : fetched (fst s) = false;
  pe_rows : rows (fst s) = [];
  pe_open : c ∈ mw_conns (snd s);
  pe_next : ∀ h, h ∈ mw_results (snd s) → (h < mw_next (snd s))%N
}.

Lemma row_data_run row n : ∀ i (s : W), (i + n = length row)%nat → row_data row i n s = Done s (map (default []) (drop i row)).
Proof.
  induction n as [|n IH]; intros i s Hi; [by rewrite drop_ge by lia|].
  cbn [row_data]. destruct (lookup_lt_is_Some_2 row i) as [f Hf]; [lia|]. rewrite Hf. cbn [deref]. run_step.
  rewrite (drop_S _ _ _ Hf). rewrite IH by lia. by run_step.
Qed.
Lemma fetch_rows_run rs todo : ∀ n r w,
  (∀ n, mysql_fetch_lengths_fails rs n = false) → Forall (λ row, length row = Z.to_nat (res_fields rs)) todo →
  fetch_rows rs n todo (r, w)
  = Done (mkResult (my_conn r) (fetched r) (rows r ++ (map (default []) <$> todo)) (current_row_itr r) (num_fields r), w) tt.
Proof.
  induction todo as [|row todo IH]; intros n r w Hl Hw; [destruct r; simpl; by rewrite app_nil_r|].
  apply Forall_cons in Hw as [Hrow Hw]. cbn [fetch_rows]. rewrite Hl.
  rewrite bind_run, row_data_run by lia. cbn [bind_outcome]. unfold upd_result. run_step. simpl.
  rewrite IH by done. simpl. by rewrite <- app_assoc.
Qed.

Lemma store_result_run c w rs d :
  c ∈ mw_conns w → mysql_store_result c (mw_db w) = (Some rs, d) →
  store_result (Some c) w
  = Done (mkMyWorld d (mw_conns w) ({[mw_next w]} ∪ mw_results w) (mw_next w + 1)%N) (Some (mw_next w, rs)).
Proof.
  intros Ho E. unfold store_result, put_state. rewrite bind_run, on_conn_run, E by done. by run_step.
Qed.
Lemma fetch_run c r w rs d :
  pending c (r, w) → mysql_store_result c (mw_db w) = (Some rs, d) → good_set rs →
  fetch (r, w) = Done (mkResult (Some c) true (texts rs) (Some 0) (Some (res_fields rs)),
                       mkMyWorld d (mw_conns w) (mw_results w) (mw_next w + 1)%N) tt.
Proof.
  intros [Hc Hf Hr Ho Hn] E [Hfields Hwidth Hlen]. cbn [fst snd] in *.
  unfold fetch, get_result, gets, free_result, upd_result, modify.
  run_step. cbn [fst]. rewrite Hf, Hc. rewrite bind_run, on_snd_run, (store_result_run c w rs d) by done.
  cbn [map_state bind_outcome deref]. run_step. simpl.
  rewrite (proj2 (Z.ltb_lt 0 _)) by done. cbn [when]. run_step.
  rewrite fetch_rows_run by done. repeat (run_step; rewrite ?on_fst_run, ?on_snd_run). simpl. rewrite Hr, Hc.
  unfold texts, set_itr. simpl. f_equal. f_equal. f_equal. apply set_eq. intros h. specialize (Hn h). rewrite elem_of_difference, elem_of_union, elem_of_singleton.
  split; [tauto|]. intros Hh. specialize (Hn Hh). split; [tauto|lia].
Qed.

(** A table, and what the calls answer at a position of it. *)
Record table : Type := mkTable { t_fields : Z; t_rows : list (list (list byte)) }.
Inductive cursor_op : Type :=
| CoCount | CoFields | CoIsEmpty | CoEof | CoReset | CoSeek (n : Z) | CoNext | CoPrev | CoTell
| CoGet (i : Z) (v : variable) | CoFetch (values : list variable).
Inductive answer : Type :=
| ADone | ANum (n : Z) | AFlag (b : bool) | AValue (found : bool) (v : variable) | ARow (values : option (list variable)).

Definition run_cursor (o : cursor_op) : M W answer :=
  match o with
  | CoCount => x ← count; mret (ANum x)
  | CoFields => x ← fields; mret (ANum x)
  | CoIsEmpty => x ← is_empty; mret (AFlag x)
  | CoEof => x ← eof; mret (AFlag x)
  | CoReset => reset;; mret ADone
  | CoSeek n => seek n;; mret ADone
  | CoNext => next;; mret ADone
  | CoPrev => prev;; mret ADone
  | CoTell => x ← tell; mret (ANum x)
  | CoGet i v => '(b, v) ← get_value i v; mret (AValue b v)
  | CoFetch values => x ← fetch_values values; mret (ARow x)
  end.
Fixpoint run_cursors (l : list cursor_op) : M W (list answer) :=
  match l with
  | [] => mret []
  | o :: l => a ← run_cursor o; rest ← run_cursors l; mret (a :: rest)
  end.

Definition spec_move (t : table) (pos : Z) : option (Z * answer) :=
  if (0 <=? pos) && (pos <=? zlen (t_rows t)) then Some (pos, ADone) else None.
(** Nothing where the code leaves the table. *)
Definition spec_cursor (t : table) (pos : Z) (o : cursor_op) : option (Z * answer) :=
  let n := zlen (t_rows t) in
  match o with
  | CoCount => Some (pos, ANum n)
  | CoFields => Some (pos, ANum (t_fields t))
  | CoIsEmpty => Some (pos, AFlag (n =? 0))
  | CoEof => Some (pos, AFlag (pos =? n))
  | CoReset => spec_move t 0
  | CoSeek m => spec_move t m
  | CoNext => spec_move t (pos + 1)
  | CoPrev => spec_move t (pos - 1)
  | CoTell => Some (pos, ANum pos)
  | CoGet i v =>
      if pos =? n then Some (pos, AValue false v)
      else
        row ← t_rows t !! Z.to_nat pos;
        f ← (if 0 <=? i then row !! Z.to_nat i else None);
        let '(b, v) := read_var f v in Some (pos, AValue b v)
  | CoFetch values =>
      if pos =? n then Some (pos, ARow None)
      else
        row ← t_rows t !! Z.to_nat pos;
        if (length values <=? length row)%nat then Some (pos, ARow (Some (read_row row values))) else None
  end.
Fixpoint spec_cursors (t : table) (pos : Z) (l : list cursor_op) : option (list answer) :=
  match l with
  | [] => Some []
  | o :: l => '(pos, a) ← spec_cursor t pos o; rest ← spec_cursors t pos l; Some (a :: rest)
  end.

Definition on_table (t : table) (pos : Z) (r : result) : Prop :=
  stored r pos ∧ rows r = t_rows t ∧ num_fields r = Some (t_fields t) ∧ 0 ≤ pos ≤ zlen (t_rows t).
(** The outcome of a call on a stored result. *)
Definition answers (t : table) (w : MyWorld) (o : outcome W answer) (s : option (Z * answer)) : Prop :=
  match s with
  | Some (pos, a) => ∃ r, o = Done (r, w) a ∧ on_table t pos r
  | None => ∃ why, o = Undef why
  end.

Lemma move_answers t pos r w m :
  on_table t pos r → answers t w ((move_to m;; mret ADone) (r, w)) (spec_move t m).
Proof.
  intros ([Hf Hi] & Hr & Hn & Hp). unfold spec_move, move_to, get_result, gets, upd_result, modify.
  rewrite <- Hr. run_step. cbn [fst]. destruct (_ && _) eqn:Em; run_step; [|by eexists].
  apply andb_true_iff in Em as [?%Z.leb_le ?%Z.leb_le]. eexists. split; [done|].
  unfold on_table. by rewrite <- Hr.
Qed.
Lemma fetch_impl_over values : ∀ r w pos row i,
  stored r pos → 0 ≤ pos < zlen (rows r) → rows r !! Z.to_nat pos = Some row → 0 ≤ i ≤ zlen row →
  (length row < Z.to_nat i + length values)%nat → ∃ why, fetch_impl i values (r, w) = Undef why.
Proof.
  induction values as [|v values IH]; intros r w pos row i Hs Hp Hrow Hi Hl; [unfold zlen in *; simpl in Hl; lia|].
  cbn [fetch_impl]. simpl in Hl. destruct (row !! Z.to_nat i) as [f|] eqn:Hf.
  - rewrite bind_run, (get_value_run r w pos row f) by (done || lia). cbn [bind_outcome].
    destruct (read_var f v) as [b v']. apply lookup_lt_Some in Hf.
    destruct (IH r w pos row (i + 1)) as [why E]; [done..|unfold zlen in *; lia|lia|].
    exists why. by rewrite bind_run, E.
  - exists "field out of range". destruct Hs as [Hfe Hit].
    unfold get_value, get_field_data, itr_of, get_result, gets. rewrite !bind_run, check_stored by done. cbn [bind_outcome].
    repeat (run_step; cbn [deref fst]). rewrite Hit. cbn [deref]. run_step.
    rewrite (proj2 (Z.eqb_neq _ _)) by lia. rewrite Hrow. run_step. cbn [deref]. run_step.
    by rewrite (proj2 (Z.leb_le _ _)), Hf by lia.
Qed.

(** Runs a call up to where it looks at the position. *)
Ltac stored_step Hc := repeat (run_step; cbn [deref fst]; rewrite ?Hc).

(** A call on a stored result. *)
Lemma cursor_answers t pos r w o :
  on_table t pos r → answers t w (run_cursor o (r, w)) (spec_cursor t pos o).
Proof.
  intros Ht. pose proof Ht as ([Hf Hi] & Hr & Hn & Hp). destruct t as [tf tr]. cbn [t_rows t_fields] in Hr, Hn, Hp. subst tr.
  assert (Hc := check_stored r w Hf).
  destruct o as [ | | | | |m| | | |i v|values]; cbn [run_cursor spec_cursor t_rows t_fields]; cbv zeta.
  - unfold count, get_result. stored_step Hc. by exists r.
  - unfold fields, get_result. stored_step Hc. rewrite Hn. stored_step Hc. by exists r.
  - unfold is_empty, count, get_result. stored_step Hc. by exists r.
  - unfold eof, itr_of, get_result. stored_step Hc. rewrite Hi. stored_step Hc. by exists r.
  - unfold reset, seek. stored_step Hc. rewrite <- (bind_run (move_to 0)). by eapply move_answers.
  - unfold seek. stored_step Hc. rewrite <- (bind_run (move_to m)). by eapply move_answers.
  - unfold next, itr_of, get_result. stored_step Hc. rewrite Hi. stored_step Hc.
    rewrite <- (bind_run (move_to (pos + 1))). by eapply move_answers.
  - unfold prev, itr_of, get_result. stored_step Hc. rewrite Hi. stored_step Hc.
    rewrite <- (bind_run (move_to (pos - 1))). by eapply move_answers.
  - unfold tell, itr_of, get_result. stored_step Hc. rewrite Hi. stored_step Hc. by exists r.
  - unfold get_value, get_field_data, itr_of, get_result. stored_step Hc. rewrite Hi. stored_step Hc.
    destruct (Z.eqb_spec pos (zlen (rows r))); [stored_step Hc; by exists r|].
    destruct (lookup_lt_is_Some_2 (rows r) (Z.to_nat pos)) as [row Hrow]; [unfold zlen in *; lia|].
    rewrite Hrow. cbn [mbind option_bind]. stored_step Hc.
    destruct (if 0 <=? i then _ else _) as [f|]; cbn [mbind option_bind]; stored_step Hc; [|by eexists].
    unfold read_var. case_bool_decide; stored_step Hc; [by exists r|].
    destruct v as [ty old|ty old]; destruct (convert _ _ _); by exists r.
  - unfold fetch_values, itr_of, get_result. stored_step Hc. rewrite Hi. stored_step Hc.
    destruct (Z.eqb_spec pos (zlen (rows r))); [stored_step Hc; by exists r|].
    destruct (lookup_lt_is_Some_2 (rows r) (Z.to_nat pos)) as [row Hrow]; [unfold zlen in *; lia|].
    rewrite Hrow. cbn [mbind option_bind]. stored_step Hc. destruct (Nat.leb_spec (length values) (length row)).
    + rewrite (fetch_impl_run values r w pos row 0) by (done || simpl; lia). stored_step Hc. by exists r.
    + destruct (fetch_impl_over values r w pos row 0) as [why ->]; [done|lia|done|unfold zlen; lia|simpl; lia|].
      stored_step Hc. by eexists.
Qed.
Lemma cursors_answer t w l : ∀ pos r,
  on_table t pos r →
  match spec_cursors t pos l with
  | Some rest => ∃ r', run_cursors l (r, w) = Done (r', w) rest
  | None => ∃ why, run_cursors l (r, w) = Undef why
  end.
Proof.
  induction l as [|o l IH]; intros pos r Ht; [by exists r|]. cbn [spec_cursors run_cursors].
  pose proof (cursor_answers t pos r w o Ht) as Ho. unfold answers in Ho.
  destruct (spec_cursor t pos o) as [[pos' a]|]; cbn [mbind option_bind].
  - destruct Ho as (r1 & E & Ht1). specialize (IH pos' r1 Ht1).
    destruct (spec_cursors t pos' l) as [rest|]; cbn [mbind option_bind].
    + destruct IH as [r' E']. exists r'. by rewrite bind_run, E; cbn [bind_outcome]; rewrite bind_run, E'.
    + destruct IH as [why E']. exists why. by rewrite bind_run, E; cbn [bind_outcome]; rewrite bind_run, E'.
  - destruct Ho as [why E]. exists why. by rewrite bind_run, E.
Qed.

(** Every call stores the result first. *)
Lemma cursor_fetches o r w r' w' :
  fetched r = false → fetch (r, w) = Done (r', w') tt → fetched r' = true →
  run_cursor o (r, w) = run_cursor o (r', w').
Proof.
  intros Hf Ef Hf'.
  assert (Hc : check_condition (r, w) = Done (r', w') tt)
    by (unfold check_condition, get_result; run_step; by rewrite Hf).
  pose proof (check_stored r' w' Hf') as Hc'.
  destruct o; cbn [run_cursor];
    unfold count, fields, is_empty, count, eof, reset, seek, next, prev, tell, get_value, get_field_data, fetch_values;
    repeat rewrite bind_run; by rewrite Hc, Hc'.
Qed.

(** A result that a query returned, whose rows have not been stored yet, answers every sequence of
    calls as a cursor on the table of its rows does, where a null field is an empty one; it is
    undefined exactly where the calls leave the table; and no result set stays unfreed. *)
Theorem cursor_refines c r w rs d l :
  pending c (r, w) → mysql_store_result c (mw_db w) = (Some rs, d) → good_set rs → l ≠ [] →
  match spec_cursors (mkTable (res_fields rs) (texts rs)) 0 l with
  | Some rest =>
      ∃ r' w', run_cursors l (r, w) = Done (r', w') rest ∧ mw_results w' = mw_results w ∧ mw_db w' = d
  | None => ∃ why, run_cursors l (r, w) = Undef why
  end.
Proof.
  intros Hp E Hg Hl. pose proof (fetch_run c r w rs d Hp E Hg) as Ef. destruct l as [|o l]; [done|].
  set (r1 := mkResult _ _ _ _ _) in Ef. set (w1 := mkMyWorld _ _ _ _) in Ef.
  pose proof (zlen_nonneg (texts rs)).
  pose proof (cursors_answer (mkTable (res_fields rs) (texts rs)) w1 (o :: l) 0 r1 ltac:(done)) as Ha.
  cbn [run_cursors] in *. rewrite bind_run in *. rewrite (cursor_fetches o r w r1 w1 (pe_fetched c _ Hp) Ef eq_refl).
  destruct (spec_cursors _ _ _) as [rest|]; [|done]. destruct Ha as [r' E']. by exists r', w1.
Qed.

(** The number of the fields does not move with a result. *)
Theorem moved_fields_unknown r w :
  fetched r = true → fields (fst (result_move r), w) = Undef "num_fields is not initialised".
Proof.
  intros Hf. unfold fields, get_result. by rewrite bind_run, check_stored.
Qed.
(** A statement without a result set: the first call on its result reads a null pointer. *)
Theorem no_result_set_undefined c r w d o :
  pending c (r, w) → mysql_store_result c (mw_db w) = (None, d) →
  ∃ why, run_cursor o (r, w) = Undef why.
Proof.
  intros [Hc Hf Hr Ho Hn] E. cbn [fst snd] in *. exists "mysql_num_fields of a null pointer".
  assert (Hch : check_condition (r, w) = Undef "mysql_num_fields of a null pointer").
  { unfold check_condition, get_result. run_step. rewrite Hf. cbn [negb]. unfold fetch, get_result. run_step.
    rewrite Hf, Hc, bind_run, on_snd_run. unfold store_result.
    rewrite bind_run, on_conn_run, E by done. by run_step. }
  destruct o; cbn [run_cursor];
    unfold count, fields, is_empty, count, eof, reset, seek, next, prev, tell, get_value, get_field_data, fetch_values;
    repeat rewrite bind_run; by rewrite Hch.
Qed.

(** The numbers of a type. *)
Definition in_type (t : field_type) (n : Z) : Prop :=
  match t with
  | FInt => - 2 ^ 31 ≤ n < 2 ^ 31
  | FUInt => 0 ≤ n < 2 ^ 32
  | FLong | FLongLong => - 2 ^ 63 ≤ n < 2 ^ 63
  | FULong | FULongLong => 0 ≤ n < 2 ^ 64
  | _ => False
  end.
(** A number of any of the integer types, printed as the server prints it, is read as that number. *)
Theorem integer_field_roundtrip t n old : in_type t n → convert t old (print_int n) = Some (VNum n).
Proof.
  intros Ht. destruct t; try done; simpl in Ht; unfold convert, converted;
    rewrite ?sto_signed_print, ?sto_unsigned_print by lia; [done| |done..].
  simpl. by rewrite u32_small.
Qed.
End Cursor.

(** ** Witness: a stored result of two rows *)
Section Witness.
(** The library as a list of the results that are to come. *)
Definition demo_mysql : MySQL := {|
  db := list MYSQL_RES;
  mysql_real_query _ _ d := (0, d);
  mysql_next_result _ d := (if bool_decide (d = []) then -1 else 0, d);
  mysql_store_result _ d := (head d, tail d);
  mysql_use_result _ d := (bool_decide (is_Some (head d)), tail d);
  mysql_fetch_lengths_fails _ _ := false;
  mysql_errno _ _ := 0;
  mysql_error _ _ := [];
  mysql_ping _ d := (0, d);
  mysql_insert_id _ _ := 0;
  mysql_affected_rows _ _ := 0;
  mysql_set_server_option _ _ d := (0, d)
|}.
Definition demo_reals : @RealText demo_floats := {| sto_real := λ _ s, None |}.
#[local] Existing Instances demo_floats demo_mysql demo_reals.

Definition demo_my_world_of (d : list MYSQL_RES) (conns : gset N) : MyWorld := @mkMyWorld demo_mysql d conns ∅ 1%N.
Definition demo_my_world : MyWorld := demo_my_world_of [] ∅.
Definition demo_result : result :=
  mkResult (Some 0%N) true [[string_bytes "1"; string_bytes "ann"]; [string_bytes "-20"; []]] (Some 0) (Some 2).
(** The sum of the first fields. *)
Definition demo_body (row : list variable) (u : Z) : Z :=
  match row with Plain _ (Some (VNum n)) :: _ => u + n | _ => u end.

Lemma each_is_range_for_witness :
  ∃ r1 r2 v,
    each 3 [declared FInt; Optional FString None] (λ row u, (true, demo_body row u)) 0 (demo_result, demo_my_world)
    = Done (r1, demo_my_world) (2, v)
    ∧ range_for 3 [zeroed FInt; Optional FString None] demo_body 0 (demo_result, demo_my_world)
      = Done (r2, demo_my_world) v
    ∧ v = -19.
Proof.
  destruct (each_is_range_for [declared FInt; Optional FString None] [zeroed FInt; Optional FString None] demo_body 3
           demo_result demo_my_world 0) as (r2 & v & Er & Hv & r1 & Ee);
    [reflexivity| | | |reflexivity|simpl; lia|];
    [intros row [->|[->|[]%elem_of_nil]%elem_of_cons]%elem_of_cons; simpl; lia || reflexivity..|].
  exists r1, r2, v. split; [exact Ee|]. split; [exact Er|exact Hv].
Defined.
End Witness.
