(* ===== verification/MySqlConnection.v ===== *)
(** * Connections to the database

    Models of lobbysvr/mysql+++/mysql+++.h the class [connection] and the
    formatting of queries: opening and closing a connection, and the three
    ways to run a query, under the mutex of the connection. *)
From stdpp Require Import gmap strings list.
From coqutil Require Import Byte.
From S2P Require Import Prelude.
From S2P Require Import MlnUtils.
From S2P Require Import TextFormat.
From S2P Require Import Datetime.
From S2P Require Import MySqlResult.
#[local] Open Scope Z_scope.

(** ** Data *)
Record connect_options : Type := mkConnectOptions {
  co_server : list byte;
  co_username : list byte;
  co_password : list byte;
  co_dbname : list byte;
  co_timeout : Z;
  co_autoreconnect : bool;
  co_init_command : list byte;
  co_charset : list byte;
  co_port : Z;
  co_client_flag : Z
}.
Definition connect_options_new (server username password dbname : list byte) (timeout : Z) : connect_options :=
  mkConnectOptions server username password dbname timeout false [] [] 0 0.

Inductive mysql_option : Type :=
| MYSQL_OPT_RECONNECT (b : bool)
| MYSQL_SET_CHARSET_NAME (name : list byte)
| MYSQL_INIT_COMMAND (command : list byte)
| MYSQL_OPT_CONNECT_TIMEOUT (seconds : Z).

(** The calls of the client library that make and close connections. *)
Class MySQLConnect `{MySQL} : Type := {
  mysql_init : db → bool * db;
  mysql_options : N → mysql_option → db → db;
  mysql_real_connect : N → connect_options → db → bool * db;
  mysql_close : N → db → db
}.

Record connection : Type := mkConnection { con_my_conn : option N; con_locked : bool }.
Definition connection_new : connection := mkConnection None false.

(** ** The mutex of a connection *)
Section Mutex.
Context {S : Type}.

(** [std::lock_guard<std::mutex>]: the mutex is released however the block is
    left; locking it twice in a thread is undefined. *)
Definition set_locked (b : bool) : M (connection * S) unit := on_fst (modify (λ c, mkConnection (con_my_conn c) b)).
Definition unlock_after {A} (m : M (connection * S) A) : M (connection * S) A :=
  λ s, match m s with
       | Done s' a => (set_locked false;; mret a) s'
       | Threw s' e => (set_locked false;; throw e) s'
       | Undef w => Undef w
       | NoFuel => NoFuel
       end.
Definition with_mutex {A} (m : M (connection * S) A) : M (connection * S) A :=
  s ← get_state;
  if con_locked (fst s) then undefined "mutex locked twice" else set_locked true;; unlock_after m.

(** The outcome of a block that holds the mutex. *)
Definition locked (b : bool) (s : connection * S) : connection * S :=
  (mkConnection (con_my_conn (fst s)) b, snd s).
Lemma with_mutex_run {A} (m : M (connection * S) A) my w :
  with_mutex m (mkConnection my false, w)
  = match m (mkConnection my true, w) with
    | Done s a => Done (locked false s) a
    | Threw s e => Threw (locked false s) e
    | Undef why => Undef why
    | NoFuel => NoFuel
    end.
Proof.
  unfold with_mutex, unlock_after, set_locked. run_step. cbn [con_locked]. rewrite bind_run, on_fst_run.
  run_step. cbn [con_my_conn]. unfold throw. destruct (m (mkConnection my true, w)) as [[c' w'] a|[c' w'] e| |]; [|reflexivity..].
  by rewrite ?bind_run, ?on_fst_run.
Qed.
Lemma with_mutex_returns {A} (m : M (connection * S) A) s (P : connection * S → A → Prop) :
  con_locked (fst s) = false → returns m (locked true s) (λ s' a, P (locked false s') a) → returns (with_mutex m) s P.
Proof.
  destruct s as [[my l] w]. intros Hl (s' & a & E & Hp). cbn [fst con_locked] in Hl. subst.
  exists (locked false s'), a. split; [|done]. rewrite with_mutex_run.
  unfold locked in E. cbn [fst snd con_my_conn] in E. by rewrite E.
Qed.
End Mutex.

Section Connection.
Context `{MySQLConnect}.
Local Abbreviation W := (connection * MyWorld)%type.

Definition get_conn : M W (option N) := gets (λ s, con_my_conn (fst s)).
Definition set_conn (c : option N) : M W unit := on_fst (modify (λ s, mkConnection c (con_locked s))).
Definition call {A} (f : N → db → A * db) : M W A := c ← get_conn; on_snd (on_conn c f).

Definition is_open : M W bool :=
  c ← get_conn;
  match c with
  | None => mret false
  | Some _ => with_mutex (r ← call mysql_ping; mret (r =? 0))
  end.

(** [mysql_close(my_conn); my_conn = nullptr;] *)
Definition close_conn (c : N) : M W unit :=
  on_snd (modify (λ w, mkMyWorld (mysql_close c (mw_db w)) (mw_conns w ∖ {[c]}) (mw_results w) (mw_next w)));;
  set_conn None.
Definition close : M W unit :=
  with_mutex (c ← get_conn; match c with Some c => close_conn c | None => mret tt end).

(** [mysql_init] with a new handle. *)
Definition init_conn : M W (option N) :=
  w ← gets snd;
  let '(made, d) := mysql_init (mw_db w) in
  if made : bool then
    on_snd (put_state (mkMyWorld d ({[mw_next w]} ∪ mw_conns w) (mw_results w) (mw_next w + 1)%N));;
    mret (Some (mw_next w))
  else on_snd (put_state (mkMyWorld d (mw_conns w) (mw_results w) (mw_next w)));; mret None.
Definition set_option (o : mysql_option) : M W unit := call (λ c d, (tt, mysql_options c o d)).

Definition open (options : connect_options) : M W bool :=
  b ← is_open;
  when b close;;
  with_mutex
    (made ← init_conn;
     set_conn made;;
     match made with
     | None => mret false
     | Some c =>
         when (co_autoreconnect options) (set_option (MYSQL_OPT_RECONNECT true));;
         when (negb (bool_decide (co_charset options = []))) (set_option (MYSQL_SET_CHARSET_NAME (co_charset options)));;
         when (negb (bool_decide (co_init_command options = [])))
           (set_option (MYSQL_INIT_COMMAND (co_init_command options)));;
         when (0 <? co_timeout options) (set_option (MYSQL_OPT_CONNECT_TIMEOUT (co_timeout options)));;
         connected ← call (λ c d, mysql_real_connect c options d);
         if (connected : bool) then mret true else close_conn c;; mret false
     end).
Definition open_server (server username password dbname : list byte) (timeout : Z) : M W bool :=
  open (connect_options_new server username password dbname timeout).
Definition connection_open (options : connect_options) : M W unit := _ ← open options; mret tt.
Definition connection_delete : M W unit := close.

Definition set_server_option (option : Z) : M W Z := call (λ c d, mysql_set_server_option c option d).
Definition last_insert_id : M W Z := call (λ c d, (mysql_insert_id c d, d)).
Definition affected_rows : M W Z := call (λ c d, (mysql_affected_rows c d, d)).
Definition error_code : M W Z := call (λ c d, (mysql_errno c d, d)).
Definition error_message : M W (list byte) := call (λ c d, (mysql_error c d, d)).

(** ** Queries *)

(** [mysql_real_query], and the exception when it fails. *)
Definition run_query (query_str : list byte) : M W unit :=
  ret ← call (λ c d, mysql_real_query c query_str d);
  if ret =? 0 then mret tt
  else c ← get_conn; c ← deref "null connection" c; on_snd (throw_mysql c).

Definition query (query_str : list byte) : M W result :=
  with_mutex (run_query query_str;; c ← get_conn; mret (result_new c)).

(** The constructor of a result with [fetch_now]; an exception of it drops the object. *)
Definition result_fetch_now (c : option N) : M W result :=
  '(r, _) ← on_snd (with_local (result_new c) fetch); mret r.
(** Every result of a list is deleted. *)
Fixpoint free_results (l : list result) : M W unit :=
  match l with
  | [] => mret tt
  | r :: l => _ ← on_snd (with_local r free); free_results l
  end.
(** The results move into the vector; an exception deletes those that are there. *)
Fixpoint mquery_loop (fuel : nat) (res : list result) : M W (list result) :=
  match fuel with
  | O => no_fuel
  | S fuel =>
      c ← get_conn;
      r ← try_catch (result_fetch_now c) (λ e, free_results res;; throw e);
      let res := res ++ [fst (result_move r)] in
      more ← call mysql_next_result;
      if more =? 0 then mquery_loop fuel res else mret res
  end.
Definition mquery (fuel : nat) (query_str : list byte) : M W (list result) :=
  with_mutex (run_query query_str;; mquery_loop fuel []).

(** A result set that is used is freed at once. *)
Definition exec (query_str : list byte) : M W unit :=
  with_mutex (run_query query_str;; _ ← call mysql_use_result; mret tt).
End Connection.

(** ** [format_string_vargs] *)

(** [text] is what [vsnprintf] would write with enough room, nothing for an error
    of the encoding.  The arguments can be walked through once: outside Windows a
    second call with the same [va_list] is undefined. *)
Definition format_string {S} (text : option (list byte)) : M S (list byte) :=
  match text with
  | Some text =>
      if zlen text <=? 256 then mret (c_str (take 255 text))
      else undefined "va_list used after a call of vsnprintf"
  | None => undefined "va_list used after a call of vsnprintf"
  end.

(** ** The life of a connection *)
Section Life.
Context `{MySQLConnect}.
Local Abbreviation W := (connection * MyWorld)%type.

(** The object has the handle of its own connection, beside those of [others]; its
    mutex is free. *)
Definition own (s : W) : gset N := match con_my_conn (fst s) with Some c => {[c]} | None => ∅ end.
Record owns (others : gset N) (s : W) : Prop := {
  ow_unlocked : con_locked (fst s) = false;
  ow_conns : mw_conns (snd s) = others ∪ own s;
  ow_apart : others ## own s;
  ow_next : ∀ h, h ∈ mw_conns (snd s) → (h < mw_next (snd s))%N
}.
(** The same inside a block that holds the mutex. *)
Definition owns_inside (others : gset N) (s : W) : Prop := con_locked (fst s) = true ∧ owns others (locked false s).

Lemma owns_lock others s : owns others s → owns_inside others (locked true s).
Proof. intros [Hl Hc Ha Hn]. destruct s as [[c l] w]. simpl in Hl. subst. by split. Qed.

Lemma call_returns {A} (f : N → db → A * db) others s c :
  owns_inside others s → con_my_conn (fst s) = Some c →
  returns (call f) s (λ s' a, a = fst (f c (mw_db (snd s))) ∧ owns_inside others s' ∧ con_my_conn (fst s') = Some c).
Proof.
  destruct s as [[my l] w]. intros [Hl [Hu Hc Ha Hn]] Hm. cbn [fst snd con_my_conn con_locked] in *. subst.
  unfold returns, call, get_conn. run_step. cbn [con_my_conn]. rewrite on_snd_run, on_conn_run.
  2:{ unfold own in Hc. cbn [locked fst snd con_my_conn] in Hc. rewrite Hc. set_solver. }
  cbn [map_state]. do 2 eexists. split; [done|]. split; [done|]. split; [|done].
  by split; [|split].
Qed.
Lemma close_conn_returns others s c :
  owns_inside others s → con_my_conn (fst s) = Some c →
  returns (close_conn c) s (λ s' _, owns_inside others s' ∧ con_my_conn (fst s') = None).
Proof.
  destruct s as [[my l] w]. intros [Hl [Hu Hc Ha Hn]] Hm. cbn [fst snd con_my_conn con_locked] in *. subst.
  unfold returns, close_conn, set_conn. run_step. rewrite on_snd_run. run_step. rewrite on_fst_run. run_step.
  do 2 eexists. split; [done|]. split; [|done]. unfold own in *. cbn [locked fst snd con_my_conn] in *.
  split; [done|]. split; unfold own; cbn [locked fst snd con_my_conn con_locked mw_conns mw_next]; [done|..].
  - rewrite Hc. set_solver.
  - set_solver.
  - intros h Hh. apply Hn. set_solver.
Qed.

Lemma is_open_returns others s :
  owns others s →
  returns is_open s (λ s' b, owns others s' ∧ con_my_conn (fst s') = con_my_conn (fst s)
    ∧ match con_my_conn (fst s) with
      | Some c => b = (fst (mysql_ping c (mw_db (snd s))) =? 0)
      | None => b = false
      end).
Proof.
  intros Ho. unfold is_open, get_conn. apply returns_bind. do 2 eexists. split; [done|].
  destruct (con_my_conn (fst s)) as [c|] eqn:Ec; [|by do 2 eexists].
  apply with_mutex_returns; [apply Ho|]. apply returns_bind.
  eapply returns_mono; [eapply (call_returns _ others _ c); [by apply owns_lock|done]|].
  cbn beta. intros s' a (-> & [Hl Ho'] & Ec'). do 2 eexists. split; [done|]. by split_and!.
Qed.
Lemma close_returns others s :
  owns others s → returns close s (λ s' _, owns others s' ∧ con_my_conn (fst s') = None).
Proof.
  intros Ho. unfold close, get_conn. apply with_mutex_returns; [apply Ho|]. apply returns_bind.
  do 2 eexists. split; [done|]. cbn [locked fst con_my_conn].
  destruct (con_my_conn (fst s)) as [c|] eqn:Ec.
  - eapply returns_mono; [eapply (close_conn_returns others); [by apply owns_lock|done]|].
    cbn beta. intros s' [] [[Hl Ho'] Ec']. by split.
  - do 2 eexists. split; [done|]. split; [|done]. destruct s as [[my l] w], Ho as [Hl Hc Ha Hn]. simpl in *. subst. by split.
Qed.

Lemma set_option_returns others o s c :
  owns_inside others s → con_my_conn (fst s) = Some c →
  returns (set_option o) s (λ s' _, owns_inside others s' ∧ con_my_conn (fst s') = Some c).
Proof.
  intros Ho Ec. eapply returns_mono; [by eapply call_returns|]. by intros s' a (_ & ? & ?).
Qed.
Lemma maybe_option_returns others (b : bool) o s c :
  owns_inside others s → con_my_conn (fst s) = Some c →
  returns (when b (set_option o)) s (λ s' _, owns_inside others s' ∧ con_my_conn (fst s') = Some c).
Proof. intros Ho Ec. destruct b; [by apply set_option_returns|]. by do 2 eexists. Qed.

(** [open] always ends; a connection that was lost stays with the others. *)
Lemma open_returns options others s :
  owns others s →
  returns (open options) s (λ s' b,
    owns (others ∪ match con_my_conn (fst s) with
                   | Some c => if fst (mysql_ping c (mw_db (snd s))) =? 0 then ∅ else {[c]}
                   | None => ∅
                   end) s'
    ∧ b = bool_decide (is_Some (con_my_conn (fst s')))).
Proof.
  intros Ho. set (others' := others ∪ _). unfold open. apply returns_bind.
  eapply returns_mono; [by eapply is_open_returns|]. cbn beta. intros s1 b (H1 & E1 & Hb).
  apply returns_bind.
  assert (Hw : returns (when b close) s1 (λ s' _, con_locked (fst s') = false ∧ mw_conns (snd s') = others'
            ∧ ∀ h, h ∈ mw_conns (snd s') → (h < mw_next (snd s'))%N)).
  { destruct b; cbn [when].
    - eapply returns_mono; [by eapply close_returns|]. cbn beta. intros s' _ [[Hl Hc Ha Hn] En].
      split_and!; [done| |done]. rewrite Hc. unfold own, others'. rewrite En. destruct (con_my_conn (fst s)); [|done].
      by rewrite <- Hb.
    - do 2 eexists. split; [done|]. destruct H1 as [Hl Hc Ha Hn]. split_and!; [done| |done].
      rewrite Hc. unfold own, others'. rewrite E1. destruct (con_my_conn (fst s)); [|done]. by rewrite <- Hb. }
  eapply returns_mono; [exact Hw|]. cbn beta. clear dependent s1. clear Ho Hb b. intros [[my l] w] _ (Hl & Hc & Hn).
  cbn [fst snd con_locked] in *. subst l. apply with_mutex_returns; [done|].
  change (locked true _) with ((mkConnection my true, w) : W). apply returns_bind. unfold init_conn. unfold returns at 1. run_step.
  destruct (mysql_init (mw_db w)) as [[] d].
  2:{ rewrite bind_run, on_snd_run. run_step. do 2 eexists. split; [done|]. apply returns_bind.
      do 2 eexists. split; [done|]. do 2 eexists. split; [done|]. split; [|done].
      split; unfold own; simpl; [done|rewrite Hc; set_solver|set_solver|done]. }
  rewrite bind_run, on_snd_run. run_step. do 2 eexists. split; [done|]. apply returns_bind.
  do 2 eexists. split; [done|]. cbn [fst snd con_locked].
  set (c := mw_next w). set (s1 := (_, _) : W).
  assert (Hs1 : owns_inside others' s1 ∧ con_my_conn (fst s1) = Some c).
  { split; [|done]. split; [done|]. split; unfold own; cbn [locked s1 fst snd con_my_conn con_locked mw_conns mw_next]; [done|..].
    - rewrite Hc. set_solver.
    - rewrite <- Hc. apply disjoint_singleton_r. intros Hin%Hn. unfold c in Hin. lia.
    - intros h [->%elem_of_singleton|Hh%Hn]%elem_of_union; unfold c; lia. }
  clearbody s1. destruct Hs1 as [Hs1 Ec].
  do 4 (apply returns_bind; eapply returns_mono; [by eapply maybe_option_returns|]; cbn beta;
        clear dependent s1; intros s1 _ [Hs1 Ec]).
  apply returns_bind. eapply returns_mono; [by eapply call_returns|]. cbn beta. intros s2 a (_ & Hs2 & Ec2).
  destruct a.
  - do 2 eexists. split; [done|]. destruct s2 as [[my2 l2] w2], Hs2 as [Hl2 Hs2]. simpl in *. subst.
    split; [|done]. by destruct Hs2.
  - apply returns_bind. eapply returns_mono; [by eapply close_conn_returns|]. cbn beta. intros s3 _ [[Hl3 Hs3] Ec3].
    do 2 eexists. split; [done|]. split; [done|]. unfold locked. cbn [fst con_my_conn]. by rewrite Ec3.
Qed.

(** Opening, closing and asking a connection in any order, and deleting it in the end. *)
Inductive life_op : Type := LfOpen (options : connect_options) | LfClose | LfIsOpen.
Definition run_life (o : life_op) : M W unit :=
  match o with
  | LfOpen options => _ ← open options; mret tt
  | LfClose => close
  | LfIsOpen => _ ← is_open; mret tt
  end.
Fixpoint run_lifes (l : list life_op) : M W unit :=
  match l with [] => connection_delete | o :: l => run_life o;; run_lifes l end.

Lemma run_life_returns others o s :
  owns others s → returns (run_life o) s (λ s' _, ∃ lost, owns (others ∪ lost) s'
    ∧ ((∀ c d, fst (mysql_ping c d) = 0) → lost = ∅)).
Proof.
  intros Ho. destruct o; cbn [run_life].
  - apply returns_bind. eapply returns_mono; [by eapply open_returns|]. cbn beta. intros s' b [Hs' _].
    do 2 eexists. split; [done|]. eexists. split; [exact Hs'|]. intros Hping.
    destruct (con_my_conn (fst s)); [|done]. by rewrite Hping.
  - eapply returns_mono; [by eapply close_returns|]. cbn beta. intros s' _ [Hs' _]. exists ∅.
    by rewrite (right_id_L ∅ (∪)).
  - apply returns_bind. eapply returns_mono; [by eapply is_open_returns|]. cbn beta. intros s' b (Hs' & _ & _).
    do 2 eexists. split; [done|]. exists ∅. by rewrite (right_id_L ∅ (∪)).
Qed.

(** C38. However a connection object is opened, closed and asked, every call returns: the mutex is never
    locked twice, no call of the library is given a null or closed handle; and if the server always
    answers, the handles that are open after the object is deleted are those of before. *)
Theorem connection_released l (w : MyWorld) :
  (∀ h, h ∈ mw_conns w → (h < mw_next w)%N) →
  ∃ s, run_lifes l (connection_new, w) = Done s tt ∧ con_my_conn (fst s) = None
    ∧ mw_conns w ⊆ mw_conns (snd s)
    ∧ ((∀ c d, fst (mysql_ping c d) = 0) → mw_conns (snd s) = mw_conns w).
Proof.
  intros Hn.
  assert (Hl : ∀ s others, owns others s → returns (run_lifes l) s (λ s' _, con_my_conn (fst s') = None
      ∧ others ⊆ mw_conns (snd s') ∧ ((∀ c d, fst (mysql_ping c d) = 0) → mw_conns (snd s') = others))).
  { induction l as [|o l IH]; intros s others Ho; cbn [run_lifes].
    - eapply returns_mono; [by eapply close_returns|]. cbn beta. intros s' _ [[Hl Hc Ha Hn'] En].
      unfold own in Hc. rewrite En in Hc. rewrite Hc. split_and!; [done|set_solver|]. intros _. set_solver.
    - apply returns_bind. eapply returns_mono; [by eapply run_life_returns|]. cbn beta. intros s' _ (lost & Hs' & Hlost).
      eapply returns_mono; [by eapply IH|]. cbn beta. intros s'' _ (En & Hsub & Heq). split_and!; [done|set_solver|].
      intros Hping. rewrite Heq, Hlost by done. set_solver. }
  destruct (Hl (connection_new, w) (mw_conns w)) as (s & [] & E & Hs).
  - split; unfold own; simpl; [done|set_solver|set_solver|done].
  - by exists s.
Qed.

(** A connection that was lost is not closed when the object is opened again. *)
Theorem open_leaks_lost options s c others :
  owns others s → con_my_conn (fst s) = Some c → fst (mysql_ping c (mw_db (snd s))) ≠ 0 →
  returns (open options) s (λ s' _, c ∈ mw_conns (snd s') ∧ con_my_conn (fst s') ≠ Some c).
Proof.
  intros Ho Ec Hp. eapply returns_mono; [by eapply open_returns|]. cbn beta. rewrite Ec.
  rewrite (proj2 (Z.eqb_neq _ _)) by done. intros s' b [[Hl Hc Ha Hn] _]. split.
  - rewrite Hc. set_solver.
  - intros E. unfold own in Ha. rewrite E in Ha. set_solver.
Qed.
End Life.

(** ** What queries return *)
Section Queries.
Context `{MySQLConnect} `{RealText}.
Local Abbreviation W := (connection * MyWorld)%type.

(** A connection that is open, with its mutex free; results have numbers below the next. *)
Record ready (c : N) (s : W) : Prop := {
  rd_conn : con_my_conn (fst s) = Some c;
  rd_unlocked : con_locked (fst s) = false;
  rd_open : c ∈ mw_conns (snd s);
  rd_next : ∀ h, h ∈ mw_results (snd s) → (h < mw_next (snd s))%N
}.
Definition with_db (d : db) (w : MyWorld) : MyWorld := mkMyWorld d (mw_conns w) (mw_results w) (mw_next w).

Lemma call_run {A} (f : N → db → A * db) c l w :
  c ∈ mw_conns w →
  call f (mkConnection (Some c) l, w)
  = Done (mkConnection (Some c) l, with_db (snd (f c (mw_db w))) w) (fst (f c (mw_db w))).
Proof.
  intros Hc. unfold call, get_conn. run_step. cbn [con_my_conn]. by rewrite on_snd_run, on_conn_run.
Qed.
Lemma run_query_run q c l w :
  c ∈ mw_conns w →
  run_query q (mkConnection (Some c) l, w)
  = let '(ret, d) := mysql_real_query c q (mw_db w) in
    if ret =? 0 then Done (mkConnection (Some c) l, with_db d w) tt
    else Threw (mkConnection (Some c) l, with_db d w) (mysql_exception (mysql_errno c d) (mysql_error c d)).
Proof.
  intros Hc. unfold run_query. rewrite bind_run, call_run by done. cbn [bind_outcome].
  destruct (mysql_real_query c q (mw_db w)) as [ret d]. cbn [fst snd]. by case_match.
Qed.

(** C21. A query on an open connection.  One that fails throws the error of the connection and leaves
    nothing behind, whatever the library does next.  One that the server accepts returns a result,
    which fetches its rows at the first call.  If there is a result set then, with as many fields in
    every row as it says and with lengths that can be read, every sequence of calls answers as a
    cursor on the table of the rows does, and is undefined where the calls leave the table; if there
    is none, which is so for a statement that returns no rows, any call reads a null pointer. *)
Theorem query_cursor q c s ret d l :
  ready c s → mysql_real_query c q (mw_db (snd s)) = (ret, d) → l ≠ [] →
  if ret =? 0 then
    ∃ r, query q s = Done (fst s, with_db d (snd s)) r
      ∧ match mysql_store_result c d with
        | (Some rs, d') =>
            good_set rs →
            match spec_cursors (mkTable (res_fields rs) (texts rs)) 0 l with
            | Some rest => ∃ r' w', run_cursors l (r, with_db d (snd s)) = Done (r', w') rest
                ∧ mw_results w' = mw_results (snd s) ∧ mw_db w' = d'
            | None => ∃ why, run_cursors l (r, with_db d (snd s)) = Undef why
            end
        | (None, _) => ∃ why, run_cursors l (r, with_db d (snd s)) = Undef why
        end
  else query q s = Threw (fst s, with_db d (snd s)) (mysql_exception (mysql_errno c d) (mysql_error c d)).
Proof.
  destruct s as [[my lk] w]. intros [Hc Hl Ho Hn] Eq Hne. cbn [fst snd con_my_conn con_locked] in *. subst.
  unfold query. rewrite with_mutex_run, bind_run, run_query_run, Eq by done. destruct (ret =? 0); [|done].
  unfold get_conn. run_step. cbn [locked fst snd con_my_conn]. eexists. split; [done|].
  destruct (mysql_store_result c d) as [[rs|] d'] eqn:Es.
  - intros Hg. by apply (cursor_refines c (result_new (Some c)) (with_db d w) rs d').
  - destruct l as [|o l]; [done|]. cbn [run_cursors].
    destruct (no_result_set_undefined c (result_new (Some c)) (with_db d w) d' o) as [why E]; [done..|].
    exists why. by rewrite bind_run, E.
Qed.

(** The results of several statements, from the state in which the first is read. *)
Inductive statements (c : N) : db → list MYSQL_RES → db → Prop :=
| st_last d rs d1 n d2 :
    mysql_store_result c d = (Some rs, d1) → good_set rs → mysql_next_result c d1 = (n, d2) → n ≠ 0 →
    statements c d [rs] d2
| st_more d rs d1 d2 l d3 :
    mysql_store_result c d = (Some rs, d1) → good_set rs → mysql_next_result c d1 = (0, d2) →
    statements c d2 l d3 → statements c d (rs :: l) d3.
(** A result as [mquery] returns it. *)
Definition moved_result (c : N) (rs : MYSQL_RES) : result := mkResult (Some c) true (texts rs) (Some 0) None.

Lemma mquery_loop_run c l d d' : statements c d l d' → ∀ fuel w res,
  c ∈ mw_conns w → (∀ h, h ∈ mw_results w → (h < mw_next w)%N) → mw_db w = d → (length l ≤ fuel)%nat →
  ∃ n, mquery_loop fuel res (mkConnection (Some c) true, w)
    = Done (mkConnection (Some c) true, mkMyWorld d' (mw_conns w) (mw_results w) n) (res ++ (moved_result c <$> l)).
Proof.
  assert (Hfetch : ∀ w rs d1, c ∈ mw_conns w → (∀ h, h ∈ mw_results w → (h < mw_next w)%N) →
    mysql_store_result c (mw_db w) = (Some rs, d1) → good_set rs →
    result_fetch_now (Some c) (mkConnection (Some c) true, w)
    = Done (mkConnection (Some c) true, mkMyWorld d1 (mw_conns w) (mw_results w) (mw_next w + 1)%N)
        (mkResult (Some c) true (texts rs) (Some 0) (Some (res_fields rs)))).
  { intros w rs d1 Ho Hn E Hg. unfold result_fetch_now. rewrite bind_run, on_snd_run. unfold with_local.
    by rewrite (fetch_run c (result_new (Some c)) w rs d1). }
  induction 1 as [d rs d1 n d2 Es Hg En Hne|d rs d1 d2 l d3 Es Hg En Hst IH]; intros [|fuel] w res Ho Hn <- Hf;
    cbn [length] in Hf; [lia| |lia|].
  - exists (mw_next w + 1)%N. cbn [mquery_loop]. unfold get_conn at 1. rewrite bind_run. unfold gets. cbn [bind_outcome fst con_my_conn].
    rewrite bind_run. unfold try_catch. rewrite (Hfetch w rs d1) by done. cbn [bind_outcome]. cbv zeta.
    rewrite bind_run, call_run by done. cbn [bind_outcome mw_db]. rewrite En. cbn [fst snd].
    by rewrite (proj2 (Z.eqb_neq _ _)).
  - cbn [mquery_loop]. unfold get_conn at 1. rewrite bind_run. unfold gets. cbn [bind_outcome fst con_my_conn].
    rewrite bind_run. unfold try_catch. rewrite (Hfetch w rs d1) by done. cbn [bind_outcome]. cbv zeta.
    rewrite bind_run, call_run by done. cbn [bind_outcome mw_db]. rewrite En. cbn [fst snd]. rewrite Z.eqb_refl.
    destruct (IH fuel (with_db d2 (mkMyWorld d1 (mw_conns w) (mw_results w) (mw_next w + 1)%N))
                 (res ++ [fst (result_move (mkResult (Some c) true (texts rs) (Some 0) (Some (res_fields rs))))]))
      as [n E]; [done| |done|lia|].
    + cbn. intros h ?%Hn. lia.
    + exists n. rewrite E. cbn. by rewrite <- app_assoc.
Qed.

(** A query of several statements returns one stored result for each, in order, with all its rows;
    only the number of fields is lost on the way. *)
Theorem mquery_returns_all q c s d l d' fuel :
  ready c s → mysql_real_query c q (mw_db (snd s)) = (0, d) → statements c d l d' → (length l ≤ fuel)%nat →
  ∃ w, mquery fuel q s = Done (fst s, w) (moved_result c <$> l) ∧ mw_results w = mw_results (snd s).
Proof.
  destruct s as [[my lk] w]. intros [Hc Hl Ho Hn] Eq Hst Hf. cbn [fst snd con_my_conn con_locked] in *. subst.
  unfold mquery. rewrite with_mutex_run, bind_run, run_query_run, Eq by done.
  rewrite Z.eqb_refl. cbn [bind_outcome].
  destruct (mquery_loop_run c l d d' Hst fuel (with_db d w) []) as [n E]; [done..|].
  rewrite E. eexists. split; [done|]. done.
Qed.

(** A statement that is run for its effect leaves no result set. *)
Theorem exec_returns q c s ret d :
  ready c s → mysql_real_query c q (mw_db (snd s)) = (ret, d) →
  exec q s = if ret =? 0 then Done (fst s, with_db (snd (mysql_use_result c d)) (snd s)) tt
             else Threw (fst s, with_db d (snd s)) (mysql_exception (mysql_errno c d) (mysql_error c d)).
Proof.
  destruct s as [[my lk] w]. intros [Hc Hl Ho Hn] Eq. cbn [fst snd con_my_conn con_locked] in *. subst.
  unfold exec. rewrite with_mutex_run, bind_run, run_query_run, Eq by done. destruct (ret =? 0); [|done].
  cbn [bind_outcome]. by rewrite bind_run, call_run.
Qed.

(** A result that nobody has read must not outlive its connection. *)
Theorem result_outlives_connection c r w :
  my_conn r = Some c → fetched r = false → c ∉ mw_conns w → free (r, w) = Undef "call on a closed connection".
Proof.
  intros Hc Hf Ho. unfold free, get_result. run_step. rewrite Hf, Hc. cbn [negb]. rewrite bind_run, on_snd_run.
  unfold on_conn. run_step. cbn [deref]. run_step. by rewrite bool_decide_false.
Qed.

(** A text of up to 255 characters is formatted as it is; of one of 256 the last
    character is lost. *)
Theorem format_string_short {S} text (s : S) :
  zlen text < 256 → has_nul text = false → format_string (Some text) s = Done s text.
Proof.
  intros Hl Hn. unfold format_string. rewrite (proj2 (Z.leb_le _ _)) by lia.
  rewrite take_ge by (unfold zlen in Hl; lia). by rewrite c_str_no_nul.
Qed.
Theorem format_string_loses_last {S} text (s : S) :
  zlen text = 256 → has_nul text = false →
  ∃ t b, text = t ++ [b] ∧ format_string (Some text) s = Done s t.
Proof.
  intros Hl Hn. destruct (exists_last (l := text)) as (t & b & ->); [intros ->; done|]. exists t, b. split; [done|].
  rewrite zlen_app in Hl. unfold zlen in Hl. simpl in Hl. rewrite has_nul_app in Hn. apply orb_false_iff in Hn as [Hn _].
  unfold format_string. rewrite (proj2 (Z.leb_le _ _)) by (rewrite zlen_app; unfold zlen; simpl; lia).
  rewrite take_app_length' by lia. by rewrite c_str_no_nul.
Qed.
End Queries.

(** ** Witnesses: a server that is up, and a result that is to come *)
Section Witness.
Definition demo_connect : @MySQLConnect demo_mysql :=
  @Build_MySQLConnect demo_mysql (λ d, (true, d)) (λ _ _ d, d) (λ _ _ d, (true, d)) (λ _ d, d).
#[local] Existing Instances demo_floats demo_mysql demo_reals demo_connect.

Definition demo_options : connect_options :=
  connect_options_new (string_bytes "localhost") (string_bytes "root") [] (string_bytes "db_test") 3.
Lemma connection_released_witness :
  ∃ s, run_lifes [LfOpen demo_options; LfIsOpen; LfOpen demo_options; LfClose; LfOpen demo_options]
         (connection_new, demo_my_world_of [] {[0%N]}) = Done s tt
    ∧ con_my_conn (fst s) = None ∧ mw_conns (snd s) = {[0%N]}.
Proof.
  destruct (connection_released [LfOpen demo_options; LfIsOpen; LfOpen demo_options; LfClose; LfOpen demo_options]
              (demo_my_world_of [] {[0%N]})) as (s & E & Hn & _ & Hc).
  - intros h Hh. change (h ∈ ({[0%N]} : gset N)) in Hh. apply elem_of_singleton in Hh. subst. reflexivity.
  - exists s. split; [exact E|]. split; [exact Hn|]. apply Hc. reflexivity.
Defined.

Definition demo_set : MYSQL_RES :=
  mkMYSQL_RES 2 [[Some (string_bytes "1"); Some (string_bytes "ann")]; [Some (string_bytes "-20"); None]].
Definition demo_calls : list cursor_op :=
  [CoCount; CoFetch [declared FInt; declared FString]; CoNext; CoGet 0 (declared FInt);
   CoGet 1 (Optional FString None); CoNext; CoEof].
Lemma query_cursor_witness :
  ∃ r r' w', query (string_bytes "select id, name from user")
      (mkConnection (Some 0%N) false, demo_my_world_of [demo_set] {[0%N]})
    = Done (mkConnection (Some 0%N) false, demo_my_world_of [demo_set] {[0%N]}) r
    ∧ run_cursors demo_calls (r, demo_my_world_of [demo_set] {[0%N]})
      = Done (r', w')
          [ANum 2; ARow (Some [Plain FInt (Some (VNum 1)); Plain FString (Some (VText (string_bytes "ann")))]);
           ADone; AValue true (Plain FInt (Some (VNum (-20)))); AValue false (Optional FString None); ADone; AFlag true]
    ∧ mw_results w' = ∅.
Proof.
  pose proof (query_cursor (string_bytes "select id, name from user") 0%N
                (mkConnection (Some 0%N) false, demo_my_world_of [demo_set] {[0%N]}) 0 [demo_set] demo_calls)
    as Hq.
  destruct Hq as (r & Eq & Hr); [..|discriminate|].
  - split; [reflexivity|reflexivity|change (0%N ∈ ({[0%N]} : gset N)); apply elem_of_singleton; reflexivity|].
    intros h Hh. change (h ∈ (∅ : gset N)) in Hh. apply elem_of_empty in Hh. destruct Hh.
  - reflexivity.
  - assert (Hg : good_set demo_set) by (split; [reflexivity|repeat constructor|reflexivity]).
    destruct (Hr Hg) as (r' & w' & E & Hw & _). exists r, r', w'. split; [exact Eq|]. split; [exact E|exact Hw].
Defined.
End Witness.
