(* ===== verification/MySqlStatement.v ===== *)
(** * Prepared statements

    Models of lobbysvr/mysql+++/mysql+++.h the class [prepared_stmt] and the
    binding of variables: parameters are sent from the variables they are bound
    to, and a row is fetched into the variables of the result.  Variables are
    cells of a memory; a number is the value of its type.  The library converts
    a number of the server to the type of the variable, and cuts one that does
    not fit ([NumberStore]); the class takes that for a success. *)
From stdpp Require Import gmap strings list.
From coqutil Require Import Byte.
From S2P Require Import Prelude.
From S2P Require Import MlnUtils.
From S2P Require Import MySqlResult.
From S2P Require Import MySqlConnection.
#[local] Open Scope Z_scope.

(** ** Data *)
Inductive number_type : Type :=
| N_uint8 | N_int8 | N_uint16 | N_int16 | N_uint32 | N_int32 | N_uint64 | N_int64 | N_float | N_double | N_bool.
Inductive enum_field_types : Type :=
| MYSQL_TYPE_DECIMAL | MYSQL_TYPE_TINY | MYSQL_TYPE_SHORT | MYSQL_TYPE_LONG | MYSQL_TYPE_LONGLONG
| MYSQL_TYPE_FLOAT | MYSQL_TYPE_DOUBLE | MYSQL_TYPE_STRING | MYSQL_TYPE_NULL.
#[export] Instance enum_field_types_eq_dec : EqDecision enum_field_types.
Proof. solve_decision. Defined.

(** The template arguments of the specialisations of [my_bind]. *)
Definition mysql_type (t : number_type) : enum_field_types :=
  match t with
  | N_uint8 | N_int8 | N_bool => MYSQL_TYPE_TINY
  | N_uint16 | N_int16 => MYSQL_TYPE_SHORT
  | N_uint32 | N_int32 => MYSQL_TYPE_LONG
  | N_uint64 | N_int64 => MYSQL_TYPE_LONGLONG
  | N_float => MYSQL_TYPE_FLOAT
  | N_double => MYSQL_TYPE_DOUBLE
  end.
(** [std::is_unsigned], true for [bool] too. *)
Definition is_unsigned_type (t : number_type) : bool :=
  match t with N_uint8 | N_uint16 | N_uint32 | N_uint64 | N_bool => true | _ => false end.

(** A variable that is bound. *)
Inductive bound_var : Type :=
| BvNum (n : Z)
| BvOptNum (n : option Z)
| BvStr (s : list byte)
| BvOptStr (s : option (list byte)).

(** [MYSQL_BIND]: the buffer is a variable, the characters of one, or the member
    [pdata] of the wrapper; [length] and [is_null] are null or point to the
    members of the structure itself. *)
Inductive bind_buffer : Type := BufNone | BufVar (data : N) | BufChars (data : N) | BufPdata.
Record MYSQL_BIND : Type := mkBIND {
  mb_buffer : bind_buffer;
  mb_buffer_length : Z;
  mb_buffer_type : enum_field_types;
  mb_is_unsigned : bool;
  mb_is_null_value : bool;
  mb_length_value : Z;
  mb_is_null : bool;
  mb_length : bool
}.
(** [memset(bind, 0x00, sizeof(MYSQL_BIND))] *)
Definition BIND_zero : MYSQL_BIND := mkBIND BufNone 0 MYSQL_TYPE_DECIMAL false false 0 false false.

(** [my_bind<T>] with its members. *)
Inductive wrapper : Type :=
| WNum (t : number_type) (data : N)
| WOptNum (t : number_type) (data : N) (pdata : Z)
| WStr (data : N)
| WOptStr (data : N).
Definition wrapper_data (w : wrapper) : N :=
  match w with WNum _ d | WOptNum _ d _ | WStr d | WOptStr d => d end.

(** An element of [_binds_mysql] with the one of [_wrappers] at the same index. *)
Record slot : Type := mkSlot { sl_bind : MYSQL_BIND; sl_wrapper : option wrapper }.
Definition mysql_bind_set : Type := list slot.

(** What a parameter has for the library when the statement is executed, and what a
    fetch writes for a column: whether it is null, its length, and its value. *)
Inductive param_value : Type :=
| PNull
| PNumber (t : enum_field_types) (unsigned : bool) (n : Z)
| PText (s : list byte).
Inductive column_data : Type := CNothing | CNumber (n : Z) | CText (s : list byte).
Record written : Type := mkWritten { wr_null : bool; wr_length : Z; wr_data : column_data }.

Class MySQLStmt `{MySQL} : Type := {
  mysql_stmt_init : N → db → bool * db;
  mysql_stmt_prepare : N → list byte → db → Z * db;
  mysql_stmt_param_count : N → db → nat;
  mysql_stmt_result_metadata : N → db → option nat;
  mysql_stmt_bind_param : N → list MYSQL_BIND → db → Z * db;
  mysql_stmt_execute : N → list param_value → db → Z * db;
  mysql_stmt_bind_result : N → list MYSQL_BIND → db → Z * db;
  mysql_stmt_fetch : N → list MYSQL_BIND → db → Z * list written * db;
  mysql_stmt_fetch_column : N → MYSQL_BIND → nat → db → Z * written * db;
  mysql_stmt_close : N → db → db;
  mysql_stmt_errno : N → db → Z;
  mysql_stmt_error : N → db → list byte
}.

(** The statement, the library, the variables, and the statements not closed. *)
Record prepared_stmt : Type := mkStmt {
  ps_stmt : N;
  ps_param_binds : mysql_bind_set;
  ps_result_binds : mysql_bind_set
}.
Record StmtWorld `{MySQL} : Type := mkStmtWorld {
  sw_my : MyWorld;
  sw_vars : gmap N bound_var;
  sw_stmts : gset N
}.
#[global] Arguments mkStmtWorld {_}.

(** ** Wrappers *)

(** The string of [n] characters that [resize] leaves. *)
Definition resize (n : Z) (s : list byte) : list byte :=
  take (Z.to_nat n) s ++ replicate (Z.to_nat n - length s) Byte.x00.

(** A step of a wrapper: what it makes of its bind and its variable; nothing for
    a variable of another type, or that holds no value of its type. *)
Definition slot_step : Type := MYSQL_BIND → wrapper → bound_var → option (MYSQL_BIND * wrapper * bound_var).

(** [my_number_bind::update] *)
Definition number_update (t : number_type) (data : N) : MYSQL_BIND :=
  mkBIND (BufVar data) 0 (mysql_type t) (is_unsigned_type t) false 0 false false.
Definition is_Some_bool {A} (o : option A) : bool := match o with Some _ => true | None => false end.
(** [my_optional_number_bind]: [is_null_value] is set for a number that is there, and
    nothing points to it. *)
Definition optional_number_pre_execute {A} (t : number_type) (o : option A) : MYSQL_BIND :=
  mkBIND BufPdata 0 (mysql_type t) (is_unsigned_type t) (is_Some_bool o) 0 false false.
Definition optional_number_pre_fetch (t : number_type) : MYSQL_BIND :=
  mkBIND BufPdata 0 (mysql_type t) (is_unsigned_type t) false 0 true false.
Definition optional_number_post_fetch (b : MYSQL_BIND) (pdata : Z) : option Z :=
  if mb_is_null_value b then None else Some pdata.
(** A [bool] whose byte is neither 0 nor 1 must not be copied. *)
Definition is_value (t : number_type) (n : Z) : bool :=
  match t with N_bool => (n =? 0) || (n =? 1) | _ => true end.
(** [my_bind<std::string>]; [data] is never null. *)
Definition string_pre_execute (d : N) (s : list byte) : MYSQL_BIND :=
  mkBIND (BufChars d) (zlen s) MYSQL_TYPE_STRING false false (zlen s) true true.
(** The buffer of a string to fetch has one character. *)
Definition string_pre_fetch (d : N) : MYSQL_BIND :=
  mkBIND (BufChars d) 1 MYSQL_TYPE_STRING false false 0 true true.
(** A string is fetched again when it has characters. *)
Definition string_again (b : MYSQL_BIND) : bool := 0 <? mb_length_value b.
Definition string_resized (d : N) (b : MYSQL_BIND) : MYSQL_BIND :=
  mkBIND (BufChars d) (mb_length_value b) (mb_buffer_type b) (mb_is_unsigned b) (mb_is_null_value b)
    (mb_length_value b) (mb_is_null b) (mb_length b).
Definition string_post_fetch (d : N) (b : MYSQL_BIND) (s : list byte) : MYSQL_BIND * list byte :=
  if string_again b then (string_resized d b, resize (mb_length_value b) s) else (b, []).
(** [my_bind<optional<std::string>>] *)
Definition optional_string_pre_execute (d : N) (o : option (list byte)) : MYSQL_BIND :=
  match o with
  | Some s => mkBIND (BufChars d) (zlen s) MYSQL_TYPE_STRING false false (zlen s) true true
  | None => mkBIND BufNone 0 MYSQL_TYPE_DECIMAL false true 0 true true
  end.
Definition optional_string_pre_fetch (d : N) : MYSQL_BIND * option (list byte) :=
  (mkBIND (BufChars d) 1 MYSQL_TYPE_STRING false false 0 true true, Some (resize 1 [])).
(** [data->value()] of an empty optional throws; the fetch has just filled it. *)
Definition optional_string_post_fetch (d : N) (b : MYSQL_BIND) (o : option (list byte))
    : option (MYSQL_BIND * option (list byte)) :=
  if mb_is_null_value b then Some (b, None)
  else
    match o with
    | Some s => if string_again b then Some (string_resized d b, Some (resize (mb_length_value b) s)) else Some (b, Some [])
    | None => None
    end.

(** The virtual functions of [my_bind_base]. *)
Definition pre_execute_one : slot_step := λ b w v,
  match w, v with
  | WNum t d, BvNum _ => Some (number_update t d, w, v)
  | WOptNum t d pdata, BvOptNum o => Some (optional_number_pre_execute t o, WOptNum t d (default pdata o), v)
  | WStr d, BvStr s => Some (string_pre_execute d s, w, v)
  | WOptStr d, BvOptStr o => Some (optional_string_pre_execute d o, w, v)
  | _, _ => None
  end.
Definition pre_fetch_one : slot_step := λ b w v,
  match w, v with
  | WNum t d, BvNum _ => Some (number_update t d, w, v)
  | WOptNum t d pdata, BvOptNum _ => Some (optional_number_pre_fetch t, w, v)
  | WStr d, BvStr s => Some (string_pre_fetch d, w, BvStr (resize 1 s))
  | WOptStr d, BvOptStr _ => let '(b, o) := optional_string_pre_fetch d in Some (b, w, BvOptStr o)
  | _, _ => None
  end.
Definition post_fetch_one : slot_step := λ b w v,
  match w, v with
  | WNum t d, BvNum _ => Some (b, w, v)
  | WOptNum t d pdata, BvOptNum _ =>
      if mb_is_null_value b || is_value t pdata
      then Some (b, w, BvOptNum (optional_number_post_fetch b pdata)) else None
  | WStr d, BvStr s => let '(b, s) := string_post_fetch d b s in Some (b, w, BvStr s)
  | WOptStr d, BvOptStr o => '(b, o) ← optional_string_post_fetch d b o; Some (b, w, BvOptStr o)
  | _, _ => None
  end.
(** The result of [post_fetch]. *)
Definition post_fetch_again (b : MYSQL_BIND) (w : wrapper) : bool :=
  match w with
  | WNum _ _ | WOptNum _ _ _ => false
  | WStr _ => string_again b
  | WOptStr _ => negb (mb_is_null_value b) && string_again b
  end.

(** What the library writes through the pointers of a bind. *)
Definition overwrite (t s : list byte) : list byte := t ++ drop (length t) s.
Definition write_one (wr : written) : slot_step := λ b w v,
  let b := mkBIND (mb_buffer b) (mb_buffer_length b) (mb_buffer_type b) (mb_is_unsigned b)
             (if mb_is_null b then wr_null wr else mb_is_null_value b)
             (if mb_length b && negb (wr_null wr) then wr_length wr else mb_length_value b)
             (mb_is_null b) (mb_length b) in
  match wr_data wr, mb_buffer b, w, v with
  | CNothing, _, _, _ => Some (b, w, v)
  | CNumber n, BufVar _, WNum _ _, BvNum _ => Some (b, w, BvNum n)
  | CNumber n, BufPdata, WOptNum t d _, _ => Some (b, WOptNum t d n, v)
  | CText t, BufChars _, WStr _, BvStr s =>
      if zlen t <=? zlen s then Some (b, w, BvStr (overwrite t s)) else None
  | CText t, BufChars _, WOptStr _, BvOptStr (Some s) =>
      if zlen t <=? zlen s then Some (b, w, BvOptStr (Some (overwrite t s))) else None
  | _, _, _, _ => None
  end.

(** What the library reads of a parameter. *)
Definition param_of (b : MYSQL_BIND) (w : wrapper) (v : bound_var) : option param_value :=
  if bool_decide (mb_buffer_type b = MYSQL_TYPE_NULL) || (mb_is_null b && mb_is_null_value b) then Some PNull
  else
    match mb_buffer b, w, v with
    | BufVar _, WNum _ _, BvNum n => Some (PNumber (mb_buffer_type b) (mb_is_unsigned b) n)
    | BufPdata, WOptNum _ _ n, _ => Some (PNumber (mb_buffer_type b) (mb_is_unsigned b) n)
    | BufChars _, WStr _, BvStr s | BufChars _, WOptStr _, BvOptStr (Some s) =>
        Some (PText (take (Z.to_nat (if mb_length b then mb_length_value b else mb_buffer_length b)) s))
    | _, _, _ => None
    end.

(** ** Passes over the binds *)
Section Passes.
Local Abbreviation V := (gmap N bound_var).

(** A wrapper that was never set is a null pointer. *)
Definition run_slot (f : slot_step) (sl : slot) : M V slot :=
  w ← deref "null wrapper" (sl_wrapper sl);
  vars ← get_state;
  v ← deref "variable is gone" (vars !! wrapper_data w);
  '(b, w', v') ← deref "no value of the type of the variable" (f (sl_bind sl) w v);
  put_state (<[wrapper_data w := v']> vars);;
  mret (mkSlot b (Some w')).
Fixpoint run_slots (f : slot_step) (l : mysql_bind_set) : M V mysql_bind_set :=
  match l with
  | [] => mret []
  | sl :: l => sl ← run_slot f sl; l ← run_slots f l; mret (sl :: l)
  end.
Definition pre_execute : mysql_bind_set → M V mysql_bind_set := run_slots pre_execute_one.
Definition pre_fetch : mysql_bind_set → M V mysql_bind_set := run_slots pre_fetch_one.
(** With the result of each [post_fetch]. *)
Fixpoint post_fetch (l : mysql_bind_set) : M V (mysql_bind_set * list bool) :=
  match l with
  | [] => mret ([], [])
  | sl :: l =>
      sl' ← run_slot post_fetch_one sl;
      '(l, flags) ← post_fetch l;
      mret (sl' :: l, match sl_wrapper sl with Some w => post_fetch_again (sl_bind sl) w | None => false end :: flags)
  end.

(** The library writes a row. *)
Fixpoint run_each (fs : list slot_step) (l : mysql_bind_set) : M V mysql_bind_set :=
  match fs, l with
  | f :: fs, sl :: l => sl ← run_slot f sl; l ← run_each fs l; mret (sl :: l)
  | _, _ => mret l
  end.
Definition write_row (row : list written) : mysql_bind_set → M V mysql_bind_set := run_each (write_one <$> row).
(** The library reads the parameters. *)
Fixpoint read_params (l : mysql_bind_set) : M V (list param_value) :=
  match l with
  | [] => mret []
  | sl :: l =>
      w ← deref "null wrapper" (sl_wrapper sl);
      vars ← get_state;
      v ← deref "variable is gone" (vars !! wrapper_data w);
      p ← deref "parameter without a buffer" (param_of (sl_bind sl) w v);
      rest ← read_params l;
      mret (p :: rest)
  end.
End Passes.

(** ** [mysql_bind_set::bind_variables] *)
Inductive bind_kind : Type := KNum (t : number_type) | KOptNum (t : number_type) | KStr | KOptStr.
Definition wrapper_new (k : bind_kind) (data : N) : wrapper :=
  match k with
  | KNum t => WNum t data
  | KOptNum t => WOptNum t data 0
  | KStr => WStr data
  | KOptStr => WOptStr data
  end.
Definition bind_set_new (n : nat) : mysql_bind_set := replicate n (mkSlot BIND_zero None).
Definition set_variable (idx : nat) (arg : bind_kind * N) : M mysql_bind_set unit :=
  l ← get_state;
  match l !! idx with
  | None => throw (out_of_range "Invalid binding index")
  | Some sl => put_state (<[idx := mkSlot (sl_bind sl) (Some (wrapper_new (fst arg) (snd arg)))]> l)
  end.
Fixpoint bind_variables_impl (idx : nat) (args : list (bind_kind * N)) : M mysql_bind_set unit :=
  match args with
  | [] => mret tt
  | arg :: args => set_variable idx arg;; bind_variables_impl (idx + 1) args
  end.
Definition bind_variables (args : list (bind_kind * N)) : M mysql_bind_set unit := bind_variables_impl 0 args.

(** ** [prepared_stmt] *)
Section Statement.
Context `{MySQLStmt}.
Local Abbreviation SW := (prepared_stmt * StmtWorld)%type.
Local Abbreviation W := (connection * SW)%type.

Definition set_my (m : MyWorld) (w : StmtWorld) : StmtWorld := mkStmtWorld m (sw_vars w) (sw_stmts w).
Definition set_vars (v : gmap N bound_var) (w : StmtWorld) : StmtWorld := mkStmtWorld (sw_my w) v (sw_stmts w).
(** A call with the handle of a statement. *)
Definition stmt_call {A} (h : N) (f : N → db → A * db) : M StmtWorld A :=
  w ← get_state;
  let '(a, d) := f h (mw_db (sw_my w)) in
  put_state (set_my (mkMyWorld d (mw_conns (sw_my w)) (mw_results (sw_my w)) (mw_next (sw_my w))) w);;
  mret a.
Definition on_vars {A} (m : M (gmap N bound_var) A) : M W A := on_snd (on_snd (zoom sw_vars set_vars m)).
Definition on_stmt {A} (f : N → db → A * db) : M W A :=
  s ← get_state; on_snd (on_snd (stmt_call (ps_stmt (fst (snd s))) f)).
Definition get_stmt : M W prepared_stmt := gets (λ s, fst (snd s)).
Definition put_params (l : mysql_bind_set) (p : prepared_stmt) : prepared_stmt :=
  mkStmt (ps_stmt p) l (ps_result_binds p).
Definition put_results (l : mysql_bind_set) (p : prepared_stmt) : prepared_stmt :=
  mkStmt (ps_stmt p) (ps_param_binds p) l.
Definition set_param_binds (l : mysql_bind_set) : M W unit := on_snd (on_fst (modify (put_params l))).
Definition set_result_binds (l : mysql_bind_set) : M W unit := on_snd (on_fst (modify (put_results l))).

(** The constructor; what it throws closes the statement. *)
Definition stmt_close (h : N) : M StmtWorld unit :=
  stmt_call h (λ h d, (tt, mysql_stmt_close h d));;
  modify (λ w, mkStmtWorld (sw_my w) (sw_vars w) (sw_stmts w ∖ {[h]})).
Definition prepared_stmt_new (query : list byte) : M (connection * StmtWorld) prepared_stmt :=
  with_mutex
    (s ← get_state;
     made ← on_snd (zoom sw_my set_my (on_conn (con_my_conn (fst s)) mysql_stmt_init));
     if negb made then throw bad_alloc
     else
       w ← gets snd;
       let h := mw_next (sw_my w) in
       on_snd (put_state (mkStmtWorld
         (mkMyWorld (mw_db (sw_my w)) (mw_conns (sw_my w)) (mw_results (sw_my w)) (h + 1)%N)
         (sw_vars w) ({[h]} ∪ sw_stmts w)));;
       rc ← on_snd (stmt_call h (λ h d, mysql_stmt_prepare h query d));
       if negb (rc =? 0) then
         on_snd (stmt_close h);; throw (runtime_error "Failed to prepare stmt: ")
       else
         n ← on_snd (stmt_call h (λ h d, (mysql_stmt_param_count h d, d)));
         meta ← on_snd (stmt_call h (λ h d, (mysql_stmt_result_metadata h d, d)));
         mret (mkStmt h (bind_set_new n) (bind_set_new (default 0%nat meta)))).
Definition prepared_stmt_delete : M W unit :=
  with_mutex (p ← get_stmt; on_snd (on_snd (stmt_close (ps_stmt p)))).

Definition bind_param (args : list (bind_kind * N)) : M W unit :=
  on_snd (on_fst (zoom ps_param_binds put_params (bind_variables args))).
Definition bind_result (args : list (bind_kind * N)) : M W unit :=
  on_snd (on_fst (zoom ps_result_binds put_results (bind_variables args))).

(** [post_execute] of every wrapper does nothing. *)
Definition execute : M W bool :=
  with_mutex
    (p ← get_stmt;
     l ← on_vars (pre_execute (ps_param_binds p));
     set_param_binds l;;
     rc ← on_stmt (λ h d, mysql_stmt_bind_param h (sl_bind <$> l) d);
     if negb (rc =? 0) then mret false
     else
       params ← on_vars (read_params l);
       rc ← on_stmt (λ h d, mysql_stmt_execute h params d);
       mret (rc =? 0)).

(** The loop over the columns that are fetched again, in their order; [post_refetch]
    of every wrapper does nothing. *)
Fixpoint refetch (i : nat) (flags : list bool) (l : mysql_bind_set) : M W (bool * mysql_bind_set) :=
  match flags, l with
  | flag :: flags, sl :: l =>
      if flag : bool then
        '(rc, wr) ← on_stmt (λ h d, mysql_stmt_fetch_column h (sl_bind sl) i d);
        if negb (rc =? 0) then mret (false, sl :: l)
        else
          sl ← on_vars (run_slot (write_one wr) sl);
          '(ok, l) ← refetch (S i) flags l;
          mret (ok, sl :: l)
      else '(ok, l) ← refetch (S i) flags l; mret (ok, sl :: l)
  | _, _ => mret (true, l)
  end.
Definition MYSQL_DATA_TRUNCATED : Z := 101.
Definition stmt_fetch : M W bool :=
  with_mutex
    (p ← get_stmt;
     l ← on_vars (pre_fetch (ps_result_binds p));
     set_result_binds l;;
     rc ← on_stmt (λ h d, mysql_stmt_bind_result h (sl_bind <$> l) d);
     if negb (rc =? 0) then mret false
     else
       '(rc, row) ← on_stmt (λ h d, mysql_stmt_fetch h (sl_bind <$> l) d);
       l ← on_vars (write_row row l);
       set_result_binds l;;
       if (rc =? MYSQL_DATA_TRUNCATED) || (rc =? 0) then
         '(l, flags) ← on_vars (post_fetch l);
         '(ok, l) ← refetch 0 flags l;
         set_result_binds l;;
         mret ok
       else mret false).
Definition stmt_error_code : M W Z := on_stmt (λ h d, (mysql_stmt_errno h d, d)).
Definition stmt_error_message : M W (list byte) := on_stmt (λ h d, (mysql_stmt_error h d, d)).
End Statement.

(** ** What a fetch leaves in the variables *)

(** What the library leaves in a variable for a number of the server: the number
    where it fits the type of the bind, else what is left of it. *)
Definition bind_range (ty : enum_field_types) (unsigned : bool) : option (Z * Z) :=
  let range w := Some (if unsigned then (0, 2 ^ w) else (- 2 ^ (w - 1), 2 ^ (w - 1))) in
  match ty with
  | MYSQL_TYPE_TINY => range 8
  | MYSQL_TYPE_SHORT => range 16
  | MYSQL_TYPE_LONG => range 32
  | MYSQL_TYPE_LONGLONG => range 64
  | _ => None
  end.
Class NumberStore : Type := {
  store_number : enum_field_types → bool → Z → Z;
  store_fits ty u lo hi n : bind_range ty u = Some (lo, hi) → lo ≤ n < hi → store_number ty u n = n;
  store_range ty u lo hi n : bind_range ty u = Some (lo, hi) → lo ≤ store_number ty u n < hi
}.
Definition stored_number `{NumberStore} (t : number_type) (n : Z) : Z :=
  store_number (mysql_type t) (is_unsigned_type t) n.

(** The library as it is documented: [stmt_row] is the row that the next fetch
    gets, null, number or text by column, and [stmt_current] the one that was
    fetched. *)
Inductive column : Type := ColNum (n : Z) | ColText (t : list byte).
Definition fits (b : MYSQL_BIND) (c : option column) : Prop :=
  match c with
  | None => True
  | Some (ColNum _) => mb_buffer_type b ≠ MYSQL_TYPE_STRING
  | Some (ColText _) => mb_buffer_type b = MYSQL_TYPE_STRING
  end.
Definition write_of `{NumberStore} (b : MYSQL_BIND) (c : option column) : written :=
  match c with
  | None => mkWritten true 0 CNothing
  | Some (ColNum n) => mkWritten false 0 (CNumber (store_number (mb_buffer_type b) (mb_is_unsigned b) n))
  | Some (ColText t) => mkWritten false (zlen t) (CText (take (Z.to_nat (mb_buffer_length b)) t))
  end.
Class MySQLStmtLaws `{MySQLStmt} `{NumberStore} : Type := {
  stmt_row : N → db → option (list (option column));
  stmt_current : N → db → option (list (option column));
  law_bind_result h binds d row :
    stmt_row h d = Some row → length binds = length row →
    ∃ d', mysql_stmt_bind_result h binds d = (0, d') ∧ stmt_row h d' = Some row;
  law_fetch h binds d row :
    stmt_row h d = Some row → Forall2 fits binds row →
    ∃ rc d', mysql_stmt_fetch h binds d = (rc, zip_with write_of binds row, d')
      ∧ (rc = 0 ∨ rc = MYSQL_DATA_TRUNCATED) ∧ stmt_current h d' = Some row;
  law_fetch_column h b i d row c :
    stmt_current h d = Some row → row !! i = Some c → fits b c →
    ∃ d', mysql_stmt_fetch_column h b i d = (0, write_of b c, d') ∧ stmt_current h d' = Some row
}.

(** A slot with its wrapper and the value of its variable. *)
Record cell : Type := mkCell { ce_bind : MYSQL_BIND; ce_wrapper : wrapper; ce_value : bound_var }.
Definition ce_id (c : cell) : N := wrapper_data (ce_wrapper c).
Definition slot_of (c : cell) : slot := mkSlot (ce_bind c) (Some (ce_wrapper c)).
Definition cell_step (f : slot_step) (c : cell) : option cell :=
  '(b, w, v) ← f (ce_bind c) (ce_wrapper c) (ce_value c); Some (mkCell b w v).

Section Cells.
Local Abbreviation V := (gmap N bound_var).

Definition has_cells (vars : V) (l : list cell) : Prop := Forall (λ c, vars !! ce_id c = Some (ce_value c)) l.
(** From [vars] to [vars'] only the variables [ids] have changed. *)
Definition only_on (ids : list N) (vars vars' : V) : Prop := ∀ d, d ∉ ids → vars' !! d = vars !! d.

Definition keeps_id (f : slot_step) : Prop :=
  ∀ c c', cell_step f c = Some c' → ce_id c' = ce_id c.

Lemma run_slot_run f c c' vars :
  keeps_id f → cell_step f c = Some c' → vars !! ce_id c = Some (ce_value c) →
  run_slot f (slot_of c) vars = Done (<[ce_id c := ce_value c']> vars) (slot_of c').
Proof.
  intros Hid Hf Hv. specialize (Hid _ _ Hf). unfold run_slot, cell_step, ce_id in *. cbn [slot_of sl_wrapper sl_bind].
  unfold get_state, put_state. repeat (run_step; cbn [deref]). rewrite Hv. cbn [deref]. run_step.
  destruct (f (ce_bind c) (ce_wrapper c) (ce_value c)) as [[[b w] v]|]; [|done]. injection Hf as <-.
  cbn [deref]. by run_step.
Qed.

(** The cells behind one that changes keep their variables. *)
Lemma has_cells_insert vars c l v :
  has_cells vars l → ce_id c ∉ map ce_id l → has_cells (<[ce_id c := v]> vars) l.
Proof.
  intros Hl Hc. apply Forall_forall. intros c' Hc'. rewrite lookup_insert_ne.
  - unfold has_cells in Hl. rewrite Forall_forall in Hl. by apply Hl.
  - intros E. apply Hc. rewrite E. apply list_elem_of_fmap. by exists c'.
Qed.

Lemma step_ids fs cells cells' :
  Forall keeps_id fs → Forall3 (λ f c c', cell_step f c = Some c') fs cells cells' → map ce_id cells' = map ce_id cells.
Proof.
  intros Hfs Hst. induction Hst as [|f c c' fs l l' Hf _ IH]; [done|]. apply Forall_cons in Hfs as [Hid Hfs].
  simpl. by rewrite (Hid _ _ Hf), IH.
Qed.
(** A pass over cells with different variables. *)
Lemma run_each_run fs cells cells' : ∀ vars,
  Forall keeps_id fs → Forall3 (λ f c c', cell_step f c = Some c') fs cells cells' →
  NoDup (map ce_id cells) → has_cells vars cells →
  ∃ vars', run_each fs (map slot_of cells) vars = Done vars' (map slot_of cells')
    ∧ has_cells vars' cells' ∧ only_on (map ce_id cells) vars vars'.
Proof.
  intros vars Hfs Hst. revert vars. induction Hst as [|f c c' fs l l' Hf Hst IH]; intros vars Hd Hv; [by exists vars|].
  apply Forall_cons in Hfs as [Hid Hfs]. apply NoDup_cons in Hd as [Hc Hd]. apply Forall_cons in Hv as [Hvc Hv].
  destruct (IH Hfs (<[ce_id c := ce_value c']> vars) Hd) as (vars' & E & Hv' & Ho); [by apply has_cells_insert|].
  exists vars'. cbn [run_each map]. rewrite bind_run, (run_slot_run f c c') by done. cbn [bind_outcome].
  rewrite bind_run, E. split; [done|]. split.
  - apply Forall_cons. split; [|done]. rewrite (Hid _ _ Hf), (Ho _ Hc). apply lookup_insert_eq.
  - intros d. simpl. rewrite not_elem_of_cons. intros [Hne Hd']. rewrite Ho by done. by rewrite lookup_insert_ne.
Qed.
(** A pass that leaves the variables as they are, which need not be different. *)
Lemma run_slots_same f cells cells' : ∀ vars,
  keeps_id f → Forall2 (λ c c', cell_step f c = Some c' ∧ ce_value c' = ce_value c) cells cells' →
  has_cells vars cells → run_slots f (map slot_of cells) vars = Done vars (map slot_of cells').
Proof.
  intros vars Hid Hst Hv. induction Hst as [|c c' l l' [Hf Hsame] _ IH]; [done|].
  apply Forall_cons in Hv as [Hvc Hv]. cbn [run_slots map].
  rewrite bind_run, (run_slot_run f c c') by done. cbn [bind_outcome].
  by rewrite Hsame, insert_id, bind_run, IH.
Qed.
Lemma run_slots_each f l : ∀ vars, run_slots f l vars = run_each ((λ _, f) <$> l) l vars.
Proof.
  induction l as [|sl l IH]; intros vars; [done|]. cbn [run_slots fmap list_fmap run_each]. rewrite !bind_run.
  destruct (run_slot f sl vars) as [vars' sl'| | |]; try done. cbn [bind_outcome]. by rewrite !bind_run, IH.
Qed.
Definition flags_of (cells : list cell) : list bool := map (λ c, post_fetch_again (ce_bind c) (ce_wrapper c)) cells.
Lemma post_fetch_each cells : ∀ vars,
  post_fetch (map slot_of cells) vars
  = bind_outcome (run_slots post_fetch_one (map slot_of cells) vars) (λ vars' l, Done vars' (l, flags_of cells)).
Proof.
  induction cells as [|c cells IH]; intros vars; [done|]. cbn [post_fetch map run_slots]. rewrite !bind_run.
  destruct (run_slot post_fetch_one (slot_of c) vars) as [vars' sl'| | |]; try done. cbn [bind_outcome].
  rewrite !bind_run, IH. by destruct (run_slots post_fetch_one (map slot_of cells) vars').
Qed.

(** The steps keep the variable of a wrapper. *)
Ltac step_cases c :=
  destruct c as [b [t d|t d pd|d|d] [n|o|s|[s|]]]; unfold cell_step; cbn; intros; simplify_eq; try done.
Lemma pre_execute_keeps_id : keeps_id pre_execute_one.
Proof. intros c c'. by step_cases c. Qed.
Lemma pre_fetch_keeps_id : keeps_id pre_fetch_one.
Proof. intros c c'. by step_cases c. Qed.
Lemma post_fetch_keeps_id : keeps_id post_fetch_one.
Proof.
  intros c c'. destruct c as [b [t d|t d pd|d|d] [n|o|s|[s|]]];
    unfold cell_step, post_fetch_one, string_post_fetch, optional_string_post_fetch; cbn; repeat case_match; cbn; intros; simplify_eq; done.
Qed.
Lemma write_keeps_id wr : keeps_id (write_one wr).
Proof.
  intros c c'. destruct c as [b [t d|t d pd|d|d] [n|o|s|[s|]]]; unfold cell_step, write_one; cbn;
    repeat case_match; cbn; intros; simplify_eq; done.
Qed.
End Cells.

Section Values.
Context `{NumberStore}.

(** A variable for a column, and what a fetch makes of it: a number keeps its value
    when the column is null.  A [bool] is for a column of zeros and ones. *)
Definition compatible (w : wrapper) (v : bound_var) (c : option column) : Prop :=
  match w, v with
  | WNum t _, BvNum _ | WOptNum t _ _, BvOptNum _ =>
      match c with Some (ColText _) => False | Some (ColNum n) => is_value t n = true | None => True end
  | WStr _, BvStr _ | WOptStr _, BvOptStr _ => match c with Some (ColNum _) => False | _ => True end
  | _, _ => False
  end.
Definition fetched_value (w : wrapper) (v : bound_var) (c : option column) : bound_var :=
  match w, v, c with
  | WNum t _, BvNum _, Some (ColNum n) => BvNum (stored_number t n)
  | WOptNum t _ _, BvOptNum _, Some (ColNum n) => BvOptNum (Some (stored_number t n))
  | WOptNum _ _ _, BvOptNum _, None => BvOptNum None
  | WStr _, BvStr _, Some (ColText t) => BvStr t
  | WStr _, BvStr _, None => BvStr []
  | WOptStr _, BvOptStr _, Some (ColText t) => BvOptStr (Some t)
  | WOptStr _, BvOptStr _, None => BvOptStr None
  | _, v, _ => v
  end.
Lemma stored_value t n : is_value t n = true → is_value t (stored_number t n) = true.
Proof.
  destruct t; try done. intros Hn. unfold stored_number. cbn.
  rewrite (store_fits _ _ 0 256); [done|done|]. cbn in Hn. lia.
Qed.

Lemma length_resize n s : 0 ≤ n → zlen (resize n s) = n.
Proof.
  intros Hn. unfold resize, zlen. rewrite length_app, length_take, length_replicate. lia.
Qed.
Lemma overwrite_all t s : zlen t = zlen s → overwrite t s = t.
Proof. intros Hl. unfold overwrite. rewrite drop_ge by (unfold zlen in Hl; lia). apply app_nil_r. Qed.

(** The cells of one column, from before the fetch to after the second one. *)
Record column_run (c0 : cell) (col : option column) (c1 c2 c3 c4 : cell) : Prop := {
  cr_pre : cell_step pre_fetch_one c0 = Some c1;
  cr_fits : fits (ce_bind c1) col;
  cr_write : cell_step (write_one (write_of (ce_bind c1) col)) c1 = Some c2;
  cr_post : cell_step post_fetch_one c2 = Some c3;
  cr_again : if post_fetch_again (ce_bind c2) (ce_wrapper c2)
             then fits (ce_bind c3) col ∧ cell_step (write_one (write_of (ce_bind c3) col)) c3 = Some c4
             else c4 = c3;
  cr_value : ce_value c4 = fetched_value (ce_wrapper c0) (ce_value c0) col
}.

(** The buffer takes as much of a text as it has room for. *)
Lemma room n (t s : list byte) : 0 ≤ n → (zlen (take (Z.to_nat n) t) <=? zlen (resize n s)) = true.
Proof. intros Hn. rewrite length_resize by done. apply Z.leb_le. unfold zlen. rewrite length_take. lia. Qed.
Lemma whole_text t s : overwrite (take (Z.to_nat (zlen t)) t) (resize (zlen t) s) = t.
Proof.
  pose proof (zlen_nonneg t). rewrite firstn_all_zlen. apply overwrite_all. by rewrite length_resize.
Qed.

Lemma again_true b : 0 < mb_length_value b → string_again b = true.
Proof. intros Hb. by apply Z.ltb_lt. Qed.

Ltac text_step :=
  unfold cell_step, write_one, post_fetch_one, string_post_fetch, optional_string_post_fetch, post_fetch_again; cbn -[resize overwrite take zlen Z.to_nat string_again];
  rewrite ?room by (done || apply zlen_nonneg); rewrite ?again_true by done.

Lemma column_runs c0 col :
  compatible (ce_wrapper c0) (ce_value c0) col → ∃ c1 c2 c3 c4, column_run c0 col c1 c2 c3 c4.
Proof.
  destruct c0 as [b w v]. cbn [ce_wrapper ce_value]. intros Hc.
  destruct w as [t d|t d pd|d|d], v as [n|o|s|o]; try done;
    destruct col as [[m|tx]|]; try done; unfold compatible in Hc.
  - do 4 eexists. split; try (unfold cell_step; cbn; reflexivity). by destruct t.
  - do 4 eexists. by split; try (unfold cell_step; cbn; reflexivity).
  - apply stored_value in Hc. do 4 eexists.
    split; try (unfold cell_step; cbn -[is_value]; unfold stored_number in Hc; rewrite ?Hc; reflexivity).
    by destruct t.
  - do 4 eexists. by split; try (unfold cell_step; cbn; reflexivity).
  - destruct (Z.ltb_spec 0 (zlen tx)) as [Hlt|Hle].
    + do 4 eexists. split; [done|done|text_step; reflexivity|text_step; reflexivity|text_step..].
      * split; [done|]. reflexivity.
      * by rewrite whole_text.
    + destruct tx as [|x tx]; [|rewrite zlen_cons in Hle; pose proof (zlen_nonneg tx); lia].
      do 4 eexists. by split; [done|done|text_step; reflexivity|text_step; reflexivity|done|].
  - do 4 eexists. by split; [done|done|text_step; reflexivity|text_step; reflexivity|done|].
  - destruct (Z.ltb_spec 0 (zlen tx)) as [Hlt|Hle].
    + do 4 eexists. split; [done|done|text_step; reflexivity|text_step; reflexivity|text_step..].
      * split; [done|]. reflexivity.
      * by rewrite whole_text.
    + destruct tx as [|x tx]; [|rewrite zlen_cons in Hle; pose proof (zlen_nonneg tx); lia].
      do 4 eexists. by split; [done|done|text_step; reflexivity|text_step; reflexivity|done|].
  - do 4 eexists. by split; [done|done|text_step; reflexivity|text_step; reflexivity|done|].
Qed.

(** The passes of a fetch over all columns. *)
Definition same_step (f : slot_step) (l : list cell) : list slot_step := (λ _, f) <$> map slot_of l.
Definition steps (fs : list slot_step) (l l' : list cell) : Prop := Forall3 (λ f c c', cell_step f c = Some c') fs l l'.
Definition writes_of (l : list cell) (row : list (option column)) : list written :=
  zip_with write_of (ce_bind <$> l) row.
Inductive again : list (option column) → list cell → list cell → list cell → Prop :=
| again_nil : again [] [] [] []
| again_cons col row c2 l2 c3 l3 c4 l4 :
    (if post_fetch_again (ce_bind c2) (ce_wrapper c2)
     then fits (ce_bind c3) col ∧ cell_step (write_one (write_of (ce_bind c3) col)) c3 = Some c4
     else c4 = c3) →
    again row l2 l3 l4 → again (col :: row) (c2 :: l2) (c3 :: l3) (c4 :: l4).

Definition compatible_row (l : list cell) (row : list (option column)) : Prop :=
  Forall2 (λ c col, compatible (ce_wrapper c) (ce_value c) col) l row.

Lemma columns_run l row :
  compatible_row l row →
  ∃ l1 l2 l3 l4, steps (same_step pre_fetch_one l) l l1 ∧ Forall2 fits (ce_bind <$> l1) row
    ∧ steps (write_one <$> writes_of l1 row) l1 l2 ∧ steps (same_step post_fetch_one l2) l2 l3
    ∧ again row l2 l3 l4 ∧ Forall2 (λ c c4, ce_id c4 = ce_id c) l l4
    ∧ map ce_value l4 = zip_with (λ c, fetched_value (ce_wrapper c) (ce_value c)) l row.
Proof.
  intros Hl. induction Hl as [|c col l row Hc _ (l1 & l2 & l3 & l4 & H1 & Hf & H2 & H3 & Ha & Hi & Hv)].
  { exists [], [], [], []. split_and!; constructor. }
  destruct (column_runs c col Hc) as (c1 & c2 & c3 & c4 & [Hp Hfi Hw Hpo Hag Hva]).
  exists (c1 :: l1), (c2 :: l2), (c3 :: l3), (c4 :: l4). split_and!; try (constructor; done).
  - constructor; [|done].
    assert (E4 : ce_id c4 = ce_id c3).
    { destruct (post_fetch_again _ _); [|by subst]. destruct Hag as [_ Hag]. by apply write_keeps_id in Hag. }
    rewrite E4, (post_fetch_keeps_id _ _ Hpo), (write_keeps_id _ _ _ Hw). by apply pre_fetch_keeps_id.
  - simpl. by rewrite Hva, Hv.
Qed.

End Values.

Section Fetch.
Context `{MySQLStmt} {NS : NumberStore}.
Local Abbreviation SW := (prepared_stmt * StmtWorld)%type.
Local Abbreviation W := (connection * SW)%type.

(** The state with another database and other variables. *)
Definition at_db (d : db) (m : MyWorld) : MyWorld := mkMyWorld d (mw_conns m) (mw_results m) (mw_next m).
Definition at_state (c : connection) (p : prepared_stmt) (w : StmtWorld) (d : db) (vars : gmap N bound_var) : W :=
  (c, (p, mkStmtWorld (at_db d (sw_my w)) vars (sw_stmts w))).

Lemma on_stmt_run {A} (f : N → db → A * db) c p w d vars :
  on_stmt f (at_state c p w d vars)
  = Done (at_state c p w (snd (f (ps_stmt p) d)) vars) (fst (f (ps_stmt p) d)).
Proof.
  unfold on_stmt. run_step. unfold at_state. rewrite on_snd_run, on_snd_run. unfold stmt_call. run_step.
  cbn [sw_my mw_db at_db]. by destruct (f (ps_stmt p) d).
Qed.
Lemma on_vars_run {A} (m : M (gmap N bound_var) A) c p w d vars :
  on_vars m (at_state c p w d vars) = map_state (at_state c p w d) (m vars).
Proof. unfold on_vars, at_state. rewrite !on_snd_run. unfold zoom. cbn [sw_vars]. by destruct (m vars). Qed.
Lemma set_results_run l c p w d vars :
  set_result_binds l (at_state c p w d vars) = Done (at_state c (put_results l p) w d vars) tt.
Proof. done. Qed.
Lemma set_params_run l c p w d vars :
  set_param_binds l (at_state c p w d vars) = Done (at_state c (put_params l p) w d vars) tt.
Proof. done. Qed.

Context {L : MySQLStmtLaws}.

(** The columns that were cut are fetched again. *)
Lemma refetch_run l4 : ∀ row l2 l3 i all c p w d vars,
  again row l2 l3 l4 → (∀ k, all !! (i + k)%nat = row !! k) → stmt_current (ps_stmt p) d = Some all →
  NoDup (map ce_id l3) → has_cells vars l3 →
  ∃ d' vars', refetch i (flags_of l2) (map slot_of l3) (at_state c p w d vars)
      = Done (at_state c p w d' vars') (true, map slot_of l4)
    ∧ has_cells vars' l4 ∧ only_on (map ce_id l3) vars vars'.
Proof.
  induction l4 as [|c4 l4 IH]; intros row l2 l3 i all c p w d vars Hag Hall Hcur Hd Hv; inversion Hag; subst.
  { by exists d, vars. }
  match goal with H : again ?r ?l ?l' l4 |- _ => rename r into row', l into l2', l' into l3', H into Hag' end.
  match goal with H : if post_fetch_again (ce_bind ?x) _ then fits (ce_bind ?y) ?z ∧ _ else _ |- _ =>
    rename x into c2, y into c3, z into col, H into Hstep end.
  cbn [map] in Hd. apply NoDup_cons in Hd as [Hc3 Hd]. apply Forall_cons in Hv as [Hvc Hv].
  assert (Hall' : ∀ k, all !! (S i + k)%nat = row' !! k).
  { intros k. specialize (Hall (S k)). by rewrite Nat.add_succ_comm. }
  cbn [flags_of map refetch]. destruct (post_fetch_again (ce_bind c2) (ce_wrapper c2)).
  - destruct Hstep as [Hfit Hstep].
    destruct (law_fetch_column (ps_stmt p) (ce_bind c3) i d all col) as (d1 & E1 & Hcur1); [done| |done|].
    { specialize (Hall 0%nat). by rewrite Nat.add_0_r in Hall. }
    rewrite bind_run, on_stmt_run. cbn [slot_of sl_bind]. rewrite E1. cbn [fst snd bind_outcome].
    rewrite Z.eqb_refl. cbn [negb]. change (mkSlot (ce_bind c3) (Some (ce_wrapper c3))) with (slot_of c3).
    rewrite bind_run, on_vars_run, (run_slot_run _ c3 c4 vars (write_keeps_id _) Hstep Hvc). cbn [map_state bind_outcome].
    destruct (IH row' l2' l3' (S i) all c p w d1 (<[ce_id c3 := ce_value c4]> vars) Hag' Hall' Hcur1 Hd)
      as (d' & vars' & E & Hv' & Ho); [by apply has_cells_insert|].
    exists d', vars'. change (map (λ c, post_fetch_again (ce_bind c) (ce_wrapper c)) l2') with (flags_of l2').
    rewrite bind_run, E. split; [done|]. split.
    + apply Forall_cons. split; [|done]. rewrite (write_keeps_id _ _ _ Hstep), (Ho _ Hc3). apply lookup_insert_eq.
    + intros x. simpl. rewrite not_elem_of_cons. intros [Hne Hx]. rewrite Ho by done. by rewrite lookup_insert_ne.
  - subst c4. destruct (IH row' l2' l3' (S i) all c p w d vars Hag' Hall' Hcur Hd Hv) as (d' & vars' & E & Hv' & Ho).
    exists d', vars'. change (map (λ c, post_fetch_again (ce_bind c) (ce_wrapper c)) l2') with (flags_of l2').
    rewrite bind_run, E. split; [done|]. split.
    + apply Forall_cons. split; [|done]. by rewrite (Ho _ Hc3).
    + intros x. simpl. rewrite not_elem_of_cons. intros [Hne Hx]. by apply Ho.
Qed.

Lemma binds_of l : sl_bind <$> map slot_of l = ce_bind <$> l.
Proof. induction l as [|c l IH]; [done|]. simpl. by f_equal. Qed.
Lemma same_step_keeps f l : keeps_id f → Forall keeps_id (same_step f l).
Proof. intros Hf. unfold same_step. rewrite Forall_fmap. apply Forall_forall. by intros. Qed.
Lemma writes_keep row : Forall keeps_id (write_one <$> row).
Proof. rewrite Forall_fmap. apply Forall_forall. intros wr _. apply write_keeps_id. Qed.

Lemma at_state_id c p w : (c, (p, w)) = at_state c p w (mw_db (sw_my w)) (sw_vars w).
Proof. by destruct w as [[]]. Qed.

(** C22. When the next row of an executed statement is fetched into different variables, numbers into
    numeric ones and texts into strings, every bound variable gets the value of its column: a string
    is read whole, however long it is (what does not fit into the buffer of one character is fetched
    again), an optional is empty for a null, an empty string stands for a null, and a number keeps
    its old value.  A number of the server that fits an integer variable is read as it is; of one
    that does not the variable gets what the library cuts it to, and the fetch succeeds all the
    same.  No other variable changes. *)
Theorem fetch_reads_row my p w l row :
  ps_result_binds p = map slot_of l → has_cells (sw_vars w) l → NoDup (map ce_id l) → compatible_row l row →
  stmt_row (ps_stmt p) (mw_db (sw_my w)) = Some row →
  ∃ p' w', stmt_fetch (mkConnection my false, (p, w)) = Done (mkConnection my false, (p', w')) true
    ∧ (∀ i c col, l !! i = Some c → row !! i = Some col →
         sw_vars w' !! ce_id c = Some (fetched_value (ce_wrapper c) (ce_value c) col))
    ∧ (∀ t lo hi n, bind_range (mysql_type t) (is_unsigned_type t) = Some (lo, hi) →
         lo ≤ stored_number t n < hi ∧ (lo ≤ n < hi → stored_number t n = n))
    ∧ only_on (map ce_id l) (sw_vars w) (sw_vars w').
Proof.
  intros Hp Hv Hd Hc Hrow. set (d0 := mw_db (sw_my w)) in *.
  destruct (columns_run l row Hc) as (l1 & l2 & l3 & l4 & H1 & Hf & H2 & H3 & Ha & Hid & Hval).
  pose proof (same_step_keeps _ l pre_fetch_keeps_id) as K1. pose proof (writes_keep (writes_of l1 row)) as K2.
  pose proof (same_step_keeps _ l2 post_fetch_keeps_id) as K3.
  pose proof (step_ids _ _ _ K1 H1) as I1. pose proof (step_ids _ _ _ K2 H2) as I2. pose proof (step_ids _ _ _ K3 H3) as I3.
  unfold stmt_fetch. rewrite with_mutex_run. rewrite (at_state_id (mkConnection my true) p w). fold d0.
  unfold get_stmt. rewrite bind_run. unfold gets. cbn [bind_outcome fst snd at_state].
  rewrite Hp, bind_run. fold (at_state (mkConnection my true) p w d0 (sw_vars w)). rewrite on_vars_run.
  unfold pre_fetch. rewrite run_slots_each.
  destruct (run_each_run _ l l1 (sw_vars w) K1 H1 Hd Hv) as (v1 & E1 & Hv1 & O1).
  unfold same_step in E1. rewrite E1. cbn [map_state bind_outcome].
  rewrite bind_run, set_results_run. cbn [bind_outcome]. rewrite bind_run, on_stmt_run, binds_of. cbn [put_results ps_stmt].
  pose proof (Forall2_length _ _ _ Hf) as Hlen.
  destruct (law_bind_result (ps_stmt p) (ce_bind <$> l1) d0 row Hrow Hlen) as (d1 & -> & Hrow1). cbn [fst snd bind_outcome].
  rewrite Z.eqb_refl. cbn [negb]. rewrite bind_run, on_stmt_run. cbn [put_results ps_stmt].
  destruct (law_fetch (ps_stmt p) (ce_bind <$> l1) d1 row Hrow1 Hf) as (rc & d2 & -> & Hrc & Hcur). cbn [fst snd bind_outcome].
  rewrite bind_run, on_vars_run. unfold write_row.
  destruct (run_each_run _ l1 l2 v1 K2 H2) as (v2 & E2 & Hv2 & O2); [by rewrite I1|done|].
  unfold writes_of in E2. rewrite E2. cbn [map_state bind_outcome].
  rewrite bind_run, set_results_run. cbn [bind_outcome].
  replace ((rc =? MYSQL_DATA_TRUNCATED) || (rc =? 0)) with true
    by (by destruct Hrc as [->| ->]).
  rewrite bind_run, on_vars_run, post_fetch_each, run_slots_each.
  destruct (run_each_run _ l2 l3 v2 K3 H3) as (v3 & E3 & Hv3 & O3); [by rewrite I2, I1|done|].
  unfold same_step in E3. rewrite E3. cbn [map_state bind_outcome].
  destruct (refetch_run l4 row l2 l3 0 row (mkConnection my true)
              (put_results (map slot_of l2) (put_results (map slot_of l1) p)) w d2 v3 Ha ltac:(done) Hcur)
    as (d4 & v4 & E4 & Hv4 & O4); [by rewrite I3, I2, I1|done|].
  rewrite bind_run, E4. cbn [bind_outcome]. rewrite bind_run, set_results_run. cbn [bind_outcome].
  do 2 eexists. split; [done|]. split_and!.
  - intros i c col Hi Hcol. destruct (Forall2_lookup_l _ _ _ _ _ Hid Hi) as (c4 & Hi4 & Eid).
    unfold has_cells in Hv4. rewrite Forall_forall in Hv4. cbn [sw_vars]. rewrite <- Eid, (Hv4 c4) by by eapply list_elem_of_lookup_2.
    f_equal. apply (f_equal (λ l, l !! i)) in Hval. rewrite list_lookup_fmap, Hi4, lookup_zip_with, Hi in Hval.
    cbn in Hval. rewrite Hcol in Hval. cbn in Hval. congruence.
  - intros t lo hi n Hr. split; [by eapply store_range|by apply store_fits].
  - intros x Hx. cbn [sw_vars]. rewrite O4, O3, O2, O1; [done|..]; by rewrite ?I3, ?I2, ?I1.
Qed.
End Fetch.

(** ** What an execution sends *)
Section Execute.
Context `{MySQLStmt}.

(** The value of a parameter: an optional number without a value is sent as the
    number that the wrapper took when there was one, never as null. *)
Definition sent_value (w : wrapper) (v : bound_var) : option param_value :=
  match w, v with
  | WNum t _, BvNum n => Some (PNumber (mysql_type t) (is_unsigned_type t) n)
  | WOptNum t _ pdata, BvOptNum o => Some (PNumber (mysql_type t) (is_unsigned_type t) (default pdata o))
  | WStr _, BvStr s | WOptStr _, BvOptStr (Some s) => Some (PText s)
  | WOptStr _, BvOptStr None => Some PNull
  | _, _ => None
  end.
Lemma param_run c :
  is_Some (sent_value (ce_wrapper c) (ce_value c)) →
  ∃ c', cell_step pre_execute_one c = Some c' ∧ ce_value c' = ce_value c
    ∧ param_of (ce_bind c') (ce_wrapper c') (ce_value c') = sent_value (ce_wrapper c) (ce_value c).
Proof.
  intros [x Hx]. destruct c as [b [t d|t d pd|d|d] [n|o|s|[s|]]]; try done; cbn [ce_wrapper ce_value] in *;
    eexists; (split; [unfold cell_step; cbn; reflexivity|]); (split; [done|]); unfold param_of;
    cbn -[Z.to_nat zlen]; try (by destruct t); by rewrite ?firstn_all_zlen.
Qed.
(** The bind of a parameter as the library gets it. *)
Definition execute_bind (c : cell) : MYSQL_BIND :=
  match pre_execute_one (ce_bind c) (ce_wrapper c) (ce_value c) with
  | Some (b, _, _) => b
  | None => ce_bind c
  end.
Lemma execute_bind_step c c' : cell_step pre_execute_one c = Some c' → execute_bind c = ce_bind c'.
Proof. unfold cell_step, execute_bind. by destruct (pre_execute_one _ _ _) as [[[b w] v]|]; intros [= <-]. Qed.
Lemma params_run l :
  Forall (λ c, is_Some (sent_value (ce_wrapper c) (ce_value c))) l →
  ∃ l1, Forall2 (λ c c', cell_step pre_execute_one c = Some c' ∧ ce_value c' = ce_value c) l l1
    ∧ ce_bind <$> l1 = execute_bind <$> l
    ∧ map (λ c, param_of (ce_bind c) (ce_wrapper c) (ce_value c)) l1 = map (λ c, sent_value (ce_wrapper c) (ce_value c)) l.
Proof.
  intros Hl. induction Hl as [|c l Hc _ (l1 & Hst & Hb & Hp)]; [exists []; by split_and!; try constructor|].
  destruct (param_run c Hc) as (c' & Hs & Hvc & Hpc). exists (c' :: l1). split_and!.
  - by constructor.
  - change (ce_bind c' :: (ce_bind <$> l1) = execute_bind c :: (execute_bind <$> l)).
    by rewrite (execute_bind_step c c' Hs), Hb.
  - simpl. congruence.
Qed.
Lemma read_params_run l vars ps :
  has_cells vars l → map (λ c, param_of (ce_bind c) (ce_wrapper c) (ce_value c)) l = Some <$> ps →
  read_params (map slot_of l) vars = Done vars ps.
Proof.
  intros Hv. revert ps. induction Hv as [|c l Hc _ IH]; intros [|p ps]; try done. cbn [map fmap list_fmap].
  intros [= Hp Hps]. cbn [read_params slot_of sl_wrapper sl_bind]. unfold get_state. repeat (run_step; cbn [deref]).
  unfold ce_id in Hc. rewrite Hc. cbn [deref]. run_step. rewrite Hp. cbn [deref]. run_step. by rewrite (IH ps).
Qed.

(** C39. Executing a statement sends its parameters in their order, each as its variable is at that time,
    not as it was when it was bound; but an optional number that is empty then is sent as the number
    that its wrapper took at the last execution with one, or zero, and never as null.  All variables
    are left as they are.  The result says whether the library took the binds and the statement was
    executed; with binds that are refused nothing is sent. *)
Theorem execute_sends my p w l ps rc1 d1 rc2 d2 :
  ps_param_binds p = map slot_of l → has_cells (sw_vars w) l →
  map (λ c, sent_value (ce_wrapper c) (ce_value c)) l = Some <$> ps →
  mysql_stmt_bind_param (ps_stmt p) (execute_bind <$> l) (mw_db (sw_my w)) = (rc1, d1) →
  mysql_stmt_execute (ps_stmt p) ps d1 = (rc2, d2) →
  ∃ p' w', execute (mkConnection my false, (p, w)) = Done (mkConnection my false, (p', w')) ((rc1 =? 0) && (rc2 =? 0))
    ∧ sw_vars w' = sw_vars w
    ∧ mw_db (sw_my w') = if rc1 =? 0 then d2 else d1.
Proof.
  intros Hp Hv Hps Eb Ee. set (d0 := mw_db (sw_my w)) in *.
  destruct (params_run l) as (l1 & H1 & Hb & Hpar).
  { apply Forall_forall. intros c Hc. apply list_elem_of_lookup in Hc as [i Hi].
    apply (f_equal (λ x, x !! i)) in Hps. rewrite !list_lookup_fmap, Hi in Hps. cbn in Hps.
    destruct (ps !! i); cbn in Hps; [|done]. injection Hps as ->. by eexists. }
  assert (Hv1 : has_cells (sw_vars w) l1).
  { eapply Forall2_Forall_r; [exact H1|]. unfold has_cells in Hv. rewrite Forall_forall in Hv. apply Forall_forall.
    intros c Hc c' [Hs ->]. rewrite (pre_execute_keeps_id _ _ Hs). by apply Hv. }
  unfold execute. rewrite with_mutex_run, (at_state_id (mkConnection my true) p w). fold d0.
  unfold get_stmt. rewrite bind_run. unfold gets. cbn [bind_outcome fst snd at_state].
  rewrite Hp, bind_run. fold (at_state (mkConnection my true) p w d0 (sw_vars w)). rewrite on_vars_run.
  unfold pre_execute. rewrite (run_slots_same _ l l1 _ pre_execute_keeps_id H1 Hv). cbn [map_state bind_outcome].
  rewrite bind_run, set_params_run. cbn [bind_outcome]. rewrite bind_run, on_stmt_run. cbn [ps_stmt put_params].
  rewrite binds_of, Hb, Eb. cbn [fst snd bind_outcome].
  destruct (rc1 =? 0); cbn [negb].
  2:{ by do 2 eexists. }
  rewrite bind_run, on_vars_run, (read_params_run l1 (sw_vars w) ps) by (done || congruence). cbn [map_state bind_outcome].
  rewrite bind_run, on_stmt_run. cbn [put_params ps_stmt]. rewrite Ee. cbn [fst snd bind_outcome].
  by do 2 eexists.
Qed.

(** An empty optional number is not sent as null. *)
Theorem empty_number_not_null t d pdata : sent_value (WOptNum t d pdata) (BvOptNum None) ≠ Some PNull.
Proof. done. Qed.

(** Binding as many variables as there are places sets all wrappers, in order; one
    more throws. *)
Lemma bind_impl_run args : ∀ idx (done_ rest : mysql_bind_set),
  length done_ = idx → (length args ≤ length rest)%nat →
  bind_variables_impl idx args (done_ ++ rest)
  = Done (done_ ++ zip_with (λ sl a, mkSlot (sl_bind sl) (Some (wrapper_new (fst a) (snd a)))) rest args
          ++ drop (length args) rest) tt.
Proof.
  induction args as [|a args IH]; intros idx done_ rest Hi Hl.
  { simpl. by destruct rest. }
  destruct rest as [|sl rest]; [simpl in Hl; lia|]. cbn [bind_variables_impl].
  unfold set_variable, get_state, put_state, mysql_bind_set. run_step.
  rewrite list_lookup_middle by done. run_step. rewrite insert_app_r_alt by lia.
  replace (idx - length done_)%nat with 0%nat by lia. cbn [insert list_insert].
  rewrite (app_assoc done_ [_] rest) || rewrite (cons_middle _ done_ rest), app_assoc.
  rewrite IH; [|rewrite length_app; simpl; lia|simpl in Hl; lia]. cbn [zip_with length drop].
  by rewrite <- app_assoc.
Qed.
Theorem bind_sets_all args n :
  (length args ≤ n)%nat →
  ∃ l, bind_variables args (bind_set_new n) = Done l tt ∧ length l = n
    ∧ (∀ i a, args !! i = Some a → sl_wrapper <$> l !! i = Some (Some (wrapper_new (fst a) (snd a))))
    ∧ ∀ i, (length args ≤ i < n)%nat → sl_wrapper <$> l !! i = Some None.
Proof.
  intros Hl. unfold bind_variables, bind_set_new, mysql_bind_set.
  pose proof (bind_impl_run args 0 [] (replicate n (mkSlot BIND_zero None)) eq_refl) as E.
  cbn [app] in E. rewrite length_replicate in E. rewrite E by done. eexists. split; [done|]. split_and!.
  - rewrite length_app, length_zip_with, length_drop, !length_replicate. lia.
  - intros i a Hi. pose proof (lookup_lt_Some _ _ _ Hi).
    rewrite lookup_app_l by (rewrite length_zip_with, length_replicate; lia).
    rewrite lookup_zip_with, lookup_replicate_2 by lia. cbn. by rewrite Hi.
  - intros i Hi. rewrite lookup_app_r by (rewrite length_zip_with, length_replicate; lia).
    rewrite lookup_drop, lookup_replicate_2; [done|]. rewrite length_zip_with, length_replicate. lia.
Qed.
End Execute.

(** ** Witnesses: a library that keeps the rows to come and the one that was fetched *)
Section Witness.
Definition demo_row_db : Type := list (list (option column)) * option (list (option column)).
Definition demo_stmt_mysql : MySQL := {|
  db := demo_row_db;
  mysql_real_query _ _ d := (0, d);
  mysql_next_result _ d := (-1, d);
  mysql_store_result _ d := (None, d);
  mysql_use_result _ d := (false, d);
  mysql_fetch_lengths_fails _ _ := false;
  mysql_errno _ _ := 0;
  mysql_error _ _ := [];
  mysql_ping _ d := (0, d);
  mysql_insert_id _ _ := 0;
  mysql_affected_rows _ _ := 0;
  mysql_set_server_option _ _ d := (0, d)
|}.
(** Conversion as a cast does it. *)
Definition demo_cut (lo hi n : Z) : Z := (n - lo) `mod` (hi - lo) + lo.
#[local] Instance demo_store : NumberStore.
Proof.
  refine (Build_NumberStore
            (λ ty u n, match bind_range ty u with Some (lo, hi) => demo_cut lo hi n | None => n end) _ _).
  - intros ty u lo hi n -> Hn. unfold demo_cut. rewrite Z.mod_small by lia. lia.
  - intros ty u lo hi n Hr. rewrite Hr. unfold demo_cut.
    assert (lo < hi) by (by destruct ty, u; cbn in Hr; simplify_eq).
    pose proof (Z.mod_pos_bound (n - lo) (hi - lo)). lia.
Defined.
Definition demo_fetch (binds : list MYSQL_BIND) (d : demo_row_db) : Z * list written * demo_row_db :=
  match fst d with
  | row :: rows => (0, zip_with write_of binds row, (rows, Some row))
  | [] => (100, [], d)
  end.
Definition demo_fetch_column (b : MYSQL_BIND) (i : nat) (d : demo_row_db) : Z * written * demo_row_db :=
  match snd d ≫= lookup i with
  | Some c => (0, write_of b c, d)
  | None => (1, mkWritten false 0 CNothing, d)
  end.
Definition demo_stmt : @MySQLStmt demo_stmt_mysql :=
  @Build_MySQLStmt demo_stmt_mysql (λ _ d, (true, d)) (λ _ _ d, (0, d)) (λ _ _, 1%nat) (λ _ _, None)
    (λ _ _ d, (0, d)) (λ _ _ d, (0, d)) (λ _ _ d, (0, d)) (λ _, demo_fetch) (λ _, demo_fetch_column)
    (λ _ d, d) (λ _ _, 0) (λ _ _, []).
#[local] Existing Instances demo_stmt_mysql demo_stmt.
#[local] Instance demo_stmt_laws : MySQLStmtLaws.
Proof.
  refine (@Build_MySQLStmtLaws demo_stmt_mysql demo_stmt demo_store (λ _ d, head (fst d)) (λ _ d, snd d) _ _ _).
  - intros h binds d row Hrow _. by exists d.
  - intros h binds [rows cur] row Hrow _. destruct rows as [|row' rows]; [done|]. injection Hrow as ->.
    exists 0, (rows, Some row). by split; [|split; [left|]].
  - intros h b i [rows cur] row c Hcur Hc _. cbn [snd] in Hcur. subst. exists (rows, Some row). split; [|done].
    cbn. unfold demo_fetch_column. cbn. by rewrite Hc.
Defined.

Definition demo_cells : list cell :=
  [mkCell BIND_zero (WNum N_int32 0) (BvNum 0); mkCell BIND_zero (WStr 1) (BvStr (string_bytes "old"));
   mkCell BIND_zero (WOptStr 2) (BvOptStr (Some [])); mkCell BIND_zero (WOptNum N_int32 3 7) (BvOptNum None);
   mkCell BIND_zero (WNum N_int8 4) (BvNum 1)].
Definition demo_vars : gmap N bound_var :=
  <[0%N := BvNum 0]> (<[1%N := BvStr (string_bytes "old")]> (<[2%N := BvOptStr (Some [])]>
    (<[3%N := BvOptNum None]> {[4%N := BvNum 1]}))).
Definition demo_row : list (option column) :=
  [Some (ColNum 5); Some (ColText (string_bytes "a longer text")); None; Some (ColNum (-3));
   Some (ColNum 300)].
Definition demo_stmt_world (d : demo_row_db) : StmtWorld :=
  @mkStmtWorld demo_stmt_mysql (@mkMyWorld demo_stmt_mysql d {[0%N]} ∅ 2%N) demo_vars {[1%N]}.
Lemma demo_has_cells : has_cells demo_vars demo_cells.
Proof. repeat constructor. Defined.
Lemma demo_ids : NoDup (map ce_id demo_cells).
Proof. apply (bool_decide_unpack _). reflexivity. Defined.

Lemma fetch_reads_row_witness :
  ∃ p' w',
    stmt_fetch (mkConnection (Some 0%N) false, (mkStmt 1 [] (map slot_of demo_cells), demo_stmt_world ([demo_row], None)))
    = Done (mkConnection (Some 0%N) false, (p', w')) true
    ∧ sw_vars w' !! 0%N = Some (BvNum 5)
    ∧ sw_vars w' !! 1%N = Some (BvStr (string_bytes "a longer text"))
    ∧ sw_vars w' !! 2%N = Some (BvOptStr None)
    ∧ sw_vars w' !! 3%N = Some (BvOptNum (Some (-3)))
    ∧ sw_vars w' !! 4%N = Some (BvNum 44).
Proof.
  destruct (fetch_reads_row (Some 0%N) (mkStmt 1 [] (map slot_of demo_cells)) (demo_stmt_world ([demo_row], None))
              demo_cells demo_row) as (p' & w' & E & Hv & _).
  - reflexivity.
  - exact demo_has_cells.
  - exact demo_ids.
  - repeat constructor.
  - reflexivity.
  - exists p', w'. split; [exact E|].
    split; [exact (Hv 0%nat _ _ eq_refl eq_refl)|]. split; [exact (Hv 1%nat _ _ eq_refl eq_refl)|].
    split; [exact (Hv 2%nat _ _ eq_refl eq_refl)|].
    split; [exact (Hv 3%nat _ _ eq_refl eq_refl)|exact (Hv 4%nat _ _ eq_refl eq_refl)].
Defined.

Lemma execute_sends_witness :
  ∃ p' w',
    execute (mkConnection (Some 0%N) false, (mkStmt 1 (map slot_of demo_cells) [], demo_stmt_world ([], None)))
    = Done (mkConnection (Some 0%N) false, (p', w')) true.
Proof.
  destruct (execute_sends (Some 0%N) (mkStmt 1 (map slot_of demo_cells) []) (demo_stmt_world ([], None)) demo_cells
              [PNumber MYSQL_TYPE_LONG false 0; PText (string_bytes "old"); PText []; PNumber MYSQL_TYPE_LONG false 7;
               PNumber MYSQL_TYPE_TINY false 1]
              0 ([], None) 0 ([], None)) as (p' & w' & E & _).
  - reflexivity.
  - exact demo_has_cells.
  - reflexivity.
  - reflexivity.
  - reflexivity.
  - exists p', w'. exact E.
Defined.
End Witness.
