(* ===== verification/MySqlFrees.v ===== *)
(** * The MySQL wrapper gives back what it takes

    For every function of MySqlResult.v, MySqlConnection.v and MySqlStatement.v:
    the result sets that are not freed after it are those of before, however it
    ends, and statements are made and closed by the constructor and the
    destructor of [prepared_stmt] alone.  The lengths of a row must be there:
    [fetch] leaks the result set when they are not. *)
From stdpp Require Import gmap strings list.
From coqutil Require Import Byte.
From S2P Require Import Prelude.
From S2P Require Import MlnUtils.
From S2P Require Import TextFormat.
From S2P Require Import Datetime.
From S2P Require Import MySqlResult.
From S2P Require Import MySqlConnection.
From S2P Require Import MySqlStatement.
#[local] Open Scope Z_scope.

(** ** Result sets *)
Section Frees.
Context `{FT : FloatText, Q : MySQL, !MySQLConnect, !MySQLStmt, !RealText}.
Context (lengths_ok : ∀ rs n, mysql_fetch_lengths_fails rs n = false).

Definition fresh_results (w : MyWorld) : Prop := ∀ h, h ∈ mw_results w → (h < mw_next w)%N.
(** The same result sets are left, and handles are not given twice. *)
Definition frees (w w' : MyWorld) : Prop :=
  fresh_results w → mw_results w' = mw_results w ∧ fresh_results w' ∧ (mw_next w ≤ mw_next w')%N.
#[export] Instance frees_preorder : PreOrder frees.
Proof.
  split.
  - by intros w.
  - intros w1 w2 w3 F12 F23 Hf. destruct (F12 Hf) as (E1 & Hf2 & L1). destruct (F23 Hf2) as (E2 & Hf3 & L2).
    split_and!; [congruence|done|lia].
Qed.
Lemma frees_same w d conns : frees w (mkMyWorld d conns (mw_results w) (mw_next w)).
Proof. intros Hf. by split_and!. Qed.
Local Abbreviation R := (rel_snd frees).

Lemma frees_on_conn {A} c (f : N → db → A * db) : keeps frees (on_conn c f).
Proof.
  intros w. unfold on_conn. destruct c as [c|]; [|done]. cbn [deref]. run_step. case_bool_decide; [|done].
  destruct (f c (mw_db w)) as [a d]. run_step. apply frees_same.
Qed.
Lemma frees_throw {A} c : keeps frees (throw_mysql (A := A) c).
Proof. intros w. unfold throw_mysql, throw. run_step. reflexivity. Qed.
#[local] Hint Resolve frees_on_conn frees_throw : keeps.

(** *** Results *)
Lemma frees_upd f : keeps R (upd_result f).
Proof. unfold upd_result. apply keeps_on_fst. typeclasses eauto. Qed.
Lemma frees_get : keeps R get_result.
Proof. apply keeps_gets. typeclasses eauto. Qed.
#[local] Hint Resolve frees_upd frees_get : keeps.

Lemma row_data_world row n : ∀ i (s : result * MyWorld), match row_data row i n s with Done s' _ => s' = s | Threw _ _ => False | _ => True end.
Proof.
  induction n as [|n IH]; intros i s; [done|]. cbn [row_data]. destruct (row !! i); [|done]. cbn [deref]. run_step.
  specialize (IH (Datatypes.S i) s). by destruct (row_data row (Datatypes.S i) n s).
Qed.
Lemma fetch_rows_world rs todo : ∀ n (s : result * MyWorld),
  match fetch_rows rs n todo s with Done s' _ => snd s' = snd s | Threw _ _ => False | _ => True end.
Proof.
  induction todo as [|row todo IH]; intros n [r w]; [done|]. cbn [fetch_rows]. rewrite lengths_ok.
  rewrite bind_run. pose proof (row_data_world row (Z.to_nat (res_fields rs)) 0 (r, w)) as Hr.
  destruct (row_data row 0 (Z.to_nat (res_fields rs)) (r, w)) as [s1 data| | |]; try done. subst s1.
  cbn [bind_outcome]. unfold upd_result. run_step. apply IH.
Qed.
(** A result set that is stored is one more, until it is freed. *)
Lemma store_result_adds c w :
  match store_result c w with
  | Done w' (Some (h, _)) => ∃ w1, frees w w1 ∧ h = mw_next w1 ∧
      mw_results w' = {[mw_next w1]} ∪ mw_results w1 ∧ mw_next w' = (mw_next w1 + 1)%N
  | Done w' None | Threw w' _ => frees w w'
  | _ => True
  end.
Proof.
  unfold store_result. rewrite bind_run. pose proof (frees_on_conn c mysql_store_result w) as Hc.
  destruct (on_conn c mysql_store_result w) as [w1 [rs|]|w1 e| |]; try done; run_step; by eauto.
Qed.
Lemma freed_again w w1 d conns results next :
  frees w w1 → results = {[mw_next w1]} ∪ mw_results w1 → next = (mw_next w1 + 1)%N →
  frees w (mkMyWorld d conns (results ∖ {[mw_next w1]}) next).
Proof.
  intros F -> ->. etrans; [exact F|]. intros Hf.
  assert (E : ({[mw_next w1]} ∪ mw_results w1) ∖ {[mw_next w1]} = mw_results w1).
  { apply set_eq. intros h. specialize (Hf h). rewrite elem_of_difference, elem_of_union, elem_of_singleton.
    split; [tauto|]. intros Hh. specialize (Hf Hh). split; [tauto|lia]. }
  split_and!; cbn [mw_results mw_next]; [done| |lia]. intros h. cbn. rewrite E. intros Hh%Hf. lia.
Qed.
Lemma frees_fetch : keeps R fetch.
Proof.
  intros [r w]. unfold fetch, get_result. run_step. destruct (fetched r); [unfold throw; reflexivity|].
  rewrite bind_run, on_snd_run. pose proof (store_result_adds (my_conn r) w) as Hc.
  destruct (store_result _ w) as [w2 [[h rs]|]|w2 e| |]; try done; run_step.
  destruct Hc as (w1 & F & -> & Er & En). unfold free_result, upd_result. repeat (run_step; cbn [deref]).
  rewrite on_fst_run. run_step. destruct (0 <? res_fields rs); cbn [when]; run_step.
  - match goal with |- context [fetch_rows rs 0 (res_rows rs) (?r1, w2)] => set (r' := r1) end.
    pose proof (fetch_rows_world rs (res_rows rs) 0 (r', w2)) as Hr.
    destruct (fetch_rows rs 0 (res_rows rs) (r', w2)) as [[r2 w3] []| | |]; try done. simpl in Hr. subst w3.
    repeat (run_step; rewrite ?on_fst_run, ?on_snd_run). by apply freed_again.
  - repeat (run_step; rewrite ?on_fst_run, ?on_snd_run). by apply freed_again.
Qed.
#[local] Hint Resolve frees_fetch : keeps.
Lemma frees_check : keeps R check_condition.
Proof. unfold check_condition. keeps_auto. Qed.
Lemma frees_free : keeps R free.
Proof. unfold free. keeps_auto. Qed.
Lemma frees_assign r : keeps R (result_assign r).
Proof. pose proof frees_free. unfold result_assign. keeps_auto. Qed.
#[local] Hint Resolve frees_check frees_free frees_assign : keeps.
Lemma frees_move i : keeps R (move_to i).
Proof. unfold move_to. keeps_auto. Qed.
#[local] Hint Resolve frees_move : keeps.
Lemma frees_count : keeps R count.
Proof. unfold count. keeps_auto. Qed.
Lemma frees_eof : keeps R eof.
Proof. unfold eof, itr_of. keeps_auto. Qed.
Lemma frees_seek n : keeps R (seek n).
Proof. unfold seek. keeps_auto. Qed.
Lemma frees_next : keeps R next.
Proof. unfold next, itr_of. keeps_auto. Qed.
Lemma frees_prev : keeps R prev.
Proof. unfold prev, itr_of. keeps_auto. Qed.
Lemma frees_get_value i v : keeps R (get_value i v).
Proof. unfold get_value, get_field_data, itr_of. keeps_auto. Qed.
#[local] Hint Resolve frees_count frees_eof frees_seek frees_next frees_prev frees_get_value : keeps.
Lemma frees_is_empty : keeps R is_empty.
Proof. unfold is_empty. keeps_auto. Qed.
Lemma frees_fetch_impl values : ∀ i, keeps R (fetch_impl i values).
Proof. induction values as [|v values IH]; intros i; cbn [fetch_impl]; keeps_auto. Qed.
Lemma frees_itr_fetch_impl values : ∀ i, keeps R (itr_fetch_impl values i).
Proof. induction values as [|v values IH]; intros i; cbn [itr_fetch_impl]; keeps_auto. Qed.
#[local] Hint Resolve frees_is_empty frees_fetch_impl frees_itr_fetch_impl : keeps.
Lemma frees_get_value_of v i : keeps R (get_value_of v i).
Proof. unfold get_value_of. keeps_auto. Qed.
Lemma frees_fetch_values values : keeps R (fetch_values values).
Proof. unfold fetch_values, itr_of. keeps_auto. Qed.
Lemma frees_each_loop {U} fuel params (callback : list variable → U → bool * U) : ∀ n u,
  keeps R (each_loop fuel params callback n u).
Proof.
  induction fuel as [|fuel IH]; intros n u; [done|]. cbn [each_loop]. unfold bind_and_call, count_up.
  keeps_auto.
Qed.
Lemma frees_each {U} fuel params (callback : list variable → U → bool * U) u : keeps R (each fuel params callback u).
Proof. unfold each, reset. keeps_auto. apply frees_each_loop. Qed.
Lemma frees_range_loop {U} fuel tuple (body : list variable → U → U) last : ∀ itr u,
  keeps R (range_loop fuel tuple body itr last u).
Proof.
  induction fuel as [|fuel IH]; intros itr u; [done|]. cbn [range_loop]. unfold itr_deref. keeps_auto.
Qed.
Lemma frees_range_for {U} fuel tuple (body : list variable → U → U) u : keeps R (range_for fuel tuple body u).
Proof. unfold range_for, container_end. keeps_auto. apply frees_range_loop. Qed.
#[local] Hint Resolve frees_get_value_of frees_fetch_values frees_each frees_range_for : keeps.

(** *** Connections *)
Lemma with_mutex_ends {T A} (m : M (connection * T) A) (PD : T → A → Prop) (PT : T → Prop) c t :
  (∀ c, match m (c, t) with Done (_, t') a => PD t' a | Threw (_, t') _ => PT t' | _ => True end) →
  match with_mutex m (c, t) with Done (_, t') a => PD t' a | Threw (_, t') _ => PT t' | _ => True end.
Proof.
  intros Hm. unfold with_mutex. run_step. destruct (con_locked c); [done|].
  unfold set_locked, unlock_after. run_step. rewrite on_fst_run. run_step.
  specialize (Hm (mkConnection (con_my_conn c) true)). unfold throw.
  destruct (m _) as [[c' t'] a|[c' t'] e| |]; try done; by repeat (run_step; rewrite ?on_fst_run).
Qed.
Lemma frees_with_mutex {T A} (P : T → T → Prop) `{!PreOrder P} (m : M (connection * T) A) :
  keeps (rel_snd P) m → keeps (rel_snd P) (with_mutex m).
Proof.
  intros Hm [c t]. pose proof (with_mutex_ends m (λ t' _, P t t') (P t) c t) as Hw.
  unfold rel_snd. cbn [snd]. destruct (with_mutex m (c, t)) as [[c' t'] a|[c' t'] e| |]; try done; apply Hw;
    intros c1; specialize (Hm (c1, t)); destruct (m (c1, t)) as [[? ?] ?|[? ?] ?| |]; done.
Qed.
Lemma frees_call {A} (f : N → db → A * db) : keeps R (call f).
Proof. unfold call, get_conn. keeps_auto. Qed.
Lemma frees_set_conn c : keeps R (set_conn c).
Proof. unfold set_conn. keeps_auto. Qed.
Lemma frees_set_option o : keeps R (set_option o).
Proof. apply frees_call. Qed.
#[local] Hint Resolve frees_call frees_set_conn frees_set_option : keeps.
Lemma frees_close_conn c : keeps R (close_conn c).
Proof. unfold close_conn. keeps_auto. apply keeps_modify. intros w. apply frees_same. Qed.
#[local] Hint Resolve frees_close_conn : keeps.
Lemma frees_close : keeps R close.
Proof. unfold close, get_conn. apply frees_with_mutex; [typeclasses eauto|]. keeps_auto. Qed.
Lemma frees_is_open : keeps R is_open.
Proof. unfold is_open, get_conn. keeps_auto. apply frees_with_mutex; [typeclasses eauto|]. keeps_auto. Qed.
Lemma frees_init_conn : keeps R init_conn.
Proof.
  intros [c w]. unfold init_conn. run_step. destruct (mysql_init (mw_db w)) as [[] d]; rewrite bind_run, on_snd_run; run_step.
  - intros Hf. unfold rel_snd in *. cbn in *. split_and!; [done| |lia]. intros h Hh%Hf. cbn in *. lia.
  - apply frees_same.
Qed.
#[local] Hint Resolve frees_close frees_is_open frees_init_conn : keeps.
Lemma frees_open options : keeps R (open options).
Proof. unfold open. keeps_auto. apply frees_with_mutex; [typeclasses eauto|]. keeps_auto. Qed.
Lemma frees_run_query q : keeps R (run_query q).
Proof. unfold run_query, get_conn. keeps_auto. Qed.
#[local] Hint Resolve frees_open frees_run_query : keeps.
Lemma frees_query q : keeps R (query q).
Proof. unfold query, get_conn. apply frees_with_mutex; [typeclasses eauto|]. keeps_auto. Qed.
Lemma frees_exec q : keeps R (exec q).
Proof. unfold exec. apply frees_with_mutex; [typeclasses eauto|]. keeps_auto. Qed.
Lemma frees_free_results l : keeps R (free_results l).
Proof. induction l as [|r l IH]; cbn [free_results]; keeps_auto. Qed.
#[local] Hint Resolve frees_query frees_exec frees_free_results : keeps.
Lemma frees_fetch_now c : keeps R (result_fetch_now c).
Proof. unfold result_fetch_now. keeps_auto. Qed.
#[local] Hint Resolve frees_fetch_now : keeps.
Lemma frees_mquery_loop fuel : ∀ res, keeps R (mquery_loop fuel res).
Proof. induction fuel as [|fuel IH]; intros res; [done|]. cbn [mquery_loop]. unfold get_conn. keeps_auto. Qed.
Lemma frees_mquery fuel q : keeps R (mquery fuel q).
Proof. unfold mquery. apply frees_with_mutex; [typeclasses eauto|]. pose proof frees_mquery_loop. keeps_auto. Qed.

(** ** Statements *)

(** The result sets as above, and the statements that are not closed are the same;
    the handle of the statement is never another. *)
Definition frees_stmt (w w' : StmtWorld) : Prop := frees (sw_my w) (sw_my w') ∧ sw_stmts w' = sw_stmts w.
#[export] Instance frees_stmt_preorder : PreOrder frees_stmt.
Proof.
  split; [by split|]. intros w1 w2 w3 [F1 E1] [F2 E2]. split; [by etrans|congruence].
Qed.
Definition same_handle (p p' : prepared_stmt) : Prop := ps_stmt p' = ps_stmt p.
#[export] Instance same_handle_preorder : PreOrder same_handle.
Proof. unfold same_handle. split; [done|]. intros p1 p2 p3. congruence. Qed.
Definition frees_own (q q' : prepared_stmt * StmtWorld) : Prop :=
  same_handle (fst q) (fst q') ∧ frees_stmt (snd q) (snd q').
#[export] Instance frees_own_preorder : PreOrder frees_own.
Proof. split; [by split|]. intros q1 q2 q3 [E1 F1] [E2 F2]. split; by etrans. Qed.
Local Abbreviation RS := (rel_snd (S := connection) frees_own).

Lemma frees_stmt_call {A} h (f : N → db → A * db) : keeps frees_stmt (stmt_call h f).
Proof.
  intros w. unfold stmt_call. run_step. destruct (f h (mw_db (sw_my w))) as [a d]. run_step.
  split; [apply frees_same|done].
Qed.
Lemma frees_own_world {A} (m : M StmtWorld A) : keeps frees_stmt m → keeps RS (on_snd (on_snd m)).
Proof.
  intros Hm. apply keeps_on_snd. unfold on_snd. apply (keeps_zoom _ frees_stmt); [done|]. intros q w F. by split.
Qed.
Lemma frees_own_stmt {A} (m : M prepared_stmt A) : keeps same_handle m → keeps RS (on_snd (on_fst m)).
Proof.
  intros Hm. apply keeps_on_snd. unfold on_fst. apply (keeps_zoom _ same_handle); [done|]. intros q p E. by split.
Qed.
Lemma keeps_any {S A} (m : M S A) : keeps (λ _ _, True) m.
Proof. intros s. by destruct (m s). Qed.
Lemma frees_on_vars {A} (m : M (gmap N bound_var) A) : keeps RS (on_vars m).
Proof.
  apply frees_own_world. apply (keeps_zoom _ (λ _ _, True)); [apply keeps_any|]. intros w v _. by split.
Qed.
Lemma frees_on_stmt {A} (f : N → db → A * db) : keeps RS (on_stmt f).
Proof.
  unfold on_stmt. apply keeps_bind; [typeclasses eauto|auto with keeps typeclass_instances|].
  intros s. apply frees_own_world, frees_stmt_call.
Qed.
Lemma frees_set_params l : keeps RS (set_param_binds l).
Proof. apply frees_own_stmt, keeps_modify. done. Qed.
Lemma frees_set_results l : keeps RS (set_result_binds l).
Proof. apply frees_own_stmt, keeps_modify. done. Qed.
#[local] Hint Resolve frees_on_vars frees_on_stmt frees_set_params frees_set_results : keeps.
Lemma frees_execute : keeps RS execute.
Proof. unfold execute, get_stmt. apply frees_with_mutex; [typeclasses eauto|]. keeps_auto. Qed.
Lemma frees_refetch flags : ∀ i l, keeps RS (refetch i flags l).
Proof. induction flags as [|f flags IH]; intros i [|sl l]; cbn [refetch]; keeps_auto. Qed.
#[local] Hint Resolve frees_refetch : keeps.
Lemma frees_stmt_fetch : keeps RS stmt_fetch.
Proof. unfold stmt_fetch, get_stmt. apply frees_with_mutex; [typeclasses eauto|]. keeps_auto. Qed.
Lemma frees_bind_param args : keeps RS (bind_param args).
Proof. apply frees_own_stmt, (keeps_zoom _ (λ _ _, True)); [apply keeps_any|]. done. Qed.
Lemma frees_bind_result args : keeps RS (bind_result args).
Proof. apply frees_own_stmt, (keeps_zoom _ (λ _ _, True)); [apply keeps_any|]. done. Qed.

(** A statement that is made is a new one; one that is not leaves nothing. *)
Definition fresh_world (w : StmtWorld) : Prop :=
  fresh_results (sw_my w) ∧ ∀ h, h ∈ sw_stmts w → (h < mw_next (sw_my w))%N.
Lemma frees_fresh w w' : frees_stmt w w' → fresh_world w → fresh_world w' ∧ mw_results (sw_my w') = mw_results (sw_my w).
Proof.
  intros [F E] [Hr Hs]. destruct (F Hr) as (Er & Hr' & L). split; [split; [done|]|done].
  intros h. rewrite E. intros Hh%Hs. lia.
Qed.
Lemma stmt_call_ends {A} h (f : N → db → A * db) w :
  ∃ d, stmt_call h f w = Done (set_my (mkMyWorld d (mw_conns (sw_my w)) (mw_results (sw_my w)) (mw_next (sw_my w))) w)
                           (fst (f h (mw_db (sw_my w)))).
Proof.
  unfold stmt_call. run_step. destruct (f h (mw_db (sw_my w))) as [a d]. run_step. by exists d.
Qed.
Local Ltac stmt_step :=
  match goal with |- context [stmt_call ?h ?f ?w] => let d := fresh "d" in destruct (stmt_call_ends h f w) as [d ->] end;
  run_step.
Lemma stmt_close_ends h w :
  ∃ d, stmt_close h w = Done (mkStmtWorld (mkMyWorld d (mw_conns (sw_my w)) (mw_results (sw_my w)) (mw_next (sw_my w)))
                                (sw_vars w) (sw_stmts w ∖ {[h]})) tt.
Proof.
  unfold stmt_close. rewrite bind_run. destruct (stmt_call_ends h (λ h d, (tt, mysql_stmt_close h d)) w) as [d ->].
  run_step. by exists d.
Qed.
Lemma stmt_new_adds q c w : fresh_world w →
  match prepared_stmt_new q (c, w) with
  | Done (_, w') p => fresh_world w' ∧ mw_results (sw_my w') = mw_results (sw_my w)
      ∧ (ps_stmt p ∉ sw_stmts w) ∧ sw_stmts w' = {[ps_stmt p]} ∪ sw_stmts w
  | Threw (_, w') _ => frees_stmt w w'
  | _ => True
  end.
Proof.
  intros Hw. apply (with_mutex_ends _ (λ w' p, fresh_world w' ∧ mw_results (sw_my w') = mw_results (sw_my w)
      ∧ (ps_stmt p ∉ sw_stmts w) ∧ sw_stmts w' = {[ps_stmt p]} ∪ sw_stmts w) (frees_stmt w)).
  clear c. intros c. run_step. rewrite on_snd_run. unfold zoom. cbn [fst].
  pose proof (frees_on_conn (con_my_conn c) mysql_stmt_init (sw_my w)) as F.
  destruct (on_conn _ _ _) as [w1 []|w1 e| |]; try done; cbn [map_state bind_outcome negb]; [|by split..].
  destruct Hw as [Hr Hs]. destruct (F Hr) as (Er & Hr' & L).
  run_step. rewrite on_snd_run. run_step. rewrite on_snd_run. stmt_step.
  destruct (fst _ =? 0); cbn [negb].
  - run_step. rewrite on_snd_run. stmt_step. rewrite on_snd_run. stmt_step.
    unfold fresh_world, fresh_results. cbn. split_and!; [| |done| |done].
    + intros h Hh%Hr'. lia.
    + intros h. rewrite elem_of_union, elem_of_singleton. intros [->|Hh%Hs]; lia.
    + intros Hh%Hs. lia.
  - run_step. rewrite on_snd_run. edestruct stmt_close_ends as [d' ->]. run_step. split.
    + intros _. cbn. split_and!; [done| |lia]. intros h Hh%Hr'. cbn. lia.
    + cbn. apply set_eq. intros h. specialize (Hs h). rewrite elem_of_difference, elem_of_union, elem_of_singleton.
      split; [tauto|]. intros Hh. specialize (Hs Hh). split; [tauto|lia].
Qed.
Lemma stmt_delete_drops c p w :
  match prepared_stmt_delete (c, (p, w)) with
  | Done (_, (_, w')) _ => frees (sw_my w) (sw_my w') ∧ sw_stmts w' = sw_stmts w ∖ {[ps_stmt p]}
  | Threw _ _ => False
  | _ => True
  end.
Proof.
  pose proof (with_mutex_ends (p ← get_stmt; on_snd (on_snd (stmt_close (ps_stmt p))))
    (λ q _, frees (sw_my w) (sw_my (snd q)) ∧ sw_stmts (snd q) = sw_stmts w ∖ {[ps_stmt p]}) (λ _, False) c (p, w)) as Hm.
  unfold prepared_stmt_delete. destruct (with_mutex _ _) as [[c' [p' w']] []|[c' [p' w']] e| |]; try done; apply Hm; clear;
    intros c; unfold get_stmt; run_step; rewrite !on_snd_run; destruct (stmt_close_ends (ps_stmt p) w) as [d ->];
    run_step; (split; [apply frees_same|done]).
Qed.
End Frees.
