(* ===== verification/MySqlSample.v ===== *)
(** * The sample program of the MySQL wrapper

    Models lobbysvr/_test_mysqlcpp.cpp: a program that runs every kind of query
    of the wrapper and prints what it gets, as a composition of MySqlResult.v,
    MySqlConnection.v and MySqlStatement.v.  The tables are those of the server,
    which is a parameter as everywhere.

    If the lengths of the rows can be read, the result sets and statements that
    the wrapper makes are given back when the program returns, after a query that
    failed too ([sample_releases]).  An exception that no handler of [main] takes
    ends the program; whether objects are deleted then is not defined.  A run on the table of the comment in the
    source is evaluated at the end ([demo_sample]). *)
From stdpp Require Import gmap strings list.
From coqutil Require Import Byte.
From S2P Require Import Prelude.
From S2P Require Import MlnUtils.
From S2P Require Import TextFormat.
From S2P Require Import Datetime.
From S2P Require Import MySqlResult.
From S2P Require Import MySqlConnection.
From S2P Require Import MySqlStatement.
From S2P Require Import MySqlFrees.
#[local] Open Scope Z_scope.

(** A [double] as the value of a bound variable. *)
Class DoubleCell `{FloatText} : Type := { double_bits : float → Z; bits_double : Z → float }.
(** What an [int] holds that was not initialised. *)
Class Uninitialised : Type := { garbage_int : Z }.
(** Whether the objects of the blocks are deleted before [std::terminate] is called
    for an exception without a handler: the implementation has the choice. *)
Class Terminate : Type := { unwinds_uncaught : bool }.
(** The exceptions that [main] has handlers for. *)
Definition is_handled (e : exn) : bool :=
  match e with mysql_exception _ _ | mysqlpp_exception _ => true | _ => false end.

Section Sample.
Context `{FT : FloatText, Q : MySQL, !MySQLConnect, !MySQLStmt, !RealText, !DoubleCell, !Uninitialised, !Terminate}.

(** The connection, the library with the variables, what was printed, and the
    variables of [main]; results, datasets and the statement are there once
    they are made. *)
Record Sample : Type := mkSample {
  sa_con : connection;
  sa_world : StmtWorld;
  sa_out : list byte;
  sample_count : Z;
  sa_locals : list variable;
  sa_res : option result;
  sa_datasets : list result;
  sa_stmt : option prepared_stmt
}.
Definition set_con (c : connection) (s : Sample) : Sample :=
  mkSample c (sa_world s) (sa_out s) (sample_count s) (sa_locals s) (sa_res s) (sa_datasets s) (sa_stmt s).
Definition set_world (w : StmtWorld) (s : Sample) : Sample :=
  mkSample (sa_con s) w (sa_out s) (sample_count s) (sa_locals s) (sa_res s) (sa_datasets s) (sa_stmt s).
Definition set_out (o : list byte) (s : Sample) : Sample :=
  mkSample (sa_con s) (sa_world s) o (sample_count s) (sa_locals s) (sa_res s) (sa_datasets s) (sa_stmt s).
Definition set_count (n : Z) (s : Sample) : Sample :=
  mkSample (sa_con s) (sa_world s) (sa_out s) n (sa_locals s) (sa_res s) (sa_datasets s) (sa_stmt s).
Definition set_locals (l : list variable) (s : Sample) : Sample :=
  mkSample (sa_con s) (sa_world s) (sa_out s) (sample_count s) l (sa_res s) (sa_datasets s) (sa_stmt s).
Definition set_res (r : option result) (s : Sample) : Sample :=
  mkSample (sa_con s) (sa_world s) (sa_out s) (sample_count s) (sa_locals s) r (sa_datasets s) (sa_stmt s).
Definition set_datasets (l : list result) (s : Sample) : Sample :=
  mkSample (sa_con s) (sa_world s) (sa_out s) (sample_count s) (sa_locals s) (sa_res s) l (sa_stmt s).
Definition set_stmt (p : option prepared_stmt) (s : Sample) : Sample :=
  mkSample (sa_con s) (sa_world s) (sa_out s) (sample_count s) (sa_locals s) (sa_res s) (sa_datasets s) p.
Local Abbreviation S := Sample.

(** Calls of the parts. *)
Definition on_my {A} (m : M MyWorld A) : M S A :=
  zoom sa_world set_world (zoom sw_my set_my m).
Definition on_con {A} (m : M (connection * MyWorld) A) : M S A :=
  zoom (λ s, (sa_con s, sw_my (sa_world s))) (λ p s, set_world (set_my (snd p) (sa_world s)) (set_con (fst p) s)) m.
(** The destructors that run when an exception leaves a block. *)
Definition unwind {T A} (destructors : M T unit) (e : exn) : M T A :=
  when (is_handled e || unwinds_uncaught) destructors;; throw e.
(** A result that is a temporary, or a local: its destructor runs at the end. *)
Definition temporary {A} (r : result) (body : M (result * MyWorld) A) : M MyWorld A :=
  '(_, a) ← with_local r (a ← try_catch body (unwind free); free;; mret a);
  mret a.
Definition on_query {A} (text : string) (body : M (result * MyWorld) A) : M S A :=
  r ← on_con (query (string_bytes text)); on_my (temporary r body).
Definition on_result {A} (get : S → option result) (set : result → S → S) (m : M (result * MyWorld) A) : M S A :=
  s ← get_state;
  r ← deref "no such result" (get s);
  zoom (λ s, (r, sw_my (sa_world s))) (λ p s, set (fst p) (set_world (set_my (snd p) (sa_world s)) s)) m.
Definition on_res {A} : M (result * MyWorld) A → M S A := on_result sa_res (λ r, set_res (Some r)).
Definition on_dataset {A} (i : nat) : M (result * MyWorld) A → M S A :=
  on_result (λ s, sa_datasets s !! i) (λ r s, set_datasets (<[i := r]> (sa_datasets s)) s).
Definition on_prepared {A} (m : M (connection * (prepared_stmt * StmtWorld)) A) : M S A :=
  s ← get_state;
  p ← deref "no statement" (sa_stmt s);
  zoom (λ s, (sa_con s, (p, sa_world s)))
    (λ q s, set_stmt (Some (fst (snd q))) (set_world (snd (snd q)) (set_con (fst q) s))) m.

Definition say (text : list byte) : M S unit := modify (λ s, set_out (sa_out s ++ text) s).
Definition endl : list byte := [chr 10].
Definition say_string (text : string) : M S unit := say (string_bytes text).
(** [cout << v]: reading a variable without a value is undefined. *)
Definition show_value (v : field_value) : option (list byte) :=
  match v with
  | VBool b => Some (print_int (if b then 1 else 0))
  | VNum n => Some (print_int n)
  | VReal x => Some (print_float 6 x)
  | VText t => Some t
  | VDate d => match to_sql d true tt with Done _ t => Some t | _ => None end
  end.
Definition show_var (v : variable) : option (list byte) :=
  match v with Plain _ (Some x) | Optional _ (Some x) => show_value x | _ => None end.
Definition show_optional (title : string) (v : variable) : option (list byte) :=
  match v with
  | Optional _ None => Some []
  | v => app (string_bytes title) <$> show_var v
  end.
(** ["ID: " << id << ", name: " << name] and what is there of the rest. *)
Definition show_row (row : list variable) : option (list byte) :=
  match row with
  | id :: name :: rest =>
      i ← show_var id; n ← show_var name;
      w ← match rest with weight :: _ => show_optional ", weight: " weight | [] => Some [] end;
      b ← match rest with _ :: birthday :: _ => show_optional ", birthday: " birthday | _ => Some [] end;
      Some (string_bytes "ID: " ++ i ++ string_bytes ", name: " ++ n ++ w ++ b ++ endl)
  | _ => None
  end.
Definition say_row (row : list variable) : M S unit :=
  t ← deref "read of a variable without a value" (show_row row); say t.
(** The callbacks print rows; nothing after a read that is undefined. *)
Definition print_row (row : list variable) (out : option (list byte)) : option (list byte) :=
  o ← out; t ← show_row row; Some (o ++ t).
Definition print_and_go (row : list variable) (out : option (list byte)) : bool * option (list byte) :=
  (true, print_row row out).
Definition say_rows (out : option (list byte)) : M S unit :=
  t ← deref "read of a variable without a value" out; say t.

Definition example_title : M S unit :=
  modify (λ s, set_count (sample_count s + 1) s);;
  s ← get_state;
  say (string_bytes "** QUERY EXAMPLE " ++ print_int (sample_count s) ++ endl).
Definition id_name_weight : list variable := [declared FInt; declared FString; Optional FDouble None].

Definition example_count : M S unit :=
  example_title;;
  n ← on_query "select count(*) from person" (get_value_of (declared FInt) 0);
  t ← deref "read of a variable without a value" (show_var n);
  say (string_bytes "Count: " ++ t ++ endl).
Definition example_exec : M S unit :=
  example_title;;
  on_con (exec (string_bytes "update person set avatar = floor(rand()*10)"));;
  say (string_bytes "Successful" ++ endl).
(** The texts of the formatted queries are those that [vsnprintf] makes. *)
Definition on_format {A} (text : string) (body : M (result * MyWorld) A) : M S A :=
  t ← format_string (Some (string_bytes text));
  r ← on_con (query t); on_my (temporary r body).
Definition example_average : M S unit :=
  example_title;;
  avg_weight ← on_format "select avg(weight) from person where avatar >= 2 or weight <= 70.500000"
    (get_value_of (Optional FDouble None) 0);
  match show_var avg_weight with
  | Some t => say (string_bytes "Mean weight: " ++ t ++ endl)
  | None => say (string_bytes "No max weight value" ++ endl)
  end.
(** [fetch(id, name, weight)] *)
Definition fetch_locals : M S unit :=
  s ← get_state;
  row ← on_res (fetch_values (sa_locals s));
  match row with Some l => modify (set_locals l) | None => mret tt end.
Definition example_row : M S unit :=
  example_title;;
  modify (set_locals id_name_weight);;
  t ← format_string (Some (string_bytes "select id, name, weight from person where id = 3"));
  r ← on_con (query t);
  modify (set_res (Some r));;
  e ← on_res is_empty;
  if negb e then
    fetch_locals;; s ← get_state; say_row (sa_locals s)
  else say (string_bytes "Query failed" ++ endl).
Definition example_each (fuel : nat) : M S unit :=
  example_title;;
  '(_, out) ← on_query "select id, name, weight, birthday from person"
    (each fuel (id_name_weight ++ [Optional FDatetime None]) print_and_go (Some []));
  say_rows out.
(** [res = my.query(...)]: the temporary that is left is deleted. *)
Definition assign_query (text : string) : M S unit :=
  r ← on_con (query (string_bytes text));
  old ← on_res (result_assign r);
  on_my (temporary old (mret tt)).
(** [weight.reset(); tie(id, name, weight) = row;] *)
Definition tie_row (row : list variable) (u : list variable * option (list byte)) : list variable * option (list byte) :=
  (row, print_row row (snd u)).
Definition example_container (fuel : nat) : M S unit :=
  example_title;;
  assign_query "select id, name, weight from person";;
  s ← get_state;
  '(locals, out) ← on_res (range_for fuel [zeroed FInt; zeroed FString; Optional FDouble None] tie_row
                             (sa_locals s, Some []));
  modify (set_locals locals);; say_rows out.
Definition reset_weight (l : list variable) : list variable :=
  match l with [id; name; Optional t _] => [id; name; Optional t None] | l => l end.
Fixpoint eof_loop (fuel : nat) : M S unit :=
  match fuel with
  | O => no_fuel
  | Datatypes.S fuel =>
      e ← on_res eof;
      if (e : bool) then mret tt
      else
        modify (λ s, set_locals (reset_weight (sa_locals s)) s);;
        fetch_locals;;
        s ← get_state; say_row (sa_locals s);;
        on_res next;;
        eof_loop fuel
  end.
Definition example_loop (fuel : nat) : M S unit :=
  example_title;;
  assign_query "select id, name, weight from person";;
  eof_loop fuel.
Definition MYSQL_OPTION_MULTI_STATEMENTS_ON : Z := 0.
Definition example_datasets (fuel : nat) : M S unit :=
  example_title;;
  _ ← on_con (set_server_option MYSQL_OPTION_MULTI_STATEMENTS_ON);
  datasets ← on_con (mquery fuel (string_bytes "select count(*) from person; select id, name, weight from person"));
  modify (set_datasets datasets);;
  n ← on_dataset 0 (get_value_of (declared FInt) 0);
  t ← deref "read of a variable without a value" (show_var n);
  say (t ++ endl);;
  '(_, out) ← on_dataset 1 (each fuel id_name_weight print_and_go (Some []));
  say_rows out.

(** The variables that are bound, and their values when they are. *)
Definition cell_id : N := 0.
Definition cell_name : N := 1.
Definition cell_weight : N := 2.
Definition cell_pweight : N := 3.
Definition bound_locals (l : list variable) : gmap N bound_var :=
  match l with
  | [id; name; weight] =>
      <[cell_id := BvNum (match id with Plain _ (Some (VNum n)) => n | _ => garbage_int end)]>
      (<[cell_name := BvStr (match name with Plain _ (Some (VText t)) => t | _ => [] end)]>
      (<[cell_weight := BvOptNum (match weight with Optional _ (Some (VReal x)) => Some (double_bits x) | _ => None end)]>
      {[cell_pweight := BvNum (double_bits (float_of_int 60))]}))
  | _ => ∅
  end.
Definition locals_of (vars : gmap N bound_var) : option (list variable) :=
  match vars !! cell_id, vars !! cell_name, vars !! cell_weight with
  | Some (BvNum id), Some (BvStr name), Some (BvOptNum weight) =>
      Some [Plain FInt (Some (VNum id)); Plain FString (Some (VText name));
            Optional FDouble ((λ b, VReal (bits_double b)) <$> weight)]
  | _, _, _ => None
  end.
Fixpoint fetch_loop (fuel : nat) : M S unit :=
  match fuel with
  | O => no_fuel
  | Datatypes.S fuel =>
      more ← on_prepared stmt_fetch;
      if (more : bool) then
        s ← get_state;
        row ← deref "variable is gone" (locals_of (sw_vars (sa_world s)));
        say_row row;;
        fetch_loop fuel
      else mret tt
  end.
Definition on_con_world {A} (m : M (connection * StmtWorld) A) : M S A :=
  zoom (λ s, (sa_con s, sa_world s)) (λ p s, set_world (snd p) (set_con (fst p) s)) m.
Definition example_prepared (fuel : nat) : M S unit :=
  example_title;;
  p ← on_con_world (prepared_stmt_new (string_bytes "select id, name, weight from person where weight > ? or weight is null"));
  modify (set_stmt (Some p));;
  modify (λ s, set_world (set_vars (bound_locals (sa_locals s)) (sa_world s)) s);;
  on_prepared (bind_param [(KNum N_double, cell_pweight)]);;
  on_prepared (bind_result [(KNum N_int32, cell_id); (KStr, cell_name); (KOptNum N_double, cell_weight)]);;
  _ ← on_prepared execute;
  fetch_loop fuel.

Definition examples (fuel : nat) : M S unit :=
  example_count;; example_exec;; example_average;; example_row;; example_each fuel;; example_container fuel;;
  example_loop fuel;; example_datasets fuel;; example_prepared fuel.

(** The end of the block: the objects that were made are deleted, the last first. *)
Definition delete_stmt : M S unit :=
  s ← get_state;
  match sa_stmt s with
  | Some _ => on_prepared prepared_stmt_delete;; modify (set_stmt None)
  | None => mret tt
  end.
Definition leave_block : M S unit :=
  delete_stmt;;
  s ← get_state;
  on_con (free_results (sa_datasets s));;
  modify (set_datasets []);;
  match sa_res s with Some r => on_my (temporary r (mret tt)) | None => mret tt end;;
  modify (set_res None).
Definition in_block (m : M S unit) : M S unit := try_catch m (unwind leave_block);; leave_block.

(** The handlers of the exceptions of the wrapper; others leave [main]. *)
Definition failed_query (what : list byte) : M S unit :=
  s ← get_state;
  say (string_bytes "Query #" ++ print_int (sample_count s) ++ string_bytes " failed with error: " ++ what ++ endl).
Definition sample_handler (e : exn) : M S unit :=
  match e with
  | mysql_exception n msg => failed_query (print_int n ++ string_bytes " - " ++ c_str msg)
  | mysqlpp_exception what => failed_query (string_bytes what)
  | e => throw e
  end.
Definition sample_main (fuel : nat) : M S Z :=
  _ ← on_con (open_server (string_bytes "localhost") (string_bytes "tester") (string_bytes "tester")
                (string_bytes "test_test_test") 0);
  b ← on_con is_open;
  if negb b then
    say (string_bytes "Connection failed" ++ endl);; on_con connection_delete;; mret (-1)
  else
    try_catch (in_block (examples fuel)) sample_handler;;
    on_con connection_delete;; mret 0.
End Sample.

(** ** What the program gives back *)
Section Releases.
Context `{FT : FloatText, Q : MySQL, !MySQLConnect, !MySQLStmt, !RealText, !DoubleCell, !Uninitialised, !Terminate}.
Context (lengths_ok : ∀ rs n, mysql_fetch_lengths_fails rs n = false).
#[local] Hint Resolve frees_open frees_is_open frees_query frees_exec frees_mquery frees_get_value_of frees_each
  frees_range_for frees_is_empty frees_fetch_values frees_eof frees_next frees_assign frees_free frees_free_results
  frees_call frees_close frees_execute frees_stmt_fetch frees_bind_param frees_bind_result : keeps.

(** The handle of the statement of the block. *)
Definition own (s : Sample) : option N := ps_stmt <$> sa_stmt s.
Definition frees_sample (s s' : Sample) : Prop := frees_stmt (sa_world s) (sa_world s') ∧ own s' = own s.
#[export] Instance frees_sample_preorder : PreOrder frees_sample.
Proof.
  split; [by split|]. intros s1 s2 s3 [F1 E1] [F2 E2]. split; [by etrans|congruence].
Qed.
Local Abbreviation R := frees_sample.

(** *** Calls of the parts *)
Lemma sample_on_my {A} (m : M MyWorld A) : keeps frees m → keeps R (on_my m).
Proof.
  intros Hm. unfold on_my. apply (keeps_zoom _ frees_stmt); [|by split].
  apply (keeps_zoom _ frees); [done|by split].
Qed.
Lemma sample_on_con {A} (m : M (connection * MyWorld) A) : keeps (rel_snd frees) m → keeps R (on_con m).
Proof. intros Hm. apply (keeps_zoom _ (rel_snd frees)); [done|]. intros s [c w] F. exact (conj (conj F eq_refl) eq_refl). Qed.
Lemma sample_temporary {A} r (body : M (result * MyWorld) A) : keeps (rel_snd frees) body → keeps frees (temporary r body).
Proof. intros Hb. unfold temporary, unwind. keeps_auto. Qed.
Lemma sample_on_result {A} get set (m : M (result * MyWorld) A) :
  (∀ r s, sa_world (set r s) = sa_world s ∧ own (set r s) = own s) → keeps (rel_snd frees) m → keeps R (on_result get set m).
Proof.
  intros Hset Hm. unfold on_result. keeps_auto. apply (keeps_zoom _ (rel_snd frees)); [done|].
  intros s' [r' w] F. destruct (Hset r' (set_world (set_my w (sa_world s')) s')) as [E1 E2].
  split; cbn [fst snd]; [rewrite E1|by rewrite E2]. exact (conj F eq_refl).
Qed.
Lemma sample_on_res {A} (m : M (result * MyWorld) A) : keeps (rel_snd frees) m → keeps R (on_res m).
Proof. by apply sample_on_result. Qed.
Lemma sample_on_dataset {A} i (m : M (result * MyWorld) A) : keeps (rel_snd frees) m → keeps R (on_dataset i m).
Proof. by apply sample_on_result. Qed.
Lemma sample_set f : (∀ s, sa_world (f s) = sa_world s ∧ own (f s) = own s) → keeps R (modify f).
Proof. intros Hf. apply keeps_modify. intros s. destruct (Hf s) as [E1 E2]. split; [by rewrite E1|done]. Qed.
Lemma sample_say t : keeps R (say t).
Proof. by apply sample_set. Qed.
#[local] Hint Resolve sample_say : keeps.
#[local] Hint Extern 5 (keeps _ (modify _)) => apply sample_set; intros ?; by split : keeps.
#[local] Hint Extern 5 (keeps _ (on_my _)) => apply sample_on_my : keeps.
#[local] Hint Extern 5 (keeps _ (on_con _)) => apply sample_on_con : keeps.
#[local] Hint Extern 5 (keeps _ (temporary _ _)) => apply sample_temporary : keeps.
#[local] Hint Extern 5 (keeps _ (on_res _)) => apply sample_on_res : keeps.
#[local] Hint Extern 5 (keeps _ (on_dataset _ _)) => apply sample_on_dataset : keeps.

Lemma sample_on_query {A} text (body : M (result * MyWorld) A) : keeps (rel_snd frees) body → keeps R (on_query text body).
Proof. intros Hb. unfold on_query. keeps_auto. Qed.
Lemma sample_format text : keeps R (format_string text).
Proof. unfold format_string. keeps_auto. Qed.
#[local] Hint Resolve sample_format : keeps.
#[local] Hint Extern 5 (keeps _ (on_query _ _)) => apply sample_on_query : keeps.
Lemma sample_on_format {A} text (body : M (result * MyWorld) A) : keeps (rel_snd frees) body → keeps R (on_format text body).
Proof. intros Hb. unfold on_format. keeps_auto. Qed.
#[local] Hint Extern 5 (keeps _ (on_format _ _)) => apply sample_on_format : keeps.
Lemma sample_title : keeps R example_title.
Proof. unfold example_title. keeps_auto. Qed.
Lemma sample_fetch_locals : keeps R fetch_locals.
Proof. unfold fetch_locals. keeps_auto. Qed.
Lemma sample_assign text : keeps R (assign_query text).
Proof. unfold assign_query. keeps_auto. Qed.
#[local] Hint Resolve sample_title sample_fetch_locals sample_assign : keeps.
Lemma sample_say_row row : keeps R (say_row row).
Proof. unfold say_row. keeps_auto. Qed.
Lemma sample_say_rows out : keeps R (say_rows out).
Proof. unfold say_rows. keeps_auto. Qed.
#[local] Hint Resolve sample_say_row sample_say_rows : keeps.

(** *** The examples *)
Lemma sample_count_ok : keeps R example_count.
Proof. unfold example_count. keeps_auto. Qed.
Lemma sample_exec_ok : keeps R example_exec.
Proof. unfold example_exec. keeps_auto. Qed.
Lemma sample_average_ok : keeps R example_average.
Proof. unfold example_average. keeps_auto. Qed.
Lemma sample_row_ok : keeps R example_row.
Proof. unfold example_row. keeps_auto. Qed.
Lemma sample_each_ok fuel : keeps R (example_each fuel).
Proof. unfold example_each. keeps_auto. Qed.
Lemma sample_container_ok fuel : keeps R (example_container fuel).
Proof. unfold example_container. keeps_auto. Qed.
Lemma sample_eof_loop fuel : keeps R (eof_loop fuel).
Proof. induction fuel as [|fuel IH]; [done|]. cbn [eof_loop]. keeps_auto. Qed.
#[local] Hint Resolve sample_eof_loop : keeps.
Lemma sample_loop_ok fuel : keeps R (example_loop fuel).
Proof. unfold example_loop. keeps_auto. Qed.
Lemma sample_datasets_ok fuel : keeps R (example_datasets fuel).
Proof. unfold example_datasets, set_server_option. keeps_auto. Qed.

(** *** The statement *)
Lemma sample_on_prepared {A} (m : M (connection * (prepared_stmt * StmtWorld)) A) :
  keeps (rel_snd frees_own) m → keeps R (on_prepared m).
Proof.
  intros Hm s. unfold on_prepared. run_step. destruct (sa_stmt s) as [p|] eqn:Ep; [|done]. cbn [deref]. run_step.
  unfold zoom. specialize (Hm (sa_con s, (p, sa_world s))).
  destruct (m _) as [[c [p' w]] a|[c [p' w]] e| |]; try done; destruct Hm as [E F]; cbn in E, F;
    (split; [exact F|]); unfold own; cbn; rewrite Ep; cbn; by rewrite E.
Qed.
#[local] Hint Extern 5 (keeps _ (on_prepared _)) => apply sample_on_prepared : keeps.
Lemma sample_fetch_loop fuel : keeps R (fetch_loop fuel).
Proof. induction fuel as [|fuel IH]; [done|]. cbn [fetch_loop]. keeps_auto. Qed.
#[local] Hint Resolve sample_fetch_loop : keeps.

(** What is left of the block: its statement, once it is made. *)
Definition left_over (s0 s : Sample) : Prop :=
  fresh_world (sa_world s) ∧ mw_results (sw_my (sa_world s)) = mw_results (sw_my (sa_world s0))
  ∧ match own s with
    | Some h => (h ∉ sw_stmts (sa_world s0)) ∧ sw_stmts (sa_world s) = {[h]} ∪ sw_stmts (sa_world s0)
    | None => sw_stmts (sa_world s) = sw_stmts (sa_world s0)
    end.
Definition ends {A} (m : M Sample A) (s : Sample) (P : Sample → Prop) : Prop :=
  runs m s (λ s' _, P s') P.
Lemma left_keeps {A} (m : M Sample A) s0 s : keeps R m → left_over s0 s → ends m s (left_over s0).
Proof.
  intros Hm (Hw & Hr & Ho). specialize (Hm s). unfold ends, runs.
  assert (Hk : ∀ s', R s s' → left_over s0 s').
  { intros s' [F E]. destruct (frees_fresh _ _ F Hw) as [Hw' Er]. split_and!; [done|congruence|].
    destruct F as [_ Es]. by rewrite E, Es. }
  destruct (m s); auto.
Qed.
Lemma ends_run {A B} (m : M Sample A) (k : A → M Sample B) s P :
  (∀ s' e, m s = Threw s' e → P s') → (∀ s' a, m s = Done s' a → ends (k a) s' P) → ends (m ≫= k) s P.
Proof. unfold ends, runs. intros Ht Hd. rewrite bind_run. destruct (m s) eqn:E; simpl; try done; [by apply Hd|by eapply Ht]. Qed.
Lemma keeps_done {A} (m : M Sample A) s s' a : keeps R m → m s = Done s' a → R s s'.
Proof. intros Hm E. specialize (Hm s). by rewrite E in Hm. Qed.
Lemma left_done {A} (m : M Sample A) s0 s s' a : keeps R m → left_over s0 s → m s = Done s' a → left_over s0 s'.
Proof. intros Hm Hl E. pose proof (left_keeps m s0 s Hm Hl) as Hk. unfold ends, runs in Hk. by rewrite E in Hk. Qed.
Lemma left_threw {A} (m : M Sample A) s0 s s' e : keeps R m → left_over s0 s → m s = Threw s' e → left_over s0 s'.
Proof. intros Hm Hl E. pose proof (left_keeps m s0 s Hm Hl) as Hk. unfold ends, runs in Hk. by rewrite E in Hk. Qed.
Lemma ends_seq {A B} (m : M Sample A) (k : A → M Sample B) s P :
  ends m s P → (∀ a s', P s' → ends (k a) s' P) → ends (m ≫= k) s P.
Proof. unfold ends, runs. intros Hm Hk. rewrite bind_run. destruct (m s); simpl; try done. by apply Hk. Qed.
(** A part that keeps what there is, before the statement is made. *)
Lemma left_bind {A B} (m : M Sample A) (k : A → M Sample B) s0 s :
  keeps R m → own s = None → left_over s0 s →
  (∀ s' a, own s' = None → left_over s0 s' → ends (k a) s' (left_over s0)) → ends (m ≫= k) s (left_over s0).
Proof.
  intros Hm Hn Hl Hk. apply ends_run; [intros s' e; by apply left_threw|].
  intros s' a E. apply Hk; [|by eapply left_done]. by destruct (keeps_done _ _ _ _ Hm E) as [_ ->].
Qed.

Lemma sample_prepared_leaves fuel s0 s : own s = None → left_over s0 s → ends (example_prepared fuel) s (left_over s0).
Proof.
  intros Hn Hl. apply left_bind; [apply sample_title|done..|]. clear s Hn Hl. intros s1 _ Hn1 (Hw & Hr & Ho).
  rewrite Hn1 in Ho.
  pose proof (stmt_new_adds (string_bytes "select id, name, weight from person where weight > ? or weight is null")
                (sa_con s1) (sa_world s1) Hw) as Ha.
  apply ends_run; unfold on_con_world, zoom; destruct (prepared_stmt_new _ _) as [[c w] p|[c w] e| |]; try done.
  - intros s' e' [= <- <-]. destruct (frees_fresh _ _ Ha Hw) as [Hw' Er]. destruct Ha as [_ Es].
    split_and!; cbn; [done|congruence|]. unfold own in *. cbn. rewrite Hn1. congruence.
  - intros s' p' [= <- <-]. destruct Ha as (Hw' & Hr' & Hh & Hs').
    apply ends_run; [done|]. intros s2 [] [= <-]. apply left_keeps.
    + keeps_auto.
    + split_and!; cbn; [done|congruence|]. rewrite <- Ho. done.
Qed.
#[local] Hint Resolve sample_count_ok sample_exec_ok sample_average_ok sample_row_ok sample_each_ok sample_container_ok
  sample_loop_ok sample_datasets_ok : keeps.
Lemma sample_examples_leave fuel s0 s : own s = None → left_over s0 s → ends (examples fuel) s (left_over s0).
Proof.
  revert s. unfold examples. do 8 (intros s Hn Hl; apply left_bind; [auto with keeps|done..|]; clear s Hn Hl; intros s []; revert s).
  apply sample_prepared_leaves.
Qed.
(** The block is left with what there was before it. *)
Definition gives_back (s0 s : Sample) : Prop := left_over s0 s ∧ own s = None.
Lemma gives_back_keeps {A} (m : M Sample A) s0 s : keeps R m → gives_back s0 s → ends m s (gives_back s0).
Proof.
  intros Hm [Hl Hn]. pose proof (left_keeps m s0 s Hm Hl) as Hk. specialize (Hm s). unfold ends, runs, gives_back in *.
  destruct (m s); try done; destruct Hm as [_ ->]; done.
Qed.
Lemma delete_stmt_ends s0 s : left_over s0 s → ends delete_stmt s (gives_back s0).
Proof.
  intros Hl. unfold delete_stmt. apply ends_run; [done|]. intros s' s1 [= <- <-].
  destruct (sa_stmt s) as [p|] eqn:Ep.
  2: { unfold ends, runs. simpl. split; [done|]. unfold own. by rewrite Ep. }
  destruct Hl as ([Hf Hs] & Hr & Ho). unfold own in Ho. rewrite Ep in Ho. cbn in Ho. destruct Ho as [Hh Es].
  pose proof (stmt_delete_drops (sa_con s) p (sa_world s)) as Hd.
  apply ends_run; unfold on_prepared; run_step; rewrite Ep; cbn [deref]; run_step; unfold zoom;
    destruct (prepared_stmt_delete _) as [[c [p' w]] []|[c [p' w]] e| |]; try done.
  intros s2 [] [= <-]. destruct Hd as [F Es']. destruct (F Hf) as (Er & Hf' & L).
  assert (E : sw_stmts w = sw_stmts (sa_world s0)).
  { rewrite Es', Es. apply set_eq. intros h. rewrite elem_of_difference, elem_of_union, elem_of_singleton.
    split; [by intros [[->|?] ?]|]. intros Hx. split; [by right|by intros ->]. }
  split; [|done]. split_and!; cbn; [split; [done|]|congruence|done].
  intros h. rewrite E. intros Hh'. assert (h < mw_next (sw_my (sa_world s)))%N; [|lia].
  apply Hs. rewrite Es. clear -Hh'. set_solver.
Qed.
Lemma leave_block_ends s0 s : left_over s0 s → ends leave_block s (gives_back s0).
Proof.
  intros Hl. unfold leave_block. apply ends_seq; [by apply delete_stmt_ends|]. intros _ s' Hg.
  apply gives_back_keeps; [|done]. keeps_auto.
Qed.
(** A block whose exception is handled, and the handler. *)
Definition done_with {A} (m : M Sample A) (s : Sample) (P : Sample → Prop) : Prop :=
  match m s with Done s' _ => P s' | _ => True end.
Lemma sample_handler_keeps e : keeps R (sample_handler e).
Proof. unfold sample_handler, failed_query. keeps_auto. Qed.
Lemma handled_block_ends m s0 s :
  ends m s (left_over s0) → done_with (try_catch (in_block m) sample_handler) s (gives_back s0).
Proof.
  intros Hm. unfold done_with, in_block.
  assert (Hh : ∀ s' e, gives_back s0 s' → match sample_handler e s' with Done s2 _ => gives_back s0 s2 | _ => True end).
  { intros s' e Hg. pose proof (gives_back_keeps _ s0 s' (sample_handler_keeps e) Hg) as Hk.
    unfold ends, runs in Hk. by destruct (sample_handler e s'). }
  unfold ends, runs in Hm. unfold try_catch at 1. rewrite bind_run. unfold try_catch.
  destruct (m s) as [s1 []|s1 e| |]; try done; cbn [bind_outcome].
  - pose proof (leave_block_ends s0 s1 Hm) as Hl. unfold ends, runs in Hl.
    destruct (leave_block s1) as [s2 []|s2 e'| |]; try done. by apply Hh.
  - unfold unwind. destruct (is_handled e) eqn:Ee; cbn [orb when].
    + pose proof (leave_block_ends s0 s1 Hm) as Hl. unfold ends, runs in Hl.
      rewrite bind_run. destruct (leave_block s1) as [s2 []|s2 e'| |]; try done; by apply Hh.
    + (* main is left: the handlers take nothing that the block throws *)
      rewrite bind_run. destruct (when unwinds_uncaught leave_block s1) as [s2 []|s2 e'| |] eqn:Ew; try done; cbn [bind_outcome].
      * unfold throw. by destruct e.
      * destruct unwinds_uncaught; [|done]. pose proof (leave_block_ends s0 s1 Hm) as Hl. unfold ends, runs in Hl.
        cbn [when] in Ew. rewrite Ew in Hl. by apply Hh.
Qed.

(** The connection throws nothing when it is opened, asked and closed. *)
Lemma no_throw_with_mutex {T A} (m : M (connection * T) A) : no_throw m → no_throw (with_mutex m).
Proof.
  intros Hm [c t] s' e. unfold with_mutex. run_step. destruct (con_locked c); [done|].
  unfold set_locked, unlock_after. run_step. rewrite on_fst_run. run_step. unfold throw.
  destruct (m (mkConnection (con_my_conn c) true, t)) as [[c' t'] a|[c' t'] e'| |] eqn:E; try done.
  by apply Hm in E.
Qed.
Lemma no_throw_on_conn {A} c (f : N → db → A * db) : no_throw (on_conn c f).
Proof. intros w s' e. unfold on_conn. destruct c as [c|]; [|done]. cbn [deref]. run_step. case_bool_decide; [|done]. by destruct (f c (mw_db w)). Qed.
#[local] Hint Resolve no_throw_on_conn : no_throw.
Lemma no_throw_call {A} (f : N → db → A * db) : no_throw (call f).
Proof. unfold call, get_conn. no_throw_auto. Qed.
#[local] Hint Resolve no_throw_call : no_throw.
Lemma no_throw_is_open : no_throw is_open.
Proof. unfold is_open, get_conn. no_throw_auto. apply no_throw_with_mutex. no_throw_auto. Qed.
Lemma no_throw_close_conn c : no_throw (close_conn c).
Proof. unfold close_conn, set_conn. no_throw_auto. Qed.
#[local] Hint Resolve no_throw_is_open no_throw_close_conn : no_throw.
Lemma no_throw_close : no_throw close.
Proof. apply no_throw_with_mutex. unfold get_conn. no_throw_auto. Qed.
#[local] Hint Resolve no_throw_close : no_throw.
Lemma no_throw_open options : no_throw (open options).
Proof. unfold open. no_throw_auto. apply no_throw_with_mutex. unfold init_conn, set_option, set_conn. no_throw_auto. Qed.

(** *** The whole program *)

Lemma handled_throws {A} (m : M Sample unit) (k : M Sample A) s s' e :
  no_throw k → (try_catch m sample_handler;; k) s = Threw s' e → is_handled e = false.
Proof.
  intros Hk. rewrite bind_run. unfold try_catch. destruct (m s) as [s1 []|s1 e1| |]; try done; cbn [bind_outcome].
  - intros E. by apply Hk in E.
  - destruct e1; cbn; unfold throw; try (by intros [= <- <-]); intros E; by apply Hk in E.
Qed.
Lemma sample_throws fuel s s' e : sample_main fuel s = Threw s' e → is_handled e = false.
Proof.
  unfold sample_main, open_server, connection_delete. rewrite bind_run.
  destruct (on_con (open _) s) as [s1 o|s1 e1| |] eqn:Eo; try done; cbn [bind_outcome].
  2: { exfalso. by eapply no_throw_zoom, Eo; apply no_throw_open. }
  rewrite bind_run. destruct (on_con is_open s1) as [s2 []|s2 e1| |] eqn:Ei; try done; cbn [bind_outcome negb].
  - apply handled_throws. unfold on_con. no_throw_auto.
  - intros E. exfalso. revert E. unfold say, on_con. apply no_throw_bind; [|intros _]; no_throw_auto.
  - exfalso. by eapply no_throw_zoom, Ei; apply no_throw_is_open.
Qed.

Lemma done_keeps {A} (m : M Sample A) s0 s : keeps R m → gives_back s0 s → done_with m s (gives_back s0).
Proof.
  intros Hm Hg. pose proof (gives_back_keeps m s0 s Hm Hg) as Hk. unfold ends, runs in Hk. unfold done_with.
  by destruct (m s).
Qed.
Lemma done_seq {A B} (m : M Sample A) (k : A → M Sample B) s P :
  done_with m s P → (∀ a s', P s' → done_with (k a) s' P) → done_with (m ≫= k) s P.
Proof. unfold done_with. intros Hm Hk. rewrite bind_run. destruct (m s); simpl; try done. by apply Hk. Qed.
Lemma sample_gives_back fuel s :
  fresh_world (sa_world s) → sa_stmt s = None → done_with (sample_main fuel) s (gives_back s).
Proof.
  intros Hf Hn. assert (Hg : gives_back s s).
  { unfold gives_back, left_over, own. rewrite Hn. done. }
  unfold sample_main, open_server, connection_delete. apply done_seq; [apply done_keeps; [keeps_auto|done]|].
  clear Hf Hn Hg. intros _ s1 Hg. apply done_seq; [apply done_keeps; [keeps_auto|done]|].
  clear s1 Hg. intros [] s1 Hg; cbn [negb]; [|apply done_keeps; [keeps_auto|done]].
  apply done_seq; [|intros _ s2 Hg2; apply done_keeps; [keeps_auto|done]].
  destruct Hg as [Hl Hn]. by apply handled_block_ends, sample_examples_leave.
Qed.
End Releases.



(** ** Example: a server with the table of the source *)
Section Demo.
Definition demo_sample_db : Type := list (option MYSQL_RES) * demo_row_db.
Definition demo_sample_mysql : MySQL := {|
  db := demo_sample_db;
  mysql_real_query _ _ d := (0, d);
  mysql_next_result _ d := (if bool_decide (fst d = []) then -1 else 0, d);
  mysql_store_result _ d := (mjoin (head (fst d)), (tail (fst d), snd d));
  mysql_use_result _ d := (match head (fst d) with Some (Some _) => true | _ => false end, (tail (fst d), snd d));
  mysql_fetch_lengths_fails _ _ := false;
  mysql_errno _ _ := 0;
  mysql_error _ _ := [];
  mysql_ping _ d := (0, d);
  mysql_insert_id _ _ := 0;
  mysql_affected_rows _ _ := 0;
  mysql_set_server_option _ _ d := (0, d)
|}.
Definition on_rows {A} (m : demo_row_db → A * demo_row_db) (d : demo_sample_db) : A * demo_sample_db :=
  let '(a, rows) := m (snd d) in (a, (fst d, rows)).
Definition demo_sample_connect : @MySQLConnect demo_sample_mysql :=
  @Build_MySQLConnect demo_sample_mysql (λ d, (true, d)) (λ _ _ d, d) (λ _ _ d, (true, d)) (λ _ d, d).
Definition demo_sample_stmt : @MySQLStmt demo_sample_mysql :=
  @Build_MySQLStmt demo_sample_mysql (λ _ d, (true, d)) (λ _ _ d, (0, d)) (λ _ _, 1%nat) (λ _ _, Some 3%nat)
    (λ _ _ d, (0, d)) (λ _ _ d, (0, d)) (λ _ _ d, (0, d)) (λ _ binds, on_rows (demo_fetch binds))
    (λ _ b i, on_rows (demo_fetch_column b i)) (λ _ d, d) (λ _ _, 0) (λ _ _, []).
Definition demo_sample_reals : @RealText demo_floats := {| sto_real _ s := fst <$> scan_number s |}.
Definition demo_cell : @DoubleCell demo_floats := @Build_DoubleCell demo_floats (λ x, x) (λ x, x).
Definition demo_uninitialised : Uninitialised := {| garbage_int := 0 |}.
Definition demo_terminate : Terminate := {| unwinds_uncaught := false |}.
#[local] Existing Instances demo_floats demo_sample_mysql demo_sample_connect demo_sample_stmt demo_sample_reals
  demo_cell demo_uninitialised demo_terminate demo_store.

Definition demo_field (s : string) : option (list byte) := if bool_decide (s = "") then None else Some (string_bytes s).
Definition demo_table (l : list (list string)) : option MYSQL_RES :=
  Some (mkMYSQL_RES (Z.of_nat (length (default [] (head l)))) (map demo_field <$> l)).
Definition demo_persons : list (list string) :=
  [["1"; "Nguyen Van X"; "62"; "1981-07-18"]; ["2"; "Tran Thi Y"; "56"; "1999-05-12"]; ["3"; "Bui Xuan Z"; ""; ""]].
Definition demo_db : demo_sample_db :=
  ([demo_table [["3"]]; None; demo_table [["59"]]; demo_table [["3"; "Bui Xuan Z"; ""]]; demo_table demo_persons;
    demo_table (take 3 <$> demo_persons); demo_table (take 3 <$> demo_persons); demo_table [["3"]];
    demo_table (take 3 <$> demo_persons)],
   ([[Some (ColNum 1); Some (ColText (string_bytes "Nguyen Van X")); Some (ColNum 62)];
     [Some (ColNum 3); Some (ColText (string_bytes "Bui Xuan Z")); None]], None)).
Definition demo_start (d : demo_sample_db) : Sample :=
  mkSample connection_new (mkStmtWorld (@mkMyWorld demo_sample_mysql d ∅ ∅ 1%N) ∅ ∅) [] 0 [] None [] None.
Definition demo_sample_run (d : demo_sample_db) : option (list byte * Z) :=
  match sample_main 5 (demo_start d) with
  | Done s r => Some (sa_out s, r)
  | _ => None
  end.
Definition demo_text : list byte := concat ((λ t, string_bytes t ++ endl) <$>
  ["** QUERY EXAMPLE 1"; "Count: 3";
   "** QUERY EXAMPLE 2"; "Successful";
   "** QUERY EXAMPLE 3"; "Mean weight: 59";
   "** QUERY EXAMPLE 4"; "ID: 3, name: Bui Xuan Z";
   "** QUERY EXAMPLE 5";
   "ID: 1, name: Nguyen Van X, weight: 62, birthday: 1981-07-18";
   "ID: 2, name: Tran Thi Y, weight: 56, birthday: 1999-05-12"; "ID: 3, name: Bui Xuan Z";
   "** QUERY EXAMPLE 6";
   "ID: 1, name: Nguyen Van X, weight: 62"; "ID: 2, name: Tran Thi Y, weight: 56"; "ID: 3, name: Bui Xuan Z";
   "** QUERY EXAMPLE 7";
   "ID: 1, name: Nguyen Van X, weight: 62"; "ID: 2, name: Tran Thi Y, weight: 56"; "ID: 3, name: Bui Xuan Z";
   "** QUERY EXAMPLE 8"; "3";
   "ID: 1, name: Nguyen Van X, weight: 62"; "ID: 2, name: Tran Thi Y, weight: 56"; "ID: 3, name: Bui Xuan Z";
   "** QUERY EXAMPLE 9"; "ID: 1, name: Nguyen Van X, weight: 62"; "ID: 3, name: Bui Xuan Z"]).
Example demo_sample : demo_sample_run demo_db = Some (demo_text, 0).
Proof. vm_compute. reflexivity. Qed.
(** A server that prepares no statement: [std::runtime_error] leaves [main]
    after eight examples. *)
Definition demo_no_stmt : @MySQLStmt demo_sample_mysql :=
  @Build_MySQLStmt demo_sample_mysql (λ _ d, (true, d)) (λ _ _ d, (1, d)) (λ _ _, 1%nat) (λ _ _, Some 3%nat)
    (λ _ _ d, (0, d)) (λ _ _ d, (0, d)) (λ _ _ d, (0, d)) (λ _ binds, on_rows (demo_fetch binds))
    (λ _ b i, on_rows (demo_fetch_column b i)) (λ _ d, d) (λ _ _, 0) (λ _ _, []).
Definition demo_left_by (d : demo_sample_db) : option (Z * exn) :=
  match sample_main (H0 := demo_no_stmt) 5 (demo_start d) with Threw s e => Some (sample_count s, e) | _ => None end.
Example demo_prepare_fails : demo_left_by demo_db = Some (9, runtime_error "Failed to prepare stmt: ").
Proof. vm_compute. reflexivity. Qed.

Lemma demo_start_fresh d : fresh_world (sa_world (demo_start d)).
Proof.
  unfold fresh_world, fresh_results, demo_start. cbn [sa_world sw_my sw_stmts mw_results mw_next].
  split; intros h Hh; exfalso; revert Hh; apply not_elem_of_empty.
Qed.
End Demo.
