(* ===== verification/CrashDump.v ===== *)
(** * Memory maps and crash dumps

    Models [MapsLine] of net/exceptionCrashDump.h, a line of /proc/PID/maps,
    and of net/exceptionCrashDump.cpp the start of [CCrashHandler] and the
    names of its files; CrashHandlers.v has its handlers and dumps.  Text is a
    list of bytes, as in a [std::string]. *)
From stdpp Require Import strings list.
From coqutil Require Import Byte.
From S2P Require Import Prelude.
From S2P Require Import MlnUtils.
From S2P Require Import TextFormat.
From S2P Require Import Environment.
#[local] Open Scope Z_scope.

(** ** [MapsLine] *)

(** A member the constructor leaves unset is an [option]. *)
Record MapsLine : Type := mkMapsLine {
  ml_valid : bool;
  ml_start : option Z;
  ml_end : option Z;
  permissions : list byte;
  ml_offset : option Z;
  device : list byte;
  inode : option Z;
  pathname : list byte
}.

Fixpoint span (p : byte → bool) (l : list byte) : list byte * list byte :=
  match l with
  | [] => ([], [])
  | b :: l' => if p b then let '(a, r) := span p l' in (b :: a, r) else ([], l)
  end.

(** A group of one or more characters, and the character behind it. *)
Definition group (p : byte → bool) (l : list byte) : option (list byte * list byte) :=
  match span p l with
  | ([], _) => None
  | r => Some r
  end.
Definition group_then (p q : byte → bool) (l : list byte) : option (list byte * list byte) :=
  '(a, r) ← group p l;
  match r with
  | b :: r' => if q b then Some (a, r') else None
  | [] => None
  end.

Definition not_space (b : byte) : bool := negb (is_space b).
(** [.] does not match the end of a line. *)
Definition is_line_end (b : byte) : bool := (ord b =? 10) || (ord b =? 13).

(** [regex_match] with the expression of the constructor: every group is
    followed by a character that it cannot contain, so that it takes all it
    can. *)
Definition match_maps (line : list byte)
    : option (list byte * list byte * list byte * list byte * list byte * list byte * list byte) :=
  '(g1, r) ← group_then (λ b, not_space b && negb (is_dash b)) is_dash line;
  '(g2, r) ← group_then not_space is_space r;
  '(g3, r) ← group_then not_space is_space r;
  '(g4, r) ← group_then not_space is_space r;
  '(g5, r) ← group_then not_space is_space r;
  '(g6, r) ← group not_space r;
  let g7 := skip_space r in
  if existsb is_line_end g7 then None else Some (g1, g2, g3, g4, g5, g6, g7).

Definition MapsLine_new {S} (line : list byte) : M S MapsLine :=
  match match_maps line with
  | None => mret (mkMapsLine false None None [] None [] None [])
  | Some (g1, g2, g3, g4, g5, g6, g7) =>
      start ← stoull g1 16;
      stop ← stoull g2 16;
      offset ← stoull g4 16;
      ino ← stoull g6 10;
      mret (mkMapsLine true (Some start) (Some stop) g3 (Some offset) g5 (Some ino) g7)
  end.

Definition space : byte := chr 32.
Definition as_string {S} (m : MapsLine) : M S (list byte) :=
  let uninit := "a member of MapsLine is not initialised" in
  start ← deref uninit (ml_start m);
  stop ← deref uninit (ml_end m);
  offset ← deref uninit (ml_offset m);
  ino ← deref uninit (inode m);
  mret (print_num 16 start ++ chr 45 :: print_num 16 stop ++ space :: permissions m
        ++ space :: print_num 16 offset ++ space :: device m
        ++ space :: print_num 10 ino ++ space :: pathname m).

(** ** What is printed is read back *)
Section RoundTrip.
Context {S : Type}.

(** The groups of the expression. *)
Lemma span_app p a r :
  Forall (λ b, p b = true) a → (∀ b r', r = b :: r' → p b = false) → span p (a ++ r) = (a, r).
Proof.
  intros Ha Hr. induction Ha as [|b a Hb Ha IH]; simpl.
  - destruct r as [|b r]; [done|]. simpl. by rewrite (Hr b r).
  - by rewrite Hb, IH.
Qed.
Lemma group_then_app p q a b r :
  Forall (λ b, p b = true) a → a ≠ [] → p b = false → q b = true →
  group_then p q (a ++ b :: r) = Some (a, r).
Proof.
  intros Ha Hne Hp Hq. unfold group_then, group.
  rewrite span_app; [|done|by intros ? ? [= <- _]].
  destruct a; [done|]. simpl. by rewrite Hq.
Qed.

Lemma print_num_word base n :
  2 ≤ base ≤ 16 → 0 ≤ n →
  Forall (λ b, not_space b = true) (print_num base n)
  ∧ Forall (λ b, not_space b && negb (is_dash b) = true) (print_num base n).
Proof.
  intros Hb Hn. pose proof (num_digits_digits base Hb 64 n Hn) as Hall.
  split; eapply Forall_impl; try exact Hall; intros b Hd; simpl;
    destruct (digit_not_space base Hb b Hd) as [Hs Hda]; unfold not_space; by rewrite Hs, ?Hda.
Qed.

Definition word (l : list byte) : Prop := l ≠ [] ∧ Forall (λ b, not_space b = true) l.
Definition addr_ok (o : option Z) : Prop := ∃ n, o = Some n ∧ 0 ≤ n < 2 ^ 64.
(** A line as the kernel prints it. *)
Record maps_ok (m : MapsLine) : Prop := {
  mo_valid : ml_valid m = true;
  mo_start : addr_ok (ml_start m);
  mo_end : addr_ok (ml_end m);
  mo_offset : addr_ok (ml_offset m);
  mo_inode : addr_ok (inode m);
  mo_permissions : word (permissions m);
  mo_device : word (device m);
  mo_no_line_end : existsb is_line_end (pathname m) = false;
  mo_no_space : skip_space (pathname m) = pathname m
}.

(** A valid line of a memory map that is printed with [as_string] is read back as it was:
    addresses, offset and inode as 64-bit numbers, permissions, device and path, the path possibly
    empty or with spaces inside. *)
Theorem maps_line_roundtrip m (s : S) :
  maps_ok m → ∃ line, as_string m s = Done s line ∧ MapsLine_new line s = Done s m.
Proof.
  intros [Hv (n1 & E1 & R1) (n2 & E2 & R2) (n3 & E3 & R3) (n4 & E4 & R4) [Hp1 Hp2] [Hd1 Hd2] Hl Hs].
  destruct m as [v o1 o2 perms o3 dev o4 path]. simpl in *. subst v o1 o2 o3 o4.
  eexists. split; [reflexivity|]. unfold MapsLine_new, match_maps.
  cbn [permissions device pathname].
  assert (H16 : 2 ≤ 16 ≤ 16) by lia. assert (H10 : 2 ≤ 10 ≤ 16) by lia.
  pose proof (print_num_word 16 n1 H16 ltac:(lia)) as [_ W1].
  pose proof (print_num_word 16 n2 H16 ltac:(lia)) as [W2 _].
  pose proof (print_num_word 16 n3 H16 ltac:(lia)) as [W3 _].
  pose proof (print_num_word 10 n4 H10 ltac:(lia)) as [W4 _].
  rewrite (group_then_app _ is_dash); [|done|by apply print_num_nonempty|done|done]. cbn [mbind option_bind].
  rewrite (group_then_app not_space is_space); [|done|by apply print_num_nonempty|done|done]. cbn [mbind option_bind].
  rewrite (group_then_app not_space is_space); [|done..]. cbn [mbind option_bind].
  rewrite (group_then_app not_space is_space); [|done|by apply print_num_nonempty|done|done]. cbn [mbind option_bind].
  rewrite (group_then_app not_space is_space); [|done..]. cbn [mbind option_bind].
  unfold group. rewrite span_app; [|done|by intros ? ? [= <- _]].
  destruct (print_num 10 n4) as [|b l] eqn:E4; [by apply print_num_nonempty in E4|].
  rewrite <- E4. cbn [mbind option_bind].
  change (skip_space (space :: path)) with (skip_space path). rewrite Hs, Hl.
  do 4 (rewrite bind_run, stoull_print by done; cbn [bind_outcome]). done.
Qed.
End RoundTrip.

(** ** [CCrashHandler] *)

(** The Windows calls that give names: the path of the program, its drive and
    directory, its file name; the name of the host as it is left in its buffer. *)
Class WinNames : Type := {
  GetModuleFileName : list byte;
  split_drive : list byte → list byte;
  split_dir : list byte → list byte;
  split_fname : list byte → list byte;
  host_name : list byte
}.
(** [get_child] of Boost.PropertyTree. *)
Class PropertyChildren `{PropertyTree} : Type := { get_child : string → ptree → option ptree }.

Inductive dump_func : Type := CreateFullDump | CreateMiniDump.
Inductive hook : Type :=
| hook_unhandled_filter | hook_purecall | hook_invalid_parameter | hook_abort_behavior
| hook_signal (name : string) | hook_terminate | hook_unexpected.

(** The statics of exceptionCrashDump.cpp, and the hooks installed. *)
Record CrashState : Type := mkCrashState {
  g_dump_func : option dump_func;
  g_filename : list byte;
  g_dump_path : list byte;
  cr_hooks : list hook
}.
Definition CrashState_new : CrashState := mkCrashState None [] [] [].
Definition set_dump_func (f : dump_func) (s : CrashState) : CrashState :=
  mkCrashState (Some f) (g_filename s) (g_dump_path s) (cr_hooks s).
Definition set_filename (p : list byte) (s : CrashState) : CrashState :=
  mkCrashState (g_dump_func s) p (g_dump_path s) (cr_hooks s).
Definition set_dump_path (p : list byte) (s : CrashState) : CrashState :=
  mkCrashState (g_dump_func s) (g_filename s) p (cr_hooks s).
Definition add_hooks (l : list hook) (s : CrashState) : CrashState :=
  mkCrashState (g_dump_func s) (g_filename s) (g_dump_path s) (cr_hooks s ++ l).

(** [MAX_PATH] and the truncating copies into an array of it. *)
Definition MAX_PATH : nat := 260.
Definition truncated (p : list byte) : list byte := take (MAX_PATH - 1) p.
Definition backslash : byte := chr 92.
Definition is_sep (b : byte) : bool := (ord b =? 92) || (ord b =? 47).

Section CrashHandler.
Context `{WinNames}.

(** The loop of [Init] over [g_dump_path], with the index [n - 1]: the index is
    unsigned, so that its condition [i >= 0] always holds. *)
Fixpoint trim_seps {S} (n : nat) (path : list byte) : M S (list byte) :=
  match n with
  | O => undefined "g_dump_path: the index wraps around"
  | Datatypes.S i =>
      match path !! i with
      | Some b => if is_sep b then trim_seps i (take i path) else mret path
      | None => undefined "g_dump_path: index out of bounds"
      end
  end.

Definition SetProcessExceptionHandlers : M CrashState unit :=
  modify (add_hooks [hook_unhandled_filter; hook_purecall; hook_invalid_parameter;
    hook_abort_behavior; hook_signal "SIGABRT"; hook_signal "SIGINT"; hook_signal "SIGTERM"]).
Definition SetThreadExceptionHandlers : M CrashState unit :=
  modify (add_hooks [hook_terminate; hook_unexpected; hook_signal "SIGFPE"; hook_signal "SIGILL";
    hook_signal "SIGSEGV"]).

(** A [const char*] may be null. *)
Definition given (p : option (list byte)) : option (list byte) :=
  p ← p; if bool_decide (c_str p = []) then None else Some (c_str p).

Definition CrashHandler_Init (root_path header : option (list byte)) (isFullDump : bool)
    : M CrashState unit :=
  modify (set_filename []);;
  modify (set_dump_path []);;
  modify (set_dump_path
    (match given root_path with
     | Some p => truncated p
     | None =>
         let pathModule := GetModuleFileName in
         truncated (split_drive pathModule ++ backslash :: split_dir pathModule)
     end));;
  s ← get_state;
  path ← trim_seps (length (g_dump_path s)) (g_dump_path s);
  modify (set_dump_path (if bool_decide (path = []) then [chr 46] else path));;
  modify (set_filename
    (match given header with
     | Some h => truncated h
     | None => split_fname GetModuleFileName
     end));;
  modify (set_dump_func (if isFullDump then CreateFullDump else CreateMiniDump));;
  SetProcessExceptionHandlers;;
  SetThreadExceptionHandlers.

(** [InitFromXML] inside the [try] of the XML macros: the flag is read from
    "dir". *)
Definition InitFromXML `{PropertyChildren} (env_file : string) : M CrashState bool :=
  try_catch
    (pt ← match read_xml env_file with Some pt => mret pt | None => throw (ptree_error env_file) end;
     info_pt ← match get_child "config.dump_info.info" pt with
               | Some t => mret t
               | None => throw (ptree_error "config.dump_info.info")
               end;
     let strFilename := default "" (get_string "file" info_pt) in
     let strPath := default "" (get_string "dir" info_pt) in
     let isFullDump := default true (get_bool "dir" info_pt) in
     CrashHandler_Init (Some (string_bytes strPath)) (Some (string_bytes strFilename)) isFullDump;;
     mret true)
    (λ _, mret false).

Definition CrashHandler_Init_env `{PropertyChildren} (env_file : string) : M CrashState unit :=
  ok ← InitFromXML env_file;
  if negb ok then CrashHandler_Init None None true else mret tt.

(** ** Names of files *)

(** [SYSTEMTIME] *)
Record SYSTEMTIME : Type := mkSYSTEMTIME {
  wYear : Z; wMonth : Z; wDay : Z; wHour : Z; wMinute : Z; wSecond : Z
}.

(** [find_first_of] the separators, from an index on. *)
Fixpoint find_sep (from : nat) (p : list byte) : option nat :=
  match p with
  | [] => None
  | b :: p' =>
      match from with
      | O => if is_sep b then Some O else Datatypes.S <$> find_sep O p'
      | Datatypes.S from => Datatypes.S <$> find_sep from p'
      end
  end.

(** The directories that are created: every prefix up to a separator behind
    the first character, and the whole path. *)
Fixpoint directories (fuel pos : nat) (path : list byte) : list (list byte) :=
  match fuel with
  | O => []
  | Datatypes.S fuel =>
      match find_sep (pos + 1) path with
      | Some pos => take pos path :: directories fuel pos path
      | None => [path]
      end
  end.

Definition under : byte := chr 95.
Definition target_dir (dump_path : list byte) (st : SYSTEMTIME) : list byte :=
  truncated (dump_path ++ backslash :: pad_num 4 (wYear st) ++ pad_num 2 (wMonth st) ++ pad_num 2 (wDay st)).

(** The path that is written to [out], and the directories created. *)
Definition generate_filename (s : CrashState) (st : SYSTEMTIME) (header ext : list byte)
    : list byte * list (list byte) :=
  let dir := target_dir (g_dump_path s) st in
  (truncated
     (dir ++ backslash :: header ++ under :: g_filename s ++ under :: host_name
      ++ under :: pad_num 4 (wYear st) ++ pad_num 2 (wMonth st) ++ pad_num 2 (wDay st)
      ++ under :: pad_num 2 (wHour st) ++ pad_num 2 (wMinute st) ++ pad_num 2 (wSecond st)
      ++ chr 46 :: ext),
   directories (Datatypes.S (length dir)) 0 dir).
End CrashHandler.

(** ** The directory of the dumps *)
Section InitSpec.
Context `{WinNames}.

(** A path without the separators at its end. *)
Fixpoint drop_seps (l : list byte) : list byte :=
  match l with
  | b :: l' => if is_sep b then drop_seps l' else l
  | [] => []
  end.
Definition strip_seps (path : list byte) : list byte := reverse (drop_seps (reverse path)).

Lemma strip_seps_snoc p b : strip_seps (p ++ [b]) = if is_sep b then strip_seps p else p ++ [b].
Proof.
  unfold strip_seps. rewrite reverse_snoc. simpl. destruct (is_sep b); [done|].
  by rewrite reverse_cons, reverse_involutive.
Qed.

Lemma trim_seps_run {S} path (s : S) :
  trim_seps (length path) path s
  = if forallb is_sep path then Undef "g_dump_path: the index wraps around"
    else Done s (strip_seps path).
Proof.
  induction path as [|b p IH] using rev_ind; [done|].
  rewrite length_app, Nat.add_1_r, forallb_app, strip_seps_snoc. cbn [trim_seps].
  rewrite list_lookup_middle by done. simpl. rewrite andb_true_r.
  destruct (is_sep b).
  - by rewrite take_app_length, andb_true_r.
  - by rewrite andb_false_r.
Qed.

Lemma Init_given path header full s :
  c_str path ≠ [] →
  let p := truncated (c_str path) in
  if forallb is_sep p
  then CrashHandler_Init (Some path) header full s = Undef "g_dump_path: the index wraps around"
  else ∃ s', CrashHandler_Init (Some path) header full s = Done s' tt
         ∧ g_dump_path s' = strip_seps p
         ∧ g_dump_func s' = Some (if full then CreateFullDump else CreateMiniDump).
Proof.
  intros Hne p. unfold CrashHandler_Init, given. cbn [mbind option_bind].
  rewrite bool_decide_false by done. fold p. unfold SetProcessExceptionHandlers, SetThreadExceptionHandlers.
  run_step. cbn [g_dump_path set_dump_path set_filename]. rewrite trim_seps_run.
  destruct (forallb is_sep p) eqn:Hp; [done|]. run_step. eexists. split; [done|]. split; [|by destruct full].
  simpl. rewrite bool_decide_false; [done|]. intros Hnil.
  unfold strip_seps in Hnil. apply (f_equal reverse) in Hnil. rewrite reverse_involutive in Hnil.
  assert (Hdrop : ∀ l, drop_seps l = [] → forallb is_sep l = true).
  { induction l as [|b l IH]; [done|]. simpl. destruct (is_sep b); [by apply IH|done]. }
  apply Hdrop in Hnil. clear Hdrop. revert Hp.
  rewrite (proj2 (forallb_forall is_sep p)); [done|]. intros b Hb.
  apply (proj1 (forallb_forall is_sep (reverse p)) Hnil).
  apply list_elem_of_In, elem_of_reverse. by apply list_elem_of_In.
Qed.

(** A path of separators only is read in front of its start. *)
Theorem Init_root_undefined header full s :
  CrashHandler_Init (Some [chr 47]) header full s = Undef "g_dump_path: the index wraps around".
Proof. exact (Init_given [chr 47] header full s ltac:(by vm_compute)). Qed.
End InitSpec.

(** ** Witness: a mapping of a program *)
Definition demo_maps : MapsLine :=
  mkMapsLine true (Some 4194304) (Some 4198400) (string_bytes "r-xp") (Some 0) (string_bytes "08:01")
    (Some 1234) (string_bytes "/srv/lobby svr").

Lemma maps_line_roundtrip_witness :
  maps_ok demo_maps
  ∧ ∃ line, as_string demo_maps tt = Done tt line ∧ MapsLine_new line tt = Done tt demo_maps.
Proof.
  assert (Hok : maps_ok demo_maps).
  { split; try done; try (eexists; split; [reflexivity|lia]);
      (split; [done|]); apply Forall_forall; intros b Hb; vm_compute in Hb;
      repeat (apply elem_of_cons in Hb as [->|Hb]; [done|]); by apply not_elem_of_nil in Hb. }
  split; [exact Hok|exact (maps_line_roundtrip demo_maps tt Hok)].
Defined.

Example demo_maps_text :
  as_string demo_maps tt = Done tt (string_bytes "400000-401000 r-xp 0 08:01 1234 /srv/lobby svr").
Proof. vm_compute. reflexivity. Qed.
