(* ===== verification/CrashHandlers.v ===== *)
(** * Writing crash dumps

    Models the rest of net/exceptionCrashDump.cpp as it is built for Windows:
    the handlers of CCrashHandler, the two kinds of dump, and the walk over the
    stack with the text it writes, for 32-bit and for 64-bit x86.  The calls of
    Windows are events of a trace, and what they answer is a function of the
    trace before ([WinCrash]). *)
From stdpp Require Import strings list.
From coqutil Require Import Byte Word.LittleEndianList.
From S2P Require Import Prelude.
From S2P Require Import MlnUtils.
From S2P Require Import TextFormat.
From S2P Require Import CrashDump.
#[local] Open Scope Z_scope.

(** ** Data *)
Inductive reg : Type :=
| Rax | Rbx | Rcx | Rdx | Rsi | Rdi | Rbp | Rsp | R8 | R9 | R10 | R11 | R12 | R13 | R14 | R15 | Rip
| Eax | Ebx | Ecx | Edx | Esi | Edi | Ebp | Esp | Eip
| SegSs | SegCs | SegDs | SegEs | SegFs | SegGs | EFlags | ContextFlags.
#[export] Instance reg_eq_dec : EqDecision reg.
Proof. solve_decision. Defined.

(** [CONTEXT]: the members that are used. *)
Definition CONTEXT : Type := reg → Z.
Definition CONTEXT_zero : CONTEXT := λ _, 0.
Definition ctx_set (r : reg) (v : Z) (c : CONTEXT) : CONTEXT :=
  λ r', if decide (r' = r) then v else c r'.

Record EXCEPTION_RECORD : Type := mkEXCEPTION_RECORD { ExceptionCode : Z; ExceptionAddress : Z }.
Record EXCEPTION_POINTERS : Type := mkEXCEPTION_POINTERS {
  ExceptionRecord : EXCEPTION_RECORD;
  ContextRecord : CONTEXT
}.
(** [STACKFRAME]: the offsets of its addresses. *)
Record STACKFRAME : Type := mkSTACKFRAME { AddrPC : Z; AddrStack : Z; AddrFrame : Z }.

(** ** The calls of Windows *)
Inductive win_event : Type :=
| EvLoadLibrary (name : string)
| EvCreateDirectory (path : list byte)
| EvCreateFile (path : list byte) (h : option Z)
| EvGetProcAddress (name : string)
| EvMiniDumpWriteDump (h flags : Z) (ptrs : option EXCEPTION_POINTERS)
| EvWriteFile (h : Z) (data : list byte)
| EvCloseHandle (h : Z)
| EvSymInitialize
| EvStackWalk (machine : Z) (frame : STACKFRAME)
| EvSymGetSymFromAddr (addr : Z)
| EvSymGetModuleInfo (addr : Z)
| EvSymGetLineFromAddr (addr : Z)
| EvSymCleanup
| EvTerminateProcess (code : Z).

Inductive arch : Type := X86 | AMD64.

(** [format_pointer] is what the C library makes of [%p] and [%#p]; [memory]
    is the byte at an address, if it can be read; the registers are those of
    the processor when [GetExceptionPointers] runs. *)
Class WinCrash : Type := {
  target : arch;
  GetLocalTime : list win_event → SYSTEMTIME;
  GetCurrentProcessId : Z;
  GetCurrentThreadId : Z;
  LoadLibrary : list win_event → string → bool;
  CreateFile : list win_event → list byte → option Z;
  GetProcAddress : list win_event → string → bool;
  MiniDumpWriteDump : list win_event → Z → Z → option EXCEPTION_POINTERS → bool;
  SymInitialize : list win_event → bool;
  StackWalk : list win_event → Z → STACKFRAME → CONTEXT → option (STACKFRAME * CONTEXT);
  SymGetSymFromAddr : list win_event → Z → option (list byte * Z);
  GetLastError : list win_event → Z;
  SymGetLineFromAddr : list win_event → Z → option (list byte * Z);
  memory : list win_event → Z → option byte;
  cpu : CONTEXT;
  ReturnAddress : Z;
  AddressOfReturnAddress : Z;
  pxcptinfoptrs : option EXCEPTION_POINTERS;
  format_pointer : bool → Z → list byte
}.

Record CrashWorld : Type := mkCrashWorld { cw_state : CrashState; cw_trace : list win_event }.

Section Calls.
Context `{WinNames} `{WinCrash}.
Local Abbreviation W := CrashWorld.

Definition win_call (e : win_event) : M W unit :=
  modify (λ w, mkCrashWorld (cw_state w) (cw_trace w ++ [e])).
(** What the system answers now. *)
Definition win_ask {A} (f : list win_event → A) : M W A := gets (λ w, f (cw_trace w)).

(** [generate_filename] with its calls. *)
Definition make_filename (header ext : string) : M W (list byte) :=
  w ← get_state;
  st ← win_ask GetLocalTime;
  let r := generate_filename (cw_state w) st (string_bytes header) (string_bytes ext) in
  modify (λ w, mkCrashWorld (cw_state w) (cw_trace w ++ (EvCreateDirectory <$> snd r)));;
  mret (fst r).
Definition create_file (path : list byte) : M W (option Z) :=
  h ← win_ask (λ t, CreateFile t path);
  win_call (EvCreateFile path h);;
  mret h.

(** [_snprintf_s(buff, 1024, _TRUNCATE, ...)] and [WriteFile] of [strlen(buff)]
    bytes; its result is not used. *)
Definition BUFF_SIZE : nat := 1024.
Definition in_buff (text : list byte) : list byte := c_str (take (BUFF_SIZE - 1) text).
Definition write_text (h : Z) (text : list byte) : M W unit := win_call (EvWriteFile h (in_buff text)).
End Calls.

(** ** The state at the exception *)
Section Pointers.
Context `{WinCrash}.

(** The bytes of a 32-bit number in memory. *)
Definition read_ulong (t : list win_event) (addr : Z) : option Z :=
  b0 ← memory t addr; b1 ← memory t (addr + 1); b2 ← memory t (addr + 2); b3 ← memory t (addr + 3);
  Some (le_combine [b0; b1; b2; b3]).

(** [GetExceptionPointers]; the objects it creates are never freed. *)
Definition capture_x86 : M CrashWorld CONTEXT :=
  ebp ← win_ask (λ t, read_ulong t (u32 (AddressOfReturnAddress - 4)));
  ebp ← deref "read of the stack" ebp;
  let saved := foldr (λ r c, ctx_set r (cpu r) c) CONTEXT_zero
    [Eax; Ecx; Edx; Ebx; Esi; Edi; SegSs; SegCs; SegDs; SegEs; SegFs; SegGs; EFlags] in
  mret (ctx_set Ebp ebp (ctx_set Esp (u32 AddressOfReturnAddress)
          (ctx_set Eip (u32 ReturnAddress) (ctx_set ContextFlags 65537 saved)))).
Definition capture : M CrashWorld CONTEXT :=
  match target with X86 => capture_x86 | AMD64 => mret cpu end.
Definition GetExceptionPointers (dwExceptionCode : Z) : M CrashWorld EXCEPTION_POINTERS :=
  context ← capture;
  mret (mkEXCEPTION_POINTERS (mkEXCEPTION_RECORD dwExceptionCode ReturnAddress) context).
End Pointers.

(** ** Dumps *)
Section Dumps.
Context `{WinNames} `{WinCrash}.
Local Abbreviation W := CrashWorld.

Definition MiniDumpNormal : Z := 0.
(** [MiniDumpWithFullMemory | MiniDumpWithFullMemoryInfo | MiniDumpWithHandleData
    | MiniDumpWithUnloadedModules | MiniDumpWithThreadInfo] *)
Definition FullDumpFlags : Z := Z.lor 2 (Z.lor 2048 (Z.lor 4 (Z.lor 32 4096))).

(** The two functions differ in the name of the file and the flags. *)
Definition create_dump (header : string) (flags : Z) (pExcPtrs : option EXCEPTION_POINTERS) : M W unit :=
  loaded ← win_ask (λ t, LoadLibrary t "dbghelp.dll");
  win_call (EvLoadLibrary "dbghelp.dll");;
  if negb loaded then mret tt
  else
    filename ← make_filename header "dmp";
    file ← create_file filename;
    match file with
    | None => mret tt
    | Some hFile =>
        found ← win_ask (λ t, GetProcAddress t "MiniDumpWriteDump");
        win_call (EvGetProcAddress "MiniDumpWriteDump");;
        if negb found then mret tt
        else
          bWriteDump ← win_ask (λ t, MiniDumpWriteDump t hFile flags pExcPtrs);
          win_call (EvMiniDumpWriteDump hFile flags pExcPtrs);;
          if negb bWriteDump then mret tt
          else win_call (EvCloseHandle hFile)
    end.
Definition CreateMiniDump_run (pExcPtrs : option EXCEPTION_POINTERS) : M W unit :=
  create_dump "MiniDump" MiniDumpNormal pExcPtrs.
Definition CreateFullDump_run (pExcPtrs : option EXCEPTION_POINTERS) : M W unit :=
  create_dump "FullDump" FullDumpFlags pExcPtrs.

(** [g_dump_func(pExceptionPtrs)] *)
Definition call_dump_func (pExcPtrs : option EXCEPTION_POINTERS) : M W unit :=
  w ← get_state;
  f ← deref "g_dump_func is null" (g_dump_func (cw_state w));
  match f with
  | CreateMiniDump => CreateMiniDump_run pExcPtrs
  | CreateFullDump => CreateFullDump_run pExcPtrs
  end.
End Dumps.

(** ** The walk over the stack *)

(** [%0nx] and [%0nX] of a 32-bit number, [%x]; [%d] of one. *)
Definition pad_hex (w : nat) (n : Z) : list byte :=
  let d := print_num 16 n in replicate (w - length d) (chr 48) ++ d.
Definition print_signed (n : Z) : list byte :=
  if n <? 2 ^ 31 then print_num 10 n else chr 45 :: print_num 10 (2 ^ 32 - n).
Definition NL : list byte := [chr 13; chr 10].
Definition TAB : byte := chr 9.
Definition TABS : list byte := replicate 4 TAB.

(** What the code for the two processors does differently. *)
Record WalkFormat : Type := mkWalkFormat {
  wf_machine : Z;                      (* IMAGE_FILE_MACHINE_... *)
  wf_wrap : Z → Z;                     (* the type of addresses *)
  wf_address : Z → list byte;
  wf_number : Z → list byte;
  wf_stack : Z → list byte;
  wf_row : Z → list byte;
  wf_rows : nat                        (* sizeof(size_t) * 4 *)
}.

Section Walk.
Context `{WinNames} `{WinCrash}.
Local Abbreviation W := CrashWorld.

Definition format_x64 : WalkFormat :=
  mkWalkFormat 34404 u64 (format_pointer true) (print_num 10) (format_pointer false) (format_pointer false) 32.
Definition format_x86 : WalkFormat :=
  mkWalkFormat 332 u32 (λ z, string_bytes "0x" ++ pad_hex 8 z) print_signed (pad_hex 8) (format_hex 8) 16.

(** [chSymbol] has 256 bytes, the name starts at the offset of [Name] in
    IMAGEHLP_SYMBOL; [MaxNameLength] is computed with the size of a pointer. *)
Definition name_offset : nat := match target with AMD64 => 28 | X86 => 20 end.
Definition sizeof_pointer : nat := match target with AMD64 => 8 | X86 => 4 end.
Definition MaxNameLength : nat := 256 - sizeof_pointer + 1.
Definition symbol_name (name : list byte) : M W (list byte) :=
  let name := take MaxNameLength name in
  if (256 <? name_offset + length name + 1)%nat then undefined "the name is written past chSymbol"
  else mret name.

Section Format.
Context (f : WalkFormat) (hFile : Z).

Definition walk_symbol (pc : Z) : M W unit :=
  sym ← win_ask (λ t, SymGetSymFromAddr t pc);
  win_call (EvSymGetSymFromAddr pc);;
  match sym with
  | Some (name, address) =>
      name ← symbol_name name;
      write_text hFile (wf_address f pc ++ string_bytes " - " ++ name ++ string_bytes "() + "
                        ++ print_num 16 (u32 (pc - address)) ++ string_bytes "h" ++ NL)
  | None =>
      e ← win_ask GetLastError;
      write_text hFile (wf_address f pc ++ string_bytes " - [Unknown Symbol:Error " ++ wf_number f e
                        ++ string_bytes "]" ++ NL)
  end.

(** The loop over [lineIdx], [n] turns of which are left. *)
Fixpoint walk_line (n : nat) (pc lineIdx : Z) : M W unit :=
  match n with
  | O => mret tt
  | S n =>
      let addr := wf_wrap f (pc - lineIdx) in
      line ← win_ask (λ t, SymGetLineFromAddr t addr);
      win_call (EvSymGetLineFromAddr addr);;
      match line with
      | Some (name, number) =>
          write_text hFile (TABS ++ string_bytes "FileName:" ++ name ++ NL);;
          write_text hFile (TABS ++ string_bytes "LineNumber:" ++ wf_number f number ++ NL)
      | None => walk_line n pc (lineIdx + 1)
      end
  end.

(** The names of the module are formatted into [buff] but not written. *)
Definition walk_frame (pc : Z) : M W unit :=
  walk_symbol pc;;
  win_call (EvSymGetModuleInfo pc);;
  walk_line 512 pc 0.

(** The loop over [walkIdx]; [StackWalk] changes the frame and the context. *)
Fixpoint walk_frames (n : nat) (frame : STACKFRAME) (context : CONTEXT) : M W CONTEXT :=
  match n with
  | O => mret context
  | S n =>
      if 0 =? AddrPC frame then mret context
      else
        next ← win_ask (λ t, StackWalk t (wf_machine f) frame context);
        win_call (EvStackWalk (wf_machine f) frame);;
        match next with
        | None => mret context
        | Some (frame, context) => walk_frame (AddrPC frame);; walk_frames n frame context
        end
  end.

(** A row of the memory of the stack: 16 bytes. *)
Fixpoint stack_bytes (n : nat) (addr : Z) : M W unit :=
  match n with
  | O => mret tt
  | S n =>
      b ← win_ask (λ t, memory t addr);
      b ← deref "read of the stack" b;
      write_text hFile (format_hex 2 (ord b) ++ [chr 32]);;
      stack_bytes n (wf_wrap f (addr + 1))
  end.
Fixpoint stack_rows (n : nat) (addr : Z) : M W unit :=
  match n with
  | O => mret tt
  | S n =>
      write_text hFile (wf_row f addr ++ string_bytes " : ");;
      stack_bytes 16 addr;;
      write_text hFile NL;;
      stack_rows n (wf_wrap f (addr + 16))
  end.
Definition write_stack (stack : Z) : M W unit :=
  write_text hFile NL;;
  write_text hFile (string_bytes "stack " ++ wf_stack f stack ++ string_bytes " - "
                    ++ wf_stack f (wf_wrap f (stack + Z.of_nat (wf_rows f) * 16)) ++ NL);;
  stack_rows (wf_rows f) stack.

(** Two registers of a line. *)
Definition write_regs (context : CONTEXT) (r : string * reg * string * reg) : M W unit :=
  let '(n1, r1, n2, r2) := r in
  write_text hFile (string_bytes n1 ++ string_bytes ": " ++ wf_address f (context r1)
                    ++ TAB :: string_bytes n2 ++ string_bytes ": " ++ wf_address f (context r2) ++ NL).
Fixpoint write_registers (context : CONTEXT) (l : list (string * reg * string * reg)) : M W unit :=
  match l with
  | [] => mret tt
  | r :: l => write_regs context r;; write_registers context l
  end.
End Format.

Definition registers_x64 : list (string * reg * string * reg) :=
  [("rax", Rax, "rbx", Rbx); ("rcx", Rcx, "rdx", Rdx); ("rsi", Rsi, "rdi", Rdi); ("rbp", Rbp, "rsp", Rsp);
   ("r8", R8, "r9", R9); ("r10", R10, "r11", R11); ("r12", R12, "r13", R13); ("r14", R14, "r15", R15)].
Definition registers_x86 : list (string * reg * string * reg) :=
  [("eax", Eax, "ebx", Ebx); ("ecx", Ecx, "edx", Edx); ("esi", Esi, "edi", Edi); ("ebp", Ebp, "esp", Esp)].

(** The code below [#if defined(_M_X64)]: the registers, the frames, and the
    memory at the stack pointer that the walk has left in the context. *)
Definition walk_x64 (hFile : Z) (context : CONTEXT) : M W unit :=
  let f := format_x64 in
  write_text hFile NL;;
  write_registers f hFile context registers_x64;;
  write_text hFile NL;;
  context ← walk_frames f hFile 512 (mkSTACKFRAME (context Rip) (context Rsp) (context Rbp)) context;
  write_stack f hFile (context Rsp).
Definition walk_x86 (hFile : Z) (context : CONTEXT) : M W unit :=
  let f := format_x86 in
  write_text hFile NL;;
  write_registers f hFile context registers_x86;;
  write_text hFile NL;;
  context ← walk_frames f hFile 512 (mkSTACKFRAME (context Eip) (context Esp) (context Ebp)) context;
  write_stack f hFile (context Esp).

Definition write_header (hFile : Z) (st : SYSTEMTIME) : M W unit :=
  let d := print_num 10 in
  write_text hFile (string_bytes "Date:" ++ d (wYear st) ++ chr 45 :: d (wMonth st) ++ chr 45 :: d (wDay st)
    ++ chr 95 :: d (wHour st) ++ chr 58 :: d (wMinute st) ++ chr 58 :: d (wSecond st) ++ NL);;
  write_text hFile (string_bytes "Process:" ++ print_num 16 GetCurrentProcessId ++ NL);;
  write_text hFile (string_bytes "Thread:" ++ print_num 16 GetCurrentThreadId ++ NL);;
  write_text hFile NL.

Definition exception_text (r : EXCEPTION_RECORD) : list byte :=
  string_bytes "Exception Type:0x" ++ pad_hex 8 (ExceptionCode r) ++ NL.

(** When the file cannot be created the symbols stay loaded. *)
Definition MyStackWalk (pExcPtrs : option EXCEPTION_POINTERS) : M W unit :=
  st ← win_ask GetLocalTime;
  init ← win_ask SymInitialize;
  win_call EvSymInitialize;;
  if negb init then mret tt
  else
    filename ← make_filename "StackDump" "txt";
    file ← create_file filename;
    match file with
    | None => mret tt
    | Some hFile =>
        write_header hFile st;;
        ptrs ← deref "pExcPtrs is null" pExcPtrs;
        write_text hFile (exception_text (ExceptionRecord ptrs));;
        match target with
        | AMD64 => walk_x64 hFile (ContextRecord ptrs)
        | X86 => walk_x86 hFile (ContextRecord ptrs)
        end;;
        win_call EvSymCleanup;;
        win_call (EvCloseHandle hFile)
    end.
End Walk.

(** ** The handlers *)
Section Handlers.
Context `{WinNames} `{WinCrash}.
Local Abbreviation W := CrashWorld.

(** [TerminateProcess(GetCurrentProcess(), 1)]: nothing runs after it. *)
Definition terminate : M W unit := win_call (EvTerminateProcess 1).
(** What all handlers do with the exception. *)
Definition report (pExcPtrs : option EXCEPTION_POINTERS) : M W unit :=
  call_dump_func pExcPtrs;; MyStackWalk pExcPtrs.
Definition report_here : M W unit :=
  pExceptionPtrs ← GetExceptionPointers 0; report (Some pExceptionPtrs).

Definition SehHandler (pExceptionPtrs : option EXCEPTION_POINTERS) : M W unit :=
  report pExceptionPtrs;; terminate.
Definition TerminateHandler : M W unit := report_here;; terminate.
Definition UnexpectedHandler : M W unit := report_here;; terminate.
Definition PureCallHandler : M W unit := report_here;; terminate.
Definition NewHandler (size : Z) : M W unit := report_here;; terminate.
Definition SigabrtHandler (sig : Z) : M W unit := report_here;; terminate.
Definition SigfpeHandler (code subcode : Z) : M W unit := report pxcptinfoptrs;; terminate.
Definition SigillHandler (sig : Z) : M W unit := report_here;; terminate.
Definition SigintHandler (sig : Z) : M W unit := report_here;; terminate.
Definition SigsegvHandler (sig : Z) : M W unit := report pxcptinfoptrs;; terminate.
Definition SigtermHandler (sig : Z) : M W unit := report_here;; terminate.

(** A wide string: 16-bit units, written low byte first; [%s] of a null
    pointer gives "(null)". *)
Definition wide (s : string) : list Z := ord <$> string_bytes s.
Definition wide_bytes (l : list Z) : list byte := l ≫= λ c, le_split 2 c.
Definition wide_arg (s : option (list Z)) : list Z := default (wide "(null)") s.
Definition wide_nl : list Z := [13; 10].
Definition write_wide (h : Z) (text : list Z) : M W unit :=
  win_call (EvWriteFile h (wide_bytes (take (BUFF_SIZE - 1) text))).
(** The text about the parameters that [InvalidParameterHandler] writes. *)
Definition write_parameters (expression function file : option (list Z)) (line : Z) : M W unit :=
  filename ← make_filename "InvalidParamDump" "txt";
  f ← create_file filename;
  match f with
  | None => mret tt
  | Some hFile =>
      write_wide hFile (wide "Exception : " ++ wide_arg expression ++ wide_nl);;
      write_wide hFile (wide "Function : " ++ wide_arg function ++ wide_nl);;
      write_wide hFile (wide "File : " ++ wide_arg file ++ wide_nl);;
      write_wide hFile (wide "Line : " ++ (ord <$> print_num 10 line) ++ wide_nl);;
      win_call (EvCloseHandle hFile)
  end.
Definition InvalidParameterHandler (expression function file : option (list Z)) (line : Z) : M W unit :=
  report_here;; write_parameters expression function file line;; terminate.

(** What the system runs for an event for which [Init] has installed a hook;
    nothing is hooked for the behaviour of [abort]. *)
Inductive crash : Type :=
| seh (ptrs : option EXCEPTION_POINTERS)
| purecall | terminated | unexpected
| invalid_parameter (expression function file : option (list Z)) (line : Z)
| raised (signal : string).
Definition hook_of (c : crash) : hook :=
  match c with
  | seh _ => hook_unhandled_filter
  | purecall => hook_purecall
  | terminated => hook_terminate
  | unexpected => hook_unexpected
  | invalid_parameter _ _ _ _ => hook_invalid_parameter
  | raised s => hook_signal s
  end.
Definition handle (c : crash) : M W unit :=
  match c with
  | seh ptrs => SehHandler ptrs
  | purecall => PureCallHandler
  | terminated => TerminateHandler
  | unexpected => UnexpectedHandler
  | invalid_parameter e f p l => InvalidParameterHandler e f p l
  | raised s =>
      if decide (s = "SIGABRT") then SigabrtHandler 22
      else if decide (s = "SIGINT") then SigintHandler 2
      else if decide (s = "SIGTERM") then SigtermHandler 15
      else if decide (s = "SIGFPE") then SigfpeHandler 8 0
      else if decide (s = "SIGILL") then SigillHandler 4
      else if decide (s = "SIGSEGV") then SigsegvHandler 11
      else mret tt
  end.
End Handlers.

(** ** What a run adds to the trace *)
Section Does.
Local Abbreviation W := CrashWorld.

(** [m] adds events to the trace as [P] says and leaves the statics alone; it
    neither throws nor runs out of fuel, and with [total] it is defined. *)
Definition does {A} (total : bool) (m : M W A) (w : W) (P : list win_event → A → Prop) : Prop :=
  match m w with
  | Done w' a => cw_state w' = cw_state w ∧ ∃ l, cw_trace w' = cw_trace w ++ l ∧ P l a
  | Undef _ => total = false
  | Threw _ _ | NoFuel => False
  end.

Context (total : bool).
Lemma does_bind {A B} (m : M W A) (k : A → M W B) w P Q :
  does total m w P →
  (∀ w' l a, cw_state w' = cw_state w → cw_trace w' = cw_trace w ++ l → P l a →
     does total (k a) w' (λ l' b, Q (l ++ l') b)) →
  does total (m ≫= k) w Q.
Proof.
  unfold does. rewrite bind_run. intros Hm Hk. destruct (m w) as [w1 a|w1 e| |]; simpl; try done.
  destruct Hm as (Hs & l & Ht & HP). specialize (Hk w1 l a Hs Ht HP).
  destruct (k a w1) as [w2 b|w2 e| |]; try done. destruct Hk as (Hs' & l' & Ht' & HQ).
  split; [congruence|]. exists (l ++ l'). split; [|done]. by rewrite Ht', Ht, app_assoc.
Qed.
Lemma does_mono {A} (m : M W A) w (P Q : list win_event → A → Prop) :
  does total m w P → (∀ l a, P l a → Q l a) → does total m w Q.
Proof.
  unfold does. destruct (m w); try done. intros (? & l & ? & ?) HPQ. split; [done|]. exists l. auto.
Qed.
Lemma does_ret {A} (a : A) w (P : list win_event → A → Prop) : P [] a → does total (mret a) w P.
Proof. intros HP. split; [done|]. exists []. by rewrite app_nil_r. Qed.
Lemma does_ask {A} (f : list win_event → A) w (P : list win_event → A → Prop) :
  P [] (f (cw_trace w)) → does total (win_ask f) w P.
Proof. intros HP. split; [done|]. exists []. by rewrite app_nil_r. Qed.
Lemma does_call e w (P : list win_event → unit → Prop) : P [e] tt → does total (win_call e) w P.
Proof. intros HP. split; [done|]. by exists [e]. Qed.
Lemma does_deref {A} what (o : option A) w (P : list win_event → A → Prop) :
  (total = true → is_Some o) → (∀ a, o = Some a → P [] a) → does total (deref what o) w P.
Proof.
  intros Ho HP. destruct o as [a|]; [by apply does_ret, HP|]. unfold does. simpl.
  destruct total; [|done]. by destruct (Ho eq_refl).
Qed.
End Does.

(** ** Pieces that only write text *)
Definition is_write (e : win_event) : bool := match e with EvWriteFile _ _ => true | _ => false end.
Definition writes (l : list win_event) : nat := length (filter (λ e, is_write e = true) l).
Lemma writes_of_app l1 l2 : writes (l1 ++ l2) = (writes l1 + writes l2)%nat.
Proof. unfold writes. by rewrite filter_app, length_app. Qed.

(** Events of the walk over the stack, with the text written to [h]. *)
Definition text_event (h : Z) (e : win_event) : Prop :=
  match e with
  | EvWriteFile h' _ => h' = h
  | EvStackWalk _ _ | EvSymGetSymFromAddr _ | EvSymGetModuleInfo _ | EvSymGetLineFromAddr _ => True
  | _ => False
  end.
(** At most [n] pieces of text. *)
Definition texts (h : Z) (n : nat) (l : list win_event) : Prop :=
  Forall (text_event h) l ∧ (writes l ≤ n)%nat.

Lemma texts_app h n1 n2 l1 l2 : texts h n1 l1 → texts h n2 l2 → texts h (n1 + n2) (l1 ++ l2).
Proof. intros [? ?] [? ?]. split; [by apply Forall_app|]. rewrite writes_of_app. lia. Qed.
Lemma texts_nil h n : texts h n [].
Proof. split; [done|]. unfold writes. simpl. lia. Qed.
Lemma texts_mono h n n' l : texts h n l → (n ≤ n')%nat → texts h n' l.
Proof. intros [? ?] ?. split; [done|lia]. Qed.

Section Text.
Context `{WinNames} `{WinCrash}.
Local Abbreviation W := CrashWorld.

(** [m] writes at most [n] pieces of text to [h], as long as it is defined. *)
Definition writes_text {A} (h : Z) (n : nat) (m : M W A) : Prop :=
  ∀ w, does false m w (λ l _, texts h n l).

Lemma wt_bind {A B} h n1 n2 (m : M W A) (k : A → M W B) :
  writes_text h n1 m → (∀ a, writes_text h n2 (k a)) → writes_text h (n1 + n2) (m ≫= k).
Proof.
  intros Hm Hk w. eapply does_bind; [apply Hm|]. intros w' l a _ _ Hl.
  eapply does_mono; [apply Hk|]. simpl. intros l' b Hl'. by apply texts_app.
Qed.
Lemma wt_mono {A} h n n' (m : M W A) : writes_text h n m → (n ≤ n')%nat → writes_text h n' m.
Proof. intros Hm Hn w. eapply does_mono; [apply Hm|]. simpl. intros l _ Hl. by eapply texts_mono. Qed.
Lemma wt_ret {A} h (a : A) : writes_text h 0 (mret a).
Proof. intros w. apply does_ret, texts_nil. Qed.
Lemma wt_ask {A} h (f : list win_event → A) : writes_text h 0 (win_ask f).
Proof. intros w. apply does_ask, texts_nil. Qed.
Lemma wt_call h e : text_event h e → is_write e = false → writes_text h 0 (win_call e).
Proof.
  intros He Hw w. apply does_call. split; [by apply Forall_singleton|]. unfold writes.
  rewrite filter_cons_False by congruence. simpl. lia.
Qed.
Lemma wt_text h text : writes_text h 1 (write_text h text).
Proof.
  intros w. apply does_call. split; [by apply Forall_singleton|]. unfold writes.
  rewrite filter_cons_True by done. simpl. lia.
Qed.
Lemma wt_deref {A} h what (o : option A) : writes_text h 0 (deref what o).
Proof. intros w. apply does_deref; [done|]. intros a _. apply texts_nil. Qed.

(** Sequences, with the number of texts added up. *)
Ltac wt_seq := eapply wt_mono; [repeat first
  [ apply wt_text | apply wt_ask | apply wt_ret | by apply wt_call
  | eapply wt_bind; [|intros ?] ]|lia].

Section Format.
Context (f : WalkFormat) (h : Z).

Lemma wt_symbol_name name : writes_text h 0 (symbol_name name).
Proof. unfold symbol_name. cbv zeta. destruct (_ <? _)%nat; [by intros w|apply wt_ret]. Qed.
Lemma wt_walk_symbol pc : writes_text h 1 (walk_symbol f h pc).
Proof.
  intros w. unfold walk_symbol. eapply does_bind; [eapply (does_ask _ _ _ (λ l a, l = [] ∧ a = _)); by split|].
  intros w1 l sym _ _ [-> ->].
  assert (Hrest : writes_text h (0 + 1) (win_call (EvSymGetSymFromAddr pc);;
    match SymGetSymFromAddr (cw_trace w) pc with
    | Some (name, address) =>
        name ← symbol_name name;
        write_text h (wf_address f pc ++ string_bytes " - " ++ name ++ string_bytes "() + "
                      ++ print_num 16 (u32 (pc - address)) ++ string_bytes "h" ++ NL)
    | None =>
        e ← win_ask GetLastError;
        write_text h (wf_address f pc ++ string_bytes " - [Unknown Symbol:Error " ++ wf_number f e
                      ++ string_bytes "]" ++ NL)
    end)).
  { apply wt_bind; [by apply wt_call|]. intros _.
    destruct (SymGetSymFromAddr (cw_trace w) pc) as [[name address]|] eqn:E.
    - apply (wt_bind h 0 1); [apply wt_symbol_name|intros ?; apply wt_text].
    - apply (wt_bind h 0 1); [apply wt_ask|intros ?; apply wt_text]. }
  apply Hrest.
Qed.

Lemma wt_walk_line n : ∀ pc i, writes_text h 2 (walk_line f h n pc i).
Proof.
  induction n as [|n IH]; intros pc i; cbn [walk_line]; [wt_seq|].
  apply (wt_bind h 0 2); [apply wt_ask|]. intros line. apply (wt_bind h 0 2); [by apply wt_call|]. intros _.
  destruct line as [[name number]|]; [wt_seq|apply IH].
Qed.
Lemma wt_walk_frame pc : writes_text h 3 (walk_frame f h pc).
Proof.
  unfold walk_frame. apply (wt_bind h 1 2); [apply wt_walk_symbol|]. intros _.
  apply (wt_bind h 0 2); [by apply wt_call|]. intros _. apply wt_walk_line.
Qed.
Lemma wt_walk_frames n : ∀ frame context, writes_text h (n * 3) (walk_frames f h n frame context).
Proof.
  induction n as [|n IH]; intros frame context; cbn [walk_frames]; [wt_seq|].
  destruct (0 =? AddrPC frame); [wt_seq|].
  apply (wt_bind h 0 (S n * 3)); [apply wt_ask|]. intros next.
  apply (wt_bind h 0 (S n * 3)); [by apply wt_call|]. intros _.
  destruct next as [[frame' context']|]; [|wt_seq].
  apply (wt_bind h 3 (n * 3)); [apply wt_walk_frame|]. intros _. apply IH.
Qed.
Lemma wt_stack_bytes n : ∀ addr, writes_text h n (stack_bytes f h n addr).
Proof.
  induction n as [|n IH]; intros addr; cbn [stack_bytes]; [wt_seq|].
  intros w. eapply does_bind; [eapply (does_ask _ _ _ (λ l a, l = [] ∧ a = _)); by split|].
  intros w1 l b _ _ [-> ->]. simpl.
  assert (Hrest : writes_text h (0 + (1 + n)) (b ← deref "read of the stack" (memory (cw_trace w) addr);
    write_text h (format_hex 2 (ord b) ++ [chr 32]);; stack_bytes f h n (wf_wrap f (addr + 1)))).
  { apply wt_bind; [apply wt_deref|intros b; apply wt_bind; [apply wt_text|intros _; apply IH]]. }
  apply Hrest.
Qed.
Lemma wt_stack_rows n : ∀ addr, writes_text h (n * 18) (stack_rows f h n addr).
Proof.
  induction n as [|n IH]; intros addr; cbn [stack_rows]; [wt_seq|].
  apply (wt_bind h 1 (17 + n * 18)); [apply wt_text|]. intros _.
  apply (wt_bind h 16 (1 + n * 18)); [apply wt_stack_bytes|]. intros _.
  apply (wt_bind h 1 (n * 18)); [apply wt_text|]. intros _. apply IH.
Qed.
Lemma wt_write_registers context l : writes_text h (length l) (write_registers f h context l).
Proof.
  induction l as [|[[[n1 r1] n2] r2] l IH]; cbn [write_registers length]; [wt_seq|].
  apply (wt_bind h 1 (length l)); [apply wt_text|]. intros _. apply IH.
Qed.
End Format.

Lemma wt_walk_x64 h context : writes_text h 2124 (walk_x64 h context).
Proof.
  unfold walk_x64, write_stack. cbv zeta. eapply wt_mono.
  - apply (wt_bind h 1); [apply wt_text|intros _]. apply (wt_bind h 8); [apply wt_write_registers|intros _].
    apply (wt_bind h 1); [apply wt_text|intros _]. apply (wt_bind h (512 * 3)); [apply wt_walk_frames|intros ?].
    apply (wt_bind h 1); [apply wt_text|intros _]. apply (wt_bind h 1); [apply wt_text|intros _].
    apply wt_stack_rows.
  - by apply Nat.leb_le.
Qed.
Lemma wt_walk_x86 h context : writes_text h 1832 (walk_x86 h context).
Proof.
  unfold walk_x86, write_stack. cbv zeta. eapply wt_mono.
  - apply (wt_bind h 1); [apply wt_text|intros _]. apply (wt_bind h 4); [apply wt_write_registers|intros _].
    apply (wt_bind h 1); [apply wt_text|intros _]. apply (wt_bind h (512 * 3)); [apply wt_walk_frames|intros ?].
    apply (wt_bind h 1); [apply wt_text|intros _]. apply (wt_bind h 1); [apply wt_text|intros _].
    apply wt_stack_rows.
  - by apply Nat.leb_le.
Qed.
Lemma wt_write_header h st : writes_text h 4 (write_header h st).
Proof. unfold write_header. cbv zeta. wt_seq. Qed.
End Text.

(** ** What a crash leaves behind *)
Definition opens (h : Z) (e : win_event) : bool :=
  match e with EvCreateFile _ (Some h') => bool_decide (h = h') | _ => false end.
Definition closes_file (h : Z) (e : win_event) : bool :=
  match e with EvCloseHandle h' => bool_decide (h = h') | _ => false end.
Definition times (f : win_event → bool) (l : list win_event) : nat := length (filter (λ e, f e = true) l).
Lemma times_app f l1 l2 : times f (l1 ++ l2) = (times f l1 + times f l2)%nat.
Proof. unfold times. by rewrite filter_app, length_app. Qed.
Lemma times_one f e : times f [e] = if f e then 1%nat else 0%nat.
Proof.
  unfold times. destruct (f e) eqn:E; [by rewrite filter_cons_True|by rewrite filter_cons_False by congruence].
Qed.
Lemma times_none f l : Forall (λ e, f e = false) l → times f l = 0%nat.
Proof.
  induction 1 as [|e l He Hl IH]; [done|]. unfold times in *. rewrite filter_cons_False by congruence. done.
Qed.

(** At most [n] texts, no end of the process, and with [total] every file that
    is opened is closed. *)
Record orderly (total : bool) (n : nat) (l : list win_event) : Prop := {
  or_writes : (writes l ≤ n)%nat;
  or_alive c : EvTerminateProcess c ∉ l;
  or_closed h : total = true → times (opens h) l = times (closes_file h) l
}.
(** Neither text nor a file nor the end. *)
Definition neutral (e : win_event) : bool :=
  match e with
  | EvWriteFile _ _ | EvCreateFile _ (Some _) | EvCloseHandle _ | EvTerminateProcess _ => false
  | _ => true
  end.

Lemma orderly_app total n1 n2 l1 l2 : orderly total n1 l1 → orderly total n2 l2 → orderly total (n1 + n2) (l1 ++ l2).
Proof.
  intros [? ? ?] [? ? ?]. split.
  - rewrite writes_of_app. lia.
  - intros c. rewrite elem_of_app. naive_solver.
  - intros h Ht. rewrite !times_app. auto.
Qed.
Lemma orderly_mono total n n' l : orderly total n l → (n ≤ n')%nat → orderly total n' l.
Proof. intros [] ?. split; [lia|done..]. Qed.
Lemma neutral_times h l :
  Forall (λ e, neutral e = true) l → times (opens h) l = 0%nat ∧ times (closes_file h) l = 0%nat.
Proof.
  intros Hl. split; (apply times_none; eapply Forall_impl; [exact Hl|]); intros []; try done. by destruct h0.
Qed.
Lemma orderly_neutral total n l : Forall (λ e, neutral e = true) l → orderly total n l.
Proof.
  intros Hl. split.
  - unfold writes. change (times is_write l ≤ n)%nat. rewrite times_none; [lia|].
    eapply Forall_impl; [exact Hl|]. by intros [].
  - intros c Hin. rewrite Forall_forall in Hl. by specialize (Hl _ Hin).
  - intros h _. by destruct (neutral_times h l Hl) as [-> ->].
Qed.
Lemma orderly_texts total h n l : texts h n l → orderly total n l.
Proof.
  intros [Hl Hn]. split; [done|..].
  - intros c Hin. rewrite Forall_forall in Hl. by specialize (Hl _ Hin).
  - intros h' _. rewrite !times_none; [done|..]; (eapply Forall_impl; [exact Hl|]); by intros [].
Qed.
(** A file that is opened and closed around something orderly. *)
Lemma orderly_file total path h n l :
  orderly total n l → orderly total n (EvCreateFile path (Some h) :: l ++ [EvCloseHandle h]).
Proof.
  intros [Hw Ha Hc]. change (EvCreateFile path (Some h) :: l ++ [EvCloseHandle h])
    with ([EvCreateFile path (Some h)] ++ l ++ [EvCloseHandle h]). split.
  - rewrite !writes_of_app. unfold writes at 1 3. simpl. lia.
  - intros c. rewrite !elem_of_app, !list_elem_of_singleton. naive_solver.
  - intros h' Ht. rewrite !times_app, !times_one, Hc by done. simpl. case_bool_decide; lia.
Qed.
(** A file that stays open. *)
Lemma orderly_leak path h n l : orderly false n l → orderly false n (EvCreateFile path (Some h) :: l).
Proof.
  intros [Hw Ha Hc]. split; [|intros c; rewrite elem_of_cons; naive_solver|done].
  unfold writes in *. by rewrite filter_cons_False.
Qed.

Section Report.
Context `{WinNames} `{WinCrash}.
Local Abbreviation W := CrashWorld.

(** The calls that make files and dumps succeed. *)
Record files_work : Prop := {
  fw_load t : LoadLibrary t "dbghelp.dll" = true;
  fw_create t p : is_Some (CreateFile t p);
  fw_proc t : GetProcAddress t "MiniDumpWriteDump" = true;
  fw_dump t h flags p : MiniDumpWriteDump t h flags p = true
}.
Context (total : bool) (Hworks : total = true → files_work).

Lemma does_ask_bind {A B} (g : list win_event → A) (k : A → M W B) w Q :
  does total (k (g (cw_trace w))) w Q → does total (win_ask g ≫= k) w Q.
Proof. done. Qed.
Lemma does_call_bind {B} e (k : unit → M W B) w Q :
  (∀ w', cw_state w' = cw_state w → does total (k tt) w' (λ l b, Q (e :: l) b)) →
  does total (win_call e ≫= k) w Q.
Proof.
  intros Hk. eapply does_bind; [by apply (does_call total e w (λ l _, l = [e]))|].
  simpl. intros w' l [] Hs _ ->. by apply Hk.
Qed.

Lemma does_make_filename header ext w :
  does total (make_filename header ext) w (λ l _, Forall (λ e, neutral e = true) l).
Proof.
  unfold make_filename, does, win_ask. run_step. split; [done|]. eexists. split; [done|].
  apply Forall_fmap, Forall_true. done.
Qed.

(** A dump of the kind [flags] of the exception [p]. *)
Definition dumped (flags : Z) (p : option EXCEPTION_POINTERS) (l : list win_event) : Prop :=
  ∃ h, EvMiniDumpWriteDump h flags p ∈ l.

Lemma does_create_dump header flags p w :
  does total (create_dump header flags p) w
    (λ l _, orderly total 0 l ∧ (total = true → dumped flags p l)).
Proof.
  assert (Hnone : ∀ l, Forall (λ e, neutral e = true) l → total = false →
            orderly total 0 l ∧ (total = true → dumped flags p l)).
  { intros l Hl Ht. split; [by apply orderly_neutral|congruence]. }
  unfold create_dump. apply does_ask_bind. apply does_call_bind. intros w1 _.
  destruct (LoadLibrary _ _) eqn:Hload; cbn [negb].
  2:{ apply does_ret, Hnone; [by apply Forall_singleton|]. destruct total; [|done].
      by rewrite fw_load in Hload by auto. }
  eapply does_bind; [apply does_make_filename|]. cbn beta. intros w2 l1 filename _ _ Hl1.
  unfold create_file. eapply (does_bind _ _ _ _ (λ l a, l = [EvCreateFile filename a] ∧ (total = true → is_Some a))).
  { apply does_ask_bind, does_call_bind. intros w3 _. apply does_ret. split; [done|].
    intros Ht. apply fw_create. auto. }
  intros w3 l2 file _ _ [-> Hfile]. destruct file as [hFile|].
  2:{ apply does_ret, Hnone; [|destruct total; [|done]; by destruct (Hfile eq_refl)].
      apply Forall_cons; split; [done|]. apply Forall_app; split; [done|by apply Forall_singleton]. }
  set (e1 := EvLoadLibrary _).
  (* what is left is done with the file open *)
  assert (Hrest : does total
    (found ← win_ask (λ t, GetProcAddress t "MiniDumpWriteDump");
     win_call (EvGetProcAddress "MiniDumpWriteDump");;
     if negb found then mret tt
     else bWriteDump ← win_ask (λ t, MiniDumpWriteDump t hFile flags p);
          win_call (EvMiniDumpWriteDump hFile flags p);;
          if negb bWriteDump then mret tt else win_call (EvCloseHandle hFile)) w3
    (λ l _, (∃ l', l = l' ++ [EvCloseHandle hFile] ∧ Forall (λ e, neutral e = true) l' ∧ dumped flags p l')
            ∨ (total = false ∧ Forall (λ e, neutral e = true) l))).
  { apply does_ask_bind, does_call_bind. intros w4 _. destruct (GetProcAddress _ _) eqn:Hproc; cbn [negb].
    2:{ apply does_ret. right. split; [|by apply Forall_singleton]. destruct total; [|done].
        by rewrite fw_proc in Hproc by auto. }
    apply does_ask_bind, does_call_bind. intros w5 _. destruct (MiniDumpWriteDump _ _ _ _) eqn:Hdump; cbn [negb].
    2:{ apply does_ret. right. split; [|by repeat constructor]. destruct total; [|done].
        by rewrite fw_dump in Hdump by auto. }
    apply does_call. left. eexists [_; _]. split; [done|]. split; [by repeat constructor|].
    exists hFile. right. by left. }
  eapply does_mono; [exact Hrest|]. simpl. clear Hrest. intros l _ Hl.
  assert (Hpre : orderly total 0 (e1 :: l1)) by (apply orderly_neutral; by apply Forall_cons).
  destruct Hl as [(l' & -> & Hl' & h & Hin)|[Ht Hl']].
  - split; [|intros _; exists h; right; rewrite !elem_of_app, elem_of_cons, elem_of_app; auto].
    apply (orderly_app total 0 0 (e1 :: l1)); [done|].
    by apply orderly_file, orderly_neutral.
  - split; [|congruence]. apply (orderly_app total 0 0 (e1 :: l1)); [done|]. rewrite Ht.
    by apply orderly_leak, orderly_neutral.
Qed.

(** The text about the parameters. *)
Lemma does_create_file filename w :
  does total (create_file filename) w (λ l a, l = [EvCreateFile filename a] ∧ (total = true → is_Some a)).
Proof.
  unfold create_file. apply does_ask_bind, does_call_bind. intros w1 _. apply does_ret. split; [done|].
  intros Ht. apply fw_create. auto.
Qed.
Lemma does_write_parameters e fn p line w :
  does total (write_parameters e fn p line) w (λ l _, orderly total 4 l).
Proof.
  unfold write_parameters. eapply does_bind; [apply does_make_filename|]. cbn beta. intros w2 l2 filename _ _ H2.
  eapply does_bind; [apply does_create_file|]. intros w3 l3 file _ _ [-> _]. destruct file as [hFile|].
  2:{ apply does_ret, orderly_neutral, Forall_app. split; [done|by apply Forall_singleton]. }
  unfold write_wide. do 4 (apply does_call_bind; intros ? _). apply does_call.
  apply (orderly_app total 0 4); [by apply orderly_neutral|].
  apply (orderly_file total filename hFile 4 [_; _; _; _]), (orderly_texts total hFile).
  split; [by repeat constructor|]. unfold writes. by rewrite !filter_cons_True.
Qed.
End Report.

(** ** How a handler ends *)
Section Ends.
Context `{WinNames} `{WinCrash}.
Local Abbreviation W := CrashWorld.
Local Abbreviation any := (λ Ht : false = true, False_ind files_work (diff_false_true Ht)).

Lemma wt_walk h context :
  writes_text h 2124 match target with AMD64 => walk_x64 h context | X86 => walk_x86 h context end.
Proof. destruct target; [eapply wt_mono; [by apply wt_walk_x86|apply Nat.leb_le; reflexivity]|by apply wt_walk_x64]. Qed.

(** What is written once the file is open. *)
Lemma does_stack_text h st ptrs w :
  does false
    (write_header h st;;
     ptrs ← deref "pExcPtrs is null" ptrs;
     write_text h (exception_text (ExceptionRecord ptrs));;
     match target with AMD64 => walk_x64 h (ContextRecord ptrs) | X86 => walk_x86 h (ContextRecord ptrs) end;;
     win_call EvSymCleanup;; win_call (EvCloseHandle h)) w
    (λ l _, ∃ l', l = l' ++ [EvCloseHandle h] ∧ orderly false 2129 l').
Proof.
  eapply does_bind; [apply wt_write_header|]. cbn beta. intros w1 l1 _ _ _ H1.
  eapply does_bind; [by apply (does_deref false _ _ _ (λ l a, l = [] ∧ ptrs = Some a))|].
  intros w2 l2 r _ _ [-> ->]. unfold write_text at 1. apply does_call_bind. intros w3 _.
  eapply does_bind; [apply wt_walk|]. cbn beta. intros w4 l4 _ _ _ H4.
  apply does_call_bind. intros w5 _. apply does_call. set (e := EvWriteFile h _).
  exists (l1 ++ [e] ++ l4 ++ [EvSymCleanup]). split.
  - cbn [app]. by rewrite <- !app_assoc, <- app_comm_cons, <- app_assoc.
  - apply (orderly_app false 4 2125); [by eapply orderly_texts|].
    apply (orderly_app false 1 2124); [|apply (orderly_app false 2124 0)].
    + eapply (orderly_texts _ h). split; [by apply Forall_singleton|]. by rewrite <- Nat.leb_le.
    + by eapply orderly_texts.
    + apply orderly_neutral. by apply Forall_singleton.
Qed.

Lemma does_MyStackWalk ptrs w : does false (MyStackWalk ptrs) w (λ l _, orderly false 2129 l).
Proof.
  unfold MyStackWalk. do 2 apply does_ask_bind. apply does_call_bind. intros w1 _.
  destruct (SymInitialize _); cbn [negb]; [|by apply does_ret, orderly_neutral, Forall_singleton].
  eapply does_bind; [apply does_make_filename|]. cbn beta. intros w2 l1 filename _ _ Hl1.
  eapply does_bind; [apply (does_create_file false any)|]. intros w3 l2 file _ _ [-> _].
  destruct file as [hFile|].
  2:{ apply does_ret, orderly_neutral, Forall_cons. split; [done|].
      apply Forall_app; split; [done|by apply Forall_singleton]. }
  eapply does_mono; [by apply does_stack_text|]. cbn beta. intros l _ (l' & -> & Hl').
  apply (orderly_app false 0 2129 (EvSymInitialize :: l1));
    [by apply orderly_neutral, Forall_cons|]. by apply orderly_file.
Qed.

Definition flags_of (f : dump_func) : Z :=
  match f with CreateMiniDump => MiniDumpNormal | CreateFullDump => FullDumpFlags end.
Lemma does_report f ptrs w :
  g_dump_func (cw_state w) = Some f → does false (report ptrs) w (λ l _, orderly false 2129 l).
Proof.
  intros Hf. unfold report, call_dump_func.
  eapply (does_bind _ _ _ _ (λ l _, orderly false 0 l)).
  { unfold does. run_step. rewrite Hf. run_step.
    destruct f; (eapply does_mono; [apply (does_create_dump false any)|]); by intros l _ [? _]. }
  cbn beta. intros w1 l1 _ _ _ H1. eapply does_mono; [by apply does_MyStackWalk|]. cbn beta.
  intros l2 _ H2. by apply (orderly_app false 0 2129).
Qed.
Lemma does_capture w : does false (GetExceptionPointers 0) w (λ l _, l = []).
Proof.
  unfold GetExceptionPointers, capture. eapply (does_bind _ _ _ _ (λ l _, l = [])); [|intros; subst; by apply does_ret].
  destruct target; [|by apply does_ret]. unfold capture_x86. apply does_ask_bind.
  eapply (does_bind _ _ _ _ (λ l _, l = [])); [by apply does_deref|intros; subst; by apply does_ret].
Qed.
Lemma does_report_here f w :
  g_dump_func (cw_state w) = Some f → does false report_here w (λ l _, orderly false 2129 l).
Proof.
  intros Hf. unfold report_here. eapply does_bind; [apply does_capture|]. cbn beta.
  intros w1 l1 ptrs Hs _ ->. apply (does_report f); congruence.
Qed.

Definition ended (l : list win_event) : Prop :=
  ∃ l', l = l' ++ [EvTerminateProcess 1] ∧ orderly false 2133 l'.
Lemma does_terminate n (m : M W unit) w :
  (n ≤ 2133)%nat → does false m w (λ l _, orderly false n l) →
  does false (m ≫= λ _, terminate) w (λ l _, ended l).
Proof.
  intros Hn Hm. eapply does_bind; [exact Hm|]. cbn beta. intros w1 l1 _ _ _ Ho. apply does_call.
  exists l1. split; [done|]. by eapply orderly_mono.
Qed.

Definition signals : list string := ["SIGABRT"; "SIGINT"; "SIGTERM"; "SIGFPE"; "SIGILL"; "SIGSEGV"].
(** A crash for which there is a hook. *)
Definition hooked (c : crash) : Prop := match c with raised s => s ∈ signals | _ => True end.
Lemma does_handle c f w :
  g_dump_func (cw_state w) = Some f → hooked c → does false (handle c) w (λ l _, ended l).
Proof.
  intros Hf Hc.
  assert (Hhere : does false (report_here;; terminate) w (λ l _, ended l)).
  { apply (does_terminate 2129); [|by eapply does_report_here]. by rewrite <- Nat.leb_le. }
  assert (Hptrs : ∀ ptrs, does false (report ptrs;; terminate) w (λ l _, ended l)).
  { intros ptrs. apply (does_terminate 2129); [|by eapply does_report]. by rewrite <- Nat.leb_le. }
  destruct c; try exact Hhere; [by apply Hptrs| |].
  - unfold handle, InvalidParameterHandler. eapply does_bind; [by eapply does_report_here|].
    cbn beta. intros w1 l1 _ _ _ H1. eapply does_bind; [apply (does_write_parameters false any)|].
    cbn beta. intros w2 l2 _ _ _ H2. apply does_call. exists (l1 ++ l2). split; [by rewrite app_assoc|].
    by apply (orderly_app false 2129 4).
  - simpl in Hc. unfold signals in Hc. unfold handle.
    repeat case_decide; try exact Hhere; try (by apply Hptrs). exfalso.
    repeat (apply elem_of_cons in Hc as [->|Hc]; [done|]). by apply not_elem_of_nil in Hc.
Qed.
End Ends.

(** ** After [Init] *)
Section Theorems.
Context `{WinNames} `{WinCrash}.

Definition process_hooks : list hook :=
  [hook_unhandled_filter; hook_purecall; hook_invalid_parameter; hook_abort_behavior;
   hook_signal "SIGABRT"; hook_signal "SIGINT"; hook_signal "SIGTERM"].
Definition thread_hooks : list hook :=
  [hook_terminate; hook_unexpected; hook_signal "SIGFPE"; hook_signal "SIGILL"; hook_signal "SIGSEGV"].
Lemma hooked_of c : hook_of c ∈ process_hooks ++ thread_hooks → hooked c.
Proof.
  destruct c; simpl; try done. unfold process_hooks, thread_hooks, signals. cbn [app]. intros Hin.
  repeat (apply elem_of_cons in Hin as [E|Hin]; [simplify_eq; repeat first [by left|right]|]).
  by apply not_elem_of_nil in Hin.
Qed.
Lemma Init_hooks root header full s :
  CrashHandler_Init root header full CrashState_new = Done s tt →
  cr_hooks s = process_hooks ++ thread_hooks
  ∧ g_dump_func s = Some (if full then CreateFullDump else CreateMiniDump).
Proof.
  unfold CrashHandler_Init, SetProcessExceptionHandlers, SetThreadExceptionHandlers. run_step.
  match goal with |- context [trim_seps ?n ?p ?s] => pose proof (trim_seps_run p s) as Hr;
    destruct (trim_seps n p s) eqn:E end; simpl; try done.
  destruct (forallb is_sep _); [congruence|]. injection Hr as -> ->.
  intros [= <-]. by destruct full.
Qed.

(** C26. After [Init] every crash for which it installed a hook ends the process with the exit code
    1, whatever the calls of Windows answer and as long as the handler does nothing undefined: no
    handler hangs, the walk writes at most 2133 pieces of text, and nothing runs behind the end of
    the process. *)
Theorem crash_handlers_end root header full s c w :
  CrashHandler_Init root header full CrashState_new = Done s tt → cw_state w = s →
  hook_of c ∈ cr_hooks s →
  match handle c w with
  | Done w' _ =>
      ∃ l, cw_trace w' = cw_trace w ++ l ++ [EvTerminateProcess 1]
        ∧ (writes l ≤ 2133)%nat ∧ ∀ code, EvTerminateProcess code ∉ l
  | Undef _ => True
  | Threw _ _ | NoFuel => False
  end.
Proof.
  intros [Hh Hf]%Init_hooks Hs Hc. rewrite Hh in Hc.
  pose proof (does_handle c _ w ltac:(by rewrite Hs) (hooked_of c Hc)) as Hd.
  unfold does in Hd. destruct (handle c w); try done.
  destruct Hd as (_ & l & Ht & l' & -> & Ho). exists l'. split; [done|]. split; [apply Ho|].
  intros code. apply Ho.
Qed.

(** A dump that fails once its file is there leaves the file open. *)
Theorem failed_dump_keeps_file_open header flags p w h :
  (∀ t, LoadLibrary t "dbghelp.dll" = true) → (∀ t f, CreateFile t f = Some h) →
  (∀ t, GetProcAddress t "MiniDumpWriteDump" = false) ∨ (∀ t, MiniDumpWriteDump t h flags p = false) →
  ∃ w' l, create_dump header flags p w = Done w' tt ∧ cw_trace w' = cw_trace w ++ l
    ∧ times (opens h) l = 1%nat ∧ times (closes_file h) l = 0%nat.
Proof.
  intros Hload Hcreate Hfail.
  enough (Hd : does true (create_dump header flags p) w
                 (λ l _, times (opens h) l = 1%nat ∧ times (closes_file h) l = 0%nat)).
  { unfold does in Hd. destruct (create_dump _ _ _ w) as [w' []| | |]; try done.
    destruct Hd as (_ & l & Ht & Hl). by exists w', l. }
  unfold create_dump. apply does_ask_bind, does_call_bind. intros w1 _. rewrite Hload. cbn [negb].
  eapply does_bind; [apply does_make_filename|]. cbn beta. intros w2 l1 filename _ _ Hl1.
  apply (neutral_times h) in Hl1 as [Ho Hc].
  unfold create_file. eapply (does_bind _ _ _ _ (λ l a, l = [EvCreateFile filename (Some h)] ∧ a = Some h)).
  { apply does_ask_bind, does_call_bind. intros w3 _. rewrite Hcreate. by apply does_ret. }
  intros w3 l2 file _ _ [-> ->]. apply does_ask_bind, does_call_bind. intros w4 _.
  assert (Hend : ∀ l, Forall (λ e, neutral e = true) l →
    times (opens h) (EvLoadLibrary "dbghelp.dll" :: l1 ++ EvCreateFile filename (Some h) :: l) = 1%nat
    ∧ times (closes_file h) (EvLoadLibrary "dbghelp.dll" :: l1 ++ EvCreateFile filename (Some h) :: l) = 0%nat).
  { intros l [Hlo Hlc]%(neutral_times h).
    change (EvLoadLibrary "dbghelp.dll" :: l1 ++ EvCreateFile filename (Some h) :: l)
      with ([EvLoadLibrary "dbghelp.dll"] ++ l1 ++ [EvCreateFile filename (Some h)] ++ l).
    rewrite !times_app, !times_one, Ho, Hc, Hlo, Hlc. simpl. by rewrite bool_decide_true. }
  destruct (GetProcAddress _ _) eqn:Hp; cbn [negb]; [|by apply does_ret, Hend, Forall_singleton].
  destruct Hfail as [Hf|Hf]; [by rewrite Hf in Hp|].
  apply does_ask_bind, does_call_bind. intros w5 _. rewrite Hf. apply does_ret, Hend. by repeat constructor.
Qed.

(** The length of the name that the walk allows for does not fit behind the
    head of the structure. *)
Theorem long_symbol_overruns f h pc w name address :
  SymGetSymFromAddr (cw_trace w) pc = Some (name, address) →
  if (match target with AMD64 => 228 | X86 => 236 end <=? length name)%nat
  then walk_symbol f h pc w = Undef "the name is written past chSymbol"
  else ∃ w', walk_symbol f h pc w = Done w' tt.
Proof.
  intros E. unfold walk_symbol, win_ask, win_call. run_step. rewrite E. run_step.
  unfold symbol_name. cbv zeta. unfold MaxNameLength, name_offset, sizeof_pointer.
  destruct target; rewrite length_take;
    match goal with |- if (?a <=? ?b)%nat then _ else _ => destruct (Nat.leb_spec a b) end;
    match goal with |- context [(?a <? ?b)%nat] => destruct (Nat.ltb_spec a b) end; try lia;
    try done; by eexists.
Qed.
End Theorems.

(** ** Witness: a crash of a configured server *)
Module CrashDemo.
#[export] Instance names : WinNames := {|
  GetModuleFileName := string_bytes "C:\srv\lobby.exe";
  split_drive _ := string_bytes "C:";
  split_dir _ := string_bytes "\srv\";
  split_fname _ := string_bytes "lobby";
  host_name := string_bytes "host"
|}.
(** One frame on the stack, of a function in a known line. *)
#[export] Instance win : WinCrash := {|
  target := AMD64;
  GetLocalTime _ := mkSYSTEMTIME 2020 2 3 4 5 6;
  GetCurrentProcessId := 77;
  GetCurrentThreadId := 78;
  LoadLibrary _ _ := true;
  CreateFile t _ := Some (zlen t);
  GetProcAddress _ _ := true;
  MiniDumpWriteDump _ _ _ _ := true;
  SymInitialize _ := true;
  StackWalk _ _ f c := if AddrPC f =? 4096 then Some (mkSTACKFRAME 0 8 9, c) else None;
  SymGetSymFromAddr _ _ := Some (string_bytes "main", 4090);
  GetLastError _ := 0;
  SymGetLineFromAddr _ a := if a =? 4095 then Some (string_bytes "main.cpp", 12) else None;
  memory _ a := Some (chr a);
  cpu r := if decide (r = Rip) then 4096 else 65536;
  ReturnAddress := 4096;
  AddressOfReturnAddress := 65536;
  pxcptinfoptrs := Some (mkEXCEPTION_POINTERS (mkEXCEPTION_RECORD 5 4096) CONTEXT_zero);
  format_pointer _ z := format_hex 16 z
|}.
Definition configured : CrashState :=
  match CrashHandler_Init (Some (string_bytes "C:\dumps\")) None false CrashState_new with
  | Done s _ => s
  | _ => CrashState_new
  end.
Lemma configured_run :
  CrashHandler_Init (Some (string_bytes "C:\dumps\")) None false CrashState_new = Done configured tt.
Proof. vm_compute. reflexivity. Qed.
Definition crashed : CrashWorld := mkCrashWorld configured [].
Lemma crashed_state : cw_state crashed = configured.
Proof. unfold crashed. cbn [cw_state]. reflexivity. Qed.
Lemma hooks_run : cr_hooks configured = process_hooks ++ thread_hooks.
Proof. exact (proj1 (Init_hooks _ _ _ _ configured_run)). Qed.
End CrashDemo.

Section Witness.
Import CrashDemo.

Lemma crash_handlers_end_witness :
  match handle (raised "SIGABRT") crashed with
  | Done w' _ =>
      ∃ l, cw_trace w' = cw_trace crashed ++ l ++ [EvTerminateProcess 1]
        ∧ (writes l ≤ 2133)%nat ∧ ∀ code, EvTerminateProcess code ∉ l
  | Undef _ => True
  | Threw _ _ | NoFuel => False
  end.
Proof.
  assert (Hc : hook_of (raised "SIGABRT") ∈ cr_hooks configured).
  { rewrite hooks_run. apply list_elem_of_lookup_2 with 4%nat. reflexivity. }
  pose proof (crash_handlers_end (Some (string_bytes "C:\dumps\")) None false configured
    (raised "SIGABRT") crashed configured_run crashed_state Hc) as Hend.
  exact Hend.
Defined.

(** What the handler writes in the demonstration. *)
Example demo_walk_texts :
  match handle (raised "SIGABRT") crashed with
  | Done w' _ => writes (cw_trace w')
  | _ => 0%nat
  end = 594%nat.
Proof. vm_compute. reflexivity. Qed.
End Witness.
