(* ===== verification/CrashReport.v ===== *)
(** * What a crash leaves behind

    The text of the stack that the handlers of CrashHandlers.v write, as a value
    ([dump_texts]): the head, the exception, the registers, the frames with their
    symbols and lines, and the memory at the stack pointer.  On a system whose
    calls succeed every handler that [Init] has installed writes exactly that,
    next to the dump, unless a symbol has a name that is too long for the
    structure it is copied to. *)
From stdpp Require Import strings list.
From coqutil Require Import Byte.
From S2P Require Import Prelude.
From S2P Require Import MlnUtils.
From S2P Require Import TextFormat.
From S2P Require Import CrashDump.
From S2P Require Import CrashHandlers.
#[local] Open Scope Z_scope.

(** ** The text *)
Section Spec.
Context `{WinNames} `{WinCrash}.

(** What the system says of the stack, before anything was done. *)
Definition symbol_at (pc : Z) : option (list byte * Z) := SymGetSymFromAddr [] pc.
Definition line_at (addr : Z) : option (list byte * Z) := SymGetLineFromAddr [] addr.
Definition byte_at (addr : Z) : byte := default Byte.x00 (memory [] addr).

(** Whether the name of the symbol at an address fits the structure. *)
Definition symbol_fits (pc : Z) : bool :=
  match symbol_at pc with
  | Some (name, _) => (name_offset + length name + 1 <=? 256)%nat
  | None => true
  end.

Section Format.
Context (f : WalkFormat).

Definition symbol_text (pc : Z) : list byte :=
  match symbol_at pc with
  | Some (name, address) =>
      wf_address f pc ++ string_bytes " - " ++ name ++ string_bytes "() + "
        ++ print_num 16 (u32 (pc - address)) ++ string_bytes "h" ++ NL
  | None =>
      wf_address f pc ++ string_bytes " - [Unknown Symbol:Error "
        ++ wf_number f (GetLastError [EvSymGetSymFromAddr pc]) ++ string_bytes "]" ++ NL
  end.
(** The first line at or up to [n] bytes in front of an address. *)
Definition line_before (n : nat) (pc i : Z) : option (list byte * Z) :=
  head (omap (λ k, line_at (wf_wrap f (pc - k))) (seqZ i (Z.of_nat n))).
Definition line_texts (line : option (list byte * Z)) : list (list byte) :=
  match line with
  | Some (name, number) =>
      [TABS ++ string_bytes "FileName:" ++ name ++ NL;
       TABS ++ string_bytes "LineNumber:" ++ wf_number f number ++ NL]
  | None => []
  end.
Definition frame_texts (pc : Z) : list (list byte) := symbol_text pc :: line_texts (line_before 512 pc 0).

(** The frames behind one, at most [n] of them, and the registers of the last. *)
Fixpoint frames_of (n : nat) (frame : STACKFRAME) (context : CONTEXT) : list Z * CONTEXT :=
  match n with
  | O => ([], context)
  | S n =>
      if 0 =? AddrPC frame then ([], context)
      else
        match StackWalk [] (wf_machine f) frame context with
        | None => ([], context)
        | Some (frame, context) =>
            let '(pcs, last) := frames_of n frame context in (AddrPC frame :: pcs, last)
        end
  end.

(** [n] addresses, [d] apart. *)
Fixpoint addresses (n : nat) (d addr : Z) : list Z :=
  match n with O => [] | S n => addr :: addresses n d (wf_wrap f (addr + d)) end.
Definition row_texts (addr : Z) : list (list byte) :=
  (wf_row f addr ++ string_bytes " : ")
  :: ((λ a, format_hex 2 (ord (byte_at a)) ++ [chr 32]) <$> addresses 16 1 addr) ++ [NL].
Definition stack_texts (sp : Z) : list (list byte) :=
  [NL; string_bytes "stack " ++ wf_stack f sp ++ string_bytes " - "
         ++ wf_stack f (wf_wrap f (sp + Z.of_nat (wf_rows f) * 16)) ++ NL]
  ++ mjoin (row_texts <$> addresses (wf_rows f) 16 sp).
Definition register_text (context : CONTEXT) (r : string * reg * string * reg) : list byte :=
  let '(n1, r1, n2, r2) := r in
  string_bytes n1 ++ string_bytes ": " ++ wf_address f (context r1)
    ++ TAB :: string_bytes n2 ++ string_bytes ": " ++ wf_address f (context r2) ++ NL.
End Format.

(** What depends on the processor. *)
Definition the_format : WalkFormat := match target with AMD64 => format_x64 | X86 => format_x86 end.
Definition the_registers : list (string * reg * string * reg) :=
  match target with AMD64 => registers_x64 | X86 => registers_x86 end.
Definition stack_pointer : reg := match target with AMD64 => Rsp | X86 => Esp end.
Definition first_frame (c : CONTEXT) : STACKFRAME :=
  match target with
  | AMD64 => mkSTACKFRAME (c Rip) (c Rsp) (c Rbp)
  | X86 => mkSTACKFRAME (c Eip) (c Esp) (c Ebp)
  end.
Definition stack_of (r : EXCEPTION_POINTERS) : list Z * CONTEXT :=
  frames_of the_format 512 (first_frame (ContextRecord r)) (ContextRecord r).

Definition header_texts (st : SYSTEMTIME) : list (list byte) :=
  let d := print_num 10 in
  [string_bytes "Date:" ++ d (wYear st) ++ chr 45 :: d (wMonth st) ++ chr 45 :: d (wDay st)
     ++ chr 95 :: d (wHour st) ++ chr 58 :: d (wMinute st) ++ chr 58 :: d (wSecond st) ++ NL;
   string_bytes "Process:" ++ print_num 16 GetCurrentProcessId ++ NL;
   string_bytes "Thread:" ++ print_num 16 GetCurrentThreadId ++ NL;
   NL].
(** The whole text, in the pieces in which it is written. *)
Definition dump_texts (st : SYSTEMTIME) (r : EXCEPTION_POINTERS) : list (list byte) :=
  header_texts st ++ [exception_text (ExceptionRecord r)]
  ++ [NL] ++ (register_text the_format (ContextRecord r) <$> the_registers)
  ++ [NL] ++ mjoin (frame_texts the_format <$> fst (stack_of r))
  ++ stack_texts the_format (snd (stack_of r) stack_pointer).
(** No symbol of the stack is too long. *)
Definition names_fit (r : EXCEPTION_POINTERS) : bool := forallb symbol_fits (fst (stack_of r)).

(** What [GetExceptionPointers] takes from the processor. *)
Definition captured : option EXCEPTION_POINTERS :=
  match GetExceptionPointers 0 (mkCrashWorld CrashState_new []) with Done _ p => Some p | _ => None end.
(** The exception a handler is called with, or takes itself. *)
Definition crash_ptrs (c : crash) : option EXCEPTION_POINTERS :=
  match c with
  | seh ptrs => ptrs
  | raised s => if decide (s = "SIGFPE") then pxcptinfoptrs else if decide (s = "SIGSEGV") then pxcptinfoptrs else captured
  | _ => captured
  end.

(** The pieces of text that are written, each with its file. *)
Definition written (l : list win_event) : list (Z * list byte) :=
  omap (λ e, match e with EvWriteFile h d => Some (h, d) | _ => None end) l.
Lemma written_app l1 l2 : written (l1 ++ l2) = written l1 ++ written l2.
Proof. apply omap_app. Qed.
(** In [l] a file is created, the text of the exception [r] is written to it and
    nothing else to any file, and the file is closed. *)
Definition described (r : EXCEPTION_POINTERS) (l : list win_event) : Prop :=
  ∃ l1 path h t body l2, l = l1 ++ EvCreateFile path (Some h) :: body ++ EvCloseHandle h :: l2
    ∧ written body = (λ d, (h, in_buff d)) <$> dump_texts (GetLocalTime t) r.
Lemma described_app r l1 l l2 : described r l → described r (l1 ++ l ++ l2).
Proof.
  intros (a & path & h & t & body & b & -> & Hb). exists (l1 ++ a), path, h, t, body, (b ++ l2).
  split; [|done]. rewrite <- !app_assoc. simpl. by rewrite <- !app_assoc.
Qed.

(** *** A system that works

    Memory can be read, and the stack and the symbols are the same whenever the
    handler asks; files and dumps can be made. *)
Record crash_works : Prop := {
  cw_memory t a : memory t a = memory [] a ∧ is_Some (memory [] a);
  cw_walk t m frame c : StackWalk t m frame c = StackWalk [] m frame c;
  cw_symbol t a : SymGetSymFromAddr t a = symbol_at a;
  cw_error t a : GetLastError (t ++ [EvSymGetSymFromAddr a]) = GetLastError [EvSymGetSymFromAddr a];
  cw_line t a : SymGetLineFromAddr t a = line_at a;
  cw_sym t : SymInitialize t = true;
  cw_files : files_work
}.
End Spec.

(** ** Code that writes a text *)
Section Prints.
Context `{WinNames} `{WinCrash} (Hw : crash_works) (h : Z).
Local Abbreviation W := CrashWorld.

(** [m] writes the pieces [ts] to [h] and returns [a]; it does no more than ask
    the system about the stack. *)
Definition prints {A} (m : M W A) (ts : list (list byte)) (a : A) : Prop :=
  ∀ w, does true m w (λ l b, b = a ∧ Forall (text_event h) l ∧ written l = (λ d, (h, in_buff d)) <$> ts).
Definition breaks {A} (m : M W A) : Prop := ∀ w, ∃ why, m w = Undef why.

Lemma prints_bind {A B} (m : M W A) (k : A → M W B) ts ts' a b :
  prints m ts a → prints (k a) ts' b → prints (m ≫= k) (ts ++ ts') b.
Proof.
  intros Hm Hk w. eapply does_bind; [apply Hm|]. intros w1 l _ _ _ (-> & H1 & E1).
  eapply does_mono; [apply Hk|]. cbn beta. intros l' _ (-> & H2 & E2).
  split_and!; [done|by apply Forall_app|]. by rewrite written_app, fmap_app, E1, E2.
Qed.
Lemma prints_silent {A B} (m : M W A) (k : A → M W B) ts a b :
  prints m [] a → prints (k a) ts b → prints (m ≫= k) ts b.
Proof. apply prints_bind. Qed.
Lemma prints_ret {A} (a : A) : prints (mret a) [] a.
Proof. intros w. by apply does_ret. Qed.
Lemma prints_ask {A} (g : list win_event → A) a : (∀ t, g t = a) → prints (win_ask g) [] a.
Proof. intros Hg w. apply does_ask. by rewrite Hg. Qed.
Lemma prints_call e : text_event h e → is_write e = false → prints (win_call e) [] tt.
Proof.
  intros He Hn w. apply does_call. split; [done|]. split; [by apply Forall_singleton|]. by destruct e.
Qed.
Lemma prints_text t : prints (write_text h t) [t] tt.
Proof. intros w. apply does_call. split; [done|]. split; [by apply Forall_singleton|]. done. Qed.
Lemma prints_deref {A} what (a : A) : prints (deref what (Some a)) [] a.
Proof. apply prints_ret. Qed.
Lemma breaks_first {A B} (m : M W A) (k : A → M W B) : breaks m → breaks (m ≫= k).
Proof. intros Hm w. destruct (Hm w) as [why E]. exists why. by rewrite bind_run, E. Qed.
Lemma breaks_then {A B} (m : M W A) (k : A → M W B) ts a : prints m ts a → breaks (k a) → breaks (m ≫= k).
Proof.
  intros Hm Hk w. specialize (Hm w). unfold does in Hm. rewrite bind_run. destruct (m w) as [w' b| | |]; try done.
  destruct Hm as (_ & l & _ & -> & _). apply Hk.
Qed.
(** Either of both, as a condition says. *)
Definition prints_if {A} (ok : bool) (m : M W A) (ts : list (list byte)) (a : A) : Prop :=
  if ok then prints m ts a else breaks m.
Lemma prints_if_bind {A B} ok ok' (m : M W A) (k : A → M W B) ts ts' a b :
  prints_if ok m ts a → prints_if ok' (k a) ts' b → prints_if (ok && ok') (m ≫= k) (ts ++ ts') b.
Proof.
  destruct ok, ok'; cbn; [apply prints_bind|intros; by eapply breaks_then|intros; by apply breaks_first..].
Qed.

Section Format.
Context (f : WalkFormat).

Lemma prints_symbol pc : prints_if (symbol_fits pc) (walk_symbol f h pc) [symbol_text f pc] tt.
Proof.
  unfold walk_symbol, symbol_text, symbol_fits. pose proof (cw_symbol Hw) as Hsym.
  destruct (symbol_at pc) as [[name address]|] eqn:E; cbn [prints_if].
  - assert (Hname : symbol_name name
      = if (name_offset + length name + 1 <=? 256)%nat then mret name else undefined "the name is written past chSymbol").
    { unfold symbol_name, MaxNameLength, name_offset, sizeof_pointer. cbv zeta.
      destruct (Nat.leb_spec ((match target with AMD64 => 28 | X86 => 20 end) + length name + 1) 256) as [Hl|Hl].
      - rewrite take_ge by (destruct target; lia). by rewrite (proj2 (Nat.ltb_ge _ _)) by lia.
      - rewrite (proj2 (Nat.ltb_lt _ _)); [done|]. rewrite length_take. destruct target; lia. }
    change [?x] with ([] ++ [x]). rewrite <- (andb_true_l (_ <=? _)%nat).
    apply (prints_if_bind true _ _ _ _ _ (Some (name, address))); [by apply prints_ask; intros t; rewrite Hsym|].
    cbv beta iota. rewrite <- (andb_true_l (_ <=? _)%nat). change [?x] with ([] ++ [x]).
    apply (prints_if_bind true _ _ _ _ _ tt); [by apply prints_call|]. rewrite Hname.
    destruct (_ <=? _)%nat; cbn [prints_if]; [|by apply breaks_first; intros w; eexists].
    eapply (prints_silent _ _ _ name); [apply prints_ret|]. apply prints_text.
  - intros w. apply does_ask_bind. rewrite Hsym, E. cbv iota.
    eapply does_bind; [apply (does_call true _ _ (λ l _, l = [EvSymGetSymFromAddr pc])); done|].
    intros w1 l [] _ Ht ->. apply does_ask_bind. rewrite Ht, (cw_error Hw). apply does_call.
    split; [done|]. split; [by repeat constructor|done].
Qed.

Lemma line_before_S n pc i :
  line_before f (S n) pc i
  = match line_at (wf_wrap f (pc - i)) with Some x => Some x | None => line_before f n pc (i + 1) end.
Proof.
  unfold line_before. rewrite Nat2Z.inj_succ, seqZ_cons by lia. cbn [omap list_omap].
  rewrite Z.pred_succ. by destruct (line_at (wf_wrap f (pc - i))).
Qed.
Lemma prints_line n : ∀ pc i, prints (walk_line f h n pc i) (line_texts f (line_before f n pc i)) tt.
Proof.
  induction n as [|n IH]; intros pc i; [apply prints_ret|]. cbn [walk_line]. cbv zeta. rewrite line_before_S.
  eapply prints_silent; [by apply prints_ask; intros t; apply (cw_line Hw)|].
  eapply prints_silent; [by apply prints_call|]. destruct (line_at _) as [[name number]|]; [|apply IH].
  apply (prints_bind _ _ [_] [_] tt tt); apply prints_text.
Qed.
Lemma prints_frame pc : prints_if (symbol_fits pc) (walk_frame f h pc) (frame_texts f pc) tt.
Proof.
  unfold walk_frame, frame_texts. change (?x :: ?l) with ([x] ++ l). rewrite <- (andb_true_r (symbol_fits pc)).
  eapply prints_if_bind; [apply prints_symbol|]. cbn [prints_if].
  eapply prints_silent; [by apply prints_call|]. apply prints_line.
Qed.
Lemma prints_frames n : ∀ frame context,
  prints_if (forallb symbol_fits (fst (frames_of f n frame context))) (walk_frames f h n frame context)
    (mjoin (frame_texts f <$> fst (frames_of f n frame context))) (snd (frames_of f n frame context)).
Proof.
  induction n as [|n IH]; intros frame context; [apply prints_ret|]. cbn [walk_frames frames_of].
  destruct (0 =? AddrPC frame); [apply prints_ret|].
  set (next := StackWalk [] (wf_machine f) frame context).
  assert (Hask : prints (win_ask (λ t, StackWalk t (wf_machine f) frame context)) [] next)
    by (apply prints_ask; intros t; apply (cw_walk Hw)).
  destruct next as [[frame' context']|].
  2:{ eapply prints_silent; [exact Hask|]. eapply prints_silent; [by apply prints_call|]. apply prints_ret. }
  specialize (IH frame' context'). destruct (frames_of f n frame' context') as [pcs last]. cbn [fst snd] in *.
  cbn [forallb]. change (mjoin (frame_texts f <$> AddrPC frame' :: pcs))
    with ([] ++ [] ++ frame_texts f (AddrPC frame') ++ mjoin (frame_texts f <$> pcs)).
  rewrite <- (andb_true_l (_ && _)). eapply prints_if_bind; [exact Hask|]. cbv beta iota.
  rewrite <- (andb_true_l (_ && _)). eapply (prints_if_bind true); [by apply prints_call|].
  eapply prints_if_bind; [apply prints_frame|exact IH].
Qed.

Lemma prints_bytes n : ∀ addr,
  prints (stack_bytes f h n addr)
    ((λ a, format_hex 2 (ord (byte_at a)) ++ [chr 32]) <$> addresses f n 1 addr) tt.
Proof.
  induction n as [|n IH]; intros addr; [apply prints_ret|]. cbn [stack_bytes addresses].
  destruct (cw_memory Hw [] addr) as [_ [b Hb]].
  eapply prints_silent; [apply (prints_ask _ (Some b)); intros t; rewrite (proj1 (cw_memory Hw t addr)); exact Hb|].
  eapply prints_silent; [apply prints_deref|].
  assert (Eb : byte_at addr = b) by (unfold byte_at; by rewrite Hb). rewrite fmap_cons, Eb.
  apply (prints_bind _ _ [_] _ tt tt); [apply prints_text|apply IH].
Qed.
Lemma prints_rows n : ∀ addr,
  prints (stack_rows f h n addr) (mjoin (row_texts f <$> addresses f n 16 addr)) tt.
Proof.
  induction n as [|n IH]; intros addr; [apply prints_ret|]. cbn [stack_rows addresses].
  change (mjoin (row_texts f <$> addr :: ?l)) with (row_texts f addr ++ mjoin (row_texts f <$> l)).
  unfold row_texts at 1. rewrite <- app_comm_cons, <- app_assoc.
  apply (prints_bind _ _ [_] _ tt tt); [apply prints_text|].
  eapply prints_bind; [apply prints_bytes|].
  apply (prints_bind _ _ [_] _ tt tt); [apply prints_text|apply IH].
Qed.
Lemma prints_stack sp : prints (write_stack f h sp) (stack_texts f sp) tt.
Proof.
  unfold write_stack, stack_texts. apply (prints_bind _ _ [_] (_ :: _) tt tt); [apply prints_text|].
  apply (prints_bind _ _ [_] _ tt tt); [apply prints_text|apply prints_rows].
Qed.
Lemma prints_registers context l :
  prints (write_registers f h context l) (register_text f context <$> l) tt.
Proof.
  induction l as [|[[[n1 r1] n2] r2] l IH]; [apply prints_ret|]. cbn [write_registers].
  apply (prints_bind _ _ [_] _ tt tt); [apply prints_text|apply IH].
Qed.
End Format.
End Prints.

(** ** The handlers *)
Section Report.
Context `{WinNames} `{WinCrash} (Hw : crash_works).
Local Abbreviation W := CrashWorld.
Local Abbreviation works := (λ _ : true = true, cw_files Hw).

(** What is written behind the text of the exception. *)
Definition walk_texts (r : EXCEPTION_POINTERS) : list (list byte) :=
  [NL] ++ (register_text the_format (ContextRecord r) <$> the_registers)
  ++ [NL] ++ mjoin (frame_texts the_format <$> fst (stack_of r))
  ++ stack_texts the_format (snd (stack_of r) stack_pointer).
Lemma prints_walk_format h f regs sp frame context :
  prints_if h (forallb symbol_fits (fst (frames_of f 512 frame context)))
    (write_text h NL;;
     write_registers f h context regs;;
     write_text h NL;;
     context ← walk_frames f h 512 frame context;
     write_stack f h (context sp))
    ([NL] ++ (register_text f context <$> regs) ++ [NL]
       ++ mjoin (frame_texts f <$> fst (frames_of f 512 frame context))
       ++ stack_texts f (snd (frames_of f 512 frame context) sp)) tt.
Proof.
  rewrite <- (andb_true_l (forallb _ _)). apply (prints_if_bind h true _ _ _ _ _ tt); [apply prints_text|].
  rewrite <- (andb_true_l (forallb _ _)). apply (prints_if_bind h true _ _ _ _ _ tt); [apply prints_registers|].
  rewrite <- (andb_true_l (forallb _ _)). apply (prints_if_bind h true _ _ _ _ _ tt); [apply prints_text|].
  rewrite <- (andb_true_r (forallb _ _)). eapply prints_if_bind; [by apply prints_frames|]. by apply prints_stack.
Qed.
Lemma prints_walk h r :
  prints_if h (names_fit r)
    match target with AMD64 => walk_x64 h (ContextRecord r) | X86 => walk_x86 h (ContextRecord r) end
    (walk_texts r) tt.
Proof.
  unfold names_fit, walk_texts, stack_of, the_format, the_registers, stack_pointer, first_frame.
  destruct target; apply prints_walk_format.
Qed.
Lemma prints_header h st : prints h (write_header h st) (header_texts st) tt.
Proof.
  unfold write_header, header_texts. cbv zeta.
  do 3 (apply (prints_bind h _ _ [_] _ tt tt); [apply prints_text|]). apply prints_text.
Qed.
(** Every file that is opened is closed. *)
Definition balanced (l : list win_event) : Prop := ∀ h, times (opens h) l = times (closes_file h) l.
Lemma orderly_balanced n l : orderly true n l → balanced l.
Proof. intros [_ _ Hc] h. by apply Hc. Qed.
Lemma balanced_app l1 l2 : balanced l1 → balanced l2 → balanced (l1 ++ l2).
Proof. intros H1 H2 h. by rewrite !times_app, H1, H2. Qed.
(** [m] ends as [P] says, or the name of a symbol of [r] is too long. *)
Definition tells {A} (r : EXCEPTION_POINTERS) (m : M W A) (w : W) (P : list win_event → Prop) : Prop :=
  if names_fit r then does true m w (λ l _, P l) else ∃ why, m w = Undef why.

Lemma tells_ask {A B} r (g : list win_event → A) (k : A → M W B) w P :
  tells r (k (g (cw_trace w))) w P → tells r (win_ask g ≫= k) w P.
Proof. done. Qed.
Lemma tells_call {B} r e (k : unit → M W B) w P :
  (∀ w', cw_state w' = cw_state w → tells r (k tt) w' (λ l, P (e :: l))) → tells r (win_call e ≫= k) w P.
Proof. unfold tells. destruct (names_fit r); intros Hk; [by apply does_call_bind|by apply Hk]. Qed.
Lemma tells_bind {A B} r (m : M W A) (k : A → M W B) w (P : list win_event → A → Prop) Q :
  does true m w P →
  (∀ w' l a, cw_state w' = cw_state w → cw_trace w' = cw_trace w ++ l → P l a →
     tells r (k a) w' (λ l', Q (l ++ l'))) → tells r (m ≫= k) w Q.
Proof.
  unfold tells. intros Hm Hk. destruct (names_fit r); [by eapply does_bind|].
  unfold does in Hm. rewrite bind_run. destruct (m w) as [w1 a|w1 e| |]; simpl; try done.
  destruct Hm as (Hs & l & Ht & HP). by eapply Hk.
Qed.
Lemma tells_then {A B} r (m : M W A) (k : A → M W B) w P Q :
  tells r m w P →
  (∀ w' l a, cw_state w' = cw_state w → P l → does true (k a) w' (λ l' _, Q (l ++ l'))) → tells r (m ≫= k) w Q.
Proof.
  unfold tells. intros Hm Hk. destruct (names_fit r).
  - eapply does_bind; [exact Hm|]. intros w' l a Hs _. by apply Hk.
  - destruct Hm as [why E]. exists why. by rewrite bind_run, E.
Qed.
Lemma tells_mono {A} r (m : M W A) w (P Q : list win_event → Prop) :
  tells r m w P → (∀ l, P l → Q l) → tells r m w Q.
Proof. unfold tells. destruct (names_fit r); [|done]. intros Hm HPQ. eapply does_mono; [exact Hm|]. auto. Qed.

(** The text file once it is open. *)
Lemma tells_file r h path st w :
  tells r
    (write_header h st;;
     ptrs ← deref "pExcPtrs is null" (Some r);
     write_text h (exception_text (ExceptionRecord ptrs));;
     match target with AMD64 => walk_x64 h (ContextRecord ptrs) | X86 => walk_x86 h (ContextRecord ptrs) end;;
     win_call EvSymCleanup;; win_call (EvCloseHandle h)) w
    (λ l, ∃ body, l = body ++ [EvCloseHandle h] ∧ balanced (EvCreateFile path (Some h) :: l)
       ∧ written body = (λ d, (h, in_buff d)) <$> dump_texts st r).
Proof.
  pose proof (prints_walk h r) as Hp. unfold tells, prints_if in *. destruct (names_fit r).
  - eapply does_bind; [apply prints_header|]. cbn beta. intros w1 l1 _ _ _ (_ & F1 & E1).
    eapply does_bind; [by apply (does_deref true _ _ _ (λ l a, l = [] ∧ a = r)); [|intros a [= <-]]|].
    intros w2 l2 r' _ _ [-> ->]. unfold write_text at 1. apply does_call_bind. intros w3 _.
    eapply does_bind; [apply Hp|]. cbn beta. intros w4 l4 _ _ _ (_ & F4 & E4).
    apply does_call_bind. intros w5 _. apply does_call. set (e := EvWriteFile h _).
    assert (Hl : l1 ++ [] ++ e :: l4 ++ [EvSymCleanup; EvCloseHandle h]
      = ((l1 ++ [e] ++ l4) ++ [EvSymCleanup]) ++ [EvCloseHandle h]) by (cbn [app]; by rewrite <- !app_assoc).
    rewrite Hl. eexists. split; [done|]. split.
    + eapply orderly_balanced, orderly_file, (orderly_app true (writes (l1 ++ [e] ++ l4)) 0);
        [|by apply orderly_neutral, Forall_singleton].
      apply (orderly_texts true h). split; [|done]. rewrite !Forall_app, Forall_singleton. done.
    + rewrite !written_app, E1, E4, app_nil_r. unfold dump_texts. by rewrite fmap_app.
  - eapply breaks_then; [apply prints_header|]. eapply (breaks_then h); [apply prints_deref|].
    eapply breaks_then; [apply prints_text|]. by apply breaks_first.
Qed.

Lemma tells_MyStackWalk r w : tells r (MyStackWalk (Some r)) w (λ l, described r l ∧ balanced l).
Proof.
  unfold MyStackWalk. apply tells_ask, tells_ask, tells_call. intros w1 _. rewrite (cw_sym Hw). cbn [negb].
  eapply tells_bind; [apply does_make_filename|]. cbn beta. intros w2 l2 filename _ _ H2.
  eapply tells_bind; [apply (does_create_file true works)|]. intros w3 l3 file _ _ [-> Hfile].
  destruct (Hfile eq_refl) as [h ->]. eapply tells_mono; [apply (tells_file r h filename)|]. cbn beta.
  intros l (body & -> & Hb & Hwr). split.
  - exists (EvSymInitialize :: l2), filename, h, (cw_trace w), body, []. by split.
  - apply (balanced_app (EvSymInitialize :: l2)); [|done].
    by eapply orderly_balanced, (orderly_neutral true 0), Forall_cons.
Qed.

(** A dump of the kind the configuration asks for, of the exception [r]. *)
Definition reported (f : dump_func) (r : EXCEPTION_POINTERS) (l : list win_event) : Prop :=
  dumped (flags_of f) (Some r) l ∧ described r l ∧ balanced l.
Lemma reported_app f r l l' : reported f r l → balanced l' → reported f r (l ++ l').
Proof.
  intros ([h Hd] & Hs & Hb) Hb'. split_and!; [|by apply (described_app r [])|by apply balanced_app].
  exists h. by apply elem_of_app; left.
Qed.
Lemma tells_report f r w :
  g_dump_func (cw_state w) = Some f → tells r (report (Some r)) w (reported f r).
Proof.
  intros Hf. unfold report, call_dump_func.
  eapply (tells_bind _ _ _ _ (λ l _, orderly true 0 l ∧ dumped (flags_of f) (Some r) l)).
  { unfold does. run_step. rewrite Hf. run_step.
    destruct f; (eapply does_mono; [apply (does_create_dump true works)|]); intros l _ [? Hd]; eauto. }
  cbn beta. intros w1 l1 _ _ _ [H1 [h Hd]]. eapply tells_mono; [apply tells_MyStackWalk|]. cbn beta.
  intros l2 [H2 Hb]. split_and!.
  - exists h. by apply elem_of_app; left.
  - pose proof (described_app r l1 l2 [] H2) as Hdesc. by rewrite app_nil_r in Hdesc.
  - apply balanced_app; [|done]. by eapply orderly_balanced.
Qed.

(** The exception that a handler takes from the processor. *)
Lemma capture_run w : ∃ r, captured = Some r ∧ GetExceptionPointers 0 w = Done w r.
Proof.
  unfold captured, GetExceptionPointers, capture. destruct target; [|by eexists].
  unfold capture_x86, win_ask, gets. repeat (run_step; cbn [cw_trace]).
  assert (E : ∀ t a, ∃ v, read_ulong [] a = Some v ∧ read_ulong t a = Some v).
  { intros t a. unfold read_ulong.
    repeat (match goal with |- context [memory t ?a] =>
              destruct (cw_memory Hw t a) as [-> [? ->]]; cbn [mbind option_bind] end).
    by eexists. }
  destruct (E (cw_trace w) (u32 (AddressOfReturnAddress - 4))) as (v & -> & ->). cbn [deref].
  repeat run_step. by eexists.
Qed.
Lemma tells_report_here f r w :
  g_dump_func (cw_state w) = Some f → captured = Some r → tells r report_here w (reported f r).
Proof.
  intros Hf Hr. destruct (capture_run w) as (r' & Hr' & E). assert (r' = r) as -> by congruence.
  eapply (tells_bind _ _ _ _ (λ l a, l = [] ∧ a = r)).
  { unfold does. rewrite E. split; [done|]. exists []. by rewrite app_nil_r. }
  intros w1 l a Hs _ [-> ->]. apply tells_report. congruence.
Qed.

Lemma tells_handle c f r w :
  g_dump_func (cw_state w) = Some f → hooked c → crash_ptrs c = Some r →
  tells r (handle c) w (λ l, ∃ l', l = l' ++ [EvTerminateProcess 1] ∧ reported f r l').
Proof.
  intros Hf Hc Hr.
  assert (Hend : ∀ m : M W unit, tells r m w (reported f r) →
    tells r (m;; terminate) w (λ l, ∃ l', l = l' ++ [EvTerminateProcess 1] ∧ reported f r l')).
  { intros m Hm. eapply tells_then; [exact Hm|]. intros w1 l [] _ Hl. apply does_call. by exists l. }
  assert (Hhere : captured = Some r → tells r report_here w (reported f r)) by by apply tells_report_here.
  assert (Hptrs : tells r (report (Some r)) w (reported f r)) by by apply tells_report.
  destruct c as [ptrs| | | |e fn p line|s]; cbn [crash_ptrs] in Hr; try (by apply Hend, Hhere).
  - subst ptrs. by apply Hend.
  - eapply tells_then; [by apply Hhere|]. cbn beta. intros w1 l1 [] _ H1.
    eapply does_bind; [apply (does_write_parameters true works)|]. cbn beta. intros w2 l2 [] _ _ H2.
    apply does_call. exists (l1 ++ l2). split; [by rewrite app_assoc|].
    by eapply reported_app, orderly_balanced.
  - simpl in Hc. unfold signals in Hc. unfold handle.
    repeat (case_decide; [subst; cbn in Hr; try rewrite Hr; first [by apply Hend, Hhere|by unfold SigfpeHandler, SigsegvHandler; rewrite Hr; apply Hend]|]).
    exfalso. repeat (apply elem_of_cons in Hc as [->|Hc]; [done|]). by apply not_elem_of_nil in Hc.
Qed.

End Report.

(** ** Witness: the crash of CrashHandlers.v *)
Section Witness.
Import CrashDemo.

Lemma works : crash_works.
Proof. by repeat split. Qed.
Definition demo_exception : EXCEPTION_POINTERS := mkEXCEPTION_POINTERS (mkEXCEPTION_RECORD 0 4096) cpu.

End Witness.
