(* ===== verification/LoggerOld.v ===== *)
(** * The old logger: dumps of memory and the backup of log files

    Models of net/loggerOld.{h,cpp} the configuration, [Log_simple], the text
    that [Dump] makes of a piece of memory, and [Collector_AutoBackup], which
    moves log files into a directory per day.  A record
    is what is given to Boost.Log; its sinks are in LogSinks.v.  Text is a list of bytes. *)
From stdpp Require Import gmap strings list pretty.
From coqutil Require Import Byte.
From S2P Require Import Prelude.
From S2P Require Import MlnUtils.
From S2P Require Import TextFormat.
#[local] Open Scope Z_scope.

(** ** The logger *)
Inductive severity_level : Type :=
| sev_trace | sev_debug | sev_info | sev_warning | sev_error | sev_fatal.
Definition severity_value (l : severity_level) : Z :=
  match l with
  | sev_trace => 0 | sev_debug => 1 | sev_info => 2 | sev_warning => 3 | sev_error => 4 | sev_fatal => 5
  end.
Definition severity_of (z : Z) : severity_level :=
  if z =? 0 then sev_trace else if z =? 1 then sev_debug else if z =? 2 then sev_info
  else if z =? 3 then sev_warning else if z =? 4 then sev_error else sev_fatal.
(** [operator <<]: every level has a name of five characters. *)
Definition severity_name (l : severity_level) : string :=
  match l with
  | sev_trace => "trace" | sev_debug => "debug" | sev_info => " info"
  | sev_warning => " warn" | sev_error => "error" | sev_fatal => "fatal"
  end.

(** The digits of [uint32_t] and [uint64_t] are 32 and 64, those of [long] on
    Windows 31. *)
Record LogConfig : Type := mkLogConfig {
  lc_channel : string;
  lc_useLogConsole : bool;
  lc_useLogFile : bool;
  lc_useLogTrace : bool;
  lc_useLogUDP : bool;
  lc_dirName : string;
  lc_fileName : string;
  lc_level : severity_level;
  lc_rotation_time : Z;
  lc_rotation_size : Z
}.
Definition LogConfig_new : LogConfig :=
  mkLogConfig "default" true true false false "log" "default" sev_trace 32 64.
Definition MLNLOG_MAX_FILESIZE_ROTATE : Z := 1024 * 1024 * 20.

Record Logger : Type := mkLogger {
  lg_config : LogConfig;
  lg_records : list (string * severity_level * list byte)
}.

(** [resetConfig(const LogConfig&)], before the sinks are made: the level is
    not copied. *)
Definition resetConfig_copy (conf c : LogConfig) : LogConfig :=
  mkLogConfig (lc_channel conf) (lc_useLogConsole conf) (lc_useLogFile conf)
    (lc_useLogTrace conf) (lc_useLogUDP conf) (lc_dirName conf) (lc_fileName conf)
    (lc_level c) (lc_rotation_time conf)
    (Z.min MLNLOG_MAX_FILESIZE_ROTATE (lc_rotation_size conf)).

(** A property tree below a "set" node: [pt.get(path, default)]. *)
Class PropertyTreeDefaults : Type := {
  dptree : Type;
  dget_string : string → string → dptree → string;
  dget_bool : string → bool → dptree → bool;
  dget_int : string → Z → dptree → Z
}.

(** [resetConfig(ptree&)], before the sinks are made.  The numbers are read as
    [int], the level too, and converted to the types of the members. *)
Definition resetConfig_pt `{PropertyTreeDefaults} (pt : dptree) (c : LogConfig) : LogConfig :=
  let level := u32 (dget_int "level" 1 pt) in
  mkLogConfig (dget_string "channel" "default" pt) (dget_bool "useLogConsole" true pt)
    (dget_bool "useLogFile" true pt) (dget_bool "useLogTrace" false pt)
    (dget_bool "useLogUDP" false pt) (dget_string "dir" "" pt) (dget_string "file" "" pt)
    (if level <=? severity_value sev_fatal then severity_of level else lc_level c)
    (u32 (dget_int "rotate_minute" 31 pt))
    (Z.min MLNLOG_MAX_FILESIZE_ROTATE (u64 (u64 (dget_int "rotate_size" 0 pt) * 1024))).

Definition Log_simple (level : severity_level) (text : list byte) : M Logger unit :=
  lg ← get_state;
  if severity_value level <? severity_value (lc_level (lg_config lg)) then mret tt
  else put_state (mkLogger (lg_config lg)
                    (lg_records lg ++ [(lc_channel (lg_config lg), level, text)])).

(** ** [Dump] *)
Definition isprint (b : byte) : bool := (32 <=? ord b) && (ord b <=? 126).
Definition CRLF : list byte := [chr 13; chr 10].
Definition SPACE : byte := chr 32.

Section Dump.
Context {S : Type} (data : list byte) (offset size : Z).

(** The loops over [dwX], [n] turns of which are left. *)
Fixpoint dump_hex (n : nat) (dwX dwILoc pLine : Z) : M S (list byte) :=
  match n with
  | O => mret []
  | Datatypes.S n =>
      let gap := if dwX =? 8 then [SPACE] else [] in
      let dwILoc := u32 (dwILoc + 1) in
      if size <? dwILoc then
        rest ← dump_hex n (dwX + 1) dwILoc pLine;
        mret (gap ++ [chr 63; chr 63; SPACE] ++ rest)
      else
        b ← deref "Dump: read past the memory" (data !! Z.to_nat pLine);
        rest ← dump_hex n (dwX + 1) dwILoc (pLine + 1);
        mret (gap ++ format_hex 2 (ord b) ++ [SPACE] ++ rest)
  end.
Fixpoint dump_chars (n : nat) (dwILoc pLine : Z) : M S (list byte) :=
  match n with
  | O => mret []
  | Datatypes.S n =>
      let dwILoc := u32 (dwILoc + 1) in
      if size <? dwILoc then
        rest ← dump_chars n dwILoc pLine; mret (SPACE :: rest)
      else
        b ← deref "Dump: read past the memory" (data !! Z.to_nat pLine);
        rest ← dump_chars n dwILoc (pLine + 1);
        mret ((if isprint b then b else chr 46) :: rest)
  end.

Definition dump_line (dwLoc pOut : Z) : M S (list byte) :=
  hex ← dump_hex 16 0 dwLoc pOut;
  chars ← dump_chars 16 dwLoc pOut;
  mret (format_hex 8 (u64 (offset + pOut)) ++ [chr 58; SPACE] ++ hex ++ [SPACE] ++ chars ++ CRLF).
Fixpoint dump_lines (fuel : nat) (dwLoc pOut : Z) : M S (list byte) :=
  match fuel with
  | O => no_fuel
  | Datatypes.S fuel =>
      if dwLoc <? size then
        line ← dump_line dwLoc pOut;
        rest ← dump_lines fuel (u32 (dwLoc + 16)) (pOut + 16);
        mret (line ++ rest)
      else mret []
  end.
End Dump.

(** The buffer of the title has 512 bytes, a long title is left out. *)
Definition TMP_SIZE : Z := 512.
Definition dump_bar (dump_title : option (list byte)) : list byte :=
  match dump_title with
  | None => []
  | Some t => (if TMP_SIZE - 100 <=? zlen t then [] else t) ++ string_bytes " start-----" ++ CRLF
  end.

(** [Dump] as it is built for Windows, of [size] bytes at the address [offset];
    [data] is the memory there. *)
Definition Logger_Dump (data : list byte) (offset size : Z) (dump_title : option (list byte))
    : M Logger unit :=
  lines ← dump_lines data offset size (Z.to_nat (size / 16 + 2)) 0 0;
  Log_simple sev_debug (c_str (CRLF ++ dump_bar dump_title ++ lines)).

(** ** A dump can be read back *)

(** A reader of dumps, for the proof: the bytes of the hexadecimal columns. *)
Fixpoint read_hex (n : nat) (dwX : Z) (l : list byte) : option (list byte * list byte) :=
  match n with
  | O => Some ([], l)
  | S n =>
      let l := if dwX =? 8 then drop 1 l else l in
      match l with
      | h1 :: h2 :: _ :: l =>
          '(r, l) ← read_hex n (dwX + 1) l;
          match hex_value h1, hex_value h2 with
          | Some d1, Some d2 => Some (chr (16 * d1 + d2) :: r, l)
          | _, _ => Some (r, l)
          end
      | _ => None
      end
  end.
Fixpoint skip_address (l : list byte) : list byte :=
  match l with
  | b :: l' => if ord b =? 58 then drop 1 l' else skip_address l'
  | [] => []
  end.
Definition read_line (l : list byte) : option (list byte * list byte) :=
  '(r, l) ← read_hex 16 0 (skip_address l); Some (r, drop (1 + 16 + 2) l).
Fixpoint read_lines (fuel : nat) (l : list byte) : option (list byte) :=
  match fuel, l with
  | _, [] => Some []
  | O, _ => None
  | S fuel, _ => '(r, l) ← read_line l; rs ← read_lines fuel l; Some (r ++ rs)
  end.
Definition read_dump (dump_title : option (list byte)) (text : list byte) : option (list byte) :=
  let l := drop (length (CRLF ++ dump_bar dump_title)) text in read_lines (length l) l.

(** What the loops print, without their counters. *)
Fixpoint hex_column (n : nat) (dwX : Z) (l : list byte) : list byte :=
  match n with
  | O => []
  | S n =>
      (if dwX =? 8 then [SPACE] else [])
      ++ match l with
         | [] => [chr 63; chr 63; SPACE] ++ hex_column n (dwX + 1) []
         | b :: l => format_hex 2 (ord b) ++ [SPACE] ++ hex_column n (dwX + 1) l
         end
  end.
Fixpoint char_column (n : nat) (l : list byte) : list byte :=
  match n with
  | O => []
  | S n => match l with
           | [] => SPACE :: char_column n []
           | b :: l => (if isprint b then b else chr 46) :: char_column n l
           end
  end.

Lemma read_hex_column n : ∀ dwX l rest,
  read_hex n dwX (hex_column n dwX l ++ rest) = Some (take n l, rest).
Proof.
  induction n as [|n IH]; intros dwX l rest; [done|]. simpl. rewrite <- app_assoc.
  assert (E : ∀ x, (if dwX =? 8 then drop 1 ((if dwX =? 8 then [SPACE] else []) ++ x)
                    else (if dwX =? 8 then [SPACE] else []) ++ x) = x)
    by (intros x; by destruct (dwX =? 8)).
  rewrite E. clear E. destruct l as [|b l].
  - simpl. rewrite IH. simpl. by rewrite take_nil.
  - destruct (format_byte b) as (h1 & h2 & d1 & d2 & -> & E1 & E2 & Eb). simpl.
    rewrite IH. simpl. by rewrite E1, E2, Eb.
Qed.
Lemma length_char_column n : ∀ l, length (char_column n l) = n.
Proof. induction n as [|n IH]; intros [|b l]; simpl; by rewrite ?IH. Qed.

Section Reading.
Context {S : Type} (data : list byte) (offset : Z).
Local Abbreviation size := (zlen data).

(** The counter [dwILoc] and the pointer go on together inside the memory. *)
Lemma dump_hex_run n : ∀ dwX i p (s : S),
  0 ≤ p → p = Z.min i size → i + Z.of_nat n < 2 ^ 32 →
  dump_hex data size n dwX i p s = Done s (hex_column n dwX (drop (Z.to_nat i) data)).
Proof.
  induction n as [|n IH]; intros dwX i p s Hp Hi Hn; [done|]. cbn [dump_hex hex_column]. cbv zeta.
  rewrite u32_small by lia. destruct (Z.ltb_spec size (i + 1)) as [Hend|Hin].
  - rewrite bind_run, IH by lia. cbn [bind_outcome].
    rewrite !drop_ge by (unfold zlen in *; lia). done.
  - assert (Hlt : (Z.to_nat i < length data)%nat) by (unfold zlen in *; lia).
    destruct (lookup_lt_is_Some_2 data (Z.to_nat i) Hlt) as [b Hb].
    replace p with i by lia. rewrite Hb. run_step. cbn [deref]. run_step.
    rewrite IH by lia. run_step. rewrite (drop_S _ _ _ Hb).
    by replace (Z.to_nat (i + 1)) with (Datatypes.S (Z.to_nat i)) by lia.
Qed.
Lemma dump_chars_run n : ∀ i p (s : S),
  0 ≤ p → p = Z.min i size → i + Z.of_nat n < 2 ^ 32 →
  dump_chars data size n i p s = Done s (char_column n (drop (Z.to_nat i) data)).
Proof.
  induction n as [|n IH]; intros i p s Hp Hi Hn; [done|]. cbn [dump_chars char_column]. cbv zeta.
  rewrite u32_small by lia. destruct (Z.ltb_spec size (i + 1)) as [Hend|Hin].
  - rewrite bind_run, IH by lia. cbn [bind_outcome].
    rewrite !drop_ge by (unfold zlen in *; lia). done.
  - assert (Hlt : (Z.to_nat i < length data)%nat) by (unfold zlen in *; lia).
    destruct (lookup_lt_is_Some_2 data (Z.to_nat i) Hlt) as [b Hb].
    replace p with i by lia. rewrite Hb. run_step. cbn [deref]. run_step.
    rewrite IH by lia. run_step. rewrite (drop_S _ _ _ Hb).
    by replace (Z.to_nat (i + 1)) with (Datatypes.S (Z.to_nat i)) by lia.
Qed.

(** An address prints without a colon. *)
Lemma hex_upper_not_colon d : 0 ≤ d < 16 → (ord (hex_upper d) =? 58) = false.
Proof.
  intros Hd. apply Z.eqb_neq. unfold hex_upper. rewrite ord_chr by (case_match; lia).
  destruct (Z.ltb_spec d 10); lia.
Qed.
Lemma hex_digits_not_colon fuel : ∀ n b, 0 ≤ n → b ∈ hex_digits fuel n → (ord b =? 58) = false.
Proof.
  induction fuel as [|fuel IH]; intros n b Hn; simpl; [by intros ?%not_elem_of_nil|].
  destruct (Z.ltb_spec n 16).
  - intros ->%list_elem_of_singleton. by apply hex_upper_not_colon.
  - intros [Hb| ->%list_elem_of_singleton]%elem_of_app.
    + apply (IH (n / 16)); [|done]. by apply Z.div_pos.
    + apply hex_upper_not_colon. by apply Z.mod_pos_bound.
Qed.
Lemma skip_address_app l rest :
  (∀ b, b ∈ l → (ord b =? 58) = false) → skip_address (l ++ [chr 58; SPACE] ++ rest) = rest.
Proof.
  induction l as [|b l IH]; intros Hl; [done|]. simpl. rewrite (Hl b) by (by left).
  apply IH. intros b' Hb'. apply Hl. by right.
Qed.

Definition line_of (i : Z) : list byte :=
  format_hex 8 (u64 (offset + i)) ++ [chr 58; SPACE] ++ hex_column 16 0 (drop (Z.to_nat i) data)
  ++ [SPACE] ++ char_column 16 (drop (Z.to_nat i) data) ++ CRLF.

Lemma read_line_of i rest :
  read_line (line_of i ++ rest) = Some (take 16 (drop (Z.to_nat i) data), rest).
Proof.
  unfold read_line, line_of. rewrite <- !app_assoc. rewrite skip_address_app.
  - rewrite read_hex_column. cbn [mbind option_bind]. f_equal. f_equal.
    rewrite (drop_app_ge [SPACE]) by (simpl; lia).
    rewrite (drop_app_ge (char_column _ _)) by (rewrite length_char_column; simpl; lia).
    by rewrite length_char_column.
  - intros b. unfold format_hex. intros [Hb|Hb]%elem_of_app.
    + apply elem_of_replicate in Hb as [-> _]. reflexivity.
    + eapply hex_digits_not_colon, Hb. apply u64_bound.
Qed.

(** Nothing in a dump ends the string early. *)
Lemma has_nul_hex_column n : ∀ dwX l, has_nul (hex_column n dwX l) = false.
Proof.
  induction n as [|n IH]; intros dwX l; [done|]. cbn [hex_column].
  destruct l as [|b l]; rewrite !has_nul_app, IH; [by destruct (dwX =? 8)|].
  rewrite has_nul_format by (by destruct b). by destruct (dwX =? 8).
Qed.
Lemma has_nul_char_column n : ∀ l, has_nul (char_column n l) = false.
Proof.
  induction n as [|n IH]; intros [|b l]; simpl; [done..|by rewrite IH|].
  rewrite IH, orb_false_r. by destruct b.
Qed.
Lemma has_nul_line_of i : has_nul (line_of i) = false.
Proof.
  unfold line_of. rewrite !has_nul_app, has_nul_hex_column, has_nul_char_column.
  by rewrite has_nul_format by (apply u64_bound).
Qed.

Lemma dump_line_run i (s : S) :
  0 ≤ i < size → i + 16 < 2 ^ 32 → dump_line data offset size i i s = Done s (line_of i).
Proof.
  intros Hi Hm. unfold dump_line. rewrite bind_run, dump_hex_run by lia. cbn [bind_outcome].
  rewrite bind_run, dump_chars_run by lia. done.
Qed.

(** Enough fuel for the lines that are left, and what they print. *)
Lemma dump_lines_run fuel : ∀ i (s : S),
  0 ≤ i → (i < size → i + 16 < 2 ^ 32) → size < 2 ^ 32 - 16 → size - i < 16 * Z.of_nat fuel →
  ∃ t, dump_lines data offset size (Datatypes.S fuel) i i s = Done s t
    ∧ has_nul t = false ∧ ∀ k, (length t ≤ k)%nat → read_lines k t = Some (drop (Z.to_nat i) data).
Proof.
  induction fuel as [|fuel IH]; intros i s Hi Hm Hsize Hfuel.
  - exists []. cbn [dump_lines]. destruct (Z.ltb_spec i size); [lia|]. split_and!; [done..|].
    intros k _. rewrite drop_ge by (unfold zlen in *; lia). by destruct k.
  - cbn [dump_lines]. destruct (Z.ltb_spec i size) as [Hlt|Hge].
    + rewrite u32_small by lia. destruct (IH (i + 16) s) as (t & E & Hn & Hr); [lia..|].
      exists (line_of i ++ t). rewrite bind_run, dump_line_run by lia. cbn [bind_outcome].
      cbn [dump_lines] in E. rewrite bind_run. rewrite E. split; [done|].
      split; [by rewrite has_nul_app, has_nul_line_of|].
      intros k Hk. assert (Hl : (0 < length (line_of i))%nat).
      { unfold line_of. rewrite !length_app. simpl. lia. }
      rewrite length_app in Hk. destruct k as [|k]; [lia|]. cbn [read_lines].
      destruct (line_of i ++ t) as [|b l] eqn:El; [apply (f_equal length) in El; rewrite length_app in El; simpl in El; lia|].
      rewrite <- El, read_line_of. cbn [mbind option_bind]. rewrite Hr by lia. simpl. f_equal.
      replace (Z.to_nat (i + 16)) with (Z.to_nat i + 16)%nat by lia.
      by rewrite <- drop_drop, take_drop.
    + exists []. split_and!; [done..|]. intros k _. rewrite drop_ge by (unfold zlen in *; lia). by destruct k.
Qed.
End Reading.

(** C34. A dump of memory is one record of the level debug, in the channel of the logger, and every
    byte of the memory can be read back from its text, whatever the address, the title and the
    bytes are; nothing is recorded when the logger is set to a higher level.  (A piece of 2^32 - 16
    bytes or more is not dumped: the counter of the loop would wrap around.) *)
Theorem dump_roundtrip data offset title lg :
  zlen data < 2 ^ 32 - 16 → has_nul (default [] title) = false →
  if severity_value (lc_level (lg_config lg)) <=? severity_value sev_debug
  then ∃ text, Logger_Dump data offset (zlen data) title lg
         = Done (mkLogger (lg_config lg)
                   (lg_records lg ++ [(lc_channel (lg_config lg), sev_debug, text)])) tt
       ∧ read_dump title text = Some data
  else Logger_Dump data offset (zlen data) title lg = Done lg tt.
Proof.
  intros Hsize Htitle. pose proof (zlen_nonneg data).
  destruct (dump_lines_run data offset (Z.to_nat (zlen data / 16 + 1)) 0 lg) as (t & E & Hn & Hr);
    [lia..|Z.div_mod_to_equations; lia|].
  replace (S (Z.to_nat (zlen data / 16 + 1))) with (Z.to_nat (zlen data / 16 + 2)) in E
    by (Z.div_mod_to_equations; lia).
  unfold Logger_Dump. rewrite bind_run, E. cbn [bind_outcome]. unfold Log_simple. run_step.
  destruct (Z.leb_spec (severity_value (lc_level (lg_config lg))) (severity_value sev_debug)).
  - rewrite (proj2 (Z.ltb_ge _ _)) by done. eexists. split; [done|].
    rewrite c_str_no_nul.
    + unfold read_dump. rewrite (app_assoc CRLF), drop_app_length. by rewrite Hr.
    + rewrite !has_nul_app, Hn. unfold dump_bar. destruct title as [l|]; [|done]. simpl in Htitle.
      destruct (_ <=? zlen l); simpl; [done|]. by rewrite has_nul_app, Htitle.
  - by rewrite (proj2 (Z.ltb_lt _ _)).
Qed.

Lemma dump_roundtrip_witness :
  ∃ text, Logger_Dump (string_bytes "lobby server, 20 bytes!") 4096 23 (Some (string_bytes "memory"))
            (mkLogger LogConfig_new [])
          = Done (mkLogger LogConfig_new [("default", sev_debug, text)]) tt
    ∧ read_dump (Some (string_bytes "memory")) text = Some (string_bytes "lobby server, 20 bytes!").
Proof.
  exact (dump_roundtrip (string_bytes "lobby server, 20 bytes!") 4096 (Some (string_bytes "memory"))
           (mkLogger LogConfig_new []) ltac:(vm_compute; reflexivity) ltac:(vm_compute; reflexivity)).
Defined.

(** ** [Collector_AutoBackup] *)

(** boost::filesystem: a call that fails throws and changes nothing. *)
Class FileSystem : Type := {
  fs : Type;
  fs_exists : string → fs → bool;
  fs_rename : string → string → fs → option fs;
  fs_remove : string → fs → option fs;
  fs_create_directories : string → fs → option fs;
  fs_is_regular_file : string → fs → bool;
  fs_directory : string → fs → option (list string)
}.

(** [path::filename] of a path in its generic form: what follows the last
    slash. *)
Definition slash : Ascii.ascii := Ascii.ascii_of_nat 47.
Fixpoint has_slash (s : string) : bool :=
  match s with EmptyString => false | String c s => bool_decide (c = slash) || has_slash s end.
Fixpoint filename (path : string) : string :=
  match path with
  | EmptyString => EmptyString
  | String _ rest => if has_slash path then filename rest else path
  end.
(** [string::find] has a result. *)
Fixpoint contains (sub s : string) : bool :=
  String.prefix sub s || match s with EmptyString => false | String _ s' => contains sub s' end.

Section Backup.
Context `{FileSystem} (path_root name today : string).

Definition fs_try (f : fs → option fs) : M fs unit :=
  s ← get_state;
  match f s with
  | Some s' => put_state s'
  | None => throw (system_error "filesystem_error")
  end.

(** The day is printed in front; [now] is read once. *)
Definition path_backup_root : string := path_root +:+ "/" +:+ today.
Definition old_name (path_backup_full : string) (old_idx : Z) : string :=
  path_backup_full +:+ "_" +:+ pretty old_idx.

(** The loop looks for a name that is not used yet; [n] of its turns are left. *)
Fixpoint move_old (n : nat) (path_backup_full : string) (old_idx : Z) : M fs unit :=
  match n with
  | O => mret tt
  | S n =>
      used ← gets (fs_exists (old_name path_backup_full old_idx));
      if (used : bool) then move_old n path_backup_full (old_idx + 1)
      else fs_try (fs_rename path_backup_full (old_name path_backup_full old_idx))
  end.

Definition moveFIle (src_path : string) : M fs unit :=
  let path_backup_full := path_backup_root +:+ "/" +:+ filename src_path in
  try_catch
    (there ← gets (fs_exists path_backup_full);
     (if (there : bool) then
        move_old (Z.to_nat 10000) path_backup_full 0;;
        still ← gets (fs_exists path_backup_full);
        if (still : bool) then fs_try (fs_remove path_backup_full) else mret tt
      else mret tt);;
     fs_try (fs_create_directories path_backup_root);;
     fs_try (fs_rename src_path path_backup_full))
    (λ _, mret tt).

Definition store_file (src_path : string) : M fs unit := moveFIle src_path.

(** The directory is listed before the first file is moved. *)
Fixpoint scan_paths (paths : list string) (found_cnt : Z) : M fs Z :=
  match paths with
  | [] => mret found_cnt
  | p :: paths =>
      regular ← gets (fs_is_regular_file p);
      if negb regular then scan_paths paths found_cnt
      else if bool_decide (filename p = "") then scan_paths paths found_cnt
      else if negb (contains name p) then scan_paths paths found_cnt
      else moveFIle p;; scan_paths paths (found_cnt + 1)
  end.
Definition scan_for_files : M fs Z :=
  s ← get_state;
  match fs_directory path_root s with
  | Some paths => scan_paths paths 0
  | None => throw (system_error "filesystem_error")
  end.
End Backup.

(** What boost::filesystem documents of these calls, for regular files with
    their contents. *)
Class FileSystemLaws (F : FileSystem) : Type := {
  fs_file : string → fs → option (list byte);
  law_exists p s c : fs_file p s = Some c → fs_exists p s = true;
  law_rename p q s s' c :
    fs_rename p q s = Some s' → fs_file p s = Some c → p ≠ q →
    fs_file q s' = Some c ∧ fs_exists p s' = false
    ∧ ∀ r, r ≠ p → r ≠ q → fs_file r s' = fs_file r s;
  law_create p s s' r : fs_create_directories p s = Some s' → fs_file r s' = fs_file r s
}.

Section NothingLost.
Context `{F : FileSystem, !FileSystemLaws F} (path_root today : string).
Implicit Types s : fs.

(** Every file is still there, perhaps under another name. *)
Definition kept s s' : Prop := ∀ p c, fs_file p s = Some c → ∃ p', fs_file p' s' = Some c.
#[local] Instance kept_preorder : PreOrder kept.
Proof.
  split; [by intros s p c Hp; exists p|]. intros s1 s2 s3 H12 H23 p c Hp.
  destruct (H12 p c Hp) as [q Hq]. by apply (H23 q c).
Qed.

Lemma kept_rename p q s s' c :
  fs_rename p q s = Some s' → fs_file p s = Some c → p ≠ q → fs_file q s = None → kept s s'.
Proof.
  intros Hr Hp Hne Hq. destruct (law_rename _ _ _ _ _ Hr Hp Hne) as (Hq' & _ & Hrest).
  intros r d Hd. destruct (decide (r = p)) as [->|Hrp].
  - exists q. congruence.
  - destruct (decide (r = q)) as [->|Hrq]; [congruence|]. exists r. by rewrite Hrest.
Qed.

Lemma not_exists_no_file p s : fs_exists p s = false → fs_file p s = None.
Proof.
  intros He. destruct (fs_file p s) eqn:E; [|done]. apply law_exists in E. congruence.
Qed.

Lemma string_length_app a b : String.length (a +:+ b) = (String.length a + String.length b)%nat.
Proof. induction a as [|x a IH]; simpl; [done|]. by rewrite IH. Qed.
Lemma old_name_ne full i : old_name full i ≠ full.
Proof.
  intros E. apply (f_equal String.length) in E. unfold old_name in E.
  rewrite !string_length_app in E. simpl in E. lia.
Qed.

(** If one of the names is free, the old backup moves to the first such. *)
Lemma move_old_run n full c : ∀ i s,
  fs_file full s = Some c →
  (∃ k, 0 ≤ k < Z.of_nat n ∧ fs_exists (old_name full (i + k)) s = false) →
  match move_old n full i s with
  | Done s' _ => kept s s' ∧ fs_exists full s' = false
      ∧ ∀ p d, fs_file p s = Some d → p ≠ full → fs_file p s' = Some d
  | Threw s' _ => s' = s
  | Undef _ | NoFuel => False
  end.
Proof.
  induction n as [|n IH]; intros i s Hf (k & Hk & Hfree); [lia|].
  cbn [move_old]. unfold gets. run_step. destruct (fs_exists (old_name full i) s) eqn:Eu.
  - apply IH; [done|]. exists (k - 1). split.
    + destruct (decide (k = 0)) as [->|]; [|lia]. rewrite Z.add_0_r in Hfree. congruence.
    + by replace (i + 1 + (k - 1)) with (i + k) by lia.
  - unfold fs_try. run_step. destruct (fs_rename full _ s) as [s'|] eqn:Er; [|done]. run_step.
    pose proof (old_name_ne full i) as Hne. pose proof (not_exists_no_file _ _ Eu) as Hno.
    destruct (law_rename _ _ _ _ _ Er Hf (not_eq_sym Hne)) as (_ & Hgone & Hrest).
    split; [by eapply kept_rename|]. split; [done|].
    intros p d Hp Hpf. rewrite Hrest; [done..|congruence].
Qed.

Local Abbreviation full src := (path_backup_root path_root today +:+ "/" +:+ filename src).

Lemma create_file p s s' : fs_create_directories p s = Some s' → ∀ q, fs_file q s' = fs_file q s.
Proof. intros Hc q. by eapply law_create. Qed.

(** No file is lost, and the log file [src] is in its old place or the new one. *)
Definition stored {A} (src : string) (c : list byte) s (o : outcome fs A) : Prop :=
  match o with
  | Done s' _ | Threw s' _ => kept s s' ∧ (fs_file src s' = Some c ∨ fs_file (full src) s' = Some c)
  | Undef _ | NoFuel => False
  end.
Lemma stored_after {A} src c s s1 (o : outcome fs A) : kept s s1 → stored src c s1 o → stored src c s o.
Proof. intros Hk. destruct o; simpl; try done; intros [Hk1 ?]; (split; [by etrans|done]). Qed.

(** Once the place of the backup is free. *)
Lemma store_run src c s :
  fs_file src s = Some c → src ≠ full src → fs_file (full src) s = None →
  stored src c s ((fs_try (fs_create_directories (path_backup_root path_root today));;
                   fs_try (fs_rename src (full src))) s).
Proof.
  intros Hf Hne Hno. unfold fs_try. run_step.
  destruct (fs_create_directories _ s) as [s1|] eqn:Ec; run_step; [|by split; [|left]].
  pose proof (create_file _ _ _ Ec) as Hc.
  assert (Hk1 : kept s s1) by (intros p d Hp; exists p; by rewrite Hc).
  rewrite <- Hc in Hf, Hno. apply (stored_after _ _ _ _ _ Hk1).
  destruct (fs_rename src (full src) s1) as [s2|] eqn:Er; run_step; [|by split; [|left]].
  split; [by eapply kept_rename|]. right. by apply (law_rename _ _ _ _ _ Er Hf Hne).
Qed.

(** C35. Moving a log file to the directory of the day loses no file: whatever fails on the way, every
    file that was there is still there, the log file in its old place or in the new one, and a
    backup of the same name under a name with a number, if one of the 10000 numbers is free. *)
Theorem backup_loses_nothing src c s :
  fs_file src s = Some c → src ≠ full src →
  (fs_exists (full src) s = true →
   is_Some (fs_file (full src) s)
   ∧ ∃ k, 0 ≤ k < 10000 ∧ fs_exists (old_name (full src) k) s = false) →
  ∃ s', moveFIle path_root today src s = Done s' tt ∧ kept s s'
    ∧ (fs_file src s' = Some c ∨ fs_file (full src) s' = Some c).
Proof.
  intros Hf Hne Hold. unfold moveFIle, try_catch. cbv zeta.
  match goal with |- context [match ?m s with Done _ _ => _ | _ => _ end] =>
    enough (Hs : stored src c s (m s)) by (destruct (m s) as [s' []|s' e| |]; try done;
      destruct Hs; by exists s') end.
  rewrite bind_run. unfold gets at 1. cbn beta iota delta [bind_outcome]. rewrite bind_run.
  destruct (fs_exists (full src) s) eqn:Ee.
  2:{ apply store_run; [done..|]. by apply not_exists_no_file. }
  destruct (Hold eq_refl) as ([o Ho] & k & Hk).
  pose proof (move_old_run (Z.to_nat 10000) (full src) o 0 s Ho) as Hm. rewrite bind_run.
  destruct (move_old _ _ _ s) as [s1 []|s1 e| |]; cbn [bind_outcome] in *;
    try (exfalso; apply Hm; exists k; by rewrite Z.add_0_l).
  - destruct Hm as (Hk1 & Hgone & Hrest); [exists k; by rewrite Z.add_0_l|].
    rewrite bind_run. unfold gets. cbn beta iota delta [bind_outcome]. rewrite Hgone.
    apply (stored_after _ _ _ s1 _ Hk1), store_run; [by apply Hrest|done|].
    by apply not_exists_no_file.
  - rewrite Hm by (exists k; by rewrite Z.add_0_l). by split; [|left].
Qed.
End NothingLost.

(** ** Witness: a file system of regular files *)
Section Witness.

Definition demo_fs : FileSystem := {|
  fs := gmap string (list byte);
  fs_exists p s := bool_decide (is_Some (s !! p));
  fs_rename p q s := c ← s !! p; Some (<[q := c]> (delete p s));
  fs_remove p s := Some (delete p s);
  fs_create_directories p s := Some s;
  fs_is_regular_file p s := bool_decide (is_Some (s !! p));
  fs_directory p s := Some (filter (λ q, p +:+ "/" +:+ filename q = q) (fst <$> map_to_list s))
|}.
#[local] Existing Instance demo_fs.
#[local] Instance demo_fs_laws : FileSystemLaws demo_fs.
Proof.
  refine {| fs_file p s := (s : gmap string (list byte)) !! p |}.
  - intros p s c Hp. simpl. by rewrite bool_decide_true.
  - intros p q s s' c Hr Hp Hne. simpl in *. rewrite Hp in Hr. simpl in Hr. injection Hr as <-.
    split; [apply lookup_insert_eq|]. split.
    + rewrite lookup_insert_ne, lookup_delete_eq by done. apply bool_decide_eq_false. by intros [].
    + intros r Hrp Hrq. by rewrite lookup_insert_ne, lookup_delete_ne.
  - by intros p s s' r [= <-].
Defined.

(** The log file has a backup of its name already, and one under the number 0. *)
Definition log_files : gmap string (list byte) :=
  {[ "log/default.log" := string_bytes "new"; "log/20240102/default.log" := string_bytes "old";
     "log/20240102/default.log_0" := string_bytes "older" ]}.

Lemma backup_loses_nothing_witness :
  ∃ s', moveFIle "log" "20240102" "log/default.log" log_files = Done s' tt ∧ kept log_files s'.
Proof.
  destruct (backup_loses_nothing (F := demo_fs) "log" "20240102" "log/default.log" (string_bytes "new") log_files)
    as (s' & E & Hk & _).
  - vm_compute. reflexivity.
  - vm_compute. discriminate.
  - intros _. split; [exists (string_bytes "old"); vm_compute; reflexivity|].
    exists 1. split; [lia|]. vm_compute. reflexivity.
  - exists s'. split; [exact E|exact Hk].
Defined.

Example backup_moved :
  match moveFIle "log" "20240102" "log/default.log" log_files with
  | Done s _ => fs_file "log/20240102/default.log" s = Some (string_bytes "new")
      ∧ fs_file "log/20240102/default.log_1" s = Some (string_bytes "old")
  | _ => False
  end.
Proof. vm_compute. by split. Qed.
Example scan_moves_named :
  match scan_for_files "log" "default" "20240102"
          (<[ "log/other.txt" := string_bytes "x" ]> log_files) with
  | Done s n => n = 1 ∧ fs_file "log/other.txt" s = Some (string_bytes "x")
      ∧ fs_file "log/default.log" s = None
  | _ => False
  end.
Proof. vm_compute. by split_and!. Qed.
End Witness.
