(* ===== verification/LogSinks.v ===== *)
(** * The sinks of the loggers

    Models how the two loggers set up Boost.Log: net/logger.cpp, which makes
    one sink when the global logger is first used, and of net/loggerOld.cpp the
    constructor, the destructor, [init], [InitBoostLog] and [RemoveAllSinks].
    The calls of the core of Boost.Log are a trace; a sink is what the code
    builds: where it writes, which records it accepts, and how it prints one. *)
From stdpp Require Import gmap strings list.
From coqutil Require Import Byte.
From S2P Require Import Prelude.
From S2P Require Import MlnUtils.
From S2P Require Import TextFormat.
From S2P Require Import LoggerOld.
#[local] Open Scope Z_scope.

(** ** Records and sinks *)

(** The attributes of a record that filters and formats read; the time is
    printed already, with the format the sink asks for. *)
Record log_record : Type := mkRecord {
  rec_channel : option string;
  rec_severity : option severity_level;
  rec_time : string → list byte;
  rec_thread : list byte;
  rec_line : Z;
  rec_message : list byte
}.

Inductive backend : Type :=
| stream_backend (streams : list string) (auto_flush : bool)
| file_backend (file_name : string) (rotation_size rotation_minutes : option Z) (auto_flush : bool)
    (collector : string * string)
| debug_output_backend.

Record sink : Type := mkSink {
  sink_backend : backend;
  sink_filter : log_record → bool;
  sink_format : log_record → list byte
}.

(** [expr::attr<T>(name) >= x] and [== x]: false for a record without the attribute. *)
Definition severity_ge (level : severity_level) (r : log_record) : bool :=
  match rec_severity r with
  | Some l => severity_value level <=? severity_value l
  | None => false
  end.
Definition channel_is (channel : string) (r : log_record) : bool :=
  bool_decide (rec_channel r = Some channel).

(** ** The calls of the core *)
Inductive core_event : Type :=
| EvAddSink (id : N) (s : sink)
| EvRemoveSink (id : N)
| EvFlushSink (id : N)
| EvFlushCore
| EvRemoveAllSinks
| EvGlobalAttribute (name : string)
| EvExceptionHandler.

(** The sinks that are registered after a trace, as Boost.Log documents the
    calls of the core. *)
Definition core_step (sinks : list (N * sink)) (e : core_event) : list (N * sink) :=
  match e with
  | EvAddSink id s => sinks ++ [(id, s)]
  | EvRemoveSink id => filter (λ x, fst x ≠ id) sinks
  | EvRemoveAllSinks => []
  | _ => sinks
  end.
Definition registered (before : list (N * sink)) (t : list core_event) : list (N * sink) :=
  foldl core_step before t.

(** What the sinks print of a record. *)
Definition printed (sinks : list (N * sink)) (r : log_record) : list (backend * list byte) :=
  (λ x, (sink_backend (snd x), sink_format (snd x) r)) <$> filter (λ x, sink_filter (snd x) r = true) sinks.

(** ** [MLN::Log::Logger] *)
Class LogHost : Type := {
  log_host_name : option string;        (* boost::asio::ip::host_name *)
  is_debugger_present : bool
}.
(** The tree of the file: [get_child("config.logger")] and its children. *)
Class LogTree `{PropertyTreeDefaults} : Type := {
  read_log_xml : string → option dptree;
  log_children : dptree → option (list (string * dptree))
}.

Record LogWorld `{FileSystem} : Type := mkLogWorld {
  lw_logger : Logger;
  lw_sinks : list N;                    (* _sinks *)
  lw_next : N;                          (* sinks made so far *)
  lw_fs : fs;
  lw_trace : list core_event
}.
#[global] Arguments LogWorld {_}.

Section OldLogger.
Context `{FileSystem} `{LogHost} (today : string).
Local Abbreviation W := LogWorld.

Definition set_lw_logger (l : Logger) (w : W) : W :=
  mkLogWorld _ l (lw_sinks w) (lw_next w) (lw_fs w) (lw_trace w).
Definition set_lw_fs (s : fs) (w : W) : W :=
  mkLogWorld _ (lw_logger w) (lw_sinks w) (lw_next w) s (lw_trace w).
Definition set_lw_sinks (l : list N) (w : W) : W :=
  mkLogWorld _ (lw_logger w) l (lw_next w) (lw_fs w) (lw_trace w).
Definition config_of (w : W) : LogConfig := lg_config (lw_logger w).
Definition set_config (c : LogConfig) (w : W) : W :=
  set_lw_logger (mkLogger c (lg_records (lw_logger w))) w.
Definition core_call (e : core_event) : M W unit :=
  modify (λ w, mkLogWorld _ (lw_logger w) (lw_sinks w) (lw_next w) (lw_fs w) (lw_trace w ++ [e])).

(** [expr::format("%1% (%2%) [%3%] %4%")], with the end of line of the sink. *)
Definition format_old (eol : list byte) (r : log_record) : list byte :=
  rec_time r "%d %H:%M:%S.%f" ++ string_bytes " (" ++ rec_thread r ++ string_bytes ") ["
  ++ match rec_severity r with Some l => string_bytes (severity_name l) | None => [] end
  ++ string_bytes "] " ++ rec_message r ++ eol.
Definition filter_old (c : LogConfig) (r : log_record) : bool :=
  severity_ge (lc_level c) r && channel_is (lc_channel c) r.

Definition file_name_of (c : LogConfig) : string :=
  lc_dirName c +:+ "/" +:+ lc_fileName c
  +:+ match log_host_name with Some h => "_" +:+ h | None => "" end +:+ "_%Y%m%d_%H%M%S_%N.log".

Definition console_sink (c : LogConfig) : sink :=
  mkSink (stream_backend ["clog"] true) (filter_old c) (format_old []).
(** The digits of [long] on Windows stand for no rotation by time. *)
Definition file_sink (c : LogConfig) : sink :=
  mkSink (file_backend (file_name_of c)
            (if 0 <? lc_rotation_size c then Some (lc_rotation_size c) else None)
            (if negb (lc_rotation_time c =? 31) then Some (lc_rotation_time c) else None)
            true (lc_fileName c, lc_dirName c))
    (filter_old c) (format_old []).
Definition trace_sink (c : LogConfig) : sink :=
  mkSink debug_output_backend (λ r, is_debugger_present && filter_old c r) (format_old CRLF).

(** [logging::core::get()->add_sink(sink); _sinks.push_back(sink);] *)
Definition add_sink (s : sink) : M W unit :=
  w ← get_state;
  let id := lw_next w in
  put_state (mkLogWorld _ (lw_logger w) (lw_sinks w) (id + 1)%N (lw_fs w) (lw_trace w));;
  core_call (EvAddSink id s);;
  modify (λ w, set_lw_sinks (lw_sinks w ++ [id]) w).

Fixpoint remove_each (ids : list N) : M W unit :=
  match ids with
  | [] => mret tt
  | id :: ids => core_call (EvFlushSink id);; core_call (EvRemoveSink id);; remove_each ids
  end.
Definition RemoveAllSinks : M W unit :=
  w ← get_state;
  remove_each (lw_sinks w);;
  modify (set_lw_sinks []).

(** As it is built for Windows; the collector of the file sink looks for the
    files that earlier runs have left. *)
Definition InitBoostLog : M W bool :=
  RemoveAllSinks;;
  w ← get_state;
  let c := config_of w in
  when (lc_useLogConsole c) (add_sink (console_sink c));;
  when (lc_useLogFile c)
    (add_sink (file_sink c);;
     try_catch (zoom lw_fs set_lw_fs (scan_for_files (lc_dirName c) (lc_fileName c) today);; mret tt)
       (λ _, mret tt));;
  when (lc_useLogTrace c) (add_sink (trace_sink c));;
  mret true.

Definition resetConfig_conf (conf : LogConfig) : M W bool :=
  modify (λ w, set_config (resetConfig_copy conf (config_of w)) w);;
  InitBoostLog;;
  mret true.

(** The constructor has the defaults of [LogConfig]. *)
Definition Logger_new : M W unit :=
  modify (set_lw_sinks []);; modify (set_config LogConfig_new);;
  core_call EvExceptionHandler;;
  core_call (EvGlobalAttribute "TimeStamp");;
  core_call (EvGlobalAttribute "ProcessID");;
  core_call (EvGlobalAttribute "ThreadID").
Definition Logger_delete : M W unit :=
  core_call EvFlushCore;;
  core_call EvRemoveAllSinks;;
  RemoveAllSinks.

Definition Logger_log (level : severity_level) (text : list byte) : M W unit :=
  zoom lw_logger set_lw_logger (Log_simple level text).

Section Tree.
Context `{LogTree}.

Definition resetConfig_tree (pt : dptree) : M W bool :=
  modify (λ w, set_config (resetConfig_pt pt (config_of w)) w);;
  InitBoostLog;;
  mret true.
Fixpoint init_nodes (nodes : list (string * dptree)) : M W unit :=
  match nodes with
  | [] => mret tt
  | (name, sub_pt) :: nodes =>
      if negb (bool_decide (name = "set")) then init_nodes nodes
      else resetConfig_tree sub_pt;; init_nodes nodes
  end.
Definition Logger_init (path : string) : M W bool :=
  try_catch
    (pt ← match read_log_xml path with Some pt => mret pt | None => throw (ptree_error path) end;
     nodes ← match log_children pt with
             | Some l => mret l
             | None => throw (ptree_error "config.logger")
             end;
     init_nodes nodes;;
     mret true)
    (λ _, mret false).
End Tree.
End OldLogger.

(** ** The global logger of logger.cpp *)
Section GlobalLogger.

(** [logging::trivial::severity_level] has the same levels under its own names. *)
Definition trivial_name (l : severity_level) : string :=
  match l with
  | sev_trace => "trace" | sev_debug => "debug" | sev_info => "info"
  | sev_warning => "warning" | sev_error => "error" | sev_fatal => "fatal"
  end.
Definition LOGFILE : string := "logfile.log".
Definition SEVERITY_THRESHOLD : severity_level := sev_debug.

Definition format_global (r : log_record) : list byte :=
  string_bytes "[" ++ match rec_severity r with Some l => string_bytes (trivial_name l) | None => [] end
  ++ string_bytes "]" ++ pad_num 7 (rec_line r) ++ string_bytes " | "
  ++ rec_time r "%Y-%m-%d, %H:%M:%S.%f" ++ string_bytes " " ++ string_bytes " - " ++ rec_message r.
Definition global_sink : sink :=
  mkSink (stream_backend [LOGFILE; "clog"] false) (severity_ge SEVERITY_THRESHOLD) format_global.

(** The attributes that are added to the logger, and the sink to the core. *)
Definition global_attributes : list string := ["LineID"; "TimeStamp"].
Definition global_logger_init (id : N) : list core_event := [EvAddSink id global_sink].
End GlobalLogger.

(** ** What the old logger promises *)
Section Spec.
Context `{FileSystem} `{LogHost} `{LogTree}.

Inductive log_op : Type :=
| LoInit (path : string)
| LoReset (conf : LogConfig)
| LoLog (level : severity_level) (text : list byte).

(** A configuration, whether it was ever set, and the records. *)
Record LogSpec : Type := mkLogSpec {
  ls_config : LogConfig;
  ls_started : bool;
  ls_records : list (string * severity_level * list byte)
}.
Definition sets_of (path : string) : list dptree :=
  match read_log_xml path ≫= log_children with
  | Some nodes => snd <$> filter (λ x, fst x = "set") nodes
  | None => []
  end.
(** Each node "set" replaces the configuration of the one before. *)
Definition spec_set (s : LogSpec) (pt : dptree) : LogSpec :=
  mkLogSpec (resetConfig_pt pt (ls_config s)) true (ls_records s).
Definition spec_op (s : LogSpec) (o : log_op) : LogSpec :=
  match o with
  | LoInit path => foldl spec_set s (sets_of path)
  | LoReset conf => mkLogSpec (resetConfig_copy conf (ls_config s)) true (ls_records s)
  | LoLog level text =>
      if severity_value level <? severity_value (lc_level (ls_config s)) then s
      else mkLogSpec (ls_config s) (ls_started s)
             (ls_records s ++ [(lc_channel (ls_config s), level, text)])
  end.
Definition sinks_of (c : LogConfig) : list sink :=
  (if lc_useLogConsole c then [console_sink c] else [])
  ++ (if lc_useLogFile c then [file_sink c] else [])
  ++ (if lc_useLogTrace c then [trace_sink c] else []).

Definition run_op (today : string) (o : log_op) : M LogWorld unit :=
  match o with
  | LoInit path => Logger_init today path;; mret tt
  | LoReset conf => resetConfig_conf today conf;; mret tt
  | LoLog level text => Logger_log level text
  end.
Fixpoint run_ops (today : string) (l : list log_op) : M LogWorld unit :=
  match l with [] => mret tt | o :: l => run_op today o;; run_ops today l end.
End Spec.

(** ** The sinks of the core are those of the configuration *)
Section Sinks.
Context `{FileSystem} `{LogHost} (before : list (N * sink)) (n0 : N) (today : string).
Local Abbreviation W := LogWorld.
(** Sinks that others have registered. *)
Hypothesis Hbefore : ∀ x, x ∈ before → (fst x < n0)%N.

(** The logger has the sinks [ss] in the core, under numbers of their own. *)
Record has_sinks (ss : list sink) (w : W) : Prop := {
  hs_registered : registered before (lw_trace w) = before ++ zip (lw_sinks w) ss;
  hs_length : length (lw_sinks w) = length ss;
  hs_numbers : Forall (λ id, n0 ≤ id < lw_next w)%N (lw_sinks w);
  hs_next : (n0 ≤ lw_next w)%N
}.
(** Nothing else of the logger has changed. *)
Definition same_logger (w w' : W) : Prop := lw_logger w' = lw_logger w.
#[local] Instance same_logger_preorder : PreOrder same_logger.
Proof. split; unfold same_logger; congruence. Qed.

Lemma registered_app t e : registered before (t ++ e) = foldl core_step (registered before t) e.
Proof. apply foldl_app. Qed.

(** The events by which [remove_each] takes sinks away. *)
Definition removal (ids : list N) : list core_event := ids ≫= λ id, [EvFlushSink id; EvRemoveSink id].
Definition add_trace (t : list core_event) (w : W) : W :=
  mkLogWorld _ (lw_logger w) (lw_sinks w) (lw_next w) (lw_fs w) (lw_trace w ++ t).

Lemma add_trace_nil w : add_trace [] w = w.
Proof. destruct w. unfold add_trace. simpl. by rewrite app_nil_r. Qed.
Lemma add_trace_app t1 t2 w : add_trace t2 (add_trace t1 w) = add_trace (t1 ++ t2) w.
Proof. unfold add_trace. simpl. by rewrite app_assoc. Qed.

Lemma remove_each_run ids : ∀ w : W, remove_each ids w = Done (add_trace (removal ids) w) tt.
Proof.
  induction ids as [|id ids IH]; intros w; [by rewrite add_trace_nil|].
  cbn [remove_each]. unfold core_call, modify. run_step. rewrite IH.
  unfold add_trace. simpl. by rewrite <- !app_assoc.
Qed.

Lemma registered_removal ids : ∀ t,
  registered before (t ++ removal ids) = filter (λ x, fst x ∉ ids) (registered before t).
Proof.
  induction ids as [|id ids IH]; intros t.
  - unfold removal. simpl. rewrite app_nil_r. induction (registered before t) as [|x l IHl]; [done|].
    rewrite filter_cons_True by apply not_elem_of_nil. by rewrite <- IHl.
  - change (removal (id :: ids)) with ([EvFlushSink id; EvRemoveSink id] ++ removal ids).
    rewrite app_assoc, IH, registered_app. simpl. rewrite list_filter_filter. apply list_filter_iff.
    intros x. rewrite not_elem_of_cons. tauto.
Qed.

Lemma filter_others ids :
  Forall (λ id, n0 ≤ id)%N ids → filter (λ x : N * sink, fst x ∉ ids) before = before.
Proof.
  intros Hids. rewrite Forall_forall in Hids. induction before as [|x l IH]; [done|].
  rewrite filter_cons_True.
  - rewrite IH; [done|]. intros y Hy. apply Hbefore. by right.
  - intros Hx. specialize (Hids _ Hx). specialize (Hbefore x ltac:(by left)). simpl in *. lia.
Qed.
Lemma filter_own (ids : list N) : ∀ ss : list sink, filter (λ x, fst x ∉ ids) (zip ids ss) = [].
Proof.
  intros ss. assert (Hz : ∀ x, x ∈ zip ids ss → fst x ∈ ids)
    by (intros [i s'] Hx; by apply elem_of_zip_l in Hx).
  induction (zip ids ss) as [|x l IH]; [done|].
  rewrite filter_cons_False; [|intros Hn; apply Hn, Hz; by left].
  apply IH. intros y Hy. apply Hz. by right.
Qed.

Lemma RemoveAllSinks_run ss w :
  has_sinks ss w → returns RemoveAllSinks w (λ w' _, has_sinks [] w' ∧ same_logger w w').
Proof.
  intros [Hr Hl Hn Hx]. unfold RemoveAllSinks, returns, get_state. run_step. rewrite remove_each_run.
  run_step. do 2 eexists. split; [done|]. split; [|done]. split; simpl.
  - rewrite registered_removal, Hr, filter_app, filter_own, filter_others; [done|].
    eapply Forall_impl; [exact Hn|]. simpl. lia.
  - done.
  - done.
  - done.
Qed.

Lemma add_sink_run ss s w :
  has_sinks ss w → returns (add_sink s) w (λ w' _, has_sinks (ss ++ [s]) w' ∧ same_logger w w').
Proof.
  intros [Hr Hl Hn Hx]. unfold add_sink, returns, get_state, put_state, core_call, modify. run_step.
  do 2 eexists. split; [done|]. split; [|done]. split; simpl.
  - rewrite registered_app, Hr. simpl. rewrite <- app_assoc. f_equal.
    by rewrite zip_with_app by done.
  - rewrite !length_app. simpl. lia.
  - apply Forall_app. split; [|apply Forall_singleton; lia].
    eapply Forall_impl; [exact Hn|]. simpl. lia.
  - lia.
Qed.

(** Looking for old log files ends, perhaps with an exception. *)
Definition ends {S A} (m : M S A) : Prop :=
  ∀ s, match m s with Done _ _ | Threw _ _ => True | Undef _ | NoFuel => False end.
Lemma ends_bind {S A B} (m : M S A) (k : A → M S B) : ends m → (∀ a, ends (k a)) → ends (m ≫= k).
Proof.
  intros Hm Hk s. rewrite bind_run. specialize (Hm s). destruct (m s) as [s' a| | |]; try done. apply Hk.
Qed.
Lemma ends_try_catch {S A} (m : M S A) h : ends m → (∀ e, ends (h e)) → ends (try_catch m h).
Proof. intros Hm Hh s. unfold try_catch. specialize (Hm s). destruct (m s); try done. apply Hh. Qed.
Lemma ends_gets {S A} (f : S → A) : ends (gets f).
Proof. done. Qed.
Lemma ends_ret {S A} (a : A) : ends (mret a : M S A).
Proof. done. Qed.
Lemma ends_fs_try (f : fs → option fs) : ends (fs_try f).
Proof. intros s. unfold fs_try, get_state. run_step. by destruct (f s). Qed.
#[local] Hint Resolve ends_gets ends_ret ends_fs_try : core.

Lemma ends_move_old n full : ∀ i, ends (move_old n full i).
Proof.
  induction n as [|n IH]; intros i; [done|]. cbn [move_old]. apply ends_bind; [done|]. intros []; auto.
Qed.
Lemma ends_moveFIle root src : ends (moveFIle root today src).
Proof.
  unfold moveFIle. cbv zeta. apply ends_try_catch; [|done].
  apply ends_bind; [done|]. intros there. apply ends_bind; [|intros; apply ends_bind; auto].
  destruct there; [|done]. apply ends_bind; [apply ends_move_old|]. intros _.
  apply ends_bind; [done|]. intros []; auto.
Qed.
Lemma ends_scan root name : ends (scan_for_files root name today).
Proof.
  unfold scan_for_files. intros s. unfold get_state. run_step.
  destruct (fs_directory root s) as [paths|]; [|done]. generalize 0. revert s.
  induction paths as [|p paths IH]; intros s n; [done|]. revert s. cbn [scan_paths].
  apply ends_bind; [done|]. intros regular. do 3 (case_match; [intros s; apply IH|]).
  apply ends_bind; [apply ends_moveFIle|]. intros _ s. apply IH.
Qed.

Definition scan_old (c : LogConfig) : M W unit :=
  try_catch (zoom lw_fs set_lw_fs (scan_for_files (lc_dirName c) (lc_fileName c) today);; mret tt)
    (λ _, mret tt).
Lemma scan_old_run c ss w :
  has_sinks ss w → returns (scan_old c) w (λ w' _, has_sinks ss w' ∧ same_logger w w').
Proof.
  intros Hs. unfold scan_old, returns, try_catch, zoom. rewrite bind_run.
  pose proof (ends_scan (lc_dirName c) (lc_fileName c) (lw_fs w)) as He.
  destruct (scan_for_files _ _ _ _) as [s n|s e| |]; try done; simpl;
    (do 2 eexists; split; [done|]); (split; [|done]); by destruct Hs.
Qed.

(** A sink that the configuration may ask for. *)
Lemma optional_run (b : bool) (m : M W unit) s ss w :
  (has_sinks ss w → returns m w (λ w' _, has_sinks (ss ++ [s]) w' ∧ same_logger w w')) → has_sinks ss w →
  returns (when b m) w (λ w' _, has_sinks (ss ++ if b then [s] else []) w' ∧ same_logger w w').
Proof.
  intros Hm Hs. destruct b; [by apply Hm|]. do 2 eexists. split; [done|]. by rewrite app_nil_r.
Qed.

(** [InitBoostLog] replaces the sinks by those of the configuration. *)
Lemma InitBoostLog_run ss w :
  has_sinks ss w →
  returns (InitBoostLog today) w (λ w' _, has_sinks (sinks_of (config_of w)) w' ∧ same_logger w w').
Proof.
  intros Hs. unfold InitBoostLog. cbv zeta.
  apply returns_bind. eapply returns_mono; [by eapply RemoveAllSinks_run|]. cbn beta. intros w1 _ [H1 L1].
  apply returns_bind. do 2 eexists. split; [done|].
  replace (config_of w1) with (config_of w) by (unfold config_of; by rewrite L1).
  set (c := config_of w). change (scan_for_files _ _ _) with (scan_for_files (lc_dirName c) (lc_fileName c) today).
  apply returns_bind. eapply returns_mono.
  { apply optional_run; [by apply add_sink_run|exact H1]. }
  cbn beta. intros w2 _ [H2 L2]. apply returns_bind. eapply returns_mono.
  { apply (optional_run _ _ (file_sink c)); [|exact H2]. intros H2'. apply returns_bind.
    eapply returns_mono; [by apply add_sink_run|]. cbn beta. intros w' _ [H' L'].
    eapply returns_mono; [by apply (scan_old_run c)|]. cbn beta. intros w'' _ [H'' L''].
    split; [done|]. by etrans. }
  cbn beta. intros w3 _ [H3 L3]. apply returns_bind. eapply returns_mono.
  { apply optional_run; [by apply add_sink_run|exact H3]. }
  cbn beta. intros w4 _ [H4 L4]. do 2 eexists. split; [done|]. split.
  - unfold sinks_of. by rewrite !app_assoc in *.
  - do 3 (etrans; [done|]). done.
Qed.

(** ** The logger does what the specification says *)
Context `{LogTree}.

Definition refines (s : LogSpec) (w : W) : Prop :=
  lw_logger w = mkLogger (ls_config s) (ls_records s)
  ∧ has_sinks (if ls_started s then sinks_of (ls_config s) else []) w.

(** A new configuration, with its sinks. *)
Lemma reconfigure_run s w c :
  refines s w →
  returns (modify (λ w, set_config (c (config_of w)) w);; InitBoostLog today;; mret true) w
    (λ w' _, refines (mkLogSpec (c (ls_config s)) true (ls_records s)) w').
Proof.
  intros [Hl Hs]. apply returns_bind. do 2 eexists. split; [done|].
  apply returns_bind. eapply returns_mono.
  { eapply InitBoostLog_run. destruct Hs as [Hr Hlen Hn Hx]. by split. }
  cbn beta. intros w' _ [H' L']. do 2 eexists. split; [done|].
  unfold config_of in H'. simpl in H'. rewrite Hl in H'. split; [|exact H'].
  rewrite L'. simpl. unfold config_of. by rewrite Hl.
Qed.

Lemma init_nodes_run nodes : ∀ s w,
  refines s w →
  returns (init_nodes today nodes) w
    (λ w' _, refines (foldl spec_set s (snd <$> filter (λ x, fst x = "set") nodes)) w').
Proof.
  induction nodes as [|[name pt] nodes IH]; intros s w Hw; [by do 2 eexists|].
  cbn [init_nodes]. destruct (decide (name = "set")) as [->|Hne].
  - rewrite bool_decide_true by done. cbn [negb]. rewrite filter_cons_True by done.
    apply returns_bind. eapply returns_mono; [by apply reconfigure_run|]. cbn beta. intros w' _ Hw'.
    by apply IH.
  - rewrite bool_decide_false by done. cbn [negb]. rewrite filter_cons_False by done. by apply IH.
Qed.
Lemma returns_try_catch {S A} (m : M S A) h s P : returns m s P → returns (try_catch m h) s P.
Proof. intros (s' & a & E & Hp). exists s', a. unfold try_catch. by rewrite E. Qed.

Lemma run_op_run o s w : refines s w → returns (run_op today o) w (λ w' _, refines (spec_op s o) w').
Proof.
  intros Hw. destruct o as [path|conf|level text]; cbn [run_op spec_op].
  - unfold Logger_init, sets_of. apply returns_bind.
    destruct (read_log_xml path) as [pt|] eqn:Er.
    2:{ do 2 eexists. split; [done|]. by do 2 eexists. }
    cbn [mbind option_bind].
    destruct (log_children pt) as [nodes|] eqn:Ec.
    2:{ do 2 eexists. split; [unfold try_catch; run_step; by rewrite Ec|]. by do 2 eexists. }
    apply returns_try_catch. apply returns_bind. do 2 eexists. split; [done|]. rewrite Ec.
    apply returns_bind. do 2 eexists. split; [done|]. apply returns_bind.
    eapply returns_mono; [by apply init_nodes_run|]. cbn beta. intros w' _ Hw'.
    do 2 eexists. split; [done|]. by do 2 eexists.
  - apply returns_bind. eapply returns_mono; [by apply (reconfigure_run s _ (resetConfig_copy conf))|].
    cbn beta. intros w' _ Hw'. by do 2 eexists.
  - destruct Hw as [Hl Hs]. unfold Logger_log, returns, zoom, Log_simple. rewrite Hl. run_step. simpl.
    destruct (_ <? _); simpl; do 2 eexists; (split; [done|]); (split; [done|]); by destruct Hs.
Qed.
End Sinks.

(** ** What is printed *)
Section Printed.
Context `{FileSystem} `{LogHost} `{LogTree}.

Lemma printed_app l1 l2 r : printed (l1 ++ l2) r = printed l1 r ++ printed l2 r.
Proof. unfold printed. by rewrite filter_app, fmap_app. Qed.
Lemma printed_zip (ids : list N) : ∀ ss r,
  length ids = length ss →
  printed (zip ids ss) r = (λ s, (sink_backend s, sink_format s r)) <$> filter (λ s, sink_filter s r = true) ss.
Proof.
  unfold printed. induction ids as [|i ids IH]; intros [|s ss] r Hl; try done. injection Hl as Hl. simpl.
  destruct (decide (sink_filter s r = true)).
  - rewrite !filter_cons_True by done. simpl. by rewrite IH.
  - rewrite !filter_cons_False by done. by rewrite IH.
Qed.

(** The line of a record for each kind of sink that is in use. *)
Definition lines_of (c : LogConfig) (r : log_record) : list (backend * list byte) :=
  (if lc_useLogConsole c then [(sink_backend (console_sink c), format_old [] r)] else [])
  ++ (if lc_useLogFile c then [(sink_backend (file_sink c), format_old [] r)] else [])
  ++ (if lc_useLogTrace c && is_debugger_present then [(debug_output_backend, format_old CRLF r)] else []).
Definition prints (s : LogSpec) (r : log_record) : list (backend * list byte) :=
  if ls_started s && filter_old (ls_config s) r then lines_of (ls_config s) r else [].

Lemma printed_sinks_of c (ids : list N) r :
  length ids = length (sinks_of c) →
  printed (zip ids (sinks_of c)) r = if filter_old c r then lines_of c r else [].
Proof.
  intros Hl. rewrite printed_zip by done. unfold sinks_of, lines_of. rewrite !filter_app, !fmap_app.
  destruct (lc_useLogConsole c), (lc_useLogFile c), (lc_useLogTrace c), is_debugger_present eqn:Ed,
    (filter_old c r) eqn:Ef; repeat (rewrite filter_cons; simpl; rewrite ?Ef, ?Ed; simpl); reflexivity.
Qed.

(** C36. Whatever is done with the logger (configuration files, configurations, records), it does not
    fail; its configuration and records are those that the specification computes, where each
    node "set" of a file replaces the configuration of the one before; and of every record the
    core prints what the sinks of others print and one line for each sink in use, if the record
    has the channel of the last configuration and at least its level. *)
Theorem logger_refines before today ops w0 :
  registered before (lw_trace w0) = before → (∀ x, x ∈ before → (fst x < lw_next w0)%N) →
  let s := foldl spec_op (mkLogSpec LogConfig_new false (lg_records (lw_logger w0))) ops in
  returns (Logger_new;; run_ops today ops) w0 (λ w _,
    lw_logger w = mkLogger (ls_config s) (ls_records s)
    ∧ ∀ r, printed (registered before (lw_trace w)) r = printed before r ++ prints s r).
Proof.
  intros Hr0 Hb. cbv zeta.
  assert (Hstart : ∀ w s, refines before (lw_next w0) s w →
    returns (run_ops today ops) w (λ w' _, refines before (lw_next w0) (foldl spec_op s ops) w')).
  { induction ops as [|o ops IH]; intros w s Hw; [by do 2 eexists|]. cbn [run_ops].
    apply returns_bind. eapply returns_mono; [by apply run_op_run|]. cbn beta. intros w' _ Hw'. by apply IH. }
  apply returns_bind. do 2 eexists. split; [done|]. eapply returns_mono; [apply (Hstart _ (mkLogSpec LogConfig_new false (lg_records (lw_logger w0))))|].
  - split; [done|]. cbn [ls_started]. split; [|done|apply Forall_nil_2|].
    + simpl. rewrite !registered_app, Hr0. simpl. by rewrite app_nil_r.
    + simpl. lia.
  - cbn beta. intros w _ [Hl [Hr Hlen _ _]]. split; [done|]. intros r. rewrite Hr, printed_app. f_equal.
    unfold prints. destruct (ls_started _) eqn:Es; cbn [andb].
    + by apply printed_sinks_of.
    + by destruct (lw_sinks w).
Qed.

(** The macros log through a logger without a channel: no sink of the logger
    prints their records. *)
Theorem macros_print_nothing s r : rec_channel r = None → prints s r = [].
Proof.
  intros Hc. unfold prints, filter_old, channel_is. rewrite Hc, bool_decide_false, andb_false_r by done.
  by rewrite andb_false_r.
Qed.

(** What [Log_simple] records is printed as long as the configuration stays. *)
Theorem recorded_is_printed s level text r :
  ls_started s = true → ls_records (spec_op s (LoLog level text)) ≠ ls_records s →
  rec_channel r = Some (lc_channel (ls_config s)) → rec_severity r = Some level →
  prints s r = lines_of (ls_config s) r.
Proof.
  intros Hs Hrec Hc Hl. unfold prints, filter_old, severity_ge, channel_is. rewrite Hs, Hc, Hl.
  rewrite bool_decide_true, andb_true_r by done. cbn [andb]. simpl in Hrec.
  destruct (Z.ltb_spec (severity_value level) (severity_value (lc_level (ls_config s)))); [done|].
  by rewrite (proj2 (Z.leb_le _ _)).
Qed.

(** After the destructor no sink is left, not even one of others. *)
Theorem destructor_removes_all before w :
  returns Logger_delete w (λ w' _, registered before (lw_trace w') = [] ∧ lw_sinks w' = []).
Proof.
  unfold Logger_delete, RemoveAllSinks, core_call, modify, get_state, returns. run_step.
  rewrite remove_each_run. run_step. do 2 eexists. split; [done|]. split; [|done]. simpl.
  by rewrite registered_removal, !registered_app.
Qed.
End Printed.

(** The sink of the global logger prints a record from the level debug on, beside the sinks
    that are there. *)
Theorem global_logger_prints before id r :
  printed (registered before (global_logger_init id)) r
  = printed before r
    ++ if severity_ge sev_debug r then [(stream_backend ["logfile.log"; "clog"] false, format_global r)] else [].
Proof.
  unfold registered. simpl. rewrite printed_app. f_equal. unfold printed. rewrite filter_cons. simpl.
  unfold SEVERITY_THRESHOLD. by destruct (severity_ge sev_debug r).
Qed.

(** ** Witness: a file with two nodes "set" *)
Section Witness.

#[local] Existing Instance demo_fs.
Definition demo_host : LogHost := {| log_host_name := Some "host"; is_debugger_present := false |}.
(** A tree is the channel it sets. *)
Definition demo_defaults : PropertyTreeDefaults := {|
  dptree := string;
  dget_string path d pt := if decide (path = "channel") then pt else d;
  dget_bool _ d _ := d;
  dget_int _ d _ := d
|}.
#[local] Existing Instance demo_host.
#[local] Existing Instance demo_defaults.
Definition demo_tree : LogTree := {|
  read_log_xml path := if decide (path = "log.xml") then Some "" else None;
  log_children _ := Some [("set", "net"); ("comment", ""); ("set", "db")]
|}.
#[local] Existing Instance demo_tree.

Definition log_start : LogWorld := mkLogWorld _ (mkLogger LogConfig_new []) [] 1 log_files [].
Definition other_sink : list (N * sink) := [(0%N, global_sink)].
Definition demo_record (channel : string) : log_record :=
  mkRecord (Some channel) (Some sev_info) (λ _, string_bytes "02 12:00:00.000000") (string_bytes "0x01") 7
    (string_bytes "started").
Definition demo_ops : list log_op := [LoLog sev_info (string_bytes "early"); LoInit "log.xml"; LoInit "no.xml"].

Lemma logger_refines_witness :
  returns (Logger_new;; run_ops "20240102" demo_ops) log_start (λ w _,
    lg_records (lw_logger w) = [("default", sev_info, string_bytes "early")]
    ∧ (∀ r, printed (registered other_sink (lw_trace w)) r
        = printed other_sink r ++ prints (foldl spec_op (mkLogSpec LogConfig_new false []) demo_ops) r)).
Proof.
  assert (Hn : ∀ x, x ∈ other_sink → (fst x < lw_next log_start)%N)
    by (intros x ->%list_elem_of_singleton; simpl; lia).
  pose proof (logger_refines other_sink "20240102" demo_ops log_start eq_refl Hn) as Hl. cbv zeta in Hl.
  eapply returns_mono; [exact Hl|]. cbn beta. intros w _ [Hw Hp]. split; [|exact Hp].
  rewrite Hw. vm_compute. reflexivity.
Defined.

(** The channel of the first node is not in use any more. *)
Example only_last_set :
  let s := foldl spec_op (mkLogSpec LogConfig_new false []) demo_ops in
  map snd (prints s (demo_record "db")) = replicate 2 (string_bytes "02 12:00:00.000000 (0x01) [ info] started")
  ∧ prints s (demo_record "net") = [] ∧ prints s (demo_record "default") = [].
Proof. vm_compute. by split_and!. Qed.
Example global_line :
  format_global (demo_record "net")
  = string_bytes "[info]0000007 | 02 12:00:00.000000  - started".
Proof. vm_compute. reflexivity. Qed.
End Witness.
